(** * ECLIPSR: eclipse finding and period inference

    A shallow embedding of the numeric kernels of [eclipsr/eclipse_finding.py]
    and [eclipsr/utility.py].

    Conventions of the embedding.
    - A numpy float array is a [list Q]: the arithmetic is the exact one, so
      every statement below is about the values the code computes before
      rounding.  Where the source divides by a quantity that can be zero the
      non-finite outcome (an infinity or a nan) is written out at the place of
      the division; a division of two scalars in compiled code raises
      [ZeroDivisionError] instead.
    - A numpy integer or index array is a [list Z]; Python's negative indices
      and slice clipping are written out in [Py].
    - A boolean mask is a [list bool].
    - A Python exception is a value of [res]. *)

From Stdlib Require Import QArith Qround Qabs Qminmax Qreduction.
From Stdlib Require Import ZArith List Bool Lia Lqa.
From Stdlib Require Import Sorting.Sorted.
From Stdlib Require String.
Import String.StringSyntax.
Import ListNotations.

Local Open Scope Q_scope.
Delimit Scope string_scope with string.

(** ** Outcomes of a call *)

Inductive exn : Type :=
| ValueError
| IndexError
| ZeroDivisionError.

(** [NonFinite]: a float operation left the rationals (a division by zero
    gave an infinity or a nan).  The embedding does not follow such values;
    where the code's control flow depends on them they are written out at
    that place instead. *)
Inductive res (A : Type) : Type :=
| Ok (a : A)
| Raise (e : exn)
| NonFinite.

Arguments Ok {A} a.
Arguments Raise {A} e.
Arguments NonFinite {A}.

Definition bind {A B : Type} (m : res A) (k : A -> res B) : res B :=
  match m with
  | Ok a => k a
  | Raise e => Raise e
  | NonFinite => NonFinite
  end.

Notation "x <- m ;; k" := (bind m (fun x => k))
  (at level 61, m at next level, right associativity).

Notation "' pat <- m ;; k" := (bind m (fun x => match x with pat => k end))
  (at level 61, pat pattern, m at next level, right associativity).

(** ** Comparisons on rationals as the booleans the code computes *)

Definition Qltb (x y : Q) : bool := negb (Qle_bool y x).
Definition Qgtb (x y : Q) : bool := Qltb y x.
Definition Qleb (x y : Q) : bool := Qle_bool x y.
Definition Qgeb (x y : Q) : bool := Qle_bool y x.

(** ** Python indexing *)

Module Py.

(** [l[i]] for a Python integer [i]: negative indices count from the end. *)
Definition norm_index (n i : Z) : Z := (if i <? 0 then i + n else i)%Z.

Definition get {A : Type} (l : list A) (i : Z) : res A :=
  let j := norm_index (Z.of_nat (length l)) i in
  if (j <? 0)%Z then Raise IndexError
  else match nth_error l (Z.to_nat j) with
       | Some x => Ok x
       | None => Raise IndexError
       end.

Fixpoint update {A : Type} (l : list A) (k : nat) (v : A) : list A :=
  match l, k with
  | [], _ => []
  | _ :: r, O => v :: r
  | x :: r, S k' => x :: update r k' v
  end.

(** [l[i] = v]. *)
Definition set {A : Type} (l : list A) (i : Z) (v : A) : res (list A) :=
  let j := norm_index (Z.of_nat (length l)) i in
  if ((j <? 0) || (Z.of_nat (length l) <=? j))%Z%bool then Raise IndexError
  else Ok (update l (Z.to_nat j) v).

(** [range(a, b)]. *)
Definition range (a b : Z) : list Z :=
  map (fun k => (a + Z.of_nat k)%Z) (seq 0 (Z.to_nat (b - a))).

(** A bound of the slice [l[start:stop]]: negative bounds count from the end,
    and every bound is clipped to [0, len]. *)
Definition slice_bound (n i : Z) : Z :=
  (if i <? 0 then Z.max 0 (i + n) else Z.min i n)%Z.

(** [l[start:]] and [l[:stop]]. *)
Definition from {A : Type} (l : list A) (start : Z) : list A :=
  skipn (Z.to_nat (slice_bound (Z.of_nat (length l)) start)) l.

Definition upto {A : Type} (l : list A) (stop : Z) : list A :=
  firstn (Z.to_nat (slice_bound (Z.of_nat (length l)) stop)) l.

(** [l[start:stop]]. *)
Definition slice {A : Type} (l : list A) (start stop : Z) : list A :=
  let n := Z.of_nat (length l) in
  let s := slice_bound n start in
  let e := slice_bound n stop in
  firstn (Z.to_nat (e - s)) (skipn (Z.to_nat s) l).

Fixpoint mapi_from {A B : Type} (f : Z -> A -> B) (j : Z) (l : list A) : list B :=
  match l with
  | [] => []
  | x :: r => f j x :: mapi_from f (j + 1)%Z r
  end.

Definition mapi {A B : Type} (f : Z -> A -> B) (l : list A) : list B :=
  mapi_from f 0%Z l.

(** [l[start:stop] = v] for a scalar [v]. *)
Definition set_slice {A : Type} (l : list A) (start stop : Z) (v : A) : list A :=
  let n := Z.of_nat (length l) in
  let s := slice_bound n start in
  let e := slice_bound n stop in
  mapi (fun j x => if ((s <=? j) && (j <? e))%Z%bool then v else x) l.

(** [l[:stop] = vals] for an array [vals]: the lengths agree, or [vals] has
    one entry which is broadcast, or the assignment raises. *)
Definition set_upto {A : Type} (l : list A) (stop : Z) (vals : list A) : res (list A) :=
  let e := Z.to_nat (slice_bound (Z.of_nat (length l)) stop) in
  if (length vals =? e)%nat then Ok (vals ++ skipn e l)
  else match vals with
       | [v] => Ok (repeat v e ++ skipn e l)
       | _ => Raise ValueError
       end.

(** [l[start:] = vals], with the same rule. *)
Definition set_from {A : Type} (l : list A) (start : Z) (vals : list A) : res (list A) :=
  let s := Z.to_nat (slice_bound (Z.of_nat (length l)) start) in
  if (length vals =? length l - s)%nat then Ok (firstn s l ++ vals)
  else match vals with
       | [v] => Ok (firstn s l ++ repeat v (length l - s))
       | _ => Raise ValueError
       end.

End Py.

(** ** numpy on one-dimensional arrays *)

Module Np.

(** Elementwise binary operation; the shapes agree, or one side has a single
    entry which is broadcast, or the operation raises. *)
Definition ew2 {A B C : Type} (f : A -> B -> C) (a : list A) (b : list B) : res (list C) :=
  if (length a =? length b)%nat then Ok (map (fun xy => f (fst xy) (snd xy)) (combine a b))
  else match a, b with
       | [x], _ => Ok (map (f x) b)
       | _, [y] => Ok (map (fun x => f x y) a)
       | _, _ => Raise ValueError
       end.

(** One float division. *)
Definition div (x y : Q) : res Q :=
  if Qeq_bool y 0 then NonFinite else Ok (x / y).

Fixpoint sequence {A : Type} (l : list (res A)) : res (list A) :=
  match l with
  | [] => Ok []
  | m :: r => x <- m ;; xs <- sequence r ;; Ok (x :: xs)
  end.

(** [a / b] on arrays. *)
Definition div_arr (a b : list Q) : res (list Q) :=
  l <- ew2 div a b ;; sequence l.

(** [a[1:] - a[:-1]]: both slices have the same length. *)
Definition diff (a : list Q) : list Q :=
  map (fun xy => fst xy - snd xy) (combine (Py.from a 1) (Py.upto a (-1))).

(** [a[mask]] for a boolean mask of the length of [a]. *)
Fixpoint select {A : Type} (mask : list bool) (a : list A) : list A :=
  match mask, a with
  | b :: m, x :: r => if b then x :: select m r else select m r
  | _, _ => []
  end.

Definition compress {A : Type} (mask : list bool) (a : list A) : res (list A) :=
  if (length mask =? length a)%nat then Ok (select mask a) else Raise IndexError.

(** [np.repeat(a, counts)] for an array of counts of the length of [a]; a
    negative count raises. *)
Fixpoint repeat_each {A : Type} (a : list A) (counts : list Z) : list A :=
  match a, counts with
  | x :: r, c :: cs => repeat x (Z.to_nat c) ++ repeat_each r cs
  | _, _ => []
  end.

Definition repeat_arr {A : Type} (a : list A) (counts : list Z) : res (list A) :=
  if existsb (fun c => (c <? 0)%Z) counts then Raise ValueError
  else if (length a =? length counts)%nat then Ok (repeat_each a counts)
  else match counts with
       | [c] => Ok (repeat_each a (repeat c (length a)))
       | _ => Raise ValueError
       end.

(** [np.min(a)]; an empty array raises. *)
Definition min (a : list Q) : res Q :=
  match a with
  | [] => Raise ValueError
  | x :: r => Ok (fold_left Qmin r x)
  end.

(** [a[mask] = v] for a scalar [v]. *)
Definition mask_set {A : Type} (mask : list bool) (a : list A) (v : A) : res (list A) :=
  if (length mask =? length a)%nat
  then Ok (map (fun bx : bool * A => if fst bx then v else snd bx) (combine mask a))
  else Raise IndexError.

Fixpoint scatter {A : Type} (mask : list bool) (a : list A) (vals : list A) : list A :=
  match mask, a with
  | b :: m, x :: r =>
      if b then match vals with
                | v :: vs => v :: scatter m r vs
                | [] => x :: scatter m r []
                end
      else x :: scatter m r vals
  | _, _ => a
  end.

(** [a[mask] = vals] for an array [vals]: as many values as the mask has
    [True] entries, or a single value which is broadcast. *)
Definition mask_assign {A : Type} (mask : list bool) (a : list A) (vals : list A)
  : res (list A) :=
  if negb (length mask =? length a)%nat then Raise IndexError
  else if (length vals =? count_occ bool_dec mask true)%nat then Ok (scatter mask a vals)
  else match vals with
       | [v] => Ok (map (fun bx : bool * A => if fst bx then v else snd bx) (combine mask a))
       | _ => Raise ValueError
       end.

(** [np.cumsum(a)]. *)
Fixpoint cumsum_from (acc : Z) (a : list Z) : list Z :=
  match a with
  | [] => []
  | x :: r => (acc + x)%Z :: cumsum_from (acc + x)%Z r
  end.

Definition cumsum (a : list Z) : list Z := cumsum_from 0%Z a.

(** [a[idx] = v] for an integer index array [idx] and a scalar [v]. *)
Fixpoint index_set {A : Type} (a : list A) (idx : list Z) (v : A) : res (list A) :=
  match idx with
  | [] => Ok a
  | i :: r => a' <- Py.set a i v ;; index_set a' r v
  end.

(** [np.max(a)]; an empty array raises. *)
Definition max (a : list Q) : res Q :=
  match a with
  | [] => Raise ValueError
  | x :: r => Ok (fold_left Qmax r x)
  end.

Definition sum (a : list Q) : Q := fold_left Qplus a 0.

Definition avg (a : list Q) : Q := sum a / inject_Z (Z.of_nat (length a)).

(** [np.mean(a)]; the mean of an empty array is a nan. *)
Definition mean (a : list Q) : res Q :=
  match a with
  | [] => NonFinite
  | _ => Ok (avg a)
  end.

(** [a == k] on an integer array. *)
Definition eq_int (a : list Z) (k : Z) : list bool := map (fun x => (x =? k)%Z) a.

(** [np.any(mask)]. *)
Definition any (mask : list bool) : bool := existsb (fun b => b) mask.

(** [np.sort(a)]. *)
Fixpoint insert_sorted (x : Q) (l : list Q) : list Q :=
  match l with
  | [] => [x]
  | y :: r => if Qle_bool x y then x :: l else y :: insert_sorted x r
  end.

Definition sort (a : list Q) : list Q := fold_right insert_sorted [] a.

(** [np.median(a)]: the middle entry of the sorted array, or the mean of the
    two middle entries; the median of an empty array is a nan. *)
Definition median (a : list Q) : res Q :=
  let s := sort a in
  let n := length a in
  match n with
  | O => NonFinite
  | _ => if Nat.even n
         then Ok ((nth (n / 2 - 1) s 0 + nth (n / 2) s 0) / 2)
         else Ok (nth (n / 2) s 0)
  end.

(** [np.ptp(a)]: maximum minus minimum. *)
Definition ptp (a : list Q) : res Q :=
  hi <- max a ;; lo <- min a ;; Ok (hi - lo).

(** [np.arange(start, stop, step)] on floats: [ceil((stop - start) / step)]
    entries [start + i * step]; a zero step raises. *)
Definition arange (start stop step : Q) : res (list Q) :=
  if Qeq_bool step 0 then Raise ZeroDivisionError
  else Ok (map (fun i => start + inject_Z (Z.of_nat i) * step)
               (seq 0 (Z.to_nat (Qceiling ((stop - start) / step))))).

(** [np.searchsorted(a, v)] for an ascending array [a]: the index of the
    first entry that is not below [v]. *)
Fixpoint searchsorted (a : list Q) (v : Q) : Z :=
  match a with
  | [] => 0%Z
  | x :: r => if Qltb x v then (1 + searchsorted r v)%Z else 0%Z
  end.

(** [x / y < c] on floats: a division by zero gives an infinity with the sign
    of [x], or a nan when [x] is zero too, and a nan compares [False]. *)
Definition div_ltb (x y c : Q) : bool :=
  if Qeq_bool y 0 then Qltb x 0 else Qltb (x / y) c.

(** [a[idx]] for an integer index array [idx]. *)
Definition take {A : Type} (a : list A) (idx : list Z) : res (list A) :=
  sequence (map (Py.get a) idx).

(** [np.tile(a, n)]. *)
Definition tile {A : Type} (a : list A) (n : nat) : list A := concat (repeat a n).

(** [np.argmax(a)]: the first maximum; the state is the best index and value
    so far, and the running index. *)
Fixpoint argmax_from (a : list Q) (best : Z) (bv : Q) (i : Z) : Z :=
  match a with
  | [] => best
  | x :: r => if Qltb bv x then argmax_from r i x (i + 1)%Z
              else argmax_from r best bv (i + 1)%Z
  end.

Definition argmax (a : list Q) : res Z :=
  match a with
  | [] => Raise ValueError
  | x :: r => Ok (argmax_from r 0%Z x 1%Z)
  end.

(** [np.argmin(a)] on finite floats: the first minimum. *)
Fixpoint argmin_from (a : list Q) (best : Z) (bv : Q) (i : Z) : Z :=
  match a with
  | [] => best
  | x :: r => if Qltb x bv then argmin_from r i x (i + 1)%Z
              else argmin_from r best bv (i + 1)%Z
  end.

Definition argmin (a : list Q) : res Z :=
  match a with
  | [] => Raise ValueError
  | x :: r => Ok (argmin_from r 0%Z x 1%Z)
  end.

(** [np.argsort(a)]: the indices that sort [a]; equal keys keep their order
    here (numpy leaves the order of equal keys open). *)
Fixpoint insert_keyed (x : Q * Z) (l : list (Q * Z)) : list (Q * Z) :=
  match l with
  | [] => [x]
  | y :: r => if Qle_bool (fst x) (fst y) then x :: l else y :: insert_keyed x r
  end.

Definition argsort (a : list Q) : list Z :=
  map snd (fold_right insert_keyed []
                      (combine a (Py.range 0 (Z.of_nat (length a))))).

(** [np.argsort] of an integer array. *)
Definition argsort_int (a : list Z) : list Z := argsort (map inject_Z a).

(** [np.unique(a)] of an integer array: the sorted distinct values. *)
Fixpoint insert_unique (x : Z) (l : list Z) : list Z :=
  match l with
  | [] => [x]
  | y :: r => if (x <? y)%Z then x :: l
              else if (x =? y)%Z then l
              else y :: insert_unique x r
  end.

Definition unique (a : list Z) : list Z := fold_right insert_unique [] a.

(** [np.histogram(a, bins, weights)] with equal bins over the range of the
    data: [(hist, edges)].  Empty data has the range (0, 1), and a range of
    width zero is widened by 0.5 to both sides.  The last bin includes its
    right edge. *)
Definition histogram (a weights : list Q) (bins : Z) : res (list Q * list Q) :=
  if negb (length a =? length weights)%nat then Raise ValueError
  else
    '(lo, hi) <- match a with
                 | [] => Ok (0, 1)
                 | _ => lo <- min a ;; hi <- max a ;;
                        if Qeq_bool lo hi then Ok (lo - (1 # 2), hi + (1 # 2))
                        else Ok (lo, hi)
                 end ;;
    let edges := map (fun k => lo + inject_Z k * (hi - lo) / inject_Z bins)
                     (Py.range 0 (bins + 1)) in
    let bin_of (x : Q) : Z :=
      if Qeq_bool x hi then (bins - 1)%Z
      else Qfloor ((x - lo) * inject_Z bins / (hi - lo)) in
    let hist := map (fun k => sum (map snd (filter (fun xw => (bin_of (fst xw) =? k)%Z)
                                                   (combine a weights))))
                    (Py.range 0 bins) in
    Ok (hist, edges).

(** [np.delete]-free helpers on index arrays: [a[idx] = vals] elementwise. *)
Fixpoint index_assign {A : Type} (a : list A) (idx : list Z) (vals : list A) : res (list A) :=
  match idx, vals with
  | [], [] => Ok a
  | i :: r, v :: vs => a' <- Py.set a i v ;; index_assign a' r vs
  | _, _ => Raise ValueError
  end.

End Np.

(** ** Floats with their non-finite values *)

(** Where infinities and nans decide what the code does next, a float is an
    exact rational, an infinity or a nan.  Zero is taken as positive zero. *)
Module X.

Inductive t : Type :=
| Fin (q : Q)
| PInf
| NInf
| NaN.

Definition neg (x : t) : t :=
  match x with
  | Fin q => Fin (- q)
  | PInf => NInf
  | NInf => PInf
  | NaN => NaN
  end.

Definition add (x y : t) : t :=
  match x, y with
  | NaN, _ | _, NaN => NaN
  | Fin a, Fin b => Fin (a + b)
  | PInf, NInf | NInf, PInf => NaN
  | PInf, _ | _, PInf => PInf
  | NInf, _ | _, NInf => NInf
  end.

Definition sub (x y : t) : t := add x (neg y).

Definition div (x y : t) : t :=
  match x, y with
  | NaN, _ | _, NaN => NaN
  | Fin a, Fin b =>
      if Qeq_bool b 0
      then (if Qltb 0 a then PInf else if Qltb a 0 then NInf else NaN)
      else Fin (a / b)
  | Fin _, _ => Fin 0
  | PInf, Fin b => if Qltb b 0 then NInf else PInf
  | NInf, Fin b => if Qltb b 0 then PInf else NInf
  | _, _ => NaN
  end.

(** [x < y]; a comparison with a nan is [False]. *)
Definition ltb (x y : t) : bool :=
  match x, y with
  | NaN, _ | _, NaN => false
  | Fin a, Fin b => Qltb a b
  | NInf, NInf => false
  | NInf, _ => true
  | Fin _, PInf => true
  | _, _ => false
  end.

Definition gtb (x y : t) : bool := ltb y x.

(** Python's [min(x, y)]: [y] when [y < x], else [x]. *)
Definition min (x y : t) : t := if ltb y x then y else x.

(** [np.mean(a)] and a given standard deviation of [a]: a nan on an empty
    array. *)
Definition mean (a : list Q) : t :=
  match a with
  | [] => NaN
  | _ => Fin (fold_left Qplus a 0 / inject_Z (Z.of_nat (length a)))
  end.

Definition stat (f : list Q -> Q) (a : list Q) : t :=
  match a with
  | [] => NaN
  | _ => Fin (f a)
  end.

(** [np.argmin(a)]: the first nan if there is one, else the first minimum;
    the state is the best index and value so far, and the running index. *)
Fixpoint argmin_from (a : list t) (best : Z) (bv : t) (i : Z) : Z :=
  match a with
  | [] => best
  | x :: r =>
      match bv with
      | NaN => best
      | _ => match x with
             | NaN => i
             | _ => if ltb x bv then argmin_from r i x (i + 1)%Z
                    else argmin_from r best bv (i + 1)%Z
             end
      end
  end.

Definition argmin (a : list t) : res Z :=
  match a with
  | [] => Raise ValueError
  | x :: r => Ok (argmin_from r 0%Z x 1%Z)
  end.

End X.

(** ** utility.py *)

(** [x % 1] on floats: the result has the sign of the divisor. *)
Definition mod1 (x : Q) : Q := x - inject_Z (Qfloor x).

(** One entry of [((times - zero) / period + 0.5) % 1 - 0.5]. *)
Definition fold_phase (t period zero : Q) : Q :=
  mod1 ((t - zero) / period + (1 # 2)) - (1 # 2).

(** [fold_time_series(times, period, zero)]; a zero period divides by zero. *)
Definition fold_time_series (times : list Q) (period zero : Q) : res (list Q) :=
  if Qeq_bool period 0 then NonFinite
  else Ok (map (fun t => fold_phase t period zero) times).

(** ** eclipse_finding.py: masks *)

(** [cut_eclipses]: [eclipses] holds pairs of start and end times. *)
Definition cut_eclipses (times : list Q) (eclipses : list (Q * Q)) : list bool :=
  fold_left
    (fun mask ecl =>
       map (fun mt => andb (fst mt) (orb (Qltb (snd mt) (fst ecl)) (Qgtb (snd mt) (snd ecl))))
           (combine mask times))
    eclipses
    (repeat true (length times)).

(** [mask_eclipses]: [eclipses] holds pairs of start and end indices. *)
Definition mask_eclipses (times : list Q) (eclipses : list (Z * Z)) : list bool :=
  fold_left
    (fun mask ecl => Py.set_slice mask (fst ecl) (snd ecl + 1)%Z false)
    eclipses
    (repeat true (length times)).

(** ** Vocabulary of the statements *)

(** A strictly increasing array. *)
Definition increasing (l : list Q) : Prop :=
  forall i j : nat, (i < j < length l)%nat -> nth i l 0 < nth j l 0.

(** The entry at a non-negative index. *)
Definition at_index (l : list Q) (i : Z) : Q := nth (Z.to_nat i) l 0.

(** The same as a check on neighbours. *)
Fixpoint increasingb (l : list Q) : bool :=
  match l with
  | [] => true
  | x :: r =>
      match r with
      | [] => true
      | y :: _ => Qltb x y && increasingb r
      end
  end.

(** ** eclipse_finding.py: smoothing *)

(** The state of the loops of [smooth]: the running sum and the output. *)
Record smooth_state : Type := mk_smooth_state {
  s_sum : Q;
  s_out : list Q
}.

(** Runs a loop body over the values of a [range]. *)
Fixpoint for_each {S : Type} (idx : list Z) (body : Z -> S -> res S) (st : S) : res S :=
  match idx with
  | [] => Ok st
  | i :: r => st' <- body i st ;; for_each r body st'
  end.

(** [smooth(a, n_kernel, mask)]. *)
Definition smooth (a : list Q) (n_kernel : Z) (mask : option (list bool)) : res (list Q) :=
  let n_2 := (n_kernel / 2)%Z in
  let n_3 := (n_kernel mod 2)%Z in
  let len := Z.of_nat (length a) in
  let st0 := mk_smooth_state 0 (repeat 0 (length a)) in
  st1 <- for_each (Py.range 0 n_kernel)
           (fun i st =>
              ai <- Py.get a i ;;
              let sum := s_sum st + ai in
              out <- Py.set (s_out st) i (sum / inject_Z (i + 1)) ;;
              Ok (mk_smooth_state sum out))
           st0 ;;
  st2 <- for_each (Py.range n_kernel len)
           (fun i st =>
              aj <- Py.get a (i - n_kernel) ;;
              ai <- Py.get a i ;;
              let sum := s_sum st - aj + ai in
              out <- Py.set (s_out st) i (sum / inject_Z n_kernel) ;;
              Ok (mk_smooth_state sum out))
           st1 ;;
  (* slide the result backward by half n *)
  out3 <- (if ((n_2 >? 1) || (n_3 >? 0))%Z%bool
           then Py.set_upto (s_out st2) (- n_2 - n_3 + 1)
                            (Py.from (s_out st2) (n_2 + n_3 - 1))
           else Ok (s_out st2)) ;;
  (* and calculate the last few points *)
  st4 <- for_each (Py.range (- n_2 - n_3 + 1) 0)
           (fun i st =>
              aj <- Py.get a (i - n_2 - 1) ;;
              let sum := s_sum st - aj in
              out <- Py.set (s_out st) i (sum / inject_Z (- i + n_2)) ;;
              Ok (mk_smooth_state sum out))
           (mk_smooth_state (s_sum st2) out3) ;;
  match mask with
  | None => Ok (s_out st4)
  | Some m => Np.compress m (s_out st4)
  end.

(** [smooth_diff(a, n_kernel, mask)]. *)
Definition smooth_diff (a : list Q) (n_kernel : Z) (mask : option (list bool))
  : res (list Q * list Q) :=
  a_smooth <- smooth a n_kernel None ;;
  let diff := Np.diff a_smooth in
  match mask with
  | None => Ok (diff, a_smooth)
  | Some m =>
      diff' <- Np.compress (Py.upto m (-1)) diff ;;
      a_smooth' <- Np.compress m a_smooth ;;
      Ok (diff', a_smooth')
  end.

(** [smooth_derivative(a, dt, n_kernel, mask)]. *)
Definition smooth_derivative (a dt : list Q) (n_kernel : Z) (mask : option (list bool))
  : res (list Q * list Q) :=
  '(diff, a_smooth) <- smooth_diff a n_kernel mask ;;
  d_dt <- Np.div_arr diff dt ;;
  Ok (d_dt, a_smooth).

(** ** eclipse_finding.py: gaps and repetitions *)

(** [mark_gaps(times)]. *)
Definition mark_gaps (times : list Q) : res (list bool * list Z) :=
  let diff := Np.diff times in
  min_d <- Np.min diff ;;
  gap_width <- Np.sequence (map (fun d => Np.div d min_d) diff) ;;
  (* gaps that are at least 4 times the minimum time step *)
  let gaps := map (fun w => Qgtb w 4) gap_width in
  (* set non-gaps to width of 1 *)
  gap_width <- Np.mask_set (map negb gaps) gap_width 1 ;;
  let gaps := gaps ++ [false] in
  (* include both points on either side of the gap *)
  gaps <- Py.set_from gaps 1
            (map (fun xy => orb (fst xy) (snd xy))
                 (combine (Py.from gaps 1) (Py.upto gaps (-1)))) ;;
  w <- Np.compress (Py.upto gaps (-1)) gap_width ;;
  let gap_width := map Qfloor w in
  last <- Py.get gaps (-1) ;;
  Ok (gaps, if last : bool then gap_width ++ [1%Z] else gap_width).

(** [a[0] += k; a[-1] += k]. *)
Definition add_to_ends (a : list Z) (k : Z) : res (list Z) :=
  a0 <- Py.get a 0 ;;
  a <- Py.set a 0 (a0 + k)%Z ;;
  al <- Py.get a (-1) ;;
  Py.set a (-1) (al + k)%Z.

(** [np.where(a < n, a, n)]. *)
Definition cap (n : Z) (a : list Z) : list Z :=
  map (fun w => if (w <? n)%Z then w else n) a.

(** [repeat_points_internals(times, n_kernel, no_gaps)]. *)
Definition repeat_points_internals (times : list Q) (n_kernel : Z) (no_gaps : bool)
  : res (list Z * list bool) :=
  let ones := repeat 1%Z (length times) in
  let trues := repeat true (length times) in
  if (n_kernel <? 2)%Z then
    (* no repetitions made *)
    Ok (ones, trues)
  else if no_gaps then
    (* only repeat the start and end n times *)
    repetitions <- add_to_ends ones (n_kernel - 1) ;;
    let repeat_ends := repeat false (Z.to_nat (n_kernel - 1)) in
    Ok (repetitions, repeat_ends ++ trues ++ repeat_ends)
  else
    (* get the gap positions and start- and endpoints *)
    '(gaps, widths) <- mark_gaps times ;;
    let gap_start := map (fun w => negb (w =? 1)%Z) widths in
    gap_p1 <- Np.mask_assign gaps gaps (map negb gap_start) ;;
    gap_p2 <- Np.mask_assign gaps gaps gap_start ;;
    (* prepare some measurements of the width *)
    widths <- Np.mask_set (map (fun w => (w =? 1)%Z) widths) widths 0%Z ;;
    let widths := map (fun w => Qceiling (inject_Z w / 2)) widths in
    let max_repeats := widths in
    max_repeats <- Py.set_from max_repeats 1
                     (map (fun xy => (fst xy + snd xy)%Z)
                          (combine (Py.from max_repeats 1) (Py.upto max_repeats (-1)))) ;;
    let widths := cap n_kernel widths in
    let max_repeats := cap n_kernel max_repeats in
    (* the number of repetitions is at least 1 and max n *)
    repetitions <- Np.mask_assign gaps ones max_repeats ;;
    (* start the repetition mask by repeating the (inverted) gap mask *)
    repetition_mask <- Np.repeat_arr (map negb gaps) repetitions ;;
    (* mark where the positions of the gap edges are in the repetition mask *)
    let new_positions := map (fun c => (c - 1)%Z) (Np.cumsum repetitions) in
    let gap_edges := repeat false (length repetition_mask) in
    idx1 <- Np.compress gap_p1 new_positions ;;
    gap_edges <- Np.index_set gap_edges idx1 true ;;
    np2 <- Np.compress gap_p2 new_positions ;;
    ws <- Np.compress gap_start widths ;;
    idx2 <- Np.ew2 (fun p w => (p - (w - 1))%Z) np2 ws ;;
    gap_edges <- Np.index_set gap_edges idx2 true ;;
    (* remove the points that where originally part of 'a' from the repetition_mask *)
    let repetition_mask :=
      map (fun xy => orb (fst xy) (snd xy)) (combine repetition_mask gap_edges) in
    (* finally, repeat the start and end of the array as well *)
    repetitions <- add_to_ends repetitions (n_kernel - 1) ;;
    let repeat_ends := repeat false (Z.to_nat (n_kernel - 1)) in
    Ok (repetitions, repeat_ends ++ repetition_mask ++ repeat_ends).

(** ** eclipse_finding.py: derivatives *)

(** Four stacked curves: the first three derivatives and the sign-inverted
    product of the first and the third. *)
Record derivs : Type := mk_derivs {
  deriv_1 : list Q;
  deriv_2 : list Q;
  deriv_3 : list Q;
  deriv_13 : list Q
}.

(** [np.vstack] of four rows: the rows have one length, or it raises. *)
Definition vstack4 (a b c d : list Q) : res derivs :=
  if ((length a =? length b) && (length b =? length c) && (length c =? length d))%nat%bool
  then Ok (mk_derivs a b c d)
  else Raise ValueError.

(** [np.append(c[1:] - c[:-1], [c[-1] - c[-2]]) / diff_t]. *)
Definition raw_derivative (c diff_t : list Q) : res (list Q) :=
  c1 <- Py.get c (-1) ;;
  c2 <- Py.get c (-2) ;;
  Np.div_arr (Np.diff c ++ [c1 - c2]) diff_t.

(** [prepare_derivatives(times, signal, n_kernel, no_gaps)]; the result is
    [(signal_s, r_derivs, s_derivs)]. *)
Definition prepare_derivatives (times signal : list Q) (n_kernel : Z) (no_gaps : bool)
  : res (list Q * derivs * derivs) :=
  t1 <- Py.get times (-1) ;;
  t2 <- Py.get times (-2) ;;
  let diff_t := Np.diff (times ++ [2 * t1 - t2]) in
  if (n_kernel =? 1)%Z then
    (* no smoothing, just derivatives *)
    d1 <- raw_derivative signal diff_t ;;
    d2 <- raw_derivative d1 diff_t ;;
    d3 <- raw_derivative d2 diff_t ;;
    d13 <- Np.ew2 (fun x y => - x * y) d1 d3 ;;
    let signal_s := signal in
    r_derivs <- vstack4 d1 d2 d3 d13 ;;
    s_derivs <- vstack4 d1 d2 d3 d13 ;;
    Ok (signal_s, r_derivs, s_derivs)
  else
    (* get the repetition array and the repetition mask *)
    '(n_repeats, rep_mask) <- repeat_points_internals times n_kernel no_gaps ;;
    (* array versions: e=extended, s=smoothed *)
    signal_e <- Np.repeat_arr signal n_repeats ;;
    '(d1, signal_s) <- smooth_derivative signal_e diff_t n_kernel (Some rep_mask) ;;
    deriv_1e <- Np.repeat_arr d1 n_repeats ;;
    '(d2, deriv_1s) <- smooth_derivative deriv_1e diff_t n_kernel (Some rep_mask) ;;
    deriv_2e <- Np.repeat_arr d2 n_repeats ;;
    '(d3, deriv_2s) <- smooth_derivative deriv_2e diff_t n_kernel (Some rep_mask) ;;
    deriv_3e <- Np.repeat_arr d3 n_repeats ;;
    deriv_3s <- smooth deriv_3e n_kernel (Some rep_mask) ;;
    (* invert the sign to make peaks positive *)
    d13 <- Np.ew2 (fun x y => - x * y) deriv_1s deriv_3s ;;
    deriv_13e <- Np.repeat_arr d13 n_repeats ;;
    deriv_13s <- smooth deriv_13e n_kernel (Some rep_mask) ;;
    r_derivs <- vstack4 d1 d2 d3 d13 ;;
    s_derivs <- vstack4 deriv_1s deriv_2s deriv_3s deriv_13s ;;
    Ok (signal_s, r_derivs, s_derivs).

(** The discrete forward difference quotient of a curve [c] sampled at
    [times].  At the last index the last difference is repeated, and the
    time delta is the one to the extrapolated time
    [2 * times[-1] - times[-2]]. *)
Definition forward_quotient (times c : list Q) (i : nat) : Q :=
  let n := length times in
  if (S i <? n)%nat
  then (nth (S i) c 0 - nth i c 0) / (nth (S i) times 0 - nth i times 0)
  else (nth (n - 1) c 0 - nth (n - 2) c 0)
       / ((2 * nth (n - 1) times 0 - nth (n - 2) times 0) - nth (n - 1) times 0).

(** ** eclipse_finding.py: eclipse measurements *)

(** One row of [ecl_indices]: ingress top, ingress bottom, egress bottom and
    egress top. *)
Record ecl_row : Type := mk_ecl_row {
  l_o : Z;  (* left outside,  column 0 *)
  l_i : Z;  (* left inside,   column 1 *)
  r_i : Z;  (* right inside,  column -2 *)
  r_o : Z   (* right outside, column -1 *)
}.

(** The measurements of one eclipse. *)
Record ecl_measure : Type := mk_ecl_measure {
  m_mid : Q;
  m_width : Q;
  m_depth : Q;
  m_ratio : Q
}.

(** The entries that [measure_eclipses] computes for one row; [flag] is the
    row's entry of [flags_lrf]: full eclipse (0), left half (1), right
    half (2).  The masks [m_full], [m_left] and [m_right] select by [flag];
    an entry that no mask selects keeps the zero it was initialised with. *)
Definition measure_row (times signal : list Q) (e : ecl_row) (flag : Z) : res ecl_measure :=
  let m_full := (flag =? 0)%Z in
  let m_left := (flag =? 1)%Z in
  let m_right := (flag =? 2)%Z in
  (* calculate the widths *)
  width <- (if m_full then
              t_ro <- Py.get times (r_o e) ;; t_lo <- Py.get times (l_o e) ;; Ok (t_ro - t_lo)
            else if m_left then
              t_li <- Py.get times (l_i e) ;; t_lo <- Py.get times (l_o e) ;; Ok (t_li - t_lo)
            else if m_right then
              t_ro <- Py.get times (r_o e) ;; t_ri <- Py.get times (r_i e) ;; Ok (t_ro - t_ri)
            else Ok 0) ;;
  (* calculate the ratios: a measure for how 'flat-bottomed' it is *)
  ratio <- (if m_full then
              t_ri <- Py.get times (r_i e) ;; t_li <- Py.get times (l_i e) ;;
              Np.div (t_ri - t_li) width
            else Ok 0) ;;
  (* calculate the depths *)
  s_lo <- Py.get signal (l_o e) ;;
  s_li <- Py.get signal (l_i e) ;;
  s_ro <- Py.get signal (r_o e) ;;
  s_ri <- Py.get signal (r_i e) ;;
  let depths_l := s_lo - s_li in
  let depths_r := s_ro - s_ri in
  let denom := 2 * (if m_full then 1 else 0) + 1 * (if m_left then 1 else 0)
               + 1 * (if m_right then 1 else 0) in
  depth <- Np.div (depths_l + depths_r) denom ;;
  (* determine the eclipse midpoints, and estimate them for half eclipses *)
  mid <- (if m_full then
            t_lo <- Py.get times (l_o e) ;; t_ro <- Py.get times (r_o e) ;;
            t_li <- Py.get times (l_i e) ;; t_ri <- Py.get times (r_i e) ;;
            Ok ((t_lo + t_ro + t_li + t_ri) / 4)
          else if m_left then Py.get times (l_i e)
          else if m_right then Py.get times (r_i e)
          else Ok 0) ;;
  Ok (mk_ecl_measure mid width depth ratio).

(** [measure_eclipses(times, signal, ecl_indices, flags_lrf)]; the result is
    [(ecl_mid, widths, depths, ratios)]. *)
Definition measure_eclipses (times signal : list Q) (ecl_indices : list ecl_row)
           (flags_lrf : list Z) : res (list Q * list Q * list Q * list Q) :=
  if (0 <? length flags_lrf)%nat then
    if negb (length ecl_indices =? length flags_lrf)%nat then Raise IndexError
    else
      ms <- Np.sequence (map (fun ef => measure_row times signal (fst ef) (snd ef))
                             (combine ecl_indices flags_lrf)) ;;
      Ok (map m_mid ms, map m_width ms, map m_depth ms, map m_ratio ms)
  else Ok ([], [], [], []).

(** An eclipse row whose four indices point into an array of [n] samples. *)
Definition row_in_bounds (n : nat) (e : ecl_row) : Prop :=
  (0 <= l_o e < Z.of_nat n)%Z /\ (0 <= l_i e < Z.of_nat n)%Z
  /\ (0 <= r_i e < Z.of_nat n)%Z /\ (0 <= r_o e < Z.of_nat n)%Z.

(** The measurements of one eclipse as the code makes them, by flag: a full
    eclipse (0) from its four edges, a half eclipse (1, 2) from the one edge
    that was found.  The width of a half eclipse is the single span between
    its outer and its inner edge. *)
Definition measure_by_flag (times signal : list Q) (e : ecl_row) (flag : Z) : ecl_measure :=
  let t := at_index times in
  let s := at_index signal in
  let depths_l := s (l_o e) - s (l_i e) in
  let depths_r := s (r_o e) - s (r_i e) in
  if (flag =? 0)%Z then
    mk_ecl_measure ((t (l_o e) + t (r_o e) + t (l_i e) + t (r_i e)) / 4)
                   (t (r_o e) - t (l_o e))
                   ((depths_l + depths_r) / (2 * 1 + 1 * 0 + 1 * 0))
                   ((t (r_i e) - t (l_i e)) / (t (r_o e) - t (l_o e)))
  else if (flag =? 1)%Z then
    mk_ecl_measure (t (l_i e)) (t (l_i e) - t (l_o e))
                   ((depths_l + depths_r) / (2 * 0 + 1 * 1 + 1 * 0)) 0
  else
    mk_ecl_measure (t (r_i e)) (t (r_o e) - t (r_i e))
                   ((depths_l + depths_r) / (2 * 0 + 1 * 0 + 1 * 1)) 0.

(** ** eclipse_finding.py: the eclipse score *)

(** The tuple returned by [eclipse_score_attr]. *)
Record score_attr : Type := mk_score_attr {
  sc_score : Q;
  sc_attr_0 : Q;
  sc_attr_1 : Q;
  sc_attr_2 : Q;
  sc_attr_3 : Q;
  sc_attr_4 : Q;
  sc_penalty : Q
}.

Section Score.

(** The float functions of numpy, and the four attribute functions of the
    module, enter the score as given functions: [found_ratio],
    [normalised_slope], [normalised_symmetry] and [normalised_equality] are
    called with the arguments the source passes, and what they compute is
    not part of the statements on the score. *)
Variable arctan : Q -> Q.
Variable sqrt : Q -> Q.
Variable pi : Q.
Variable found_ratio : list Q -> list Q -> list Z -> Q -> nat -> res Q.
Variable normalised_slope :
  list Q -> list Q -> list Q -> list ecl_row -> list bool -> list bool -> list bool -> res Q.
Variable normalised_symmetry : list Q -> list Q -> list ecl_row -> res Q.
Variable normalised_equality : list Q -> list Q -> list Q -> list Z -> res Q.

(** [1 - 0.5 * b] for a boolean [b]. *)
Definition penalty_of (b : bool) : Q := 1 - (1 # 2) * (if b then 1 else 0).

(** [eclipse_score_attr(times, signal_s, deriv_1r, period, ecl_indices,
    ecl_mid, added_snr, widths, depths, flags_lrf, flags_pst)]. *)
Definition eclipse_score_attr (times signal_s deriv_1r : list Q) (period : Q)
           (ecl_indices : list ecl_row) (ecl_mid added_snr widths depths : list Q)
           (flags_lrf flags_pst : list Z) : res score_attr :=
  if negb (length ecl_mid =? 0)%nat then
    let primaries := Np.eq_int flags_pst 1 in
    let secondaries := Np.eq_int flags_pst 2 in
    prim_sec <- Np.ew2 orb primaries secondaries ;;
    let m_full := Np.eq_int flags_lrf 0 in
    rows <- Np.compress prim_sec ecl_indices ;;
    let ecl_mask := mask_eclipses times (map (fun e => (l_o e, r_o e)) rows) in
    found <- Np.compress prim_sec ecl_mid ;;
    let n_found := length found in
    if negb (n_found =? 0)%nat then
      avg_p <- (if Np.any primaries
                then (a <- Np.compress primaries added_snr ;; Np.mean a) else Ok 0) ;;
      avg_s <- (if Np.any secondaries
                then (a <- Np.compress secondaries added_snr ;; Np.mean a) else Ok 0) ;;
      (* convert the added_snr to a value between 0 and 1 *)
      let attr_0 := arctan ((avg_p + avg_s) / 40) * 2 / pi in
      (* the number of ecl vs number of theoretically visible ones *)
      attr_1 <- found_ratio times ecl_mid flags_pst period n_found ;;
      (* slope of the eclipses - higher is more likely an actual eclipse *)
      attr_2 <- normalised_slope times signal_s deriv_1r ecl_indices ecl_mask
                                 primaries m_full ;;
      let attr_2 := arctan (attr_2 / (5 # 2)) * 2 / pi in
      (* the more unequal the eclipse in/egress are, the lower the score *)
      full_ps <- Np.ew2 andb m_full prim_sec ;;
      rows_full <- Np.compress full_ps ecl_indices ;;
      attr_3 <- normalised_symmetry times signal_s rows_full ;;
      (* if eclipse depth varies a lot - might just be pulsations *)
      attr_4 <- normalised_equality added_snr depths widths flags_pst ;;
      (* penalty for not having any full eclipses, also penalty for period-wide eclipses *)
      wide <- (if Np.any primaries then
                 wp <- Np.compress primaries widths ;;
                 max_avg_w <- Np.mean wp ;;
                 max_avg_w <- (if Np.any secondaries then
                                 ws <- Np.compress secondaries widths ;;
                                 avg <- Np.mean ws ;;
                                 Ok (Qmax max_avg_w avg)
                               else Ok max_avg_w) ;;
                 Ok (Qgtb max_avg_w ((8 # 10) * period))
               else Ok false) ;;
      let penalty := penalty_of (negb (Np.any full_ps) || wide) in
      (* score formula *)
      let score := attr_0 * attr_2
                   * sqrt (attr_1 ^ 2 + attr_2 ^ 2 + attr_3 ^ 2 + attr_4 ^ 2) / 2 in
      let score := score * penalty in
      Ok (mk_score_attr score attr_0 attr_1 attr_2 attr_3 attr_4 penalty)
    else
      (* still have the possibility of a single eclipse (so without period) *)
      max_snr <- Np.max added_snr ;;
      let attr_0 := arctan (max_snr / 600) * 2 / pi in
      attr_2 <- normalised_slope times signal_s deriv_1r ecl_indices ecl_mask
                                 (map negb prim_sec) m_full ;;
      let attr_2 := arctan (attr_2 / (5 # 2)) * 2 / pi in
      let penalty := penalty_of (negb (Np.any m_full)) in
      let score := attr_0 * attr_2 * penalty in
      Ok (mk_score_attr score attr_0 (- (1 # 10)) attr_2 (- (1 # 10)) (- (1 # 10)) penalty)
  else
    (* no eclipses identified *)
    Ok (mk_score_attr (-1) (- (1 # 10)) (- (1 # 10)) (- (1 # 10)) (- (1 # 10)) (- (1 # 10)) 0).

(** [eclipse_score] has the body of [eclipse_score_attr] and returns the
    score alone. *)
Definition eclipse_score (times signal_s deriv_1r : list Q) (period : Q)
           (ecl_indices : list ecl_row) (ecl_mid added_snr widths depths : list Q)
           (flags_lrf flags_pst : list Z) : res Q :=
  if negb (length ecl_mid =? 0)%nat then
    let primaries := Np.eq_int flags_pst 1 in
    let secondaries := Np.eq_int flags_pst 2 in
    prim_sec <- Np.ew2 orb primaries secondaries ;;
    let m_full := Np.eq_int flags_lrf 0 in
    rows <- Np.compress prim_sec ecl_indices ;;
    let ecl_mask := mask_eclipses times (map (fun e => (l_o e, r_o e)) rows) in
    found <- Np.compress prim_sec ecl_mid ;;
    let n_found := length found in
    if negb (n_found =? 0)%nat then
      avg_p <- (if Np.any primaries
                then (a <- Np.compress primaries added_snr ;; Np.mean a) else Ok 0) ;;
      avg_s <- (if Np.any secondaries
                then (a <- Np.compress secondaries added_snr ;; Np.mean a) else Ok 0) ;;
      let attr_0 := arctan ((avg_p + avg_s) / 40) * 2 / pi in
      attr_1 <- found_ratio times ecl_mid flags_pst period n_found ;;
      attr_2 <- normalised_slope times signal_s deriv_1r ecl_indices ecl_mask
                                 primaries m_full ;;
      let attr_2 := arctan (attr_2 / (5 # 2)) * 2 / pi in
      full_ps <- Np.ew2 andb m_full prim_sec ;;
      rows_full <- Np.compress full_ps ecl_indices ;;
      attr_3 <- normalised_symmetry times signal_s rows_full ;;
      attr_4 <- normalised_equality added_snr depths widths flags_pst ;;
      wide <- (if Np.any primaries then
                 wp <- Np.compress primaries widths ;;
                 max_avg_w <- Np.mean wp ;;
                 max_avg_w <- (if Np.any secondaries then
                                 ws <- Np.compress secondaries widths ;;
                                 avg <- Np.mean ws ;;
                                 Ok (Qmax max_avg_w avg)
                               else Ok max_avg_w) ;;
                 Ok (Qgtb max_avg_w ((8 # 10) * period))
               else Ok false) ;;
      let penalty := penalty_of (negb (Np.any full_ps) || wide) in
      let score := attr_0 * attr_2
                   * sqrt (attr_1 ^ 2 + attr_2 ^ 2 + attr_3 ^ 2 + attr_4 ^ 2) / 2 in
      Ok (score * penalty)
    else
      max_snr <- Np.max added_snr ;;
      let attr_0 := arctan (max_snr / 600) * 2 / pi in
      attr_2 <- normalised_slope times signal_s deriv_1r ecl_indices ecl_mask
                                 (map negb prim_sec) m_full ;;
      let attr_2 := arctan (attr_2 / (5 # 2)) * 2 / pi in
      let penalty := penalty_of (negb (Np.any m_full)) in
      Ok (attr_0 * attr_2 * penalty)
  else
    Ok (-1).

End Score.

(** *** Vocabulary of the statements on the score *)

(** The mask of the eclipses classified primary (1) or secondary (2). *)
Definition prim_sec_of (flags_pst : list Z) : list bool :=
  map (fun f => ((f =? 1) || (f =? 2))%Z%bool) flags_pst.

(** The mask of the full eclipses among them. *)
Definition full_prim_sec_of (flags_lrf flags_pst : list Z) : list bool :=
  map (fun ab => ((fst ab =? 0)%Z && ((snd ab =? 1) || (snd ab =? 2))%Z)%bool)
      (combine flags_lrf flags_pst).

(** Some eclipse carries the flag [k]. *)
Definition has_flag (k : Z) (flags_pst : list Z) : bool := Np.any (Np.eq_int flags_pst k).

(** The mean of [vals] over the eclipses that carry the flag [k]. *)
Definition avg_of (k : Z) (flags_pst : list Z) (vals : list Q) : Q :=
  Np.avg (Np.select (Np.eq_int flags_pst k) vals).

(** The width test as the code makes it: made only when there is a primary,
    on the larger of the mean primary and the mean secondary width. *)
Definition wide_code (widths : list Q) (flags_pst : list Z) (period : Q) : bool :=
  has_flag 1 flags_pst
  && Qgtb (if has_flag 2 flags_pst
           then Qmax (avg_of 1 flags_pst widths) (avg_of 2 flags_pst widths)
           else avg_of 1 flags_pst widths)
          ((8 # 10) * period).

(** The width test as the specification words it: the mean primary or the
    mean secondary width exceeds 0.8 times the period. *)
Definition wide_claimed (widths : list Q) (flags_pst : list Z) (period : Q) : bool :=
  (has_flag 1 flags_pst && Qgtb (avg_of 1 flags_pst widths) ((8 # 10) * period))
  || (has_flag 2 flags_pst && Qgtb (avg_of 2 flags_pst widths) ((8 # 10) * period)).

(** ** eclipse_finding.py: the periodic pattern *)

(** [construct_range(t_0, period, domain)] with the default [p_min = 0.1];
    the result is [(points, n_range)]. *)
Definition construct_range (t_0 period : Q) (domain : Q * Q) : list Q * list Z :=
  let p_min := 1 # 10 in
  let n_before := if Qltb period p_min
                  then Qceiling ((fst domain - t_0) / p_min)
                  else Qceiling ((fst domain - t_0) / period) in
  let n_after := if Qltb period p_min
                 then Qfloor ((snd domain - t_0) / p_min)
                 else Qfloor ((snd domain - t_0) / period) in
  let n_range := Py.range n_before (n_after + 1) in
  (map (fun n => t_0 + period * inject_Z n) n_range, n_range).

(** The nearest pattern point of one eclipse midpoint [e], as the body of the
    loop of [pattern_test] finds it: the sorted position, looked at to the
    left and to the right.  The result is the distance [d_nn]. *)
Definition nearest_distance (pattern : list Q) (e : Q) : res Q :=
  let len := Z.of_nat (length pattern) in
  let i_nn := Np.searchsorted pattern e in
  let i_nn := if (i_nn =? len)%Z then (len - 1)%Z else i_nn in
  right <- Py.get pattern i_nn ;;
  left <- Py.get pattern (i_nn - 1) ;;
  let closest := Qltb (Qabs (right - e)) (Qabs (e - left)) in
  let i_nn := (i_nn * (if closest then 1 else 0)
               + (i_nn - 1) * (if negb closest then 1 else 0))%Z in
  (* get the distances to nearest neighbours *)
  nn <- Py.get pattern i_nn ;;
  Ok (Qabs (nn - e)).

(** The body of the loop of [pattern_test] for one trial period [p]: the
    goodness of fit. *)
Definition goodness_of_fit (ecl_mid added_snr widths : list Q) (time_frame : Q * Q)
           (timestep t_0 p : Q) : res Q :=
  let pattern := fst (construct_range t_0 p time_frame) in
  if negb (length pattern =? 0)%nat then
    d_nn <- Np.sequence (map (nearest_distance pattern) ecl_mid) ;;
    (* calculate which closest neighbours are less than the ecl width away *)
    in_width <- Np.ew2 (fun d w => Np.div_ltb d w (1 # 2)) d_nn widths ;;
    let cn_w := map (fun dw => andb (snd dw) (Np.div_ltb (fst dw) p (Qmax (6 # 100) timestep)))
                    (combine d_nn in_width) in
    (* calculate the goodness of fit *)
    snr_cn <- Np.compress cn_w added_snr ;;
    d_cn <- Np.compress cn_w d_nn ;;
    Ok (inject_Z (Z.of_nat (length snr_cn)) / inject_Z (Z.of_nat (length pattern))
        * Np.sum snr_cn - Np.sum d_cn)
  else Ok 0.

(** The first part of [pattern_test]: the reference time [t_0] and the
    bounds and the step of the period grid, [(t_0, p_min, p_max, p_step)].
    An optional argument left at [None] is [None] here. *)
Definition pattern_test_grid (ecl_mid added_snr widths : list Q)
           (ecl_0 : option Z) (p_max p_step : option Q) (timestep : Q)
  : res (Q * Q * Q * Q) :=
  (* set the maximum period and reference eclipse, if not given *)
  let n_ecl := length ecl_mid in
  let ecl_i := Py.range 0 (Z.of_nat n_ecl) in
  '(ecl_0, p_max) <-
    match ecl_0, p_max with
    | Some e0, Some pm => Ok (e0, pm)
    | _, _ =>
        mean_snr <- Np.mean added_snr ;;
        max_snr <- Np.max added_snr ;;
        let snr_ref := Qmax mean_snr ((1 # 2) * max_snr) in
        let high_snr := map (fun x => Qgtb x snr_ref) added_snr in
        e0 <- match ecl_0 with
              | Some e0 => Ok e0
              | None => sel <- Np.compress high_snr ecl_i ;; Py.get sel 0
              end ;;
        mid_high <- Np.compress high_snr ecl_mid ;;
        pm <- match p_max with
              | Some pm => Ok pm
              | None =>
                  if (1 <? length mid_high)%nat
                  then m <- Np.median (Np.diff mid_high) ;; Ok (3 * m)
                  else m <- Np.median (Np.diff ecl_mid) ;; Ok (3 * m)
              end ;;
        Ok (e0, pm)
    end ;;
  p_max <- (if Qeq_bool p_max 0
            then m <- Np.median (Np.diff ecl_mid) ;; Ok (3 * m)
            else Ok p_max) ;;
  let p_max := Qmax (2 # 1000) p_max in
  t_0 <- Py.get ecl_mid ecl_0 ;;
  (* set the minimum period if not given *)
  others <- Np.compress (map (fun i => negb (i =? ecl_0)%Z) ecl_i) ecl_mid ;;
  sep <- Np.min (map (fun m => Qabs (t_0 - m)) others) ;;
  let p_min := (95 # 100) * sep in
  let p_min := if Qltb p_max p_min then (1 # 100) * p_max else p_min in
  let p_min := Qmax (1 # 1000) p_min in
  (* set the period step if not given *)
  p_step <- match p_step with
            | Some ps => Ok (Qmax (Qmin ps ((1 # 100) * p_max)) (timestep / 1000))
            | None =>
                mean_w <- Np.mean widths ;;
                span <- Np.ptp ecl_mid ;;
                (* a division of two scalars in compiled code: a zero divisor
                   raises *)
                if Qeq_bool (10 * span) 0 then Raise ZeroDivisionError
                else Ok (Qmax (Qmin (mean_w / (10 * span)) ((1 # 100) * p_max))
                              (timestep / 1000))
            end ;;
  Ok (t_0, p_min, p_max, p_step).

(** [pattern_test(ecl_mid, added_snr, widths, time_frame, ecl_0, p_max,
    p_step, timestep)]; the result is [(periods, gof)]. *)
Definition pattern_test (ecl_mid added_snr widths : list Q) (time_frame : Q * Q)
           (ecl_0 : option Z) (p_max p_step : option Q) (timestep : Q)
  : res (list Q * list Q) :=
  '(t_0, p_min, p_max, p_step) <-
    pattern_test_grid ecl_mid added_snr widths ecl_0 p_max p_step timestep ;;
  (* make the period grid *)
  periods <- Np.arange p_min p_max p_step ;;
  (* fill the goodness of fit array *)
  gof <- Np.sequence (map (goodness_of_fit ecl_mid added_snr widths time_frame timestep t_0)
                          periods) ;;
  Ok (periods, gof).

(** *** Vocabulary of the statements on the pattern *)

(** The distance from [e] to the nearest of the predicted times. *)
Definition distance_to_nearest (pattern : list Q) (e : Q) : Q :=
  match pattern with
  | [] => 0
  | x :: r => fold_left Qmin (map (fun y => Qabs (y - e)) r) (Qabs (x - e))
  end.



(** ** eclipse_finding.py: matching ingress and egress *)

(** The statistics of one matched pair that decide whether it is kept. *)
Record pair_stats : Type := mk_pair_stats {
  avg_inside : X.t;
  avg_outside : X.t;
  std_min : X.t;     (* std[i] = min(std_inside[i], std_outside[i]) *)
  gap_ratio : X.t;
  snr_diff : X.t
}.

(** [passed] for one pair. *)
Definition passed (st : pair_stats) : bool :=
  X.gtb (X.sub (avg_outside st) (avg_inside st)) (std_min st)
  && X.gtb (gap_ratio st) (X.Fin (1 # 2))     (* check for large gaps in the eclipses *)
  && X.ltb (snr_diff st) (X.Fin (18 # 10)).   (* check for major difference in added_snr *)

(** One division of two scalars in compiled code: a zero divisor raises; a
    nan or an infinite divisor divides as in an array. *)
Definition scalar_div (x y : X.t) : res X.t :=
  match y with
  | X.Fin b => if Qeq_bool b 0 then Raise ZeroDivisionError else Ok (X.div x y)
  | _ => Ok (X.div x y)
  end.

Section MatchInEgress.

(** [np.std] on a non-empty array: a square root, taken as a given function. *)
Variable std : list Q -> Q.

Variables times signal_s added_snr : list Q.
Variables peaks_edge peaks_bot : list Z.
Variables neg_slope pos_slope : list bool.

(** [t_step = np.median(times[1:] - times[:-1])]; the median of an empty
    array is a nan. *)
Definition t_step : X.t :=
  match Np.median (Np.diff times) with
  | Ok m => X.Fin m
  | _ => X.NaN
  end.

(** The body of the loop over the matched pairs: the statistics of the pair
    [ecl] of positions in the peak arrays. *)
Definition pair_statistics (step : X.t) (ecl : Z * Z) : res pair_stats :=
  let max_i := (Z.of_nat (length times) - 1)%Z in
  pk1 <- Py.get peaks_edge (fst ecl) ;;
  pk2 <- Py.get peaks_edge (snd ecl) ;;
  pk1b <- Py.get peaks_bot (fst ecl) ;;
  pk2b <- Py.get peaks_bot (snd ecl) ;;
  (* bottom side could be overlapping *)
  let '(pk1b, pk2b) := if (pk1b >? pk2b)%Z
                       then (Z.quot (pk1 + pk1b) 2, Z.quot (pk2 + pk2b) 2)
                       else (pk1b, pk2b) in
  let '(pk1b, pk2b) := if (pk1b >? pk2b)%Z then (pk1, pk2) else (pk1b, pk2b) in
  let inside := Py.slice signal_s pk1b (pk2b + 1) in
  let pk1_l := Z.max 0 (Z.min (pk1 - (pk2 - pk1) / 2) max_i) in
  let pk2_r := Z.max 0 (Z.min (pk2 + (pk2 - pk1) / 2) (max_i - 1)) in
  let left := Py.slice signal_s pk1_l (pk1 + 1) in
  let right := Py.slice signal_s pk2 (pk2_r + 1) in
  let '(avg_out, std_out) :=
    if ((pk1 >? 0) && (pk2 <? max_i))%Z%bool then
      (X.add (X.div (X.mean left) (X.Fin 2)) (X.div (X.mean right) (X.Fin 2)),
       X.add (X.div (X.stat std left) (X.Fin 2)) (X.div (X.stat std right) (X.Fin 2)))
    else if (pk1 >? 0)%Z then (X.mean left, X.stat std left)
    else if (pk2 <? max_i)%Z then (X.mean right, X.stat std right)
    else (X.Fin 0, X.Fin 0) in
  t1 <- Py.get times pk1 ;;
  t2 <- Py.get times pk2 ;;
  let full_width := t2 - t1 in
  width_steps <- scalar_div (X.Fin full_width) step ;;
  gap <- scalar_div (X.Fin (inject_Z (pk2 - pk1))) width_steps ;;
  s0 <- Py.get added_snr (fst ecl) ;;
  s1 <- Py.get added_snr (snd ecl) ;;
  snr <- scalar_div (X.Fin (Qmax s0 s1)) (X.Fin (Qmin s0 s1)) ;;
  Ok (mk_pair_stats
        (X.mean inside)
        avg_out
        (X.min (X.stat std inside) std_out)
        gap
        snr).

(** The relative difference [2 * |a - b| / (a + b)]. *)
Definition rel_diff (a b : Q) : X.t := X.div (X.Fin (2 * Qabs (a - b))) (X.Fin (a + b)).

(** The best combination of an ingress among [indices[i:until_1]] and an
    egress among [indices[until_1:until_2]], appended to [full_ecl]. *)
Definition add_best_match (indices : list Z) (t_peaks depths_single widths_single : list Q)
           (full_ecl : list (Z * Z)) (i until_1 until_2 : Z) : res (list (Z * Z)) :=
  let ingress := Py.slice indices i until_1 in
  let egress := Py.slice indices until_1 until_2 in
  if (until_2 - i >? 1)%Z then
    (* make all combinations of in/egress *)
    let n_tile := length ingress in
    if (n_tile =? 0)%nat then Raise ValueError   (* reshape(-1, 0) *)
    else
      let ingress := Np.repeat_each ingress (repeat (Z.of_nat (length egress)) n_tile) in
      let egress := Np.tile egress n_tile in
      let combs := combine ingress egress in
      if (0 <? length combs)%nat then
        (* for each set of combinations, take the best one *)
        snr_in <- Np.take added_snr ingress ;;
        snr_eg <- Np.take added_snr egress ;;
        dep_in <- Np.take depths_single ingress ;;
        dep_eg <- Np.take depths_single egress ;;
        wid_in <- Np.take widths_single ingress ;;
        wid_eg <- Np.take widths_single egress ;;
        t_in <- Np.take t_peaks ingress ;;
        t_eg <- Np.take t_peaks egress ;;
        let pair (f : Q -> Q -> X.t) (a b : list Q) : list X.t :=
          map (fun xy => f (fst xy) (snd xy)) (combine a b) in
        let d_add := pair rel_diff snr_in snr_eg in
        let d_depth := pair rel_diff dep_in dep_eg in
        let d_width := pair rel_diff wid_in wid_eg in
        let d_time := map (fun xy => fst xy - snd xy) (combine t_eg t_in) in
        least <- Np.min d_time ;;
        let d_time := map (fun d => X.Fin (d - least)) d_time in
        let add2 (a b : list X.t) : list X.t :=
          map (fun xy => X.add (fst xy) (snd xy)) (combine a b) in
        let d_stat := add2 (add2 (add2 d_add d_time) d_depth) d_width in
        k <- X.argmin d_stat ;;
        best_match <- Py.get combs k ;;
        Ok (full_ecl ++ [best_match])
      else Ok full_ecl
  else Ok full_ecl.

(** The first loop of [match_in_egress]: the candidate pairs.  Where the
    first test holds [used[i]] becomes [True], so the second test fails and
    [until_1], [until_2] are not read. *)
Definition match_candidates : res (list (Z * Z)) :=
  let indices := Py.range 0 (Z.of_nat (length added_snr)) in
  t_peaks <- Np.take times peaks_edge ;;
  (* depths and widths of the in/egress points *)
  s_edge <- Np.take signal_s peaks_edge ;;
  s_bot <- Np.take signal_s peaks_bot ;;
  depths_single <- Np.ew2 Qminus s_edge s_bot ;;
  t_bot <- Np.take times peaks_bot ;;
  widths_single <- Np.ew2 (fun b e => Qabs (b - e)) t_bot t_peaks ;;
  (* find matching combinations to form full eclipses *)
  let used := repeat false (length peaks_edge) in
  st <- for_each indices
          (fun i st =>
             let '(used, full_ecl) := st in
             last <- Py.get indices (-1) ;;
             if ((i =? last)%Z || negb (Np.any (Py.from neg_slope i)))%bool then
               (* last of the peaks... nothing to pair up to.
                  Or: no negative slopes left after i *)
               used <- Py.set used i true ;;
               _ <- Py.get pos_slope i ;;
               Ok (used, full_ecl)
             else
               (* determine where the group of positive and negative slopes
                  starts and ends *)
               sel <- Np.compress (Py.from neg_slope i) (Py.from indices i) ;;
               until_1 <- Py.get sel 0 ;;
               until_2 <- (if ((until_1 =? last)%Z
                               || negb (Np.any (Py.from pos_slope until_1)))%bool
                           then Ok (until_1 + 1)%Z
                           else sel2 <- Np.compress (Py.from pos_slope until_1)
                                                    (Py.from indices until_1) ;;
                                Py.get sel2 0) ;;
               used_i <- Py.get used i ;;
               pos_i <- Py.get pos_slope i ;;
               if (negb used_i && pos_i)%bool then
                 full_ecl <- add_best_match indices t_peaks depths_single widths_single
                                            full_ecl i until_1 until_2 ;;
                 Ok (Py.set_slice used i until_2 true, full_ecl)
               else Ok (used, full_ecl))
          (used, []) ;;
  Ok (snd st).

(** [match_in_egress(times, signal_s, added_snr, peaks_edge, peaks_bot,
    neg_slope, pos_slope)]; the result is [(full_ecl, not_used)]. *)
Definition match_in_egress : res (list (Z * Z) * list bool) :=
  full_ecl <- match_candidates ;;
  let n := length added_snr in
  if (length full_ecl =? 0)%nat then Ok (full_ecl, repeat true n)
  else
    (* check the average in-eclipse level compared to surrounding *)
    stats <- Np.sequence (map (pair_statistics t_step) full_ecl) ;;
    let full_ecl := Np.select (map passed stats) full_ecl in
    (* also make an array of bool for which peaks where used *)
    not_used <- Np.index_set (repeat true n) (map fst full_ecl) false ;;
    not_used <- Np.index_set not_used (map snd full_ecl) false ;;
    Ok (full_ecl, not_used).

End MatchInEgress.

(** ** The checks on a matched pair, in the words of the description *)

Section MatchChecks.

Variable std : list Q -> Q.
Variables times signal_s added_snr : list Q.
Variables peaks_edge peaks_bot : list Z.

(** The sample of the edge and of the bottom of the peak at position [k] of
    the peak arrays. *)
Definition edge_at (k : Z) : Z := nth (Z.to_nat k) peaks_edge 0%Z.
Definition bottom_at (k : Z) : Z := nth (Z.to_nat k) peaks_bot 0%Z.

(** The samples inside the eclipse of the ingress [a] and the egress [b]:
    from bottom to bottom; where the bottoms cross, from midpoint to midpoint
    of each edge and its bottom; where these cross as well, from edge to
    edge. *)
Definition inside_span (a b : Z) : Z * Z :=
  if (bottom_at a <=? bottom_at b)%Z then (bottom_at a, bottom_at b)
  else if (Z.quot (edge_at a + bottom_at a) 2 <=? Z.quot (edge_at b + bottom_at b) 2)%Z
       then (Z.quot (edge_at a + bottom_at a) 2, Z.quot (edge_at b + bottom_at b) 2)
       else (edge_at a, edge_at b).

Definition inside_samples (a b : Z) : list Q :=
  Py.slice signal_s (fst (inside_span a b)) (snd (inside_span a b) + 1).

(** The flanks: half the number of samples between the edges, to the left of
    the first edge and to the right of the second, within the time series. *)
Definition left_flank (a b : Z) : list Q :=
  Py.slice signal_s
           (Z.max 0 (Z.min (edge_at a - (edge_at b - edge_at a) / 2)
                           (Z.of_nat (length times) - 1)))
           (edge_at a + 1).

Definition right_flank (a b : Z) : list Q :=
  Py.slice signal_s
           (edge_at b)
           (Z.max 0 (Z.min (edge_at b + (edge_at b - edge_at a) / 2)
                           (Z.of_nat (length times) - 1 - 1)) + 1).

(** A statistic [g] of the flanks: the mean of its values on the two flanks;
    its value on the one flank there is when an edge is the first or the last
    sample; zero when both are. *)
Definition flank_stat (g : list Q -> Q) (a b : Z) : Q :=
  if ((edge_at a >? 0) && (edge_at b <? Z.of_nat (length times) - 1))%Z%bool
  then g (left_flank a b) / 2 + g (right_flank a b) / 2
  else if (edge_at a >? 0)%Z then g (left_flank a b)
  else if (edge_at b <? Z.of_nat (length times) - 1)%Z then g (right_flank a b)
  else 0.

(** How far the average level inside lies below the average flanking level,
    and the local scatter: the smaller of the standard deviations inside and
    on the flanks. *)
Definition level_drop (a b : Z) : Q :=
  flank_stat Np.avg a b - Np.avg (inside_samples a b).

Definition local_scatter (a b : Z) : Q :=
  Qmin (std (inside_samples a b)) (flank_stat std a b).

(** The number of samples between the edges over the time between them in
    units of the time step. *)
Definition samples_per_step (step : Q) (a b : Z) : Q :=
  inject_Z (edge_at b - edge_at a)
  / ((at_index times (edge_at b) - at_index times (edge_at a)) / step).

(** The larger over the smaller [added_snr] of the two sides. *)
Definition snr_ratio (a b : Z) : Q :=
  Qmax (at_index added_snr a) (at_index added_snr b)
  / Qmin (at_index added_snr a) (at_index added_snr b).

End MatchChecks.

(** A pair of positions of the peak arrays, the first before the second. *)
Definition ordered_pair (n : Z) (p : Z * Z) : Prop := (0 <= fst p < snd p)%Z /\ (snd p < n)%Z.

(** ** A sample light curve for the examples *)

(** Fifteen samples at unit cadence with one flat-bottomed dip: the ingress
    runs from sample 3 to sample 5, the egress from sample 9 to sample 11. *)
Definition dip_times : list Q := [0; 1; 2; 3; 4; 5; 6; 7; 8; 9; 10; 11; 12; 13; 14].

Definition dip_signal : list Q :=
  [1; 1; 1; 1; 8 # 10; 6 # 10; 6 # 10; 6 # 10; 6 # 10; 6 # 10; 8 # 10; 1; 1; 1; 1].

(** ** eclipse_finding.py: the period and the ephemeris *)

(** The nearest pattern point of one midpoint [e], as [extract_pattern]
    finds it: the index [i_nn] (which is -1 where the left neighbour of the
    first point, the wrapped-around last point, is taken) and the distance
    [d_nn]. *)
Definition nearest_neighbour (pattern : list Q) (e : Q) : res (Z * Q) :=
  let len := Z.of_nat (length pattern) in
  let i_nn := Np.searchsorted pattern e in
  let i_nn := if (i_nn =? len)%Z then (len - 1)%Z else i_nn in
  right <- Py.get pattern i_nn ;;
  left <- Py.get pattern (i_nn - 1) ;;
  let closer_right := Qltb (Qabs (right - e)) (Qabs (e - left)) in
  let i_nn := (i_nn * (if closer_right then 1 else 0)
               + (i_nn - 1) * (if negb closer_right then 1 else 0))%Z in
  nn <- Py.get pattern i_nn ;;
  Ok (i_nn, Qabs (nn - e)).

(** [np.diff] of an integer array. *)
Definition diff_int (a : list Z) : list Z :=
  map (fun xy => (fst xy - snd xy)%Z) (combine (Py.from a 1) (Py.upto a (-1))).

(** [extract_pattern(ecl_mid, widths, added_snr, t_0, ecl_period,
    time_frame)]. *)
Definition extract_pattern (ecl_mid widths added_snr : list Q) (t_0 ecl_period : Q)
           (time_frame : Q * Q) : res (list Z) :=
  let indices := Py.range 0 (Z.of_nat (length ecl_mid)) in
  let pattern := fst (construct_range t_0 ecl_period time_frame) in
  nn <- Np.sequence (map (nearest_neighbour pattern) ecl_mid) ;;
  let i_nn := map fst nn in
  let d_nn := map snd nn in
  (* calculate which closest neighbours are less than the ecl width away *)
  cn_w <- Np.ew2 (fun d w => Np.div_ltb d w (1 # 2)) d_nn widths ;;
  (* check for double pattern points *)
  i_cn <- Np.compress cn_w i_nn ;;
  let is_dup := map (fun d => (d =? 0)%Z) (diff_int i_cn) in
  cn_w <- (if Np.any is_dup then
             let dup_mask := is_dup ++ [false] in
             dup_mask <- Py.set_from dup_mask 1
                           (map (fun xy => orb (fst xy) (snd xy))
                                (combine (Py.from dup_mask 1) is_dup)) ;;
             (* define a reference SNR to compare to *)
             idx_cn <- Np.compress cn_w indices ;;
             i_not_double <- Np.compress (map negb dup_mask) idx_cn ;;
             ref_snr <- (if (0 <? length i_not_double)%nat
                         then vals <- Np.take added_snr i_not_double ;; Np.mean vals
                         else vals <- Np.compress cn_w added_snr ;; Np.max vals) ;;
             (* loop through the pattern points that occur more than once *)
             pp_dup <- Np.compress dup_mask i_cn ;;
             for_each (Np.unique pp_dup)
               (fun pp cn_w =>
                  idx_cn <- Np.compress cn_w indices ;;
                  inn_cn <- Np.compress cn_w i_nn ;;
                  i_compare <- Np.compress (map (fun x => (x =? pp)%Z) inn_cn) idx_cn ;;
                  vals <- Np.take added_snr i_compare ;;
                  (* keep the one closest to ref_snr *)
                  closest <- Np.argmin (map (fun v => Qabs (v - ref_snr)) vals) ;;
                  cn_w <- Np.index_set cn_w i_compare false ;;
                  keep <- Py.get i_compare closest ;;
                  Py.set cn_w keep true)
               cn_w
           else Ok cn_w) ;;
  Np.compress cn_w indices.

(** [measure_phase_dev(periods, ecl_mid)], its second result [phase_dev]: a
    zero period folds to nans. *)
Definition measure_phase_dev (periods ecl_mid : list Q) : res (list X.t) :=
  let n_ecl := length ecl_mid in
  (* put the zero point at a specific place between the eclipses *)
  zero_point <- Py.get ecl_mid 0 ;;
  Ok (map (fun p =>
             match fold_time_series ecl_mid p zero_point with
             | Ok phases =>
                 let m := Np.avg phases in
                 X.Fin (Np.sum (map (fun ph => Qabs (ph - m)) phases)
                        / inject_Z (Z.of_nat n_ecl))
             | _ => X.NaN
             end)
          periods).

Section EstimatePeriod.

(** [np.std] on a non-empty array, taken as a given function. *)
Variable std : list Q -> Q.

(** [add_missing_ecl(group, ecl_i, ecl_mid, phases, added_snr, g_avg_phase,
    g_avg_w, period)]. *)
Definition add_missing_ecl (group ecl_i : list Z) (ecl_mid phases added_snr : list Q)
           (g_avg_phase g_avg_w period : Q) : res (list Z) :=
  snr_g <- Np.take added_snr group ;;
  g_avg_snr <- Np.mean snr_g ;;
  let g_std_snr := std snr_g in
  let g_std_snr := if Qeq_bool g_std_snr 0 then 10 else g_std_snr in
  in_phase <- Np.ew2 (fun ph s => Qltb (Qabs (ph - g_avg_phase)) ((1 # 2) * g_avg_w)
                                  && Qltb (Qabs (s - g_avg_snr)) (3 * g_std_snr))
                     phases added_snr ;;
  let g_bool := in_phase in
  g_candidates <- Np.compress g_bool ecl_i ;;
  (* check for eclipses within the phase delta but less than a period away *)
  if (length group <? length g_candidates)%nat then
    mid_c <- Np.take ecl_mid g_candidates ;;
    g_bool <- for_each g_candidates
                (fun i g_bool =>
                   mid_i <- Py.get ecl_mid i ;;
                   let nearby := map (fun m => Qltb (Qabs (m - mid_i)) ((1 # 2) * period))
                                     mid_c in
                   if (1 <? count_occ bool_dec nearby true)%nat then
                     near <- Np.compress nearby g_candidates ;;
                     g_bool <- Np.index_set g_bool near false ;;
                     snr_near <- Np.take added_snr near ;;
                     best <- Np.argmax snr_near ;;
                     keep <- Py.get near best ;;
                     Py.set g_bool keep true
                   else Ok g_bool)
                g_bool ;;
    new_group <- Np.compress g_bool ecl_i ;;
    if (length group <? length new_group)%nat then Ok new_group else Ok group
  else Ok group.

(** [test_separation(variable, group_1, group_2)] for groups given as index
    arrays. *)
Definition test_separation (variable : list Q) (group_1 group_2 : list Z) : res bool :=
  v1 <- Np.take variable group_1 ;;
  v2 <- Np.take variable group_2 ;;
  let n_g1 := length v1 in
  let n_g2 := length v2 in
  if ((n_g2 <? 3) || (n_g1 <? 3))%nat%bool then
    (* no separation if there is nothing to separate *)
    Ok false
  else if (n_g1 + n_g2 <? 8)%nat then
    (* for very low numbers, use 50 percent difference as criterion *)
    let g1_avg := Np.avg v1 in
    let g2_avg := Np.avg v2 in
    Ok (Qgtb (Qmax g1_avg g2_avg) ((15 # 10) * Qmin g1_avg g2_avg))
  else
    let g1_avg := Np.avg v1 in
    let g2_avg := Np.avg v2 in
    Ok (Qgtb (Qabs (g1_avg - g2_avg)) (Qmax (std v1) (std v2))).

(** [determine_primary(group_1, group_2, depths, widths, added_snr)]. *)
Definition determine_primary (group_1 group_2 : list Z) (depths widths added_snr : list Q)
  : res bool :=
  s1 <- Np.take added_snr group_1 ;;
  s2 <- Np.take added_snr group_2 ;;
  let n_g1 := length s1 in
  let n_g2 := length s2 in
  if (negb (n_g1 =? 0) && negb (n_g2 =? 0))%nat%bool then
    sep_d <- test_separation depths group_1 group_2 ;;
    if sep_d then
      (* separation by eclipse depth *)
      d1 <- Np.take depths group_1 ;; d2 <- Np.take depths group_2 ;;
      Ok (Qgtb (Np.avg d1) (Np.avg d2))
    else
      sep_s <- test_separation added_snr group_1 group_2 ;;
      if sep_s then
        (* separation by added_snr *)
        Ok (Qgtb (Np.avg s1) (Np.avg s2))
      else
        sep_w <- test_separation widths group_1 group_2 ;;
        if sep_w then
          (* separation by eclipse width *)
          w1 <- Np.take widths group_1 ;; w2 <- Np.take widths group_2 ;;
          Ok (Qgtb (Np.avg w1) (Np.avg w2))
        else
          (* no clear separation: take the group with highest average added_snr *)
          Ok (Qgtb (Np.avg s1) (Np.avg s2))
  else if ((n_g1 =? 0) && negb (n_g2 =? 0))%nat%bool then Ok false
  else Ok true.

End EstimatePeriod.

Section EstimatePeriodMain.

Variable std : list Q -> Q.

(** What the first part of [estimate_period] hands to the second: the period
    estimate, the eclipses that match it, the arrays (sorted on [ecl_mid]
    when there are more than two eclipses) and the sorting permutation. *)
Record period_guess : Type := mk_period_guess {
  pg_period : Q;
  pg_included : list Z;
  pg_ecl_mid : list Q;
  pg_widths : list Q;
  pg_depths : list Q;
  pg_added_snr : list Q;
  pg_m_full : list bool;
  pg_sorter : list Z
}.

(** The first part of [estimate_period]: "first establish an estimate of the
    period". *)
Definition first_period_estimate (ecl_mid widths depths added_snr : list Q)
           (m_full : list bool) (domain : Q * Q) (timestep : Q) : res period_guess :=
  let n_ecl := length ecl_mid in
  let failed := mk_period_guess (-1) [] ecl_mid widths depths added_snr m_full [] in
  if (n_ecl <? 2)%nat then
    (* no eclipses or a single eclipse... return None *)
    Ok failed
  else if (n_ecl =? 2)%nat then
    (* only two eclipses... only one guess possible *)
    e1 <- Py.get ecl_mid 1 ;;
    e0 <- Py.get ecl_mid 0 ;;
    let period := Qabs (e1 - e0) in
    if Qltb period (1 # 100) then
      (* chance that it overlaps *)
      Ok failed
    else
      Ok (mk_period_guess period (Py.range 0 (Z.of_nat n_ecl))
                          ecl_mid widths depths added_snr m_full [])
  else
    (* sort the eclipses first *)
    let ecl_sorter := Np.argsort ecl_mid in
    ecl_mid <- Np.take ecl_mid ecl_sorter ;;
    widths <- Np.take widths ecl_sorter ;;
    depths <- Np.take depths ecl_sorter ;;
    added_snr <- Np.take added_snr ecl_sorter ;;
    m_full <- Np.take m_full ecl_sorter ;;
    let failed := mk_period_guess (-1) [] ecl_mid widths depths added_snr m_full ecl_sorter in
    (* set the reference zero-point eclipse *)
    mean_snr <- Np.mean added_snr ;;
    max_snr <- Np.max added_snr ;;
    let snr_ref := Qmax mean_snr ((1 # 2) * max_snr) in
    let ecl_i := Py.range 0 (Z.of_nat (length ecl_mid)) in
    let high_snr := map (fun s => Qgtb s snr_ref) added_snr in
    snr_high <- Np.compress high_snr added_snr ;;
    ecl_0 <- match Np.median snr_high with
             | Ok target_snr =>
                 snr_full <- Np.compress m_full added_snr ;;
                 let full_ok := map (fun s => Qgeb s target_snr) snr_full in
                 if Np.any full_ok then
                   i_full <- Np.compress m_full ecl_i ;;
                   sel <- Np.compress full_ok i_full ;;
                   Py.get sel 0
                 else
                   sel <- Np.compress (map (fun s => Qgeb s target_snr) added_snr) ecl_i ;;
                   Py.get sel 0
             | _ =>
                 (* a nan target: no eclipse compares above it *)
                 _ <- Np.compress m_full added_snr ;;
                 Raise IndexError
             end ;;
    (* determine p_max for period search *)
    mid_high <- Np.compress high_snr ecl_mid ;;
    p_max <- (if (1 <? length mid_high)%nat then
                m <- Np.median (Np.diff mid_high) ;;
                let p_max := 3 * m in
                if Qltb p_max (1 # 1000)
                then m <- Np.median (Np.diff ecl_mid) ;; Ok (3 * m)
                else Ok p_max
              else m <- Np.median (Np.diff ecl_mid) ;; Ok (3 * m)) ;;
    if Qgtb p_max (1 # 1000) then
      (* determine the best period *)
      min_depth <- Np.min depths ;;
      height <- Np.sequence (map (fun d => Np.div d min_depth) depths) ;;
      '(periods, gof) <- pattern_test ecl_mid height (map (fun w => w / 2) widths) domain
                                      (Some ecl_0) (Some p_max) None timestep ;;
      best <- Np.argmax gof ;;
      p_best <- Py.get periods best ;;
      (* get the eclipse indices of those matching the pattern *)
      t_ref <- Py.get ecl_mid ecl_0 ;;
      ecl_included <- extract_pattern ecl_mid widths added_snr t_ref p_best domain ;;
      (* refine the period (using all included eclipses) *)
      step <- Np.mean (Np.diff periods) ;;
      let dp := 3 * step in
      period_range <- Np.arange (p_best - dp) (p_best + dp) (dp / 300) ;;
      mid_incl <- Np.take ecl_mid ecl_included ;;
      phase_dev <- measure_phase_dev period_range mid_incl ;;
      k <- X.argmin phase_dev ;;
      period <- Py.get period_range k ;;
      Ok (mk_period_guess period ecl_included ecl_mid widths depths added_snr m_full
                          ecl_sorter)
    else Ok failed.

(** The second group of eclipses, looked for between the eclipses of the
    first when the period was not doubled: "try finding eclipses in between
    the eclipses (possibly at a different phase)". *)
Definition find_second_group (g1 ecl_i : list Z) (added_snr phases2 : list Q)
           (g1_avg_phase g1_avg_w phase_lim : Q) : res (list Z) :=
  not_included_bool <- Np.index_set (repeat true (length ecl_i)) g1 false ;;
  not_included <- Np.compress not_included_bool ecl_i ;;
  let near (avg_phase : X.t) : res (list Z) :=
    ph <- Np.take phases2 not_included ;;
    match avg_phase with
    | X.Fin a => Np.compress (map (fun p => Qltb (Qabs (p - a)) phase_lim) ph) not_included
    | _ => Ok []
    end in
  if (0 <? length not_included)%nat then
    (* make a histogram of eclipse phases, weighted by added_snr *)
    ph <- Np.take phases2 not_included ;;
    w <- Np.take added_snr not_included ;;
    '(hist, edges) <- Np.histogram (map mod1 ph) w 50 ;;
    (* exclude the area in the histogram about an eclipse width around the g1 eclipses *)
    not_g1 <- Np.ew2 (fun hi lo =>
                        Qgtb (hi - (g1_avg_phase + (1 # 2))) ((55 # 100) * g1_avg_w)
                        || Qltb (lo - (g1_avg_phase + (1 # 2))) (- (55 # 100) * g1_avg_w))
                     (Py.from edges 1) (Py.upto edges (-1)) ;;
    if Np.any not_g1 then
      (* extract the best candidates for g2 *)
      h <- Np.compress not_g1 hist ;;
      hist_max <- Np.argmax h ;;
      los <- Np.compress not_g1 (Py.upto edges (-1)) ;;
      his <- Np.compress not_g1 (Py.from edges 1) ;;
      lo <- Py.get los hist_max ;;
      hi <- Py.get his hist_max ;;
      let in_bin := map (fun p => Qgeb (mod1 p) lo && Qleb (mod1 p) hi) phases2 in
      let avg_phase := X.mean (Np.select in_bin phases2) in
      g2 <- near avg_phase ;;
      if (length g2 =? 1)%nat then
        (* might have gotten some spurious peak or a triple signal, fall back to numbers *)
        '(hist2, edges2) <- Np.histogram ph (repeat 1 (length ph)) 50 ;;
        h2 <- Np.compress not_g1 hist2 ;;
        hist_max <- Np.argmax h2 ;;
        if (hist_max >? 1)%Z then
          los <- Np.compress not_g1 (Py.upto edges2 (-1)) ;;
          his <- Np.compress not_g1 (Py.from edges2 1) ;;
          lo <- Py.get los hist_max ;;
          hi <- Py.get his hist_max ;;
          let in_bin := map (fun p => Qgeb p lo && Qleb p hi) phases2 in
          let avg_phase := X.mean (Np.select in_bin phases2) in
          near avg_phase
        else Ok g2
      else Ok g2
    else Ok []
  else Ok [].

(** [g[(widths[g] > 0.4 * median) & (widths[g] < 0.5 * period)]] for a group
    of more than two eclipses: "check for eclipses that include wide gaps (or
    are too narrow)". *)
Definition prune_by_width (g : list Z) (widths : list Q) (period : Q) : res (list Z) :=
  if (2 <? length g)%nat then
    w <- Np.take widths g ;;
    g_med_w <- Np.median w ;;
    Np.compress (map (fun x => Qgtb x ((4 # 10) * g_med_w) && Qltb x ((1 # 2) * period)) w) g
  else Ok g.

(** The flags of the two groups, then the check of two lone primaries, then
    the epoch: the last part of [estimate_period], from "make the
    primary/secondary/tertiary flags_pst" on.  The result is
    [(t_zero, period, flags_pst)], the flags in the order of the (sorted)
    arrays. *)
Definition flag_and_epoch (g1 g2 : list Z) (primary_g1 : bool) (period : Q)
           (ecl_mid added_snr : list Q) (m_full : list bool) : res (Q * Q * list Z) :=
  let flags_pst := repeat 0%Z (length ecl_mid) in
  flags_pst <- Np.index_set flags_pst g1 (if primary_g1 then 1 else 2)%Z ;;
  flags_pst <- Np.index_set flags_pst g2 (if primary_g1 then 2 else 1)%Z ;;
  flags_pst <- Np.mask_set (Np.eq_int flags_pst 0) flags_pst 3%Z ;;
  (* if only two primaries selected, check their likeness *)
  let primaries := Np.eq_int flags_pst 1 in
  snr_p <- Np.compress primaries added_snr ;;
  '(flags_pst, period) <-
    (if (length snr_p =? 2)%nat then
       if Np.any (map (fun ab => Qltb (fst ab) (snd ab / 2)) (combine snr_p (rev snr_p)))
       then
         (* if they are too different, revoke all prim/sec status and the period *)
         flags_pst <- Np.mask_set primaries flags_pst 3%Z ;;
         flags_pst <- Np.mask_set (Np.eq_int flags_pst 2) flags_pst 3%Z ;;
         Ok (flags_pst, -1)
       else Ok (flags_pst, period)
     else Ok (flags_pst, period)) ;;
  (* finally, put the t_zero on the first full primary eclipse *)
  let primaries := Np.eq_int flags_pst 1 in
  full_primaries <- Np.ew2 andb m_full primaries ;;
  if Np.any full_primaries then
    sel <- Np.compress full_primaries ecl_mid ;;
    t_zero <- Py.get sel 0 ;;
    Ok (t_zero, period, flags_pst)
  else if Np.any primaries then
    sel <- Np.compress primaries ecl_mid ;;
    t_zero <- Py.get sel 0 ;;
    Ok (t_zero, period, flags_pst)
  else Ok (-1, -1, flags_pst).

(** The second part of [estimate_period], entered with a period estimate:
    "now better determine the primaries and secondaries and
    other/tertiaries". *)
Definition classify_eclipses (pg : period_guess) (n_full_ecl : nat) (domain : Q * Q)
           (timestep : Q) : res (Q * Q * list Z) :=
  let period := pg_period pg in
  let ecl_included := pg_included pg in
  let ecl_mid := pg_ecl_mid pg in
  let widths := pg_widths pg in
  let depths := pg_depths pg in
  let added_snr := pg_added_snr pg in
  let m_full := pg_m_full pg in
  let ecl_i := Py.range 0 (Z.of_nat (length ecl_mid)) in
  (* redefine t_0 and extract the eclipses found at the ephemeris *)
  mid_incl <- Np.take ecl_mid ecl_included ;;
  t_0 <- Py.get mid_incl 0 ;;
  (* try double the eclipse period to look for secondaries *)
  '(double_p_sep, period, g12) <-
    (if (2 <? length ecl_included)%nat then
       (* define groups (potentially prim/sec) *)
       g1 <- extract_pattern ecl_mid widths added_snr t_0 (2 * period) domain ;;
       g2 <- extract_pattern ecl_mid widths added_snr (t_0 + period) (2 * period) domain ;;
       (* test separation, first in phase, then in depth, then in added_snr
          and finally width *)
       separate_p <- (if (3 <? n_full_ecl)%nat then
                        mid1 <- Np.take ecl_mid g1 ;;
                        ph1 <- fold_time_series mid1 (2 * period) t_0 ;;
                        phases_g12 <- Np.index_assign (repeat 0 (length ecl_mid)) g1 ph1 ;;
                        mid2 <- Np.take ecl_mid g2 ;;
                        ph2 <- fold_time_series mid2 (2 * period) (t_0 + period) ;;
                        phases_g12 <- Np.index_assign phases_g12 g2 ph2 ;;
                        test_separation std phases_g12 g1 g2
                      else Ok false) ;;
       separate_d <- test_separation std depths g1 g2 ;;
       separate_s <- test_separation std added_snr g1 g2 ;;
       separate_w <- test_separation std widths g1 g2 ;;
       let double_p_sep := separate_p || separate_d || separate_s || separate_w in
       (* see if doubling the period gives us two significantly different groups *)
       Ok (double_p_sep, (if double_p_sep then 2 * period else period), (g1, g2))
     else Ok (false, period, ([], []))) ;;
  (* period is final now *)
  (* define phase limit for how precise the eclipse phase must be matched *)
  lim <- Np.div ((24 # 10) * timestep) period ;;
  let phase_lim := Qmax (2 # 100) lim in
  (* calculate phases - for the second group we use shifted phases by half the period *)
  phases <- fold_time_series ecl_mid period t_0 ;;
  let phases2 := map (fun ph => mod1 ph - (1 # 2)) phases in
  (* extract the eclipses found at the ephemeris *)
  g1 <- (if negb double_p_sep
         then extract_pattern ecl_mid widths added_snr t_0 period domain
         else Ok (fst g12)) ;;
  '(g1_avg_phase, g1_avg_w) <-
    (if (0 <? length g1)%nat then
       ph <- Np.take phases g1 ;;
       w <- Np.take widths g1 ;;
       Ok (Np.avg ph, Np.avg w / period)
     else Ok (0, 0)) ;;
  (* If period was not doubled, try finding eclipses in between the eclipses *)
  g2 <- (if negb double_p_sep
         then find_second_group g1 ecl_i added_snr phases2 g1_avg_phase g1_avg_w phase_lim
         else Ok (snd g12)) ;;
  (* look for missing eclipses based on the average width of the eclipses *)
  g1 <- (if (0 <? length g1)%nat
         then add_missing_ecl std g1 ecl_i ecl_mid phases added_snr
                              g1_avg_phase g1_avg_w period
         else Ok g1) ;;
  g2 <- (if (0 <? length g2)%nat then
           ph <- Np.take phases2 g2 ;;
           w <- Np.take widths g2 ;;
           add_missing_ecl std g2 ecl_i ecl_mid phases2 added_snr
                           (Np.avg ph) (Np.avg w / period) period
         else Ok g2) ;;
  (* check for eclipses that include wide gaps (or are too narrow) *)
  g1 <- prune_by_width g1 widths period ;;
  g2 <- prune_by_width g2 widths period ;;
  (* determine which group is primary/secondary if possible *)
  '(g1, g2, primary_g1) <-
    (if Qltb (inject_Z (Z.of_nat (length g2)))
             (Qmax 2 ((5 # 100) * inject_Z (Z.of_nat (length g1)))) then
       (* more likely noise *)
       Ok (g1, [], true)
     else if ((2 <? length g1) && (2 <? length g2))%nat%bool then
       (* check whether we have eclipses spanning most of the period *)
       w1 <- Np.take widths g1 ;;
       w2 <- Np.take widths g2 ;;
       if Qgtb (Np.avg w1) ((8 # 10) * period) then Ok (g1, [], true)
       else if Qgtb (Np.avg w2) ((8 # 10) * period) then Ok ([], g2, false)
       else p <- determine_primary std g1 g2 depths widths added_snr ;; Ok (g1, g2, p)
     else p <- determine_primary std g1 g2 depths widths added_snr ;; Ok (g1, g2, p)) ;;
  flag_and_epoch g1 g2 primary_g1 period ecl_mid added_snr m_full.

(** The time domain of the eclipse series, as [estimate_period] defines it
    before anything else: from the first to the last midpoint, padded on
    both sides. *)
Definition time_domain (ecl_mid : list Q) : res (Q * Q) :=
  lo <- Np.min ecl_mid ;;
  hi <- Np.max ecl_mid ;;
  let time_padding := (5 # 100) * (hi - lo) / inject_Z (Z.of_nat (length ecl_mid)) in
  Ok (lo - time_padding, hi + time_padding).

(** [estimate_period(ecl_mid, widths, depths, added_snr, flags_lrf,
    timestep)]; the result is [(t_zero, period, flags_pst)]. *)
Definition estimate_period (ecl_mid widths depths added_snr : list Q) (flags_lrf : list Z)
           (timestep : Q) : res (Q * Q * list Z) :=
  let n_ecl := length ecl_mid in
  let m_full := Np.eq_int flags_lrf 0 in
  let n_full_ecl := count_occ bool_dec m_full true in
  (* define the time domain to make eclipse-series *)
  domain <- time_domain ecl_mid ;;
  (* first establish an estimate of the period *)
  pg <- first_period_estimate ecl_mid widths depths added_snr m_full domain timestep ;;
  (* now better determine the primaries and secondaries and other/tertiaries *)
  if negb (Qeq_bool (pg_period pg) (-1)) then
    '(t_zero, period, flags_pst) <- classify_eclipses pg n_full_ecl domain timestep ;;
    (* de-sort the flags if the arrays were sorted on ecl_mid *)
    flags_pst <- (if (2 <? n_ecl)%nat
                  then Np.take flags_pst (Np.argsort_int (pg_sorter pg))
                  else Ok flags_pst) ;;
    Ok (t_zero, period, flags_pst)
  else Ok (-1, -1, repeat 3%Z n_ecl).

End EstimatePeriodMain.

(** [np.std] where it is rational: the root of the mean squared deviation,
    taken as the integer roots of the numerator and the denominator of the
    variance in lowest terms.  It is the standard deviation whenever both are
    perfect squares, as in the examples below. *)
Definition std_rational (a : list Q) : Q :=
  let m := Np.avg a in
  let v := Qred (Np.avg (map (fun x => (x - m) * (x - m)) a)) in
  Z.sqrt (Qnum v) # Pos.sqrt (Qden v).

(** ** Notions for the round trip of the repetitions *)

(** The designated copy of every point: [P] gives, for each count of [reps],
    one position inside the block of that count, the blocks laid out from
    [acc] on. *)
Fixpoint designated (acc : Z) (reps P : list Z) : Prop :=
  match reps, P with
  | [], [] => True
  | r :: rs, p :: ps => (acc <= p < acc + r)%Z /\ designated (acc + r) rs ps
  | _, _ => False
  end.

(** The number of entries of [np.repeat(a, reps)]. *)
Definition total (reps : list Z) : Z := fold_right Z.add 0%Z reps.

(** The widths that [mark_gaps] returns, read from the left: a gap point
    that starts a gap has a width of 4 or more, and a point that only ends a
    gap has the width 1 and follows a point that starts one.  [prev] tells
    whether the point before starts a gap. *)
Fixpoint gap_widths_ok (prev : bool) (ws : list Z) : Prop :=
  match ws with
  | [] => True
  | w :: r => ((4 <= w)%Z /\ gap_widths_ok true r)
              \/ (w = 1%Z /\ prev = true /\ gap_widths_ok false r)
  end.

(** [ceil(w / 2)] of a width, the width 1 of a point that ends a gap taken
    as 0. *)
Definition half_gap (w : Z) : Z := Qceiling (inject_Z (if (w =? 1)%Z then 0 else w) / 2).

(** [a[1:] + a[:-1]] behind a first entry [prev]. *)
Fixpoint pairsum (prev : Z) (l : list Z) : list Z :=
  match l with
  | [] => []
  | x :: r => (x + prev)%Z :: pairsum x r
  end.

(** What the repetitions of a gap point have to satisfy for the mask to work:
    at least one copy, and for a point that starts a gap at least as many as
    its own capped half width, which is at least one. *)
Definition enough_copies (n w r : Z) : Prop :=
  (1 <= r)%Z /\ (w <> 1%Z -> 1 <= (if half_gap w <? n then half_gap w else n) <= r)%Z.

(** The position of the original among the copies of every point, in the
    repeated array laid out from [acc] on: a point outside the gaps is its
    own single copy, a point that ends a gap is the last of its copies, and
    a point that starts a gap has its capped half width minus one copies
    behind it.  [ws] and [rs] are the widths and the repetitions of the gap
    points. *)
Fixpoint positions (n acc : Z) (gaps : list bool) (ws rs : list Z) : list Z :=
  match gaps with
  | [] => []
  | false :: g => acc :: positions n (acc + 1) g ws rs
  | true :: g =>
      match ws, rs with
      | w :: ws', r :: rs' =>
          (if (w =? 1)%Z then acc + r - 1
           else acc + r - 1 - ((if half_gap w <? n then half_gap w else n) - 1))%Z
          :: positions n (acc + r) g ws' rs'
      | _, _ => []
      end
  end.

(** ** Notions for the properties of [mark_gaps] *)

(** The step from sample [i] to the next is more than four times some step
    of the series, that is, more than four times the smallest step. *)
Definition gap_after (times : list Q) (i : nat) : Prop :=
  (S i < length times)%nat
  /\ exists j : nat, (S j < length times)%nat
                     /\ 4 * (nth (S j) times 0 - nth j times 0)
                        < nth (S i) times 0 - nth i times 0.

(** ** eclipse_finding.py: walking to a local extremum *)

(** [step = right - (not right)]: one to the right or one to the left. *)
Definition walk_step (right : bool) : Z :=
  ((if right then 1 else 0) - (if negb right then 1 else 0))%Z.

(** [condition(prev, cur)] of [local_extremum]. *)
Definition extremum_condition (maximum : bool) (prev cur : Q) : bool :=
  if maximum then Qleb prev cur else Qgeb prev cur.

(** The [while] loop of [local_extremum], from the state [(i, prev, cur)],
    and the adjustment of [i] behind it.  Every turn of the loop uses one
    unit of [fuel]; [None] is a loop that was still running when the fuel
    was used up. *)
Fixpoint local_extremum_walk (fuel : nat) (a : list Q) (step : Z) (maximum : bool)
         (i : Z) (prev cur : Q) : option (res Z) :=
  match fuel with
  | O => None
  | S fuel' =>
      if extremum_condition maximum prev cur then
        match Py.get a i with
        | Ok prev' =>
            let i' := (i + step)%Z in
            if ((i' <? 0) || (i' >? Z.of_nat (length a) - 1))%Z%bool
            then Some (Ok (i' - step)%Z)
            else match Py.get a i' with
                 | Ok cur' => local_extremum_walk fuel' a step maximum i' prev' cur'
                 | Raise e => Some (Raise e)
                 | NonFinite => Some NonFinite
                 end
        | Raise e => Some (Raise e)
        | NonFinite => Some NonFinite
        end
      else
        (* adjust i to the previous point (the extremum) *)
        Some (Ok (i - step)%Z)
  end.

(** [local_extremum(a, start, right, maximum)]. *)
Definition local_extremum (fuel : nat) (a : list Q) (start : Z) (right maximum : bool)
  : option (res Z) :=
  match Py.get a start with
  | Ok v => local_extremum_walk fuel a (walk_step right) maximum start v v
  | Raise e => Some (Raise e)
  | NonFinite => Some NonFinite
  end.

(** ** eclipse_finding.py: the ratio of found to possible eclipses *)

(** The loop of [found_ratio] over [zip(gaps_i[:-1], gaps_i[1:])]: "count
    only possible eclipses where there is data coverage". *)
Fixpoint coverage_mask (times : list Q) (pairs : list (Z * Z)) (possible : list Q)
         (mask : list bool) : res (list bool) :=
  match pairs with
  | [] => Ok mask
  | (i, j) :: r =>
      if (j - i =? 1)%Z then
        (* there is coverage between these points *)
        t_i <- Py.get times i ;;
        t_j <- Py.get times j ;;
        mask <- Np.ew2 andb mask (map (fun p => Qltb p t_i || Qgtb p t_j) possible) ;;
        coverage_mask times r possible mask
      else coverage_mask times r possible mask
  end.

(** [n_possible] of [found_ratio]: the number of eclipses that the
    ephemeris allows where there is data. *)
Definition n_possible_eclipses (times ecl_mid : list Q) (flags_pst : list Z) (period : Q)
  : res Z :=
  let prim := Np.eq_int flags_pst 1 in
  let sec := Np.eq_int flags_pst 2 in
  if Qeq_bool period (-1) then Ok 1%Z
  else if Qgtb period 0 then
    '(gaps, gap_widths) <- mark_gaps times ;;
    gaps <- Py.set gaps 0 true ;;
    gaps <- Py.set gaps (-1) true ;;
    gaps_i <- Np.compress gaps (Py.range 0 (Z.of_nat (length times))) ;;
    let pairs := combine (Py.upto gaps_i (-1)) (Py.from gaps_i 1) in
    (* primaries *)
    possible_prim <-
      (if Np.any prim then
         mids <- Np.compress prim ecl_mid ;;
         t_0 <- Py.get mids 0 ;;
         t_first <- Py.get times 0 ;;
         t_last <- Py.get times (-1) ;;
         before <- Np.arange t_0 t_first (- period) ;;
         after <- Np.arange t_0 t_last period ;;
         let possible_prim := rev before ++ Py.from after 1 in
         mask <- coverage_mask times pairs possible_prim
                   (repeat true (length possible_prim)) ;;
         Np.compress mask possible_prim
       else Ok []) ;;
    (* secondaries *)
    possible_sec <-
      (if Np.any sec then
         mids <- Np.compress sec ecl_mid ;;
         t_0 <- Py.get mids 0 ;;
         t_first <- Py.get times 0 ;;
         t_last <- Py.get times (-1) ;;
         before <- Np.arange t_0 t_first (- period) ;;
         after <- Np.arange t_0 t_last period ;;
         let possible_sec := rev before ++ after in
         mask <- coverage_mask times pairs possible_sec
                   (repeat true (length possible_sec)) ;;
         Np.compress mask possible_sec
       else Ok []) ;;
    (* combine into one number *)
    Ok (Z.of_nat (length possible_prim) + Z.of_nat (length possible_sec))%Z
  else Ok 1%Z.

(** [found_ratio(times, ecl_mid, flags_pst, period, n_found)]. *)
Definition found_ratio (times ecl_mid : list Q) (flags_pst : list Z) (period : Q)
           (n_found : Z) : res Q :=
  n_possible <- n_possible_eclipses times ecl_mid flags_pst period ;;
  (* use the number of theoretical eclipses to get the ratio *)
  let fnd_ratio := if negb (n_possible =? 0)%Z
                   then inject_Z n_found / inject_Z n_possible
                   else 1 in
  (* transform this ratio a bit for usefulness *)
  let fnd_ratio := if Qgtb fnd_ratio 1 then 1 / fnd_ratio else fnd_ratio in
  Ok ((1 # 2) * fnd_ratio + (1 # 2)).

(** ** eclipse_finding.py: the equality of the eclipses *)

(** [np.sum((np.abs(x - avg) / avg)**2)] with [avg = np.mean(x)]. *)
Definition relative_deviation (x : list Q) : res Q :=
  avg <- Np.mean x ;;
  terms <- Np.sequence (map (fun v => q <- Np.div (Qabs (v - avg)) avg ;; Ok (q * q)) x) ;;
  Ok (Np.sum terms).

(** [normalised_equality(added_snr, depths, widths, flags_pst)]. *)
Definition normalised_equality (added_snr depths widths : list Q) (flags_pst : list Z)
  : res Q :=
  let prim := Np.eq_int flags_pst 1 in
  let sec := Np.eq_int flags_pst 2 in
  snr_p <- Np.compress prim added_snr ;;
  snr_s <- Np.compress sec added_snr ;;
  let n_prim := length snr_p in
  let n_sec := length snr_s in
  equality <-
    (if (1 <? n_prim)%nat then
       dev_a_p <- relative_deviation snr_p ;;
       d_p <- Np.compress prim depths ;;
       dev_d_p <- relative_deviation d_p ;;
       w_p <- Np.compress prim widths ;;
       dev_w_p <- relative_deviation w_p ;;
       '(dev_a_s, dev_d_s, dev_w_s, n_sec) <-
         (if (1 <? n_sec)%nat then
            dev_a_s <- relative_deviation snr_s ;;
            d_s <- Np.compress sec depths ;;
            dev_d_s <- relative_deviation d_s ;;
            w_s <- Np.compress sec widths ;;
            dev_w_s <- relative_deviation w_s ;;
            Ok (dev_a_s, dev_d_s, dev_w_s, n_sec)
          else
            (* adjust to zero for the final calculation *)
            Ok (0, 0, 0, 0%nat)) ;;
       let count := inject_Z (Z.of_nat n_prim + Z.of_nat n_sec - 1) in
       dev_a <- Np.div (dev_a_p + dev_a_s) count ;;
       dev_d <- Np.div (dev_d_p + dev_d_s) count ;;
       dev_w <- Np.div (dev_w_p + dev_w_s) count ;;
       let equality := dev_a * dev_d * dev_w / (1 # 10) in
       if Qltb equality (1 # 2)
       then
         (* draw out the part around 0 to get some better differentiation *)
         Ok (equality * (2 * (1 - equality)))
       else Ok equality
     else Ok 1) ;;
  Np.div (1 # 2) ((1 # 2) + equality).

(** ** utility.py: the runs test *)

(** [np.sum] of an integer array. *)
Definition sum_int (a : list Z) : Z := fold_left Z.add a 0%Z.

(** One division in Python's error model, which numba keeps: a zero divisor
    raises. *)
Definition py_div (x y : Q) : res Q :=
  if Qeq_bool y 0 then Raise ZeroDivisionError else Ok (x / y).

(** numba's integers are 64-bit and wrap around; reduction modulo 2^64
    commutes with [+], [-] and [*], so it is written once per integer
    expression. *)
Definition wrap64 (z : Z) : Z := ((z + 2 ^ 63) mod 2 ^ 64 - 2 ^ 63)%Z.

(** [runs_test(signal)]. *)
Definition runs_test (signal : list Q) : res Q :=
  let signal_above := map (fun x => if Qgtb x 0 then 1 else 0)%Z signal in
  let n_tot := Z.of_nat (length signal) in
  (* number above zero (make sure it doesn't become zero) *)
  let n_a := Z.max 1 (sum_int signal_above) in
  (* number below zero *)
  let n_b := Z.max 1 (n_tot - n_a) in
  let r := (sum_int (map Z.abs (diff_int signal_above)) + 1)%Z in
  (* expected number of or runs in a random time series *)
  q <- py_div (inject_Z (wrap64 (2 * n_a * n_b))) (inject_Z n_tot) ;;
  let r_exp := q + 1 in
  (* standard deviation of the number of runs *)
  s_r <- py_div (inject_Z (wrap64 (2 * n_a * n_b * (2 * n_a * n_b - n_tot))))
                (inject_Z (wrap64 (n_tot ^ 2 * (n_tot - 1)))) ;;
  py_div (inject_Z r - r_exp) s_r.

(** ** utility.py: outliers *)

Section RemoveOutliers.

(** [np.std], taken as a given function; on an empty signal numpy gives a
    nan, and every array below is empty whatever the value. *)
Variable std : list Q -> Q.

(** [remove_outliers(signal)]. *)
Definition remove_outliers (signal : list Q) : res (list bool) :=
  let thr_mask := repeat true (length signal) in
  let indices := Py.range 0 (Z.of_nat (length signal)) in
  let m_s_std := std signal in
  (* check for anomalously high points *)
  let high_bool := map (fun x => Qgtb x (1 + 4 * m_s_std)) signal in
  let not_high_left := map negb (Py.from high_bool 1 ++ [false]) in
  let not_high_right := map negb ([false] ++ Py.upto high_bool (-1)) in
  high_l <- Np.ew2 andb high_bool not_high_left ;;
  high_lr <- Np.ew2 andb high_l not_high_right ;;
  high_p <- Np.compress high_lr indices ;;
  thr_mask <- (if (0 <? length high_p)%nat then Np.index_set thr_mask high_p false
               else Ok thr_mask) ;;
  (* check for anomalously low points *)
  let low_bool := map (fun x => Qltb x (1 - 4 * m_s_std)) signal in
  let not_low_left := map negb (Py.from low_bool 1 ++ [false]) in
  let not_low_right := map negb ([false] ++ Py.upto low_bool (-1)) in
  low_l <- Np.ew2 andb low_bool not_low_left ;;
  low_lr <- Np.ew2 andb low_l not_low_right ;;
  low_p <- Np.compress low_lr indices ;;
  thr_mask <- (if (0 <? length low_p)%nat then Np.index_set thr_mask low_p false
               else Ok thr_mask) ;;
  Ok thr_mask.

(** Point [i] lies more than four standard deviations above, or below, one. *)
Definition high_at (signal : list Q) (i : nat) : Prop :=
  (i < length signal)%nat /\ 1 + 4 * std signal < nth i signal 0.

Definition low_at (signal : list Q) (i : nat) : Prop :=
  (i < length signal)%nat /\ nth i signal 0 < 1 - 4 * std signal.

End RemoveOutliers.

(** A point with property [P] whose two neighbours do not have it. *)
Definition lone (P : nat -> Prop) (i : nat) : Prop :=
  P i /\ ~ P (S i) /\ forall j : nat, i = S j -> ~ P j.

(** ** utility.py: median normalisation *)

(** [l[start:stop] = vals] for an array [vals]: the lengths agree, or [vals]
    has one entry which is broadcast, or the assignment raises. *)
Definition set_range {A : Type} (l : list A) (start stop : Z) (vals : list A)
  : res (list A) :=
  let n := Z.of_nat (length l) in
  let s := Z.to_nat (Py.slice_bound n start) in
  let e := Z.to_nat (Py.slice_bound n stop) in
  let k := (e - s)%nat in
  if (length vals =? k)%nat then Ok (firstn s l ++ vals ++ skipn (s + k) l)
  else match vals with
       | [v] => Ok (firstn s l ++ repeat v k ++ skipn (s + k) l)
       | _ => Raise ValueError
       end.

(** [a / x] for an array and a scalar. *)
Definition div_scalar (a : list Q) (x : Q) : res (list Q) :=
  Np.sequence (map (fun v => Np.div v x) a).

(** [normalise_counts(flux_counts, flux_counts_err, i_sectors)], with the
    errors given, as in every call of the package; [i_sectors] is [None] or
    the rows [(s[0], s[1])].  The array [median] of the sector branch is only
    read at the entry just written, so the entry is bound to a name. *)
Definition normalise_counts (flux_counts flux_counts_err : list Q)
    (i_sectors : option (list (Z * Z))) : res (list Q * list Q) :=
  match i_sectors with
  | None =>
      median <- Np.median flux_counts ;;
      flux_norm <- div_scalar flux_counts median ;;
      flux_err_norm <- div_scalar flux_counts_err median ;;
      Ok (flux_norm, flux_err_norm)
  | Some sectors =>
      let flux_norm := repeat 0 (length flux_counts) in
      let flux_err_norm := repeat 0 (length flux_counts) in
      fold_left
        (fun (st : res (list Q * list Q)) (s : Z * Z) =>
           ' (flux_norm, flux_err_norm) <- st ;;
           median_i <- Np.median (Py.slice flux_counts (fst s) (snd s)) ;;
           v <- div_scalar (Py.slice flux_counts (fst s) (snd s)) median_i ;;
           flux_norm <- set_range flux_norm (fst s) (snd s) v ;;
           ve <- div_scalar (Py.slice flux_counts_err (fst s) (snd s)) median_i ;;
           flux_err_norm <- set_range flux_err_norm (fst s) (snd s) ve ;;
           Ok (flux_norm, flux_err_norm))
        sectors (Ok (flux_norm, flux_err_norm))
  end.

(** ** Flags from a known period *)

Section FlagsFromPeriod.

Variable std : list Q -> Q.

(** [flags_pst_from_period(t_0, period, ecl_mid, depths, widths, added_snr,
    flags_lrf, timestep, prim_fixed)].  It "follows almost the same exact
    steps as estimate_period (after it acquires a period)": the search for
    the second group and the pruning by width are the same statements, so
    the definitions made for them there are used.  [flags_lrf] is only read
    for [m_full], which is not used.  [period] is a numpy float, as
    [estimate_period] returns it, so that a zero period divides to a
    non-finite value. *)
Definition flags_pst_from_period (t_0 period : Q) (ecl_mid depths widths added_snr : list Q)
           (flags_lrf : list Z) (timestep : Q) (prim_fixed : bool) : res (list Z) :=
  let ecl_i := Py.range 0 (Z.of_nat (length ecl_mid)) in
  lo <- Np.min ecl_mid ;;
  hi <- Np.max ecl_mid ;;
  let domain := (lo - 1, hi + 1) in
  (* phase limit for how precise the eclipse phase must be matched *)
  lim <- Np.div ((24 # 10) * timestep) period ;;
  let phase_lim := Qmax (2 # 100) lim in
  (* calculate phases - for the second group we use shifted phases by half the period *)
  phases <- fold_time_series ecl_mid period t_0 ;;
  let phases2 := map (fun ph => mod1 ph - (1 # 2)) phases in
  (* extract the eclipses found at the ephemeris *)
  g1 <- extract_pattern ecl_mid widths added_snr t_0 period domain ;;
  '(g1_avg_phase, g1_avg_w) <-
    (if (0 <? length g1)%nat then
       ph <- Np.take phases g1 ;;
       w <- Np.take widths g1 ;;
       Ok (Np.avg ph, Np.avg w / period)
     else Ok (0, 0)) ;;
  (* determine the candidates for the second group *)
  g2 <- find_second_group g1 ecl_i added_snr phases2 g1_avg_phase g1_avg_w phase_lim ;;
  (* look for missing eclipses based on the average width of the eclipses *)
  g1 <- (if (0 <? length g1)%nat
         then add_missing_ecl std g1 ecl_i ecl_mid phases added_snr
                              g1_avg_phase g1_avg_w period
         else Ok g1) ;;
  g2 <- (if (0 <? length g2)%nat then
           ph <- Np.take phases2 g2 ;;
           w <- Np.take widths g2 ;;
           add_missing_ecl std g2 ecl_i ecl_mid phases2 added_snr
                           (Np.avg ph) (Np.avg w / period) period
         else Ok g2) ;;
  (* check for eclipses that include wide gaps (or are too narrow) *)
  g1 <- prune_by_width g1 widths period ;;
  g2 <- prune_by_width g2 widths period ;;
  '(g1, g2, primary_g1) <-
    (if negb prim_fixed then
       (* determine which group is primary/secondary if possible *)
       if Qltb (inject_Z (Z.of_nat (length g2)))
               (Qmax 2 ((5 # 100) * inject_Z (Z.of_nat (length g1)))) then
         (* more likely noise *)
         Ok (g1, [], true)
       else if ((2 <? length g1) && (2 <? length g2))%nat%bool then
         (* check whether we have eclipses spanning most of the period *)
         w1 <- Np.take widths g1 ;;
         w2 <- Np.take widths g2 ;;
         if Qgtb (Np.avg w1) ((8 # 10) * period) then Ok (g1, [], true)
         else if Qgtb (Np.avg w2) ((8 # 10) * period) then Ok ([], g2, false)
         else p <- determine_primary std g1 g2 depths widths added_snr ;; Ok (g1, g2, p)
       else p <- determine_primary std g1 g2 depths widths added_snr ;; Ok (g1, g2, p)
     else Ok (g1, g2, true)) ;;
  (* make the primary/secondary/tertiary flags_pst *)
  let flags_pst := repeat 0%Z (length ecl_mid) in
  flags_pst <- Np.index_set flags_pst g1 (if primary_g1 then 1 else 2)%Z ;;
  flags_pst <- Np.index_set flags_pst g2 (if primary_g1 then 2 else 1)%Z ;;
  Np.mask_set (Np.eq_int flags_pst 0) flags_pst 3%Z.

End FlagsFromPeriod.

(** ** eclipse_finding.py: walking along a curve *)

(** [sub in s] for two strings. *)
Definition contains (sub s : String.string) : bool :=
  match String.index 0 sub s with
  | Some _ => true
  | None => false
  end.

(** [check_edges(indices)] of [curve_walker], for [max_i = len(signal) - 1]. *)
Definition check_edges (max_i : Z) (indices : list Z) : list bool :=
  map (fun i => (i >? 0)%Z && (i <? max_i)%Z) indices.

(** [check_condition(prev_s, cur_s)] of [curve_walker]. *)
Definition check_condition (mode : String.string) (prev_s cur_s : list Q)
  : res (list bool) :=
  condition <- (if contains "up"%string mode then Np.ew2 Qltb prev_s cur_s
                else if contains "down"%string mode then Np.ew2 Qgtb prev_s cur_s
                else Ok (repeat false (length cur_s))) ;;
  if contains "zero"%string mode then
    closer <- Np.ew2 (fun p c => Qgtb (Qabs p) (Qabs c)) prev_s cur_s ;;
    Np.ew2 andb condition closer
  else Ok condition.

(** One turn of [curve_walker] from the indices [prev_i]: the statements
    of the loop body, which are also the statements before the loop (there
    with the look-ahead under [if (look_ahead > 1)], which an empty
    [range(1, look_ahead)] gives as well).  The result is [(cur_i, check)]. *)
Definition walker_turn (signal : list Q) (slope_sign : list Z) (no_gaps : list bool)
           (mode : String.string) (look_ahead max_i : Z) (prev_i : list Z)
  : res (list Z * list bool) :=
  prev_s <- Np.take signal prev_i ;;
  (* step in the desired direction (checking the edges of the array) *)
  ahead <- Np.ew2 Z.add prev_i slope_sign ;;
  let check_cur_edges := check_edges max_i ahead in
  step <- Np.ew2 (fun s b => (s * Z.b2z b)%Z) slope_sign check_cur_edges ;;
  cur_i <- Np.ew2 Z.add prev_i step ;;
  cur_s <- Np.take signal cur_i ;;
  (* check whether the next point might be closer to zero or lower/higher *)
  next_points <-
    for_each (Py.range 1 look_ahead)
      (fun i next_points =>
         far <- Np.ew2 (fun c s => (c + i * s)%Z) cur_i slope_sign ;;
         step_i <- Np.ew2 (fun s b => (i * s * Z.b2z b)%Z) slope_sign
                          (check_edges max_i far) ;;
         idx <- Np.ew2 Z.add cur_i step_i ;;
         s_i <- Np.take signal idx ;;
         c <- check_condition mode prev_s s_i ;;
         Np.ew2 orb next_points c)
      (repeat false (length cur_i)) ;;
  (* check that we fulfill the condition (also check next points) *)
  c <- check_condition mode prev_s cur_s ;;
  check_cur_slope <- Np.ew2 orb c next_points ;;
  (* additionally, check that we don't cross gaps *)
  check_gaps <- Np.take no_gaps cur_i ;;
  (* combine the checks for the current indices *)
  cg <- Np.ew2 andb check_cur_slope check_gaps ;;
  check <- Np.ew2 andb cg check_cur_edges ;;
  (* make the actual approved steps *)
  step <- Np.ew2 (fun s b => (s * Z.b2z b)%Z) slope_sign check ;;
  cur_i <- Np.ew2 Z.add prev_i step ;;
  Ok (cur_i, check).

(** The [while np.any(check)] loop; every turn uses one unit of [fuel], and
    [None] is a loop that was still running when the fuel was used up. *)
Fixpoint curve_walk (fuel : nat) (signal : list Q) (slope_sign : list Z)
         (no_gaps : list bool) (mode : String.string) (look_ahead max_i : Z)
         (cur_i : list Z) (check : list bool) : option (res (list Z)) :=
  match fuel with
  | O => None
  | S fuel' =>
      if Np.any check then
        match walker_turn signal slope_sign no_gaps mode look_ahead max_i cur_i with
        | Ok (cur_i', check') =>
            curve_walk fuel' signal slope_sign no_gaps mode look_ahead max_i cur_i' check'
        | Raise e => Some (Raise e)
        | NonFinite => Some NonFinite
        end
      else Some (Ok cur_i)
  end.

(** [curve_walker(signal, peaks, slope_sign, no_gaps, mode, look_ahead)]. *)
Definition curve_walker (fuel : nat) (signal : list Q) (peaks slope_sign : list Z)
           (no_gaps : list bool) (mode : String.string) (look_ahead : Z)
  : option (res (list Z)) :=
  let slope_sign := if contains "down"%string mode then map Z.opp slope_sign
                    else slope_sign in
  let max_i := (Z.of_nat (length signal) - 1)%Z in
  (* start at the peaks *)
  match walker_turn signal slope_sign no_gaps mode look_ahead max_i peaks with
  | Ok (cur_i, check) =>
      curve_walk fuel signal slope_sign no_gaps mode look_ahead max_i cur_i check
  | Raise e => Some (Raise e)
  | NonFinite => Some NonFinite
  end.

(** The distance in steps from index [c] to the end of an array of [n]
    points that lies in the direction [s]. *)
Definition room (n c s : Z) : nat :=
  if (s =? 1)%Z then Z.to_nat (n - 1 - c) else Z.to_nat c.

(** ** eclipse_finding.py: the symmetry of the eclipses *)

(** [normalised_symmetry(times, signal, ecl_indices)].  The source names the
    differences at the columns 0 and 1 [height_right] and [width_right], and
    those at the columns -1 and -2 [height_left] and [width_left]. *)
Definition normalised_symmetry (times signal : list Q) (ecl_indices : list ecl_row)
  : res Q :=
  symmetry <-
    (if (length ecl_indices =? 0)%nat then Ok 1
     else
       s_0 <- Np.take signal (map l_o ecl_indices) ;;
       s_1 <- Np.take signal (map l_i ecl_indices) ;;
       height_right <- Np.ew2 Qminus s_0 s_1 ;;
       s_m1 <- Np.take signal (map r_o ecl_indices) ;;
       s_m2 <- Np.take signal (map r_i ecl_indices) ;;
       height_left <- Np.ew2 Qminus s_m1 s_m2 ;;
       t_1 <- Np.take times (map l_i ecl_indices) ;;
       t_0 <- Np.take times (map l_o ecl_indices) ;;
       width_right <- Np.ew2 Qminus t_1 t_0 ;;
       t_m1 <- Np.take times (map r_o ecl_indices) ;;
       t_m2 <- Np.take times (map r_i ecl_indices) ;;
       width_left <- Np.ew2 Qminus t_m1 t_m2 ;;
       h_diff <- Np.ew2 (fun r l => Qabs (r - l)) height_right height_left ;;
       h_mid <- Np.ew2 (fun r l => (r + l) / 2) height_right height_left ;;
       height <- Np.div_arr h_diff h_mid ;;
       slope_right <- Np.div_arr height_right width_right ;;
       slope_left <- Np.div_arr height_left width_left ;;
       slope <- Np.ew2 (fun r l => Qabs (r - l)) slope_right slope_left ;;
       s_mid <- Np.ew2 (fun r l => (r + l) / 2) slope_right slope_left ;;
       slope <- Np.div_arr slope s_mid ;;
       mean_slope <- Np.mean slope ;;
       mean_height <- Np.mean height ;;
       let symmetry := mean_slope * mean_height / (7 # 10) in
       if Qltb symmetry (1 # 2) then
         (* draw out the part around 0 to get some better differentiation *)
         Ok (symmetry * (2 * (1 - symmetry)))
       else Ok symmetry) ;;
  py_div (1 # 2) ((1 # 2) + symmetry).

(** The four differences of one eclipse: the drop of the signal and the time
    taken between the outer and the inner edge, on the ingress side (columns
    0 and 1) and on the egress side (columns -1 and -2). *)
Definition ingress_drop (signal : list Q) (e : ecl_row) : Q :=
  at_index signal (l_o e) - at_index signal (l_i e).

Definition egress_drop (signal : list Q) (e : ecl_row) : Q :=
  at_index signal (r_o e) - at_index signal (r_i e).

Definition ingress_time (times : list Q) (e : ecl_row) : Q :=
  at_index times (l_i e) - at_index times (l_o e).

Definition egress_time (times : list Q) (e : ecl_row) : Q :=
  at_index times (r_o e) - at_index times (r_i e).

(** ** eclipse_finding.py: the slope of the eclipses *)

(** A boolean as a float factor. *)
Definition b2q (b : bool) : Q := if b then 1 else 0.

(** [normalised_slope(times, signal_s, deriv_1r, ecl_indices, ecl_mask,
    prim_sec, m_full)]. *)
Definition normalised_slope (times signal_s deriv_1r : list Q) (ecl_indices : list ecl_row)
           (ecl_mask prim_sec m_full : list bool) : res Q :=
  mask <- Np.ew2 andb prim_sec m_full ;;
  rows_ps <- Np.compress prim_sec ecl_indices ;;
  slope <-
    (if (length rows_ps =? 0)%nat then Ok [0]
     else
       rows <- Np.compress mask ecl_indices ;;
       if (length rows =? 0)%nat then
         (* no full eclipses *)
         s_0 <- Np.take signal_s (map l_o rows_ps) ;;
         s_1 <- Np.take signal_s (map l_i rows_ps) ;;
         height_right <- Np.ew2 Qminus s_0 s_1 ;;
         s_m1 <- Np.take signal_s (map r_o rows_ps) ;;
         s_m2 <- Np.take signal_s (map r_i rows_ps) ;;
         height_left <- Np.ew2 Qminus s_m1 s_m2 ;;
         t_1 <- Np.take times (map l_i rows_ps) ;;
         t_0 <- Np.take times (map l_o rows_ps) ;;
         width_right <- Np.ew2 Qminus t_1 t_0 ;;
         t_m1 <- Np.take times (map r_o rows_ps) ;;
         t_m2 <- Np.take times (map r_i rows_ps) ;;
         width_left <- Np.ew2 Qminus t_m1 t_m2 ;;
         (* either right or left is always going to be zero now (only half eclipses) *)
         height <- Np.ew2 Qplus height_right height_left ;;
         width <- Np.ew2 Qplus width_right width_left ;;
         Np.div_arr height width
       else
         s_0 <- Np.take signal_s (map l_o rows) ;;
         s_1 <- Np.take signal_s (map l_i rows) ;;
         height_right <- Np.ew2 Qminus s_0 s_1 ;;
         s_m1 <- Np.take signal_s (map r_o rows) ;;
         s_m2 <- Np.take signal_s (map r_i rows) ;;
         height_left <- Np.ew2 Qminus s_m1 s_m2 ;;
         t_1 <- Np.take times (map l_i rows) ;;
         t_0 <- Np.take times (map l_o rows) ;;
         width_right <- Np.ew2 Qminus t_1 t_0 ;;
         t_m1 <- Np.take times (map r_o rows) ;;
         t_m2 <- Np.take times (map r_i rows) ;;
         width_left <- Np.ew2 Qminus t_m1 t_m2 ;;
         slope_right <- Np.div_arr height_right width_right ;;
         slope_left <- Np.div_arr height_left width_left ;;
         Np.ew2 (fun r l => r * b2q (Qltb r l) + l * b2q (negb (Qltb r l)))
                slope_right slope_left) ;;
  deriv <- Np.compress ecl_mask deriv_1r ;;
  norm_factor <- Np.median (map Qabs deriv) ;;
  mean_slope <- Np.mean slope ;;
  py_div mean_slope norm_factor.

(** ** eclipse_finding.py: peaks on the same slope *)

(** The entry [same_pks[i]] that the first loop of [eliminate_same_peak]
    leaves for the peak [pk = peaks_13[i]] and the next one: whether the two
    fall on the same actual peak of [deriv_1s]. *)
Definition same_peak (deriv_1s : list Q) (pk pk_next : Z) : res bool :=
  pk1_h <- Py.get deriv_1s pk ;;
  pk2_h <- Py.get deriv_1s pk_next ;;
  if Qgtb pk1_h 0 && Qgtb pk2_h 0 then
    let pk_h := Qmin pk1_h pk2_h in
    Ok (forallb (fun x => Qgtb x ((9 # 10) * pk_h)) (Py.slice deriv_1s pk (pk_next + 1)))
  else if Qltb pk1_h 0 && Qltb pk2_h 0 then
    let pk_h := Qmax pk1_h pk2_h in
    Ok (forallb (fun x => Qltb x ((9 # 10) * pk_h)) (Py.slice deriv_1s pk (pk_next + 1)))
  else Ok false.

(** [eliminate_same_peak(deriv_1s, deriv_13s, peaks_13)]; [np.zeros] of a
    negative length raises. *)
Definition eliminate_same_peak (deriv_1s deriv_13s : list Q) (peaks_13 : list Z)
  : res (list bool) :=
  let n := Z.of_nat (length peaks_13) in
  if (n - 1 <? 0)%Z then Raise ValueError
  else
    same_pks <- for_each (Py.range 0 (n - 1))
                  (fun i same_pks =>
                     pk <- Py.get peaks_13 i ;;
                     pk_next <- Py.get peaks_13 (i + 1) ;;
                     same <- same_peak deriv_1s pk pk_next ;;
                     Py.set same_pks i same)
                  (repeat false (Z.to_nat (n - 1))) ;;
    (* let only the highest point in deriv_13s pass *)
    st <- for_each (Py.range 0 (Z.of_nat (length same_pks)))
            (fun i (st : list bool * Z) =>
               let passed := fst st in
               let last_i := snd st in
               same <- Py.get same_pks i ;;
               if (i >=? last_i)%Z && same then
                 let group :=
                   i :: filter (fun j => (j >? i)%Z
                                         && forallb (fun b => b) (Py.slice same_pks i j))
                               (Py.range 0 n) in
                 last_i <- (if (0 <? length group)%nat then Py.get group (-1) else Ok i) ;;
                 passed <- Np.index_set passed group false ;;
                 pk_g <- Np.take peaks_13 group ;;
                 d <- Np.take deriv_13s pk_g ;;
                 am <- Np.argmax d ;;
                 g <- Py.get group am ;;
                 passed <- Py.set passed g true ;;
                 Ok (passed, last_i)
               else Ok (passed, last_i))
            (repeat true (length peaks_13), (-1)%Z) ;;
    Ok (fst st).

(* ================================================================== *)
(** * Properties *)

(** ** Comparisons *)

Lemma Qltb_lt (x y : Q) : Qltb x y = true <-> x < y.
Proof.
  unfold Qltb. rewrite negb_true_iff.
  split; intro H.
  - apply Qnot_le_lt. intro Hle. apply Qle_bool_iff in Hle. congruence.
  - destruct (Qle_bool y x) eqn:E; [|reflexivity].
    apply Qle_bool_iff in E. exfalso. apply (Qlt_not_le _ _ H E).
Qed.

Lemma Qltb_ge (x y : Q) : Qltb x y = false <-> y <= x.
Proof.
  unfold Qltb. rewrite negb_false_iff. apply Qle_bool_iff.
Qed.

Lemma Qgtb_gt (x y : Q) : Qgtb x y = true <-> y < x.
Proof. apply Qltb_lt. Qed.


(** ** Python indexing *)

Lemma mapi_from_length {A B : Type} (f : Z -> A -> B) (l : list A) :
  forall j, length (Py.mapi_from f j l) = length l.
Proof.
  induction l as [|x r IH]; intro j; simpl; [reflexivity|].
  now rewrite IH.
Qed.

Lemma nth_mapi_from {A B : Type} (f : Z -> A -> B) (d : A) (d' : B) (l : list A) :
  forall (j : Z) (k : nat), (k < length l)%nat ->
  nth k (Py.mapi_from f j l) d' = f (j + Z.of_nat k)%Z (nth k l d).
Proof.
  induction l as [|x r IH]; intros j k Hk; simpl in Hk; [lia|].
  destruct k as [|k]; simpl.
  - now rewrite Z.add_0_r.
  - rewrite IH by lia. f_equal. lia.
Qed.

Lemma set_slice_length {A : Type} (l : list A) (s e : Z) (v : A) :
  length (Py.set_slice l s e v) = length l.
Proof. apply mapi_from_length. Qed.

Lemma nth_set_slice {A : Type} (l : list A) (s e : Z) (v d : A) (k : nat) :
  (0 <= s)%Z -> (0 <= e <= Z.of_nat (length l))%Z -> (k < length l)%nat ->
  nth k (Py.set_slice l s e v) d
  = if ((s <=? Z.of_nat k) && (Z.of_nat k <? e))%Z%bool then v else nth k l d.
Proof.
  intros Hs He Hk. unfold Py.set_slice, Py.mapi.
  rewrite (nth_mapi_from _ d d) by exact Hk.
  unfold Py.slice_bound.
  destruct (s <? 0)%Z eqn:E1; [apply Z.ltb_lt in E1; lia|].
  destruct (e <? 0)%Z eqn:E2; [apply Z.ltb_lt in E2; lia|].
  rewrite Z.add_0_l.
  rewrite (Z.min_l e) by lia.
  destruct (Z.min_spec s (Z.of_nat (length l))) as [[H1 H2]|[H1 H2]]; rewrite H2.
  - reflexivity.
  - replace (Z.of_nat (length l) <=? Z.of_nat k)%Z with false
      by (symmetry; apply Z.leb_gt; lia).
    replace (s <=? Z.of_nat k)%Z with false
      by (symmetry; apply Z.leb_gt; lia).
    reflexivity.
Qed.

(** ** Folding: C10 *)

Lemma mod1_range (x : Q) : 0 <= mod1 x /\ mod1 x < 1.
Proof.
  unfold mod1.
  pose proof (Qfloor_le x) as H1.
  pose proof (Qlt_floor x) as H2.
  rewrite inject_Z_plus in H2. change (inject_Z 1) with 1 in H2.
  split; lra.
Qed.

Lemma mod1_comp (x y : Q) : x == y -> mod1 x == mod1 y.
Proof.
  intro H. unfold mod1. rewrite (Qfloor_comp _ _ H). now rewrite H.
Qed.

(** C10. For a positive period [fold_time_series] returns one phase for
    each timestamp, every phase lies in the half-open interval [-0.5, 0.5),
    and a timestamp exactly half a period after the reference gets the
    phase -0.5. *)
Theorem fold_time_series_half_open (times : list Q) (period zero : Q) :
  0 < period ->
  exists phases : list Q,
    fold_time_series times period zero = Ok phases
    /\ length phases = length times
    /\ Forall (fun ph => - (1 # 2) <= ph /\ ph < (1 # 2)) phases
    /\ (forall i : nat, (i < length times)%nat ->
        nth i times 0 - zero == period / 2 -> nth i phases 0 == - (1 # 2)).
Proof.
  intro Hp. unfold fold_time_series.
  destruct (Qeq_bool period 0) eqn:E; [apply Qeq_bool_iff in E; lra|].
  eexists. split; [reflexivity|]. split; [apply length_map|]. split.
  - apply Forall_forall. intros ph Hin.
    apply in_map_iff in Hin. destruct Hin as [t [Ht _]]. subst ph.
    unfold fold_phase.
    destruct (mod1_range ((t - zero) / period + (1 # 2))) as [H1 H2].
    split; lra.
  - intros i Hi Ht.
    rewrite (nth_indep _ 0 ((fun t => fold_phase t period zero) 0))
      by now rewrite length_map.
    rewrite (map_nth (fun t => fold_phase t period zero)). unfold fold_phase.
    assert (E1 : (nth i times 0 - zero) / period + (1 # 2) == 1).
    { rewrite Ht. field. lra. }
    rewrite (mod1_comp _ _ E1). reflexivity.
Qed.

Lemma fold_time_series_half_open_witness :
  0 < 1
  /\ exists phases : list Q,
       fold_time_series [0; 1; 3 # 2; 5 # 2; - (7 # 4)] 1 (1 # 2) = Ok phases
       /\ Forall (fun ph => - (1 # 2) <= ph /\ ph < (1 # 2)) phases.
Proof.
  split; [reflexivity|].
  destruct (fold_time_series_half_open [0; 1; 3 # 2; 5 # 2; - (7 # 4)] 1 (1 # 2))
    as [phases [E [_ [H _]]]]; [reflexivity|].
  exists phases. split; [exact E|exact H].
Defined.

(** ** Masks: C8 *)

Lemma increasing_lt_iff (times : list Q) (i j : nat) :
  increasing times -> (i < length times)%nat -> (j < length times)%nat ->
  (nth i times 0 < nth j times 0 <-> (i < j)%nat).
Proof.
  intros Hinc Hi Hj. split.
  - intro Hlt. destruct (Nat.lt_ge_cases i j) as [H|H]; [exact H|].
    exfalso. destruct (Nat.eq_dec i j) as [->|Hne].
    + apply (Qlt_irrefl _ Hlt).
    + assert (Hji : nth j times 0 < nth i times 0) by (apply Hinc; lia).
      apply (Qlt_irrefl (nth i times 0)). now apply Qlt_trans with (nth j times 0).
  - intro H. apply Hinc. lia.
Qed.

(** One eclipse covered by time and by index gives the same mask. *)
Lemma cut_step_mask_step (times : list Q) (mask : list bool) (i1 i2 : Z) :
  increasing times -> length mask = length times ->
  (0 <= i1 <= i2)%Z -> (i2 < Z.of_nat (length times))%Z ->
  map (fun mt => andb (fst mt)
                   (orb (Qltb (snd mt) (at_index times i1))
                        (Qgtb (snd mt) (at_index times i2))))
      (combine mask times)
  = Py.set_slice mask i1 (i2 + 1)%Z false.
Proof.
  intros Hinc Hlen H12 H2.
  apply (nth_ext _ _ true true).
  - rewrite length_map, length_combine, set_slice_length. lia.
  - intros k Hk. rewrite length_map, length_combine in Hk.
    assert (Hkm : (k < length mask)%nat) by lia.
    assert (Hkt : (k < length times)%nat) by lia.
    rewrite nth_set_slice by lia.
    rewrite (nth_indep _ true (andb (fst (true, 0)) (orb (Qltb (snd (true, 0)) (at_index times i1))
                        (Qgtb (snd (true, 0)) (at_index times i2)))))
      by (rewrite length_map, length_combine; lia).
    rewrite (map_nth (fun mt => andb (fst mt)
                   (orb (Qltb (snd mt) (at_index times i1))
                        (Qgtb (snd mt) (at_index times i2))))).
    rewrite combine_nth by exact Hlen. simpl fst. simpl snd.
    unfold at_index.
    assert (L : Qltb (nth k times 0) (nth (Z.to_nat i1) times 0)
                = negb (i1 <=? Z.of_nat k)%Z).
    { destruct (i1 <=? Z.of_nat k)%Z eqn:E; simpl.
      - apply Z.leb_le in E. apply Qltb_ge.
        destruct (Nat.eq_dec (Z.to_nat i1) k) as [->|Hne]; [apply Qle_refl|].
        apply Qlt_le_weak. apply Hinc. lia.
      - apply Z.leb_gt in E. apply Qltb_lt. apply Hinc. lia. }
    assert (G : Qgtb (nth k times 0) (nth (Z.to_nat i2) times 0)
                = negb (Z.of_nat k <? i2 + 1)%Z).
    { unfold Qgtb. destruct (Z.of_nat k <? i2 + 1)%Z eqn:E; simpl.
      - apply Z.ltb_lt in E. apply Qltb_ge.
        destruct (Nat.eq_dec (Z.to_nat i2) k) as [->|Hne]; [apply Qle_refl|].
        apply Qlt_le_weak. apply Hinc. lia.
      - apply Z.ltb_ge in E. apply Qltb_lt. apply Hinc. lia. }
    rewrite L, G.
    destruct (i1 <=? Z.of_nat k)%Z, (Z.of_nat k <? i2 + 1)%Z, (nth k mask true);
      reflexivity.
Qed.

Lemma mask_fold_length (pairs : list (Z * Z)) :
  forall mask : list bool,
  length (fold_left (fun m ecl => Py.set_slice m (fst ecl) (snd ecl + 1)%Z false)
                    pairs mask) = length mask.
Proof.
  induction pairs as [|p r IH]; intro mask; simpl; [reflexivity|].
  now rewrite IH, set_slice_length.
Qed.

Lemma cut_fold_mask_fold (times : list Q) (pairs : list (Z * Z)) :
  increasing times ->
  Forall (fun p => (0 <= fst p <= snd p)%Z /\ (snd p < Z.of_nat (length times))%Z) pairs ->
  forall mask : list bool, length mask = length times ->
  fold_left
    (fun m ecl =>
       map (fun mt => andb (fst mt) (orb (Qltb (snd mt) (fst ecl)) (Qgtb (snd mt) (snd ecl))))
           (combine m times))
    (map (fun p => (at_index times (fst p), at_index times (snd p))) pairs) mask
  = fold_left (fun m ecl => Py.set_slice m (fst ecl) (snd ecl + 1)%Z false) pairs mask.
Proof.
  intros Hinc Hall. induction Hall as [|p r [Hp1 Hp2] _ IH]; intros mask Hlen; simpl.
  - reflexivity.
  - rewrite cut_step_mask_step by assumption.
    apply IH. now rewrite set_slice_length.
Qed.

Lemma nth_mask_fold (n : nat) (pairs : list (Z * Z)) :
  Forall (fun p => (0 <= fst p <= snd p)%Z /\ (snd p < Z.of_nat n)%Z) pairs ->
  forall (mask : list bool) (k : nat), length mask = n -> (k < n)%nat ->
  nth k (fold_left (fun m ecl => Py.set_slice m (fst ecl) (snd ecl + 1)%Z false)
                   pairs mask) true
  = andb (nth k mask true)
         (negb (existsb (fun p => ((fst p <=? Z.of_nat k) && (Z.of_nat k <=? snd p))%Z%bool)
                        pairs)).
Proof.
  intro Hall. induction Hall as [|p r [Hp1 Hp2] _ IH]; intros mask k Hlen Hk; simpl.
  - now rewrite andb_true_r.
  - rewrite IH by (rewrite ?set_slice_length; assumption).
    rewrite nth_set_slice by lia.
    replace (Z.of_nat k <? snd p + 1)%Z with (Z.of_nat k <=? snd p)%Z
      by (destruct (Z.of_nat k <=? snd p)%Z eqn:E; symmetry;
          [apply Z.leb_le in E; apply Z.ltb_lt; lia
          |apply Z.leb_gt in E; apply Z.ltb_ge; lia]).
    destruct ((fst p <=? Z.of_nat k) && (Z.of_nat k <=? snd p))%Z%bool; simpl.
    + now rewrite andb_false_r.
    + reflexivity.
Qed.

(** C8. For strictly increasing times and index pairs [i1 <= i2] within
    bounds, [cut_eclipses] on the time pairs [(times[i1], times[i2])] and
    [mask_eclipses] on the index pairs return the same mask, and that mask is
    [False] exactly at the indices lying in some [i1..i2], endpoints
    included. *)
Theorem cut_eclipses_mask_eclipses (times : list Q) (pairs : list (Z * Z)) :
  increasing times ->
  Forall (fun p => (0 <= fst p <= snd p)%Z /\ (snd p < Z.of_nat (length times))%Z) pairs ->
  cut_eclipses times (map (fun p => (at_index times (fst p), at_index times (snd p))) pairs)
  = mask_eclipses times pairs
  /\ length (mask_eclipses times pairs) = length times
  /\ forall k : nat, (k < length times)%nat ->
     nth k (mask_eclipses times pairs) true
     = negb (existsb (fun p => ((fst p <=? Z.of_nat k) && (Z.of_nat k <=? snd p))%Z%bool)
                     pairs).
Proof.
  intros Hinc Hall. unfold cut_eclipses, mask_eclipses. split; [|split].
  - apply cut_fold_mask_fold; [assumption|assumption|apply repeat_length].
  - now rewrite mask_fold_length, repeat_length.
  - intros k Hk.
    rewrite (nth_mask_fold _ _ Hall) by (try apply repeat_length; assumption).
    rewrite nth_repeat_lt by exact Hk. reflexivity.
Qed.

Lemma increasingb_head (x : Q) (r : list Q) :
  increasingb (x :: r) = true -> forall k : nat, (k < length r)%nat -> x < nth k r 0.
Proof.
  revert x. induction r as [|y r IH]; intros x H k Hk; simpl in Hk; [lia|].
  simpl in H. apply andb_true_iff in H. destruct H as [Hxy Hr].
  apply Qltb_lt in Hxy.
  destruct k as [|k]; simpl; [exact Hxy|].
  apply Qlt_trans with y; [exact Hxy|].
  apply IH; [exact Hr|lia].
Qed.

Lemma increasingb_sound (l : list Q) : increasingb l = true -> increasing l.
Proof.
  induction l as [|x r IH]; intros H i j Hij; simpl in Hij; [lia|].
  destruct j as [|j]; [lia|].
  destruct i as [|i]; simpl.
  - apply (increasingb_head x r H). lia.
  - apply IH; [|lia].
    simpl in H. destruct r; [reflexivity|].
    apply andb_true_iff in H. apply H.
Qed.

Lemma cut_eclipses_mask_eclipses_witness :
  cut_eclipses [0; 1 # 2; 1; 3 # 2; 2; 7 # 2] [(1 # 2, 1); (2, 2)]
  = mask_eclipses [0; 1 # 2; 1; 3 # 2; 2; 7 # 2] [(1, 2); (4, 4)]%Z.
Proof.
  apply (cut_eclipses_mask_eclipses [0; 1 # 2; 1; 3 # 2; 2; 7 # 2]
           [(1, 2); (4, 4)]%Z).
  - apply increasingb_sound. reflexivity.
  - repeat constructor; simpl; lia.
Defined.

(** ** Facts on the array primitives *)

Lemma from_1 {A : Type} (a : list A) : Py.from a 1 = skipn 1 a.
Proof.
  unfold Py.from, Py.slice_bound. change (1 <? 0)%Z with false. cbv iota.
  destruct a as [|x r]; [reflexivity|].
  replace (Z.to_nat (Z.min 1 (Z.of_nat (length (x :: r))))) with 1%nat; [reflexivity|].
  simpl length. lia.
Qed.

Lemma upto_m1 {A : Type} (a : list A) : Py.upto a (-1) = firstn (length a - 1) a.
Proof.
  unfold Py.upto, Py.slice_bound. change (-1 <? 0)%Z with true. cbv iota.
  f_equal. lia.
Qed.

Lemma diff_length (a : list Q) : length (Np.diff a) = (length a - 1)%nat.
Proof.
  unfold Np.diff. rewrite length_map, length_combine, from_1, upto_m1.
  rewrite length_skipn, length_firstn. lia.
Qed.

Lemma nth_diff (a : list Q) (i : nat) :
  (S i < length a)%nat -> nth i (Np.diff a) 0 = nth (S i) a 0 - nth i a 0.
Proof.
  intro Hi. unfold Np.diff.
  rewrite (nth_indep _ 0 ((fun xy : Q * Q => fst xy - snd xy) (0, 0)))
    by (fold (Np.diff a); rewrite diff_length; lia).
  rewrite (map_nth (fun xy : Q * Q => fst xy - snd xy)).
  rewrite combine_nth
    by (rewrite from_1, upto_m1, length_skipn, length_firstn; lia).
  rewrite from_1, upto_m1. cbv beta. unfold fst, snd.
  rewrite (nth_skipn 1), nth_firstn.
  replace (i <? length a - 1)%nat with true by (symmetry; apply Nat.ltb_lt; lia).
  reflexivity.
Qed.

Lemma get_nonneg {A : Type} (l : list A) (d : A) (i : Z) :
  (0 <= i < Z.of_nat (length l))%Z -> Py.get l i = Ok (nth (Z.to_nat i) l d).
Proof.
  intro Hi. unfold Py.get, Py.norm_index.
  destruct (i <? 0)%Z eqn:E; [apply Z.ltb_lt in E; lia|]. rewrite E.
  destruct (nth_error l (Z.to_nat i)) eqn:En.
  - now rewrite (nth_error_nth _ _ d En).
  - apply nth_error_None in En. lia.
Qed.

Lemma get_neg {A : Type} (l : list A) (d : A) (i : Z) :
  (- Z.of_nat (length l) <= i < 0)%Z ->
  Py.get l i = Ok (nth (Z.to_nat (i + Z.of_nat (length l))) l d).
Proof.
  intro Hi. unfold Py.get, Py.norm_index.
  destruct (i <? 0)%Z eqn:E; [|apply Z.ltb_ge in E; lia].
  destruct (i + Z.of_nat (length l) <? 0)%Z eqn:E2; [apply Z.ltb_lt in E2; lia|].
  destruct (nth_error l (Z.to_nat (i + Z.of_nat (length l)))) eqn:En.
  - now rewrite (nth_error_nth _ _ d En).
  - apply nth_error_None in En. lia.
Qed.

Lemma update_length {A : Type} (l : list A) (k : nat) (v : A) :
  length (Py.update l k v) = length l.
Proof.
  revert k. induction l as [|x r IH]; intros [|k]; simpl; try reflexivity.
  now rewrite IH.
Qed.

Lemma nth_update {A : Type} (l : list A) (k j : nat) (v d : A) :
  (k < length l)%nat ->
  nth j (Py.update l k v) d = if (j =? k)%nat then v else nth j l d.
Proof.
  revert k j. induction l as [|x r IH]; intros k j Hk; simpl in Hk; [lia|].
  destruct k as [|k], j as [|j]; simpl; try reflexivity.
  apply IH. lia.
Qed.

Lemma set_nonneg {A : Type} (l : list A) (i : Z) (v : A) :
  (0 <= i < Z.of_nat (length l))%Z -> Py.set l i v = Ok (Py.update l (Z.to_nat i) v).
Proof.
  intro Hi. unfold Py.set, Py.norm_index.
  destruct (i <? 0)%Z eqn:E; [apply Z.ltb_lt in E; lia|]. rewrite E.
  destruct (Z.of_nat (length l) <=? i)%Z eqn:E2; [apply Z.leb_le in E2; lia|].
  reflexivity.
Qed.

Lemma set_neg {A : Type} (l : list A) (i : Z) (v : A) :
  (- Z.of_nat (length l) <= i < 0)%Z ->
  Py.set l i v = Ok (Py.update l (Z.to_nat (i + Z.of_nat (length l))) v).
Proof.
  intro Hi. unfold Py.set, Py.norm_index.
  destruct (i <? 0)%Z eqn:E; [|apply Z.ltb_ge in E; lia].
  destruct (i + Z.of_nat (length l) <? 0)%Z eqn:E2; [apply Z.ltb_lt in E2; lia|].
  destruct (Z.of_nat (length l) <=? i + Z.of_nat (length l))%Z eqn:E3;
    [apply Z.leb_le in E3; lia|].
  reflexivity.
Qed.

(** Array division by an array without zeros. *)
Lemma sequence_div (a b : list Q) :
  length a = length b -> Forall (fun y => ~ y == 0) b ->
  Np.sequence (map (fun xy : Q * Q => Np.div (fst xy) (snd xy)) (combine a b))
  = Ok (map (fun xy : Q * Q => fst xy / snd xy) (combine a b)).
Proof.
  revert b. induction a as [|x a IH]; intros [|y b] Hlen Hnz; simpl in *;
    try reflexivity; try discriminate.
  inversion Hnz as [|? ? Hy Hb]; subst.
  unfold Np.div at 1.
  destruct (Qeq_bool y 0) eqn:E; [apply Qeq_bool_iff in E; contradiction|].
  simpl. rewrite IH by (auto; lia). reflexivity.
Qed.

Lemma div_arr_ok (a b : list Q) :
  length a = length b -> Forall (fun y => ~ y == 0) b ->
  Np.div_arr a b = Ok (map (fun xy : Q * Q => fst xy / snd xy) (combine a b)).
Proof.
  intros Hlen Hnz. unfold Np.div_arr, Np.ew2.
  rewrite Hlen, Nat.eqb_refl. simpl. now apply sequence_div.
Qed.

Lemma nth_map2 {A B C : Type} (f : A * B -> C) (a : list A) (b : list B)
      (da : A) (db : B) (dc : C) (i : nat) :
  length a = length b -> (i < length a)%nat ->
  nth i (map f (combine a b)) dc = f (nth i a da, nth i b db).
Proof.
  intros Hlen Hi.
  rewrite (nth_indep _ dc (f (da, db))) by (rewrite length_map, length_combine; lia).
  rewrite (map_nth f). now rewrite combine_nth.
Qed.

(** ** Derivatives without smoothing: C3 *)

Section RawDerivatives.

Variable times : list Q.
Hypothesis times_increasing : increasing times.
Hypothesis times_two : (2 <= length times)%nat.

Let n := length times.
Let t_extra := 2 * nth (n - 1) times 0 - nth (n - 2) times 0.
Let diff_t := Np.diff (times ++ [t_extra]).

Lemma diff_t_length : length diff_t = n.
Proof.
  unfold diff_t. rewrite diff_length, length_app. simpl. unfold n. lia.
Qed.

Lemma nth_diff_t (i : nat) :
  (i < n)%nat ->
  nth i diff_t 0
  = if (S i <? n)%nat then nth (S i) times 0 - nth i times 0
    else t_extra - nth (n - 1) times 0.
Proof.
  intro Hi. unfold diff_t. rewrite nth_diff by (rewrite length_app; simpl; fold n; lia).
  destruct (S i <? n)%nat eqn:E.
  - apply Nat.ltb_lt in E. now rewrite !app_nth1 by (fold n; lia).
  - apply Nat.ltb_ge in E. assert (i = (n - 1)%nat) as -> by lia.
    rewrite app_nth2 by (fold n; lia).
    rewrite app_nth1 by (fold n; lia).
    replace (S (n - 1) - length times)%nat with 0%nat by (fold n; lia).
    reflexivity.
Qed.

Lemma diff_t_positive (i : nat) : (i < n)%nat -> 0 < nth i diff_t 0.
Proof.
  intro Hi. rewrite nth_diff_t by exact Hi.
  destruct (S i <? n)%nat eqn:E.
  - apply Nat.ltb_lt in E.
    assert (H : nth i times 0 < nth (S i) times 0) by (apply times_increasing; fold n; lia).
    lra.
  - unfold t_extra.
    assert (H : nth (n - 2) times 0 < nth (n - 1) times 0)
      by (apply times_increasing; fold n; lia).
    lra.
Qed.

Lemma diff_t_nonzero : Forall (fun y => ~ y == 0) diff_t.
Proof.
  apply Forall_forall. intros y Hy.
  destruct (In_nth _ _ 0 Hy) as [i [Hi <-]]. rewrite diff_t_length in Hi.
  pose proof (diff_t_positive i Hi). lra.
Qed.

Lemma raw_derivative_forward (c : list Q) :
  length c = n ->
  exists d : list Q,
    raw_derivative c diff_t = Ok d
    /\ length d = n
    /\ forall i : nat, (i < n)%nat -> nth i d 0 = forward_quotient times c i.
Proof.
  intro Hc. unfold raw_derivative.
  rewrite (get_neg c 0 (-1)) by lia.
  rewrite (get_neg c 0 (-2)) by lia.
  cbn [bind].
  assert (Hlen : length (Np.diff c ++ [nth (Z.to_nat (-1 + Z.of_nat (length c))) c 0
                                      - nth (Z.to_nat (-2 + Z.of_nat (length c))) c 0])
                 = length diff_t).
  { rewrite length_app, diff_length, diff_t_length. simpl. lia. }
  rewrite (div_arr_ok _ _ Hlen diff_t_nonzero).
  eexists. split; [reflexivity|]. split.
  - rewrite length_map, length_combine, Hlen, diff_t_length. lia.
  - intros i Hi.
    rewrite (nth_map2 _ _ _ 0 0) by (rewrite ?Hlen, ?diff_t_length; lia).
    unfold fst, snd. rewrite nth_diff_t by exact Hi.
    unfold forward_quotient. fold n.
    destruct (S i <? n)%nat eqn:E.
    + apply Nat.ltb_lt in E.
      rewrite app_nth1 by (rewrite diff_length; lia).
      rewrite nth_diff by lia. reflexivity.
    + apply Nat.ltb_ge in E. assert (i = (n - 1)%nat) as -> by lia.
      rewrite app_nth2 by (rewrite diff_length; lia).
      rewrite diff_length, Hc. replace (n - 1 - (n - 1))%nat with 0%nat by lia.
      replace (Z.to_nat (-1 + Z.of_nat n)) with (n - 1)%nat by lia.
      replace (Z.to_nat (-2 + Z.of_nat n)) with (n - 2)%nat by lia.
      reflexivity.
Qed.

End RawDerivatives.

(** C3. For strictly increasing times of length at least 2 and a signal of
    the same length, [prepare_derivatives] with [n_kernel = 1] returns the
    signal itself as [signal_s], the same stack as raw and as smoothed
    derivatives, each derivative is the forward difference quotient of the
    previous curve (last difference repeated, trailing time delta taken to
    the extrapolated time [2 * times[-1] - times[-2]]), and the fourth curve
    is minus the product of the first and the third. *)
Theorem prepare_derivatives_unsmoothed (times signal : list Q) (no_gaps : bool) :
  increasing times -> (2 <= length times)%nat -> length signal = length times ->
  exists d : derivs,
    prepare_derivatives times signal 1 no_gaps = Ok (signal, d, d)
    /\ length (deriv_1 d) = length times
    /\ length (deriv_2 d) = length times
    /\ length (deriv_3 d) = length times
    /\ length (deriv_13 d) = length times
    /\ forall i : nat, (i < length times)%nat ->
       nth i (deriv_1 d) 0 = forward_quotient times signal i
       /\ nth i (deriv_2 d) 0 = forward_quotient times (deriv_1 d) i
       /\ nth i (deriv_3 d) 0 = forward_quotient times (deriv_2 d) i
       /\ nth i (deriv_13 d) 0 = - nth i (deriv_1 d) 0 * nth i (deriv_3 d) 0.
Proof.
  intros Hinc H2 Hlen. unfold prepare_derivatives.
  rewrite (get_neg times 0 (-1)) by lia.
  rewrite (get_neg times 0 (-2)) by lia.
  cbn [bind]. change (1 =? 1)%Z with true. cbv iota.
  replace (Z.to_nat (-1 + Z.of_nat (length times))) with (length times - 1)%nat by lia.
  replace (Z.to_nat (-2 + Z.of_nat (length times))) with (length times - 2)%nat by lia.
  destruct (raw_derivative_forward times Hinc H2 signal Hlen) as [d1 [E1 [L1 N1]]].
  destruct (raw_derivative_forward times Hinc H2 d1 L1) as [d2 [E2 [L2 N2]]].
  destruct (raw_derivative_forward times Hinc H2 d2 L2) as [d3 [E3 [L3 N3]]].
  rewrite E1. cbn [bind]. rewrite E2. cbn [bind]. rewrite E3. cbn [bind].
  unfold Np.ew2. rewrite L1, L3, Nat.eqb_refl. cbn [bind].
  unfold vstack4. rewrite length_map, length_combine, L1, L2, L3, Nat.min_id, Nat.eqb_refl.
  cbn [bind].
  eexists. split; [reflexivity|]. simpl.
  repeat split; auto.
  - rewrite length_map, length_combine. lia.
  - rewrite (nth_map2 _ _ _ 0 0) by lia. reflexivity.
Qed.

Lemma prepare_derivatives_unsmoothed_witness :
  exists d : derivs,
    prepare_derivatives [0; 1; 2; 4; 5] [1; 3; 2; 6; 7] 1 false
    = Ok ([1; 3; 2; 6; 7], d, d).
Proof.
  destruct (prepare_derivatives_unsmoothed [0; 1; 2; 4; 5] [1; 3; 2; 6; 7] false)
    as [d [H _]].
  - apply increasingb_sound. reflexivity.
  - simpl. lia.
  - reflexivity.
  - exists d. exact H.
Defined.

(** ** Loops *)

Lemma for_each_seq_inv {St : Type} (I : Z -> St -> Prop) (body : Z -> St -> res St) (a : Z) :
  forall (k s : nat) (st : St),
  I (a + Z.of_nat s)%Z st ->
  (forall (i : Z) (st : St),
      (a + Z.of_nat s <= i < a + Z.of_nat s + Z.of_nat k)%Z -> I i st ->
      exists st' : St, body i st = Ok st' /\ I (i + 1)%Z st') ->
  exists st' : St,
    for_each (map (fun j => (a + Z.of_nat j)%Z) (seq s k)) body st = Ok st'
    /\ I (a + Z.of_nat s + Z.of_nat k)%Z st'.
Proof.
  induction k as [|k IH]; intros s st H0 Hstep; cbn [seq map for_each].
  - exists st. split; [reflexivity|]. now rewrite Z.add_0_r.
  - destruct (Hstep (a + Z.of_nat s)%Z st ltac:(lia) H0) as [st1 [E1 H1]].
    rewrite E1. cbn [bind].
    destruct (IH (S s) st1) as [st2 [E2 H2]].
    + replace (a + Z.of_nat (S s))%Z with (a + Z.of_nat s + 1)%Z by lia. exact H1.
    + intros i st' Hi. apply Hstep. lia.
    + exists st2. split; [exact E2|].
      replace (a + Z.of_nat s + Z.of_nat (S k))%Z
        with (a + Z.of_nat (S s) + Z.of_nat k)%Z by lia.
      exact H2.
Qed.

(** A [for] loop over [range(a, b)] with an invariant. *)
Lemma for_each_range_inv {St : Type} (I : Z -> St -> Prop) (body : Z -> St -> res St)
      (a b : Z) (st : St) :
  (a <= b)%Z -> I a st ->
  (forall (i : Z) (st : St), (a <= i < b)%Z -> I i st ->
      exists st' : St, body i st = Ok st' /\ I (i + 1)%Z st') ->
  exists st' : St, for_each (Py.range a b) body st = Ok st' /\ I b st'.
Proof.
  intros Hab H0 Hstep. unfold Py.range.
  destruct (for_each_seq_inv I body a (Z.to_nat (b - a)) 0 st) as [st' [E H]].
  - replace (a + Z.of_nat 0)%Z with a by lia. exact H0.
  - intros i st1 Hi. apply Hstep. lia.
  - exists st'. split; [exact E|].
    replace (a + Z.of_nat 0 + Z.of_nat (Z.to_nat (b - a)))%Z with b in H by lia.
    exact H.
Qed.

Lemma inject_Z_pos (z : Z) : (0 < z)%Z -> 0 < inject_Z z.
Proof. intro H. change 0 with (inject_Z 0). now rewrite <- Zlt_Qlt. Qed.

Lemma inject_Z_nonzero (z : Z) : (0 < z)%Z -> ~ inject_Z z == 0.
Proof. intro H. pose proof (inject_Z_pos z H). lra. Qed.

Lemma Forall_skipn {A : Type} (P : A -> Prop) (k : nat) (l : list A) :
  Forall P l -> Forall P (skipn k l).
Proof.
  intro H. rewrite <- (firstn_skipn k l) in H. apply Forall_app in H. apply H.
Qed.

(** ** Smoothing a constant: C7 *)

Section SmoothConstant.

Variable c : Q.
Variable a : list Q.
Hypothesis a_constant : Forall (fun x => x == c) a.

Let L := Z.of_nat (length a).

Lemma nth_constant (k : nat) : (k < length a)%nat -> nth k a 0 == c.
Proof.
  intro Hk. pose proof (proj1 (Forall_forall _ _) a_constant) as H.
  apply H. now apply nth_In.
Qed.

Lemma get_constant (i : Z) :
  (- L <= i < L)%Z -> exists x : Q, Py.get a i = Ok x /\ x == c.
Proof.
  intro Hi. destruct (Z.ltb_spec i 0).
  - rewrite (get_neg a 0 i) by (fold L; lia).
    eexists. split; [reflexivity|]. apply nth_constant. fold L. lia.
  - rewrite (get_nonneg a 0 i) by (fold L; lia).
    eexists. split; [reflexivity|]. apply nth_constant. lia.
Qed.

(** Writing [c] at a position keeps a prefix of [c]'s and extends it. *)
Lemma set_prefix (out : list Q) (i : Z) (v : Q) :
  Z.of_nat (length out) = L -> (0 <= i < L)%Z -> v == c ->
  (forall k : nat, (Z.of_nat k < i)%Z -> nth k out 0 == c) ->
  exists out' : list Q,
    Py.set out i v = Ok out' /\ Z.of_nat (length out') = L
    /\ forall k : nat, (Z.of_nat k < i + 1)%Z -> nth k out' 0 == c.
Proof.
  intros Hlen Hi Hv Hpre. rewrite set_nonneg by lia.
  eexists. split; [reflexivity|]. split; [now rewrite update_length|].
  intros k Hk. rewrite nth_update by lia.
  destruct (Nat.eqb_spec k (Z.to_nat i)); [exact Hv|].
  apply Hpre. lia.
Qed.

(** Writing [c] anywhere in an array of [c]'s. *)
Lemma set_all (out : list Q) (i : Z) (v : Q) :
  Z.of_nat (length out) = L -> (- L <= i < L)%Z -> v == c ->
  Forall (fun x => x == c) out ->
  exists out' : list Q,
    Py.set out i v = Ok out' /\ Z.of_nat (length out') = L
    /\ Forall (fun x => x == c) out'.
Proof.
  intros Hlen Hi Hv Hall.
  assert (Hupd : forall k : nat, (k < length out)%nat ->
                 Forall (fun x => x == c) (Py.update out k v)).
  { intros k Hk. apply Forall_forall. intros x Hx.
    destruct (In_nth _ _ 0 Hx) as [j [Hj <-]]. rewrite update_length in Hj.
    rewrite nth_update by exact Hk.
    destruct (j =? k)%nat; [exact Hv|].
    apply (proj1 (Forall_forall _ _) Hall). now apply nth_In. }
  destruct (Z.ltb_spec i 0).
  - rewrite set_neg by lia. eexists. split; [reflexivity|].
    split; [now rewrite update_length|]. apply Hupd. lia.
  - rewrite set_nonneg by lia. eexists. split; [reflexivity|].
    split; [now rewrite update_length|]. apply Hupd. lia.
Qed.

Variable n_kernel : Z.
Hypothesis kernel_range : (2 <= n_kernel <= L)%Z.

Lemma smooth_constant_ge2 :
  exists out : list Q,
    smooth a n_kernel None = Ok out
    /\ length out = length a
    /\ Forall (fun x => x == c) out.
Proof.
  unfold smooth. cbv zeta.
  pose proof (Z.div_mod n_kernel 2 ltac:(lia)) as Hdm.
  pose proof (Z.mod_pos_bound n_kernel 2 ltac:(lia)) as Hmod.
  set (n_2 := (n_kernel / 2)%Z) in *.
  set (n_3 := (n_kernel mod 2)%Z) in *.
  (* the first n_kernel points: averages of the points so far *)
  destruct (for_each_range_inv
              (fun i st => s_sum st == inject_Z i * c
                           /\ Z.of_nat (length (s_out st)) = L
                           /\ forall k : nat, (Z.of_nat k < i)%Z -> nth k (s_out st) 0 == c)
              (fun i st =>
                 ai <- Py.get a i ;;
                 let sum := s_sum st + ai in
                 out <- Py.set (s_out st) i (sum / inject_Z (i + 1)) ;;
                 Ok (mk_smooth_state sum out))
              0%Z n_kernel (mk_smooth_state 0 (repeat 0 (length a))))
    as [st1 [E1 [S1 [L1 P1]]]].
  { lia. }
  { simpl. split; [ring|]. split; [now rewrite repeat_length|]. intros k Hk. lia. }
  { intros i st Hi [Hs [Hl Hp]].
    destruct (get_constant i ltac:(lia)) as [ai [Ea Hai]]. rewrite Ea. cbn [bind].
    destruct (set_prefix (s_out st) i ((s_sum st + ai) / inject_Z (i + 1)) Hl ltac:(lia))
      as [out' [Eo [Hl' Hp']]].
    - rewrite Hs, Hai, inject_Z_plus. change (inject_Z 1) with 1.
      pose proof (inject_Z_pos (i + 1) ltac:(lia)) as Hpos.
      rewrite inject_Z_plus in Hpos. change (inject_Z 1) with 1 in Hpos.
      field. lra.
    - exact Hp.
    - rewrite Eo. cbn [bind]. eexists. split; [reflexivity|]. simpl.
      split; [|split; assumption].
      rewrite Hs, Hai, inject_Z_plus. change (inject_Z 1) with 1. ring. }
  cbv zeta in E1. rewrite E1. cbn [bind].
  (* the sliding window *)
  destruct (for_each_range_inv
              (fun i st => s_sum st == inject_Z n_kernel * c
                           /\ Z.of_nat (length (s_out st)) = L
                           /\ forall k : nat, (Z.of_nat k < i)%Z -> nth k (s_out st) 0 == c)
              (fun i st =>
                 aj <- Py.get a (i - n_kernel) ;;
                 ai <- Py.get a i ;;
                 let sum := s_sum st - aj + ai in
                 out <- Py.set (s_out st) i (sum / inject_Z n_kernel) ;;
                 Ok (mk_smooth_state sum out))
              n_kernel L st1)
    as [st2 [E2 [S2 [L2 P2]]]].
  { lia. }
  { auto. }
  { intros i st Hi [Hs [Hl Hp]].
    destruct (get_constant (i - n_kernel) ltac:(lia)) as [aj [Ej Haj]]. rewrite Ej. cbn [bind].
    destruct (get_constant i ltac:(lia)) as [ai [Ea Hai]]. rewrite Ea. cbn [bind].
    assert (Hsum : s_sum st - aj + ai == inject_Z n_kernel * c) by (rewrite Hs, Haj, Hai; ring).
    destruct (set_prefix (s_out st) i ((s_sum st - aj + ai) / inject_Z n_kernel) Hl ltac:(lia))
      as [out' [Eo [Hl' Hp']]].
    - rewrite Hsum. field. apply inject_Z_nonzero. lia.
    - exact Hp.
    - rewrite Eo. cbn [bind]. eexists. split; [reflexivity|]. simpl. auto. }
  fold L. cbv zeta in E2. rewrite E2. cbn [bind].
  assert (A2 : Forall (fun x => x == c) (s_out st2)).
  { apply Forall_forall. intros x Hx. destruct (In_nth _ _ 0 Hx) as [k [Hk <-]].
    apply P2. lia. }
  (* the slide backward *)
  assert (E3 : exists out3 : list Q,
             (if ((n_2 >? 1) || (n_3 >? 0))%Z%bool
              then Py.set_upto (s_out st2) (- n_2 - n_3 + 1)
                               (Py.from (s_out st2) (n_2 + n_3 - 1))
              else Ok (s_out st2)) = Ok out3
             /\ Z.of_nat (length out3) = L /\ Forall (fun x => x == c) out3).
  { destruct ((n_2 >? 1) || (n_3 >? 0))%Z%bool eqn:Ec.
    - assert (Hs : (1 <= n_2 + n_3 - 1)%Z).
      { apply orb_true_iff in Ec. destruct Ec as [Ec|Ec]; apply Z.gtb_lt in Ec; lia. }
      unfold Py.set_upto, Py.from, Py.slice_bound. rewrite L2.
      destruct (- n_2 - n_3 + 1 <? 0)%Z eqn:E5; [|apply Z.ltb_ge in E5; lia].
      destruct (n_2 + n_3 - 1 <? 0)%Z eqn:E6; [apply Z.ltb_lt in E6; lia|].
      rewrite length_skipn.
      replace (length (s_out st2) - Z.to_nat (Z.min (n_2 + n_3 - 1) L)
               =? Z.to_nat (Z.max 0 (- n_2 - n_3 + 1 + L)))%nat with true
        by (symmetry; apply Nat.eqb_eq; lia).
      eexists. split; [reflexivity|]. split.
      + rewrite length_app, !length_skipn. lia.
      + apply Forall_app. split; apply Forall_skipn; exact A2.
    - eexists. split; [reflexivity|]. auto. }
  destruct E3 as [out3 [E3 [L3 A3]]]. rewrite E3. cbn [bind].
  (* the last few points: averages of the points that remain *)
  destruct (for_each_range_inv
              (fun i st => s_sum st == inject_Z (- i + n_2 + 1) * c
                           /\ Z.of_nat (length (s_out st)) = L
                           /\ Forall (fun x => x == c) (s_out st))
              (fun i st =>
                 aj <- Py.get a (i - n_2 - 1) ;;
                 let sum := s_sum st - aj in
                 out <- Py.set (s_out st) i (sum / inject_Z (- i + n_2)) ;;
                 Ok (mk_smooth_state sum out))
              (- n_2 - n_3 + 1)%Z 0%Z (mk_smooth_state (s_sum st2) out3))
    as [st4 [E4 [S4 [L4 A4]]]].
  { lia. }
  { simpl. split; [|auto]. rewrite S2.
    replace (- (- n_2 - n_3 + 1) + n_2 + 1)%Z with n_kernel by lia. reflexivity. }
  { intros i st Hi [Hs [Hl Ha]].
    destruct (get_constant (i - n_2 - 1) ltac:(lia)) as [aj [Ej Haj]]. rewrite Ej. cbn [bind].
    assert (Hsum : s_sum st - aj == inject_Z (- i + n_2) * c).
    { rewrite Hs, Haj. replace (- i + n_2 + 1)%Z with ((- i + n_2) + 1)%Z by lia.
      rewrite inject_Z_plus. change (inject_Z 1) with 1. ring. }
    destruct (set_all (s_out st) i ((s_sum st - aj) / inject_Z (- i + n_2)) Hl ltac:(lia))
      as [out' [Eo [Hl' Ha']]].
    - rewrite Hsum. field. apply inject_Z_nonzero. lia.
    - exact Ha.
    - rewrite Eo. cbn [bind]. eexists. split; [reflexivity|]. simpl.
      split; [|auto]. rewrite Hsum. replace (- (i + 1) + n_2 + 1)%Z with (- i + n_2)%Z by lia.
      reflexivity. }
  cbv zeta in E4. rewrite E4. cbn [bind].
  exists (s_out st4). split; [reflexivity|]. split; [lia|exact A4].
Qed.

End SmoothConstant.

(** C7, at the kernel width 1.  The guard [(n_2 > 1) | (n_3 > 0)] lets
    [n_kernel = 1] through to the slide, which then assigns the whole array
    to the empty slice [a_smooth[:0]]: with two or more samples [smooth]
    raises instead of returning the constant. *)
Theorem smooth_kernel_one_raises (a : list Q) :
  (2 <= length a)%nat -> smooth a 1 None = Raise ValueError.
Proof.
  intro Hlen. unfold smooth. cbv zeta.
  change (1 / 2)%Z with 0%Z. change (1 mod 2)%Z with 1%Z.
  change (Py.range 0 1) with [0%Z]. cbn [for_each].
  rewrite (get_nonneg a 0 0) by lia. cbn [bind s_sum s_out].
  rewrite set_nonneg by (rewrite repeat_length; lia). cbn [bind].
  set (st1 := mk_smooth_state _ _).
  destruct (for_each_range_inv
              (fun _ st => length (s_out st) = length a)
              (fun i st =>
                 aj <- Py.get a (i - 1) ;;
                 ai <- Py.get a i ;;
                 let sum := s_sum st - aj + ai in
                 out <- Py.set (s_out st) i (sum / inject_Z 1) ;;
                 Ok (mk_smooth_state sum out))
              1%Z (Z.of_nat (length a)) st1)
    as [st2 [E2 L2]].
  { lia. }
  { unfold st1. simpl. now rewrite update_length, repeat_length. }
  { intros i st Hi Hl.
    rewrite (get_nonneg a 0 (i - 1)) by lia. cbn [bind].
    rewrite (get_nonneg a 0 i) by lia. cbn [bind].
    rewrite set_nonneg by lia. cbn [bind].
    eexists. split; [reflexivity|]. simpl. now rewrite update_length. }
  cbv zeta in E2. rewrite E2. cbn [bind].
  change ((0 >? 1) || (1 >? 0))%Z%bool with true. cbv iota.
  change (-0 - 1 + 1)%Z with 0%Z. change (0 + 1 - 1)%Z with 0%Z.
  unfold Py.set_upto, Py.from, Py.slice_bound. change (0 <? 0)%Z with false. cbv iota.
  rewrite Z.min_l by lia. change (Z.to_nat 0) with 0%nat. rewrite skipn_O.
  destruct (s_out st2) as [|x [|y r]]; simpl in L2; try lia.
  reflexivity.
Qed.

Lemma smooth_kernel_one_raises_witness :
  smooth [5; 5; 5] 1 None = Raise ValueError.
Proof.
  apply (smooth_kernel_one_raises [5; 5; 5]). simpl. lia.
Defined.

(** ** Eclipse measurements: C4 *)

Lemma sequence_map_ok {A B : Type} (f : A -> res B) (g : A -> B) (l : list A) :
  (forall x : A, In x l -> f x = Ok (g x)) ->
  Np.sequence (map f l) = Ok (map g l).
Proof.
  induction l as [|x r IH]; intro H; simpl; [reflexivity|].
  rewrite (H x) by (now left). cbn [bind].
  rewrite IH by (intros y Hy; apply H; now right). reflexivity.
Qed.

Section MeasureRow.

Variables times signal : list Q.
Variable e : ecl_row.
Hypothesis e_times : row_in_bounds (length times) e.
Hypothesis e_signal : row_in_bounds (length signal) e.

Abbreviation t := (at_index times).
Abbreviation s := (at_index signal).

(** A full eclipse with distinct outer edge times. *)
Lemma measure_row_full :
  ~ t (r_o e) - t (l_o e) == 0 ->
  measure_row times signal e 0
  = Ok (mk_ecl_measure
          ((t (l_o e) + t (r_o e) + t (l_i e) + t (r_i e)) / 4)
          (t (r_o e) - t (l_o e))
          ((s (l_o e) - s (l_i e) + (s (r_o e) - s (r_i e))) / (2 * 1 + 1 * 0 + 1 * 0))
          ((t (r_i e) - t (l_i e)) / (t (r_o e) - t (l_o e)))).
Proof.
  intro Hw. destruct e_times as [T1 [T2 [T3 T4]]]. destruct e_signal as [S1 [S2 [S3 S4]]].
  unfold measure_row. cbv zeta. change (0 =? 0)%Z with true. cbv iota.
  rewrite !(get_nonneg times 0) by assumption.
  rewrite !(get_nonneg signal 0) by assumption. cbn [bind].
  fold (at_index times (r_o e)) (at_index times (l_o e))
       (at_index times (r_i e)) (at_index times (l_i e)).
  unfold Np.div at 1.
  destruct (Qeq_bool (t (r_o e) - t (l_o e)) 0) eqn:E;
    [apply Qeq_bool_iff in E; contradiction|].
  reflexivity.
Qed.

(** A left half: only the ingress was found. *)
Lemma measure_row_left :
  measure_row times signal e 1
  = Ok (mk_ecl_measure
          (t (l_i e))
          (t (l_i e) - t (l_o e))
          ((s (l_o e) - s (l_i e) + (s (r_o e) - s (r_i e))) / (2 * 0 + 1 * 1 + 1 * 0))
          0).
Proof.
  destruct e_times as [T1 [T2 [T3 T4]]]. destruct e_signal as [S1 [S2 [S3 S4]]].
  unfold measure_row. cbv zeta.
  change (1 =? 0)%Z with false. change (1 =? 1)%Z with true. cbv iota.
  rewrite !(get_nonneg times 0) by assumption.
  rewrite !(get_nonneg signal 0) by assumption. cbn [bind].
  reflexivity.
Qed.

(** A right half: only the egress was found. *)
Lemma measure_row_right :
  measure_row times signal e 2
  = Ok (mk_ecl_measure
          (t (r_i e))
          (t (r_o e) - t (r_i e))
          ((s (l_o e) - s (l_i e) + (s (r_o e) - s (r_i e))) / (2 * 0 + 1 * 0 + 1 * 1))
          0).
Proof.
  destruct e_times as [T1 [T2 [T3 T4]]]. destruct e_signal as [S1 [S2 [S3 S4]]].
  unfold measure_row. cbv zeta.
  change (2 =? 0)%Z with false. change (2 =? 1)%Z with false.
  change (2 =? 2)%Z with true. cbv iota.
  rewrite !(get_nonneg times 0) by assumption.
  rewrite !(get_nonneg signal 0) by assumption. cbn [bind].
  reflexivity.
Qed.

End MeasureRow.

Lemma measure_row_by_flag (times signal : list Q) (e : ecl_row) (flag : Z) :
  row_in_bounds (length times) e -> row_in_bounds (length signal) e ->
  (flag = 0 \/ flag = 1 \/ flag = 2)%Z ->
  (flag = 0%Z -> ~ at_index times (r_o e) - at_index times (l_o e) == 0) ->
  measure_row times signal e flag = Ok (measure_by_flag times signal e flag).
Proof.
  intros Ht Hs [->|[->| ->]] Hw.
  - now apply measure_row_full; auto.
  - now apply measure_row_left.
  - now apply measure_row_right.
Qed.

(** What [measure_eclipses] returns for well-formed records: every row is
    measured by its flag, half eclipses with the single span as width. *)
Lemma measure_eclipses_by_flag (times signal : list Q) (ecl_indices : list ecl_row)
      (flags_lrf : list Z) :
  length ecl_indices = length flags_lrf ->
  Forall (row_in_bounds (length times)) ecl_indices ->
  Forall (row_in_bounds (length signal)) ecl_indices ->
  Forall (fun ef => (snd ef = 0 \/ snd ef = 1 \/ snd ef = 2)%Z
                    /\ (snd ef = 0%Z ->
                        ~ at_index times (r_o (fst ef)) - at_index times (l_o (fst ef)) == 0))
         (combine ecl_indices flags_lrf) ->
  let ms := map (fun ef => measure_by_flag times signal (fst ef) (snd ef))
                (combine ecl_indices flags_lrf) in
  measure_eclipses times signal ecl_indices flags_lrf
  = Ok (map m_mid ms, map m_width ms, map m_depth ms, map m_ratio ms).
Proof.
  intros Hlen Ht Hs Hf ms. unfold measure_eclipses.
  destruct flags_lrf as [|f flags].
  - destruct ecl_indices; [reflexivity|discriminate].
  - change (0 <? length (f :: flags))%nat with true. cbv iota.
    rewrite Hlen, Nat.eqb_refl. cbn [negb].
    rewrite (sequence_map_ok _ (fun ef => measure_by_flag times signal (fst ef) (snd ef))).
    + reflexivity.
    + intros [e fl] Hin.
      pose proof (proj1 (Forall_forall _ _) Hf _ Hin) as [Hfl Hw].
      apply in_combine_l in Hin.
      apply measure_row_by_flag; auto.
      * apply (proj1 (Forall_forall _ _) Ht _ Hin).
      * apply (proj1 (Forall_forall _ _) Hs _ Hin).
Qed.

(** C4, at a left half eclipse.  The ingress runs from sample 0 (time 0) to
    sample 2 (time 2): the measured half-width is 2, and the docstring's
    "twice the width of half the eclipse" would be 4.  The code returns the
    single span 2 as the width. *)
Theorem measure_eclipses_half_width_not_doubled :
  exists mids widths depths ratios : list Q,
    measure_eclipses [0; 1; 2; 3] [1; 1; 1 # 2; 1] [mk_ecl_row 0 2 2 2] [1%Z]
    = Ok (mids, widths, depths, ratios)
    /\ nth 0 widths 0
       == at_index [0; 1; 2; 3] (l_i (mk_ecl_row 0 2 2 2))
          - at_index [0; 1; 2; 3] (l_o (mk_ecl_row 0 2 2 2))
    /\ nth 0 widths 0 == 2
    /\ ~ nth 0 widths 0
         == 2 * (at_index [0; 1; 2; 3] (l_i (mk_ecl_row 0 2 2 2))
                 - at_index [0; 1; 2; 3] (l_o (mk_ecl_row 0 2 2 2))).
Proof.
  do 4 eexists. split; [reflexivity|]. simpl. repeat split; discriminate.
Qed.

(** ** The eclipse score: C6 *)

Lemma map_combine_maps {A B C D : Type} (f : B * C -> D) (g : A -> B) (h : A -> C)
      (l : list A) :
  map f (combine (map g l) (map h l)) = map (fun x => f (g x, h x)) l.
Proof.
  induction l as [|x r IH]; simpl; [reflexivity|]. now rewrite IH.
Qed.

Lemma ew2_ok {A B C : Type} (f : A -> B -> C) (a : list A) (b : list B) :
  length a = length b ->
  Np.ew2 f a b = Ok (map (fun xy => f (fst xy) (snd xy)) (combine a b)).
Proof.
  intro H. unfold Np.ew2. now rewrite H, Nat.eqb_refl.
Qed.

Lemma compress_ok {A : Type} (mask : list bool) (a : list A) :
  length mask = length a -> Np.compress mask a = Ok (Np.select mask a).
Proof.
  intro H. unfold Np.compress. now rewrite H, Nat.eqb_refl.
Qed.

Lemma select_nonempty {A : Type} (mask : list bool) (a : list A) :
  length mask = length a -> Np.any mask = true -> Np.select mask a <> [].
Proof.
  revert a. induction mask as [|b m IH]; intros [|x r] Hlen Hany; simpl in *;
    try discriminate.
  destruct b; [discriminate|]. apply IH; [lia|exact Hany].
Qed.

Lemma mean_ok (a : list Q) : a <> [] -> Np.mean a = Ok (Np.avg a).
Proof. destruct a; [congruence|reflexivity]. Qed.

Lemma mean_select_ok (mask : list bool) (a : list Q) :
  length mask = length a -> Np.any mask = true ->
  (x <- Np.compress mask a ;; Np.mean x) = Ok (Np.avg (Np.select mask a)).
Proof.
  intros Hlen Hany. rewrite compress_ok by exact Hlen. cbn [bind].
  apply mean_ok. now apply select_nonempty.
Qed.

Lemma penalty_of_value (b : bool) : penalty_of b == if b then 1 # 2 else 1.
Proof. destruct b; reflexivity. Qed.

Lemma eq_int_length (a : list Z) (k : Z) : length (Np.eq_int a k) = length a.
Proof. apply length_map. Qed.

Section ScoreFormula.

Variable arctan : Q -> Q.
Variable sqrt : Q -> Q.
Variable pi : Q.
Variable found_ratio : list Q -> list Q -> list Z -> Q -> nat -> res Q.
Variable normalised_slope :
  list Q -> list Q -> list Q -> list ecl_row -> list bool -> list bool -> list bool -> res Q.
Variable normalised_symmetry : list Q -> list Q -> list ecl_row -> res Q.
Variable normalised_equality : list Q -> list Q -> list Q -> list Z -> res Q.

Variables times signal_s deriv_1r : list Q.
Variable period : Q.
Variable ecl_indices : list ecl_row.
Variables ecl_mid added_snr widths depths : list Q.
Variables flags_lrf flags_pst : list Z.

(** The arrays describe the same eclipses. *)
Hypothesis len_mid : length ecl_mid = length flags_pst.
Hypothesis len_idx : length ecl_indices = length flags_pst.
Hypothesis len_snr : length added_snr = length flags_pst.
Hypothesis len_w : length widths = length flags_pst.
Hypothesis len_lrf : length flags_lrf = length flags_pst.

(** At least one eclipse is classified primary or secondary. *)
Hypothesis some_prim_sec : Np.any (prim_sec_of flags_pst) = true.

(** The values of the four attribute functions. *)
Variables a1 s2 a3 a4 : Q.
Hypothesis found_ratio_value :
  found_ratio times ecl_mid flags_pst period
              (length (Np.select (prim_sec_of flags_pst) ecl_mid)) = Ok a1.
Hypothesis normalised_slope_value :
  normalised_slope times signal_s deriv_1r ecl_indices
    (mask_eclipses times
       (map (fun e => (l_o e, r_o e)) (Np.select (prim_sec_of flags_pst) ecl_indices)))
    (Np.eq_int flags_pst 1) (Np.eq_int flags_lrf 0) = Ok s2.
Hypothesis normalised_symmetry_value :
  normalised_symmetry times signal_s
    (Np.select (full_prim_sec_of flags_lrf flags_pst) ecl_indices) = Ok a3.
Hypothesis normalised_equality_value :
  normalised_equality added_snr depths widths flags_pst = Ok a4.

Let attr_0 : Q :=
  arctan (((if has_flag 1 flags_pst then avg_of 1 flags_pst added_snr else 0)
           + (if has_flag 2 flags_pst then avg_of 2 flags_pst added_snr else 0)) / 40)
  * 2 / pi.
Let attr_2 : Q := arctan (s2 / (5 # 2)) * 2 / pi.
Let penalty : Q :=
  penalty_of (negb (Np.any (full_prim_sec_of flags_lrf flags_pst))
              || wide_code widths flags_pst period).

Lemma nonempty_mid : (length ecl_mid =? 0)%nat = false.
Proof.
  apply Nat.eqb_neq. rewrite len_mid. intro H.
  destruct flags_pst; [discriminate some_prim_sec|discriminate H].
Qed.

Lemma prim_sec_ew2 :
  Np.ew2 orb (Np.eq_int flags_pst 1) (Np.eq_int flags_pst 2) = Ok (prim_sec_of flags_pst).
Proof.
  rewrite ew2_ok by now rewrite !eq_int_length.
  unfold Np.eq_int. now rewrite map_combine_maps.
Qed.

Lemma full_prim_sec_ew2 :
  Np.ew2 andb (Np.eq_int flags_lrf 0) (prim_sec_of flags_pst)
  = Ok (full_prim_sec_of flags_lrf flags_pst).
Proof.
  unfold prim_sec_of, full_prim_sec_of, Np.eq_int.
  rewrite ew2_ok by now rewrite !length_map.
  f_equal. clear -len_lrf. revert flags_pst len_lrf.
  induction flags_lrf as [|a l IH]; intros [|p ps] H; simpl in *; try reflexivity;
    try discriminate.
  f_equal. apply IH. lia.
Qed.

Lemma wide_value :
  (if Np.any (Np.eq_int flags_pst 1) then
     wp <- Np.compress (Np.eq_int flags_pst 1) widths ;;
     max_avg_w <- Np.mean wp ;;
     max_avg_w <- (if Np.any (Np.eq_int flags_pst 2) then
                     ws <- Np.compress (Np.eq_int flags_pst 2) widths ;;
                     avg <- Np.mean ws ;;
                     Ok (Qmax max_avg_w avg)
                   else Ok max_avg_w) ;;
     Ok (Qgtb max_avg_w ((8 # 10) * period))
   else Ok false) = Ok (wide_code widths flags_pst period).
Proof.
  unfold wide_code, has_flag, avg_of.
  destruct (Np.any (Np.eq_int flags_pst 1)) eqn:E1; [|reflexivity].
  rewrite compress_ok by now rewrite eq_int_length. cbn [bind].
  rewrite mean_ok by (apply select_nonempty; [now rewrite eq_int_length|exact E1]).
  cbn [bind].
  destruct (Np.any (Np.eq_int flags_pst 2)) eqn:E2; [|reflexivity].
  rewrite compress_ok by now rewrite eq_int_length. cbn [bind].
  rewrite mean_ok by (apply select_nonempty; [now rewrite eq_int_length|exact E2]).
  reflexivity.
Qed.

Lemma avg_snr_value (k : Z) :
  (if Np.any (Np.eq_int flags_pst k)
   then (a <- Np.compress (Np.eq_int flags_pst k) added_snr ;; Np.mean a) else Ok 0)
  = Ok (if has_flag k flags_pst then avg_of k flags_pst added_snr else 0).
Proof.
  unfold has_flag, avg_of.
  destruct (Np.any (Np.eq_int flags_pst k)) eqn:E; [|reflexivity].
  apply mean_select_ok; [now rewrite eq_int_length|exact E].
Qed.

Lemma eclipse_score_attr_value :
  eclipse_score_attr arctan sqrt pi found_ratio normalised_slope normalised_symmetry
    normalised_equality times signal_s deriv_1r period ecl_indices ecl_mid added_snr
    widths depths flags_lrf flags_pst
  = Ok (mk_score_attr
          (attr_0 * attr_2 * sqrt (a1 ^ 2 + attr_2 ^ 2 + a3 ^ 2 + a4 ^ 2) / 2 * penalty)
          attr_0 a1 attr_2 a3 a4 penalty).
Proof.
  unfold eclipse_score_attr. cbv zeta.
  rewrite nonempty_mid. cbn [negb].
  rewrite prim_sec_ew2. cbn [bind].
  rewrite (compress_ok (prim_sec_of flags_pst) ecl_indices)
    by (unfold prim_sec_of; rewrite length_map; lia). cbn [bind].
  rewrite (compress_ok (prim_sec_of flags_pst) ecl_mid)
    by (unfold prim_sec_of; rewrite length_map; lia). cbn [bind].
  replace (length (Np.select (prim_sec_of flags_pst) ecl_mid) =? 0)%nat with false.
  2:{ symmetry. apply Nat.eqb_neq. intro H. apply length_zero_iff_nil in H.
      revert H. apply select_nonempty; [|exact some_prim_sec].
      unfold prim_sec_of. rewrite length_map. lia. }
  cbn [negb].
  rewrite !avg_snr_value. cbn [bind].
  rewrite found_ratio_value. cbn [bind].
  rewrite normalised_slope_value. cbn [bind].
  rewrite full_prim_sec_ew2. cbn [bind].
  rewrite compress_ok
    by (unfold full_prim_sec_of; rewrite length_map, length_combine; lia). cbn [bind].
  rewrite normalised_symmetry_value. cbn [bind].
  rewrite normalised_equality_value. cbn [bind].
  rewrite wide_value. cbn [bind].
  reflexivity.
Qed.

Lemma eclipse_score_value :
  eclipse_score arctan sqrt pi found_ratio normalised_slope normalised_symmetry
    normalised_equality times signal_s deriv_1r period ecl_indices ecl_mid added_snr
    widths depths flags_lrf flags_pst
  = Ok (attr_0 * attr_2 * sqrt (a1 ^ 2 + attr_2 ^ 2 + a3 ^ 2 + a4 ^ 2) / 2 * penalty).
Proof.
  unfold eclipse_score. cbv zeta.
  rewrite nonempty_mid. cbn [negb].
  rewrite prim_sec_ew2. cbn [bind].
  rewrite (compress_ok (prim_sec_of flags_pst) ecl_indices)
    by (unfold prim_sec_of; rewrite length_map; lia). cbn [bind].
  rewrite (compress_ok (prim_sec_of flags_pst) ecl_mid)
    by (unfold prim_sec_of; rewrite length_map; lia). cbn [bind].
  replace (length (Np.select (prim_sec_of flags_pst) ecl_mid) =? 0)%nat with false.
  2:{ symmetry. apply Nat.eqb_neq. intro H. apply length_zero_iff_nil in H.
      revert H. apply select_nonempty; [|exact some_prim_sec].
      unfold prim_sec_of. rewrite length_map. lia. }
  cbn [negb].
  rewrite !avg_snr_value. cbn [bind].
  rewrite found_ratio_value. cbn [bind].
  rewrite normalised_slope_value. cbn [bind].
  rewrite full_prim_sec_ew2. cbn [bind].
  rewrite compress_ok
    by (unfold full_prim_sec_of; rewrite length_map, length_combine; lia). cbn [bind].
  rewrite normalised_symmetry_value. cbn [bind].
  rewrite normalised_equality_value. cbn [bind].
  rewrite wide_value. cbn [bind].
  reflexivity.
Qed.

(** C6, as the code has it.  With at least one primary or secondary the
    score is [attr_0 * attr_2 * sqrt(attr_1^2 + attr_2^2 + attr_3^2 +
    attr_4^2) / 2] times a penalty; the penalty is 0.5 when no full eclipse is
    among the primaries and secondaries, or when there is a primary and the
    mean primary width or (with secondaries present) the mean secondary width
    exceeds 0.8 times the period, and 1 otherwise.  Without a primary the
    width test is not made. *)
Theorem eclipse_score_formula :
  exists r : score_attr,
    eclipse_score_attr arctan sqrt pi found_ratio normalised_slope normalised_symmetry
      normalised_equality times signal_s deriv_1r period ecl_indices ecl_mid added_snr
      widths depths flags_lrf flags_pst = Ok r
    /\ eclipse_score arctan sqrt pi found_ratio normalised_slope normalised_symmetry
         normalised_equality times signal_s deriv_1r period ecl_indices ecl_mid added_snr
         widths depths flags_lrf flags_pst = Ok (sc_score r)
    /\ sc_score r
       = sc_attr_0 r * sc_attr_2 r
         * sqrt (sc_attr_1 r ^ 2 + sc_attr_2 r ^ 2 + sc_attr_3 r ^ 2 + sc_attr_4 r ^ 2) / 2
         * sc_penalty r
    /\ sc_penalty r
       == (if negb (Np.any (full_prim_sec_of flags_lrf flags_pst))
              || wide_code widths flags_pst period
           then 1 # 2 else 1)
    /\ (has_flag 1 flags_pst = true ->
        wide_code widths flags_pst period = wide_claimed widths flags_pst period).
Proof.
  eexists. split; [apply eclipse_score_attr_value|].
  split; [apply eclipse_score_value|].
  cbn [sc_score sc_attr_0 sc_attr_1 sc_attr_2 sc_attr_3 sc_attr_4 sc_penalty].
  split; [reflexivity|]. split; [apply penalty_of_value|].
  intro Hp. unfold wide_code, wide_claimed. rewrite Hp. cbn [andb].
  destruct (has_flag 2 flags_pst); cbn [andb].
  - unfold Qgtb.
    destruct (Qltb ((8 # 10) * period) (avg_of 1 flags_pst widths)) eqn:E1;
      destruct (Qltb ((8 # 10) * period) (avg_of 2 flags_pst widths)) eqn:E2;
      cbn [orb].
    + apply Qltb_lt. apply Qltb_lt in E1. apply Q.max_lt_iff. now left.
    + apply Qltb_lt. apply Qltb_lt in E1. apply Q.max_lt_iff. now left.
    + apply Qltb_lt. apply Qltb_lt in E2. apply Q.max_lt_iff. now right.
    + apply Qltb_ge. apply Qltb_ge in E1. apply Qltb_ge in E2.
      now apply Q.max_lub.
  - now rewrite orb_false_r.
Qed.

End ScoreFormula.

Lemma eclipse_score_formula_witness :
  exists r : score_attr,
    eclipse_score_attr (fun x => x) (fun x => x) 2
      (fun _ _ _ _ _ => Ok 1) (fun _ _ _ _ _ _ _ => Ok (5 # 2))
      (fun _ _ _ => Ok 1) (fun _ _ _ _ => Ok 1)
      [0; 1; 2; 3; 4; 5; 6] [1; 1 # 2; 1 # 2; 1; 1 # 2; 1; 1] [0; 0; 0; 0; 0; 0; 0] 4
      [mk_ecl_row 0 1 2 3; mk_ecl_row 3 4 4 5]
      [3 # 2; 4] [40; 20] [3; 2] [1 # 2; 1 # 2] [0; 0]%Z [1; 2]%Z = Ok r
    /\ sc_penalty r == 1.
Proof.
  destruct (eclipse_score_formula (fun x => x) (fun x => x) 2
      (fun _ _ _ _ _ => Ok 1) (fun _ _ _ _ _ _ _ => Ok (5 # 2))
      (fun _ _ _ => Ok 1) (fun _ _ _ _ => Ok 1)
      [0; 1; 2; 3; 4; 5; 6] [1; 1 # 2; 1 # 2; 1; 1 # 2; 1; 1] [0; 0; 0; 0; 0; 0; 0] 4
      [mk_ecl_row 0 1 2 3; mk_ecl_row 3 4 4 5]
      [3 # 2; 4] [40; 20] [3; 2] [1 # 2; 1 # 2] [0; 0]%Z [1; 2]%Z
      eq_refl eq_refl eq_refl eq_refl eq_refl eq_refl 1 (5 # 2) 1 1
      eq_refl eq_refl eq_refl eq_refl) as [r [H [_ [_ [Hp _]]]]].
  exists r. split; [exact H|exact Hp].
Defined.

(** C6 as worded fails when the only classified eclipses are secondaries.
    The record below is one full secondary eclipse of width 9 in a period of
    10, with the attribute functions of the module: the worded width test
    holds and asks for the penalty 0.5, while the code makes the width test
    only when there is a primary and returns the penalty 1, whatever the
    float functions are.  With no primary the slope attribute is that of a
    zero slope, so it is the returned penalty that shows the difference. *)
Lemma eclipse_score_secondary_only_unpenalised :
  Np.any (prim_sec_of [2%Z]) = true
  /\ Np.any (full_prim_sec_of [0%Z] [2%Z]) = true
  /\ wide_claimed [9] [2%Z] 10 = true
  /\ forall (arctan sqrt : Q -> Q) (pi : Q),
     exists r : score_attr,
       eclipse_score_attr arctan sqrt pi
         (fun times ecl_mid flags_pst period n_found =>
            found_ratio times ecl_mid flags_pst period (Z.of_nat n_found))
         normalised_slope normalised_symmetry normalised_equality
         [0; 1; 2; 3; 4; 5; 6; 7; 8; 9; 10; 11; 12]
         [1; 1; 1 # 2; 1 # 2; 1 # 2; 1 # 2; 1 # 2; 1 # 2; 1 # 2; 1 # 2; 1 # 2; 1; 1]
         [1; 0; 0; 0; 0; 0; 0; 0; 0; 0; 0; 0; 1] 10
         [mk_ecl_row 1 2 10 11] [6] [40] [9] [1 # 2] [0%Z] [2%Z] = Ok r
       /\ sc_penalty r == 1
       /\ ~ sc_penalty r == 1 # 2.
Proof.
  split; [reflexivity|]. split; [reflexivity|]. split; [reflexivity|].
  intros arctan sqrt pi.
  match goal with
  | |- exists r, ?e = Ok r /\ _ =>
      let v := eval vm_compute in e in
      match v with
      | Ok ?r0 => exists r0; split; [vm_cast_no_check (eq_refl (Ok r0))|]
      end
  end.
  cbn [sc_penalty]. split; [reflexivity|]. vm_compute. discriminate.
Qed.

(** ** The periodic pattern: C1 *)

Lemma fold_min_le (l : list Q) :
  forall x0 y : Q, In y (x0 :: l) -> fold_left Qmin l x0 <= y.
Proof.
  induction l as [|x r IH]; intros x0 y Hin; simpl in *.
  - destruct Hin as [->|[]]. apply Qle_refl.
  - destruct Hin as [->|[->|Hin]].
    + apply Qle_trans with (Qmin y x); [apply IH; now left|apply Q.le_min_l].
    + apply Qle_trans with (Qmin x0 y); [apply IH; now left|apply Q.le_min_r].
    + apply IH. now right.
Qed.

Lemma fold_min_attained (l : list Q) :
  forall x0 : Q, exists y : Q, In y (x0 :: l) /\ fold_left Qmin l x0 == y.
Proof.
  induction l as [|x r IH]; intro x0; simpl.
  - exists x0. split; [now left|reflexivity].
  - destruct (IH (Qmin x0 x)) as [y [[Hy|Hy] E]].
    + destruct (Q.min_spec x0 x) as [[_ Hm]|[_ Hm]].
      * exists x0. split; [now left|]. now rewrite E, <- Hy.
      * exists x. split; [right; now left|]. now rewrite E, <- Hy.
    + exists y. split; [right; now right|exact E].
Qed.

(** The distance to the nearest predicted time is the least of the distances. *)
Lemma distance_to_nearest_unique (pattern : list Q) (e d : Q) :
  (forall x : Q, In x pattern -> d <= Qabs (x - e)) ->
  (exists x : Q, In x pattern /\ d == Qabs (x - e)) ->
  d == distance_to_nearest pattern e.
Proof.
  intros Hlow [x [Hx Hd]]. destruct pattern as [|x0 r]; [destruct Hx|].
  unfold distance_to_nearest.
  apply Qle_antisym.
  - destruct (fold_min_attained (map (fun y => Qabs (y - e)) r) (Qabs (x0 - e)))
      as [y [Hy E]].
    rewrite E. change (In y (map (fun y => Qabs (y - e)) (x0 :: r))) in Hy.
    apply in_map_iff in Hy. destruct Hy as [z [<- Hz]]. now apply Hlow.
  - rewrite Hd. apply fold_min_le.
    change (In (Qabs (x - e)) (map (fun y => Qabs (y - e)) (x0 :: r))).
    apply (in_map (fun y => Qabs (y - e))). exact Hx.
Qed.

Lemma searchsorted_range (a : list Q) (v : Q) :
  (0 <= Np.searchsorted a v <= Z.of_nat (length a))%Z.
Proof.
  induction a as [|x r IH]; cbn [Np.searchsorted length]; [lia|].
  destruct (Qltb x v); lia.
Qed.

Lemma searchsorted_below (a : list Q) (v : Q) :
  forall j : nat, (Z.of_nat j < Np.searchsorted a v)%Z -> nth j a 0 < v.
Proof.
  induction a as [|x r IH]; intros j Hj; cbn [Np.searchsorted] in Hj; [lia|].
  destruct (Qltb x v) eqn:E; [|lia].
  destruct j as [|j]; cbn [nth]; [now apply Qltb_lt|]. apply IH. lia.
Qed.

Lemma searchsorted_at (a : list Q) (v : Q) :
  (Np.searchsorted a v < Z.of_nat (length a))%Z ->
  v <= nth (Z.to_nat (Np.searchsorted a v)) a 0.
Proof.
  induction a as [|x r IH]; intro H; cbn [Np.searchsorted length] in *; [lia|].
  destruct (Qltb x v) eqn:E.
  - pose proof (searchsorted_range r v).
    replace (Z.to_nat (1 + Np.searchsorted r v)) with (S (Z.to_nat (Np.searchsorted r v)))
      by lia.
    cbn [nth]. apply IH. lia.
  - cbn [nth Z.to_nat]. now apply Qltb_ge.
Qed.

Lemma increasing_le (a : list Q) (i j : nat) :
  increasing a -> (i <= j < length a)%nat -> nth i a 0 <= nth j a 0.
Proof.
  intros Hinc Hij. destruct (Nat.eq_dec i j) as [->|Hne]; [apply Qle_refl|].
  apply Qlt_le_weak. apply Hinc. lia.
Qed.

Lemma Qabs_cases (x : Q) : (0 <= x /\ Qabs x == x) \/ (x <= 0 /\ Qabs x == - x).
Proof.
  destruct (Qlt_le_dec x 0) as [H|H].
  - right. split; [lra|]. apply Qabs_neg. lra.
  - left. split; [exact H|]. now apply Qabs_pos.
Qed.

Ltac abs_cases t :=
  let H := fresh "Habs" in
  destruct (Qabs_cases t) as [[? H]|[? H]].

(** The neighbour search of [pattern_test] finds the distance to the nearest
    predicted time. *)
Lemma nearest_distance_spec (pattern : list Q) (e : Q) :
  increasing pattern -> pattern <> [] ->
  exists d : Q,
    nearest_distance pattern e = Ok d /\ d == distance_to_nearest pattern e.
Proof.
  intros Hinc Hne.
  assert (Hn : (1 <= length pattern)%nat) by (destruct pattern; simpl; [congruence|lia]).
  pose proof (searchsorted_range pattern e) as Hk.
  pose proof (searchsorted_below pattern e) as Hbelow.
  pose proof (searchsorted_at pattern e) as Hat.
  unfold nearest_distance. cbv zeta.
  remember (Np.searchsorted pattern e) as k eqn:Ek.
  remember (length pattern) as n eqn:En.
  (* every entry is some [pattern[j]] *)
  assert (Hnth : forall x : Q, In x pattern ->
                 exists j : nat, (j < n)%nat /\ x = nth j pattern 0).
  { intros x Hx. destruct (In_nth _ _ 0 Hx) as [j [Hj <-]]. exists j. split; [lia|reflexivity]. }
  assert (Hfin : forall (j : nat) (d : Q),
             (j < n)%nat -> d == Qabs (nth j pattern 0 - e) ->
             (forall i : nat, (i < n)%nat -> d <= Qabs (nth i pattern 0 - e)) ->
             d == distance_to_nearest pattern e).
  { intros j d Hj Hd Hlow. apply distance_to_nearest_unique.
    - intros x Hx. destruct (Hnth x Hx) as [i [Hi ->]]. now apply Hlow.
    - exists (nth j pattern 0). split; [apply nth_In; lia|exact Hd]. }
  destruct (Z.eqb_spec k (Z.of_nat n)) as [Ekn|Ekn].
  - (* beyond the last point *)
    rewrite (get_nonneg pattern 0 (Z.of_nat n - 1)) by (rewrite <- ?En; lia). cbn [bind].
    replace (Z.to_nat (Z.of_nat n - 1)) with (n - 1)%nat by lia.
    assert (Hlast : nth (n - 1) pattern 0 < e) by (apply Hbelow; lia).
    destruct (Nat.eq_dec n 1) as [En1|En1].
    + rewrite En1. change (Z.of_nat 1 - 1 - 1)%Z with (-1)%Z.
      rewrite (get_neg pattern 0 (-1)) by (rewrite <- ?En; lia). cbn [bind]. rewrite <- ?En. rewrite En1.
      change (Z.to_nat (-1 + Z.of_nat 1)) with 0%nat. change (1 - 1)%nat with 0%nat.
      assert (Ec : Qltb (Qabs (nth 0 pattern 0 - e)) (Qabs (e - nth 0 pattern 0)) = false).
      { apply Qltb_ge. rewrite En1 in Hlast. change (1 - 1)%nat with 0%nat in Hlast.
        abs_cases (nth 0 pattern 0 - e); abs_cases (e - nth 0 pattern 0); lra. }
      rewrite Ec. cbn [negb]. change (Z.of_nat 1 - 1)%Z with 0%Z.
      change (0 * 0 + -1 * 1)%Z with (-1)%Z.
      rewrite (get_neg pattern 0 (-1)) by (rewrite <- ?En; lia). cbn [bind]. rewrite <- ?En. rewrite En1.
      change (Z.to_nat (-1 + Z.of_nat 1)) with 0%nat.
      eexists. split; [reflexivity|].
      apply (Hfin 0%nat); [lia|reflexivity|].
      intros i Hi. assert (i = 0%nat) as -> by lia. apply Qle_refl.
    + rewrite (get_nonneg pattern 0 (Z.of_nat n - 1 - 1)) by (rewrite <- ?En; lia). cbn [bind].
      replace (Z.to_nat (Z.of_nat n - 1 - 1)) with (n - 2)%nat by lia.
      assert (Hprev : nth (n - 2) pattern 0 < nth (n - 1) pattern 0)
        by (apply Hinc; rewrite <- ?En; lia).
      assert (Ec : Qltb (Qabs (nth (n - 1) pattern 0 - e))
                        (Qabs (e - nth (n - 2) pattern 0)) = true).
      { apply Qltb_lt.
        abs_cases (nth (n - 1) pattern 0 - e); abs_cases (e - nth (n - 2) pattern 0); lra. }
      rewrite Ec. cbn [negb].
      replace ((Z.of_nat n - 1) * 1 + (Z.of_nat n - 1 - 1) * 0)%Z with (Z.of_nat n - 1)%Z
        by lia.
      rewrite (get_nonneg pattern 0 (Z.of_nat n - 1)) by (rewrite <- ?En; lia). cbn [bind].
      replace (Z.to_nat (Z.of_nat n - 1)) with (n - 1)%nat by lia.
      eexists. split; [reflexivity|].
      apply (Hfin (n - 1)%nat); [lia|reflexivity|].
      intros i Hi.
      assert (Hi' : nth i pattern 0 <= nth (n - 1) pattern 0)
        by (apply increasing_le; [exact Hinc|rewrite <- ?En; lia]).
      abs_cases (nth (n - 1) pattern 0 - e); abs_cases (nth i pattern 0 - e); lra.
  - (* at or before some point *)
    assert (Hkn : (k < Z.of_nat n)%Z) by lia.
    specialize (Hat Hkn).
    rewrite (get_nonneg pattern 0 k) by (rewrite <- ?En; lia). cbn [bind].
    remember (Z.to_nat k) as kn eqn:Ekn'.
    assert (Hright : forall i : nat, (kn <= i < n)%nat -> e <= nth i pattern 0).
    { intros i Hi. apply Qle_trans with (nth kn pattern 0); [exact Hat|].
      apply increasing_le; [exact Hinc|rewrite <- ?En; lia]. }
    destruct (Z.eqb_spec k 0) as [Ek0|Ek0].
    + (* before the first point: the left neighbour wraps around to the last *)
      rewrite Ek0. change (0 - 1)%Z with (-1)%Z.
      rewrite (get_neg pattern 0 (-1)) by (rewrite <- ?En; lia). cbn [bind]. rewrite <- ?En.
      replace (Z.to_nat (-1 + Z.of_nat n)) with (n - 1)%nat by lia.
      assert (Ekn0 : kn = 0%nat) by lia. rewrite Ekn0 in *.
      destruct (Qltb (Qabs (nth 0 pattern 0 - e)) (Qabs (e - nth (n - 1) pattern 0))) eqn:Ec;
        cbn [negb].
      * change (0 * 1 + -1 * 0)%Z with 0%Z.
        rewrite (get_nonneg pattern 0 0) by (rewrite <- ?En; lia). cbn [bind].
        change (Z.to_nat 0) with 0%nat.
        eexists. split; [reflexivity|].
        apply (Hfin 0%nat); [lia|reflexivity|].
        intros i Hi.
        assert (Hi' : nth 0 pattern 0 <= nth i pattern 0)
          by (apply increasing_le; [exact Hinc|rewrite <- ?En; lia]).
        pose proof (Hright 0%nat ltac:(lia)).
        abs_cases (nth 0 pattern 0 - e); abs_cases (nth i pattern 0 - e); lra.
      * change (0 * 0 + -1 * 1)%Z with (-1)%Z.
        rewrite (get_neg pattern 0 (-1)) by (rewrite <- ?En; lia). cbn [bind]. rewrite <- ?En.
        replace (Z.to_nat (-1 + Z.of_nat n)) with (n - 1)%nat by lia.
        eexists. split; [reflexivity|].
        apply (Hfin (n - 1)%nat); [lia|reflexivity|].
        intros i Hi. apply Qltb_ge in Ec.
        assert (Hi' : nth 0 pattern 0 <= nth i pattern 0)
          by (apply increasing_le; [exact Hinc|rewrite <- ?En; lia]).
        pose proof (Hright 0%nat ltac:(lia)).
        pose proof (Hright (n - 1)%nat ltac:(lia)).
        abs_cases (nth 0 pattern 0 - e); abs_cases (nth i pattern 0 - e);
          abs_cases (e - nth (n - 1) pattern 0); abs_cases (nth (n - 1) pattern 0 - e); lra.
    + (* between two points *)
      rewrite (get_nonneg pattern 0 (k - 1)) by (rewrite <- ?En; lia). cbn [bind].
      replace (Z.to_nat (k - 1)) with (kn - 1)%nat by lia.
      assert (Hleft : forall i : nat, (i <= kn - 1)%nat -> nth i pattern 0 < e).
      { intros i Hi. apply Hbelow. lia. }
      assert (Hkn1 : (1 <= kn < n)%nat) by lia.
      destruct (Qltb (Qabs (nth kn pattern 0 - e)) (Qabs (e - nth (kn - 1) pattern 0))) eqn:Ec;
        cbn [negb].
      * replace (k * 1 + (k - 1) * 0)%Z with k by lia.
        rewrite (get_nonneg pattern 0 k) by (rewrite <- ?En; lia). cbn [bind]. rewrite <- ?Ekn'.
        eexists. split; [reflexivity|].
        apply (Hfin kn); [lia|reflexivity|].
        intros i Hi. apply Qltb_lt in Ec.
        pose proof (Hleft (kn - 1)%nat ltac:(lia)).
        destruct (Nat.le_gt_cases kn i) as [Hge|Hlt].
        -- assert (Hi' : nth kn pattern 0 <= nth i pattern 0)
             by (apply increasing_le; [exact Hinc|rewrite <- ?En; lia]).
           pose proof (Hright i ltac:(lia)).
           abs_cases (nth kn pattern 0 - e); abs_cases (nth i pattern 0 - e); lra.
        -- assert (Hi' : nth i pattern 0 <= nth (kn - 1) pattern 0)
             by (apply increasing_le; [exact Hinc|rewrite <- ?En; lia]).
           abs_cases (nth kn pattern 0 - e); abs_cases (nth i pattern 0 - e);
             abs_cases (e - nth (kn - 1) pattern 0); lra.
      * replace (k * 0 + (k - 1) * 1)%Z with (k - 1)%Z by lia.
        rewrite (get_nonneg pattern 0 (k - 1)) by (rewrite <- ?En; lia). cbn [bind].
        replace (Z.to_nat (k - 1)) with (kn - 1)%nat by lia.
        eexists. split; [reflexivity|].
        apply (Hfin (kn - 1)%nat); [lia|reflexivity|].
        intros i Hi. apply Qltb_ge in Ec.
        pose proof (Hleft (kn - 1)%nat ltac:(lia)).
        destruct (Nat.le_gt_cases kn i) as [Hge|Hlt].
        -- assert (Hi' : nth kn pattern 0 <= nth i pattern 0)
             by (apply increasing_le; [exact Hinc|rewrite <- ?En; lia]).
           pose proof (Hright i ltac:(lia)).
           abs_cases (nth kn pattern 0 - e); abs_cases (nth i pattern 0 - e);
             abs_cases (e - nth (kn - 1) pattern 0); abs_cases (nth (kn - 1) pattern 0 - e);
             lra.
        -- assert (Hi' : nth i pattern 0 <= nth (kn - 1) pattern 0)
             by (apply increasing_le; [exact Hinc|rewrite <- ?En; lia]).
           abs_cases (nth i pattern 0 - e); abs_cases (nth (kn - 1) pattern 0 - e); lra.
Qed.

Lemma range_length (a b : Z) : length (Py.range a b) = Z.to_nat (b - a).
Proof. unfold Py.range. now rewrite length_map, length_seq. Qed.

Lemma nth_range (a b d : Z) (i : nat) :
  (i < Z.to_nat (b - a))%nat -> nth i (Py.range a b) d = (a + Z.of_nat i)%Z.
Proof.
  intro Hi. unfold Py.range.
  rewrite (nth_indep _ d ((fun k => (a + Z.of_nat k)%Z) 0%nat))
    by now rewrite length_map, length_seq.
  rewrite (map_nth (fun k => (a + Z.of_nat k)%Z)). now rewrite seq_nth.
Qed.

(** The predicted times of a positive period are strictly increasing. *)
Lemma construct_range_increasing (t_0 period : Q) (domain : Q * Q) :
  0 < period -> increasing (fst (construct_range t_0 period domain)).
Proof.
  intro Hp. unfold construct_range. cbv zeta. cbn [fst].
  set (a := if Qltb period (1 # 10) then _ else _).
  set (b := (_ + 1)%Z).
  intros i j Hij. rewrite length_map, range_length in Hij.
  rewrite (nth_indep _ 0 ((fun n => t_0 + period * inject_Z n) 0%Z))
    by (rewrite length_map, range_length; lia).
  rewrite (nth_indep _ 0 ((fun n => t_0 + period * inject_Z n) 0%Z) (n := j))
    by (rewrite length_map, range_length; lia).
  rewrite !(map_nth (fun n => t_0 + period * inject_Z n)).
  rewrite !nth_range by lia.
  assert (H : inject_Z (a + Z.of_nat i) < inject_Z (a + Z.of_nat j))
    by (rewrite <- Zlt_Qlt; lia).
  nra.
Qed.

Lemma div_ltb_half (d w : Q) :
  0 <= d -> 0 <= w -> Np.div_ltb d w (1 # 2) = Qltb d ((1 # 2) * w).
Proof.
  intros Hd Hw. unfold Np.div_ltb.
  destruct (Qeq_bool w 0) eqn:E.
  - apply Qeq_bool_iff in E.
    replace (Qltb d 0) with false by (symmetry; now apply Qltb_ge).
    symmetry. apply Qltb_ge. rewrite E. lra.
  - assert (Hw0 : 0 < w).
    { destruct (Qlt_le_dec 0 w) as [H|H]; [exact H|].
      assert (Hz : w == 0) by lra. apply Qeq_bool_iff in Hz. congruence. }
    destruct (Qltb d ((1 # 2) * w)) eqn:E2.
    + apply Qltb_lt. apply Qltb_lt in E2. apply Qlt_shift_div_r; [exact Hw0|exact E2].
    + apply Qltb_ge. apply Qltb_ge in E2. apply Qle_shift_div_l; [exact Hw0|exact E2].
Qed.


Lemma Qltb_comp (x x' y y' : Q) : x == x' -> y == y' -> Qltb x y = Qltb x' y'.
Proof.
  intros Hx Hy. unfold Qltb. f_equal. now rewrite Hx, Hy.
Qed.



Lemma select_Forall2 {A B : Type} (R : A -> B -> Prop) (mask : list bool) :
  forall (a : list A) (b : list B),
  Forall2 R a b -> Forall2 R (Np.select mask a) (Np.select mask b).
Proof.
  induction mask as [|m ms IH]; intros a b H; [destruct a, b; constructor|].
  destruct H as [|x y a b Hxy Hab]; [constructor|].
  simpl. destruct m; [constructor; [exact Hxy|]|]; now apply IH.
Qed.







Lemma get_In {A : Type} (l : list A) (i : Z) (x : A) : Py.get l i = Ok x -> In x l.
Proof.
  unfold Py.get. destruct (_ <? 0)%Z; [discriminate|].
  destruct (nth_error l _) eqn:E; [|discriminate].
  intro H. injection H as <-. eapply nth_error_In. exact E.
Qed.

(** Inverts a chain of binds that ends in [Ok]. *)
Ltac invert_ok H :=
  repeat match type of H with
         | bind ?m _ = Ok _ =>
             let E := fresh "E" in destruct m eqn:E; cbn [bind] in H; try discriminate H
         | (if ?c then _ else _) = Ok _ =>
             let E := fresh "E" in destruct c eqn:E; try discriminate H
         | match ?x with _ => _ end = Ok _ =>
             let E := fresh "E" in destruct x eqn:E; try discriminate H
         end.



Lemma sequence_map_nth {A B : Type} (f : A -> res B) (da : A) (db : B) (l : list A) :
  forall ys : list B,
  Np.sequence (map f l) = Ok ys ->
  length ys = length l
  /\ forall i : nat, (i < length l)%nat -> f (nth i l da) = Ok (nth i ys db).
Proof.
  induction l as [|x r IH]; intros ys H; simpl in H.
  - injection H as <-. split; [reflexivity|]. intros i Hi. simpl in Hi. lia.
  - destruct (f x) as [y| |] eqn:Ey; cbn [bind] in H; try discriminate.
    destruct (Np.sequence (map f r)) as [ys'| |] eqn:Er; cbn [bind] in H; try discriminate.
    injection H as <-. destruct (IH ys' eq_refl) as [Hl Hn].
    split; [simpl; lia|]. intros [|i] Hi; simpl; [exact Ey|]. apply Hn. simpl in Hi. lia.
Qed.



(** ** Matching ingress and egress: C5 *)

Lemma select_passed_iff {A B : Type} (f : A -> res B) (g : B -> bool) (l : list A) :
  forall ys : list B,
  Np.sequence (map f l) = Ok ys ->
  forall p : A,
  In p (Np.select (map g ys) l) <-> In p l /\ exists y : B, f p = Ok y /\ g y = true.
Proof.
  induction l as [|x r IH]; intros ys H p; simpl in H.
  - injection H as <-. simpl. split; [intros []|intros [[] _]].
  - destruct (f x) as [y| |] eqn:Ey; cbn [bind] in H; try discriminate.
    destruct (Np.sequence (map f r)) as [ys'| |] eqn:Er; cbn [bind] in H; try discriminate.
    injection H as <-. specialize (IH ys' eq_refl p).
    cbn [map Np.select]. destruct (g y) eqn:Eg.
    + split.
      * intros [<-|Hin].
        -- split; [now left|]. exists y. now split.
        -- apply IH in Hin. destruct Hin as [Hin Hy]. split; [now right|exact Hy].
      * intros [[<-|Hin] Hy]; [now left|]. right. apply IH. now split.
    + split.
      * intro Hin. apply IH in Hin. destruct Hin as [Hin Hy]. split; [now right|exact Hy].
      * intros [[<-|Hin] [y' [Ey' Hy']]].
        -- rewrite Ey in Ey'. injection Ey' as <-. congruence.
        -- apply IH. split; [exact Hin|]. now exists y'.
Qed.

(** ** The period and the ephemeris: C2 *)

Lemma any_eq_int (flags : list Z) (k : Z) :
  Np.any (Np.eq_int flags k) = true <-> In k flags.
Proof.
  unfold Np.any, Np.eq_int. rewrite existsb_exists. split.
  - intros [b [Hb ->]]. apply in_map_iff in Hb. destruct Hb as [x [Hx Hin]].
    apply Z.eqb_eq in Hx. now subst.
  - intro Hin. exists true. split; [|reflexivity].
    apply in_map_iff. exists k. split; [apply Z.eqb_refl|exact Hin].
Qed.

Lemma mask_set_in {A : Type} (mask : list bool) (a a' : list A) (v x : A) :
  Np.mask_set mask a v = Ok a' -> In x a' -> x = v \/ In x a.
Proof.
  unfold Np.mask_set. destruct (length mask =? length a)%nat; [|discriminate].
  intros H Hin. injection H as <-. apply in_map_iff in Hin.
  destruct Hin as [[b y] [Hy Hin]]. apply in_combine_r in Hin. simpl in Hy.
  destruct b; [now left|right; now subst].
Qed.

Lemma mask_set_eq_removes (flags flags' : list Z) (k v : Z) :
  k <> v -> Np.mask_set (Np.eq_int flags k) flags v = Ok flags' -> ~ In k flags'.
Proof.
  unfold Np.mask_set, Np.eq_int. intros Hkv H.
  destruct (length _ =? length flags)%nat; [|discriminate].
  injection H as <-. intro Hin. apply in_map_iff in Hin.
  destruct Hin as [[b y] [Hy Hin]]. simpl in Hy.
  assert (Hb : b = (y =? k)%Z).
  { clear -Hin. induction flags as [|x r IH]; simpl in Hin; [destruct Hin|].
    destruct Hin as [Heq|Hin]; [now injection Heq as <- <-|now apply IH]. }
  subst b. destruct (Z.eqb_spec y k); congruence.
Qed.

Lemma any_map_andb_r (x : bool) (b : list bool) :
  Np.any (map (andb x) b) = true -> Np.any b = true.
Proof.
  unfold Np.any. rewrite !existsb_exists. intros [c [Hc ->]].
  apply in_map_iff in Hc. destruct Hc as [y [Hy Hin]].
  apply andb_true_iff in Hy. destruct Hy as [_ ->]. now exists true.
Qed.

Lemma ew2_andb_any (a b c : list bool) :
  Np.ew2 andb a b = Ok c -> Np.any c = true -> Np.any b = true.
Proof.
  unfold Np.ew2. destruct (length a =? length b)%nat.
  - intros H Hany. injection H as <-. unfold Np.any in *.
    rewrite existsb_exists in *. destruct Hany as [x [Hx ->]].
    apply in_map_iff in Hx. destruct Hx as [[u v] [Huv Hin]]. simpl in Huv.
    apply andb_true_iff in Huv. destruct Huv as [_ ->].
    apply in_combine_r in Hin. now exists true.
  - destruct a as [|x [|x' a']].
    + destruct b as [|y [|y' b']]; try discriminate.
      intros H Hany. injection H as <-. discriminate.
    + intros H Hany. injection H as <-. now apply any_map_andb_r in Hany.
    + destruct b as [|y [|y' b']]; try discriminate.
      intros H Hany. injection H as <-. unfold Np.any in *.
      rewrite existsb_exists in Hany. destruct Hany as [z [Hz ->]].
      apply (in_map_iff (fun u => u && y) (x :: x' :: a')) in Hz.
      destruct Hz as [u [Hu _]].
      apply andb_true_iff in Hu. destruct Hu as [_ ->]. reflexivity.
Qed.

(** The last part of [estimate_period] either keeps the period it was given
    and flags a primary, or returns the sentinels and flags no primary. *)
Lemma flag_and_epoch_cases (g1 g2 : list Z) (primary_g1 : bool) (period : Q)
      (ecl_mid added_snr : list Q) (m_full : list bool) (t p : Q) (flags : list Z) :
  flag_and_epoch g1 g2 primary_g1 period ecl_mid added_snr m_full = Ok (t, p, flags) ->
  (p = period /\ In t ecl_mid /\ In 1%Z flags)
  \/ (t = -1 /\ p = -1 /\ ~ In 1%Z flags).
Proof.
  unfold flag_and_epoch. cbv zeta. intro H.
  destruct (Np.index_set _ g1 _) as [f1| |]; cbn [bind] in H; try discriminate.
  destruct (Np.index_set f1 g2 _) as [f2| |]; cbn [bind] in H; try discriminate.
  destruct (Np.mask_set (Np.eq_int f2 0) f2 3%Z) as [f3| |]; cbn [bind] in H;
    try discriminate.
  destruct (Np.compress (Np.eq_int f3 1) added_snr) as [snr_p| |]; cbn [bind] in H;
    try discriminate.
  (* the outcome of the likeness check *)
  assert (Hcheck : exists (f4 : list Z) (period' : Q),
             (period' = period \/ (period' = -1 /\ ~ In 1%Z f4))
             /\ (full_primaries <- Np.ew2 andb m_full (Np.eq_int f4 1) ;;
                 if Np.any full_primaries then
                   sel <- Np.compress full_primaries ecl_mid ;;
                   t_zero <- Py.get sel 0 ;;
                   Ok (t_zero, period', f4)
                 else if Np.any (Np.eq_int f4 1) then
                   sel <- Np.compress (Np.eq_int f4 1) ecl_mid ;;
                   t_zero <- Py.get sel 0 ;;
                   Ok (t_zero, period', f4)
                 else Ok (-1, -1, f4)) = Ok (t, p, flags)).
  { destruct (length snr_p =? 2)%nat.
    - destruct (Np.any _).
      + destruct (Np.mask_set (Np.eq_int f3 1) f3 3%Z) as [f4| |] eqn:E4;
          cbn [bind] in H; try discriminate.
        destruct (Np.mask_set (Np.eq_int f4 2) f4 3%Z) as [f5| |] eqn:E5;
          cbn [bind] in H; try discriminate.
        exists f5, (-1). split; [|exact H]. right. split; [reflexivity|].
        intro Hin. destruct (mask_set_in _ _ _ _ _ E5 Hin) as [Heq|Hin4]; [discriminate|].
        revert Hin4. apply (mask_set_eq_removes f3 f4 1 3); [discriminate|exact E4].
      + cbn [bind] in H. exists f3, period. split; [now left|exact H].
    - cbn [bind] in H. exists f3, period. split; [now left|exact H]. }
  clear H. destruct Hcheck as [f4 [period' [Hper H]]].
  destruct (Np.ew2 andb m_full (Np.eq_int f4 1)) as [fp| |] eqn:Efp; cbn [bind] in H;
    try discriminate.
  assert (Hfp : Np.any fp = true -> In 1%Z f4).
  { intro Hany. apply any_eq_int. exact (ew2_andb_any _ _ _ Efp Hany). }
  destruct (Np.any fp) eqn:Eany.
  - destruct (Np.compress fp ecl_mid) as [sel| |] eqn:Es; cbn [bind] in H; try discriminate.
    destruct (Py.get sel 0) as [t0| |] eqn:Et; cbn [bind] in H; try discriminate.
    injection H as <- <- <-. specialize (Hfp eq_refl).
    destruct Hper as [->|[_ Hno]]; [|contradiction].
    left. split; [reflexivity|]. split; [|exact Hfp].
    apply get_In in Et. unfold Np.compress in Es.
    destruct (length fp =? length ecl_mid)%nat; [|discriminate]. injection Es as <-.
    clear -Et. revert ecl_mid Et. induction fp as [|b m IH]; intros [|x r] Hin;
      simpl in Hin; try contradiction.
    destruct b; [destruct Hin as [->|Hin]; [now left|right; now apply IH]
                |right; now apply IH].
  - destruct (Np.any (Np.eq_int f4 1)) eqn:Ep.
    + destruct (Np.compress (Np.eq_int f4 1) ecl_mid) as [sel| |] eqn:Es;
        cbn [bind] in H; try discriminate.
      destruct (Py.get sel 0) as [t0| |] eqn:Et; cbn [bind] in H; try discriminate.
      injection H as <- <- <-. apply any_eq_int in Ep.
      destruct Hper as [->|[_ Hno]]; [|contradiction].
      left. split; [reflexivity|]. split; [|exact Ep].
      apply get_In in Et. unfold Np.compress in Es.
      destruct (length _ =? length ecl_mid)%nat; [|discriminate]. injection Es as <-.
      clear -Et. revert ecl_mid Et. induction (Np.eq_int f4 1) as [|b m IH];
        intros [|x r] Hin; simpl in Hin; try contradiction.
      destruct b; [destruct Hin as [->|Hin]; [now left|right; now apply IH]
                  |right; now apply IH].
    + injection H as <- <- <-. right. split; [reflexivity|]. split; [reflexivity|].
      intro Hin. apply any_eq_int in Hin. congruence.
Qed.

Section EstimatePeriodEdgeCases.
Variable std : list Q -> Q.

Lemma estimate_period_single (e : Q) (widths depths added_snr : list Q) (flags_lrf : list Z)
      (timestep : Q) :
  estimate_period std [e] widths depths added_snr flags_lrf timestep
  = Ok (-1, -1, [3%Z]).
Proof. reflexivity. Qed.

Lemma first_period_estimate_pair (e0 e1 : Q) (widths depths added_snr : list Q)
      (m_full : list bool) (domain : Q * Q) (timestep : Q) :
  first_period_estimate [e0; e1] widths depths added_snr m_full domain timestep
  = Ok (if Qltb (Qabs (e1 - e0)) (1 # 100)
        then mk_period_guess (-1) [] [e0; e1] widths depths added_snr m_full []
        else mk_period_guess (Qabs (e1 - e0)) [0; 1]%Z [e0; e1] widths depths added_snr
                             m_full []).
Proof.
  unfold first_period_estimate. cbv zeta.
  change (Py.get [e0; e1] 1) with (Ok e1). change (Py.get [e0; e1] 0) with (Ok e0).
  cbn [bind length Nat.ltb Nat.leb Nat.eqb].
  now destruct (Qltb _ _).
Qed.

Lemma time_domain_pair (e0 e1 : Q) :
  time_domain [e0; e1]
  = Ok (Qmin e0 e1 - (5 # 100) * (Qmax e0 e1 - Qmin e0 e1) / 2,
        Qmax e0 e1 + (5 # 100) * (Qmax e0 e1 - Qmin e0 e1) / 2).
Proof. reflexivity. Qed.

Lemma estimate_period_overlap (e0 e1 : Q) (widths depths added_snr : list Q)
      (flags_lrf : list Z) (timestep : Q) :
  Qabs (e1 - e0) < 1 # 100 ->
  estimate_period std [e0; e1] widths depths added_snr flags_lrf timestep
  = Ok (-1, -1, [3%Z; 3%Z]).
Proof.
  intro H. apply Qltb_lt in H.
  unfold estimate_period. cbv zeta. rewrite time_domain_pair. cbn [bind].
  rewrite first_period_estimate_pair, H. reflexivity.
Qed.

Lemma estimate_period_no_estimate (ecl_mid widths depths added_snr : list Q)
      (flags_lrf : list Z) (timestep : Q) (domain : Q * Q) (pg : period_guess) :
  time_domain ecl_mid = Ok domain ->
  first_period_estimate ecl_mid widths depths added_snr (Np.eq_int flags_lrf 0)
                        domain timestep = Ok pg ->
  pg_period pg == -1 ->
  estimate_period std ecl_mid widths depths added_snr flags_lrf timestep
  = Ok (-1, -1, repeat 3%Z (length ecl_mid)).
Proof.
  intros Hd Hpg Hp. unfold estimate_period. cbv zeta. rewrite Hd. cbn [bind].
  rewrite Hpg. cbn [bind]. apply Qeq_bool_iff in Hp. rewrite Hp. reflexivity.
Qed.

Lemma classify_eclipses_pair_cases (period e0 e1 : Q) (widths depths added_snr : list Q)
      (m_full : list bool) (n_full_ecl : nat) (domain : Q * Q) (timestep : Q)
      (t p : Q) (flags : list Z) :
  classify_eclipses std
    (mk_period_guess period [0; 1]%Z [e0; e1] widths depths added_snr m_full [])
    n_full_ecl domain timestep = Ok (t, p, flags) ->
  (p = period /\ In t [e0; e1] /\ In 1%Z flags)
  \/ (t = -1 /\ p = -1 /\ ~ In 1%Z flags).
Proof.
  unfold classify_eclipses. cbv zeta.
  cbn [pg_period pg_included pg_ecl_mid pg_widths pg_depths pg_added_snr pg_m_full].
  change (Np.take [e0; e1] [0; 1]%Z) with (Ok [e0; e1]). cbn [bind].
  change (Py.get [e0; e1] 0) with (Ok e0). cbn [bind length Nat.ltb Nat.leb].
  intro H. invert_ok H; apply flag_and_epoch_cases in H; exact H.
Qed.

Lemma estimate_period_pair_cases (e0 e1 : Q) (widths depths added_snr : list Q)
      (flags_lrf : list Z) (timestep : Q) (t p : Q) (flags : list Z) :
  ~ Qabs (e1 - e0) < 1 # 100 ->
  estimate_period std [e0; e1] widths depths added_snr flags_lrf timestep
  = Ok (t, p, flags) ->
  (p = Qabs (e1 - e0) /\ In t [e0; e1] /\ In 1%Z flags)
  \/ (t = -1 /\ p = -1 /\ ~ In 1%Z flags).
Proof.
  intros Hsep. rewrite <- Qltb_lt in Hsep. apply not_true_is_false in Hsep.
  unfold estimate_period. cbv zeta. rewrite time_domain_pair. cbn [bind].
  rewrite first_period_estimate_pair, Hsep. cbn [bind pg_period pg_sorter].
  assert (Hne : Qeq_bool (Qabs (e1 - e0)) (-1) = false).
  { apply not_true_is_false. intro Heq. apply Qeq_bool_iff in Heq.
    pose proof (Qabs_nonneg (e1 - e0)). lra. }
  rewrite Hne. cbn [negb length Nat.ltb Nat.leb]. intro H.
  match type of H with
  | bind ?m _ = Ok _ => destruct m as [[[t' p'] f']| |] eqn:E; cbn [bind] in H;
                        try discriminate H
  end.
  injection H as <- <- <-. exact (classify_eclipses_pair_cases _ _ _ _ _ _ _ _ _ _ _ _ _ E).
Qed.

Lemma Qceiling_unique (x : Q) (z : Z) :
  inject_Z (z - 1) < x -> x <= inject_Z z -> Qceiling x = z.
Proof.
  intros H1 H2. pose proof (Qle_ceiling x) as H3. pose proof (Qceiling_lt x) as H4.
  assert (inject_Z (z - 1) < inject_Z (Qceiling x)) as H5 by lra.
  assert (inject_Z (Qceiling x - 1) < inject_Z z) as H6 by lra.
  rewrite <- Zlt_Qlt in H5, H6. lia.
Qed.

Lemma Qfloor_unique (x : Q) (z : Z) :
  inject_Z z <= x -> x < inject_Z (z + 1) -> Qfloor x = z.
Proof.
  intros H1 H2. pose proof (Qfloor_le x) as H3. pose proof (Qlt_floor x) as H4.
  assert (inject_Z z < inject_Z (Qfloor x + 1)) as H5 by lra.
  assert (inject_Z (Qfloor x) < inject_Z (z + 1)) as H6 by lra.
  rewrite <- Zlt_Qlt in H5, H6. lia.
Qed.

(** The pattern of two midpoints at least 0.1 apart, laid out from the first
    with their separation over their padded time domain: the two midpoints
    themselves, in ascending order. *)
Ltac lra_half := unfold Qdiv; change (/ 2) with (1 # 2); lra.

Lemma construct_range_pair (e0 e1 : Q) :
  1 # 10 <= Qabs (e1 - e0) ->
  exists a b : Q,
    fst (construct_range e0 (Qabs (e1 - e0))
           (Qmin e0 e1 - (5 # 100) * (Qmax e0 e1 - Qmin e0 e1) / 2,
            Qmax e0 e1 + (5 # 100) * (Qmax e0 e1 - Qmin e0 e1) / 2)) = [a; b]
    /\ a < b /\ ((e0 == a /\ e1 == b) \/ (e0 == b /\ e1 == a)).
Proof.
  intro Hsep. unfold construct_range. cbv zeta. cbn [fst snd].
  assert (Hp : Qltb (Qabs (e1 - e0)) (1 # 10) = false) by now apply Qltb_ge.
  rewrite Hp. remember (Qabs (e1 - e0)) as p eqn:Ep.
  assert (Hpos : 0 < p) by lra.
  destruct (Q.min_spec_le e0 e1) as [[Hle Hmin]|[Hle Hmin]];
    destruct (Q.max_spec_le e0 e1) as [[Hle' Hmax]|[Hle' Hmax]];
    remember (Qmin e0 e1) as lo eqn:Elo; remember (Qmax e0 e1) as hi eqn:Ehi;
    abs_cases (e1 - e0); rewrite <- Ep in *; try lra.
  - (* e0 < e1 *)
    assert (Hb : Qceiling ((lo - (5 # 100) * (hi - lo) / 2 - e0) / p) = 0%Z).
    { apply Qceiling_unique.
      - apply Qlt_shift_div_l; [exact Hpos|]. change (inject_Z (0 - 1)) with (-1). lra_half.
      - apply Qle_shift_div_r; [exact Hpos|]. change (inject_Z 0) with 0. lra_half. }
    assert (Ha : Qfloor ((hi + (5 # 100) * (hi - lo) / 2 - e0) / p) = 1%Z).
    { apply Qfloor_unique.
      - apply Qle_shift_div_l; [exact Hpos|]. change (inject_Z 1) with 1. lra_half.
      - apply Qlt_shift_div_r; [exact Hpos|]. change (inject_Z (1 + 1)) with 2. lra_half. }
    rewrite Hb, Ha. exists (e0 + p * inject_Z 0), (e0 + p * inject_Z 1).
    split; [reflexivity|]. change (inject_Z 0) with 0. change (inject_Z 1) with 1.
    split; [lra|]. left. split; lra.
  - (* e1 < e0 *)
    assert (Hb : Qceiling ((lo - (5 # 100) * (hi - lo) / 2 - e0) / p) = (-1)%Z).
    { apply Qceiling_unique.
      - apply Qlt_shift_div_l; [exact Hpos|]. change (inject_Z (-1 - 1)) with (-2). lra_half.
      - apply Qle_shift_div_r; [exact Hpos|]. change (inject_Z (-1)) with (-1). lra_half. }
    assert (Ha : Qfloor ((hi + (5 # 100) * (hi - lo) / 2 - e0) / p) = 0%Z).
    { apply Qfloor_unique.
      - apply Qle_shift_div_l; [exact Hpos|]. change (inject_Z 0) with 0. lra_half.
      - apply Qlt_shift_div_r; [exact Hpos|]. change (inject_Z (0 + 1)) with 1. lra_half. }
    rewrite Hb, Ha. exists (e0 + p * inject_Z (-1)), (e0 + p * inject_Z 0).
    split; [reflexivity|]. change (inject_Z 0) with 0. change (inject_Z (-1)) with (-1).
    split; [lra|]. right. split; lra.
Qed.

Lemma nearest_neighbour_pair_left (a b e : Q) :
  a < b -> e == a -> exists d, nearest_neighbour [a; b] e = Ok (0%Z, d) /\ d == 0.
Proof.
  intros Hab He. unfold nearest_neighbour. cbv zeta. cbn [Np.searchsorted length].
  assert (H1 : Qltb a e = false) by (apply Qltb_ge; lra).
  rewrite H1. cbn [Z.eqb Z.of_nat].
  change (Py.get [a; b] 0) with (Ok a). change (Py.get [a; b] (0 - 1)) with (Ok b).
  cbn [bind].
  assert (H2 : Qltb (Qabs (a - e)) (Qabs (e - b)) = true).
  { apply Qltb_lt. abs_cases (a - e); abs_cases (e - b); lra. }
  rewrite H2. cbn [negb Z.mul Z.add Z.sub Z.opp].
  change (Py.get [a; b] 0) with (Ok a). cbn [bind].
  eexists. split; [reflexivity|]. abs_cases (a - e); lra.
Qed.

Lemma nearest_neighbour_pair_right (a b e : Q) :
  a < b -> e == b -> exists d, nearest_neighbour [a; b] e = Ok (1%Z, d) /\ d == 0.
Proof.
  intros Hab He. unfold nearest_neighbour. cbv zeta. cbn [Np.searchsorted length].
  assert (H1 : Qltb a e = true) by (apply Qltb_lt; lra).
  assert (H1' : Qltb b e = false) by (apply Qltb_ge; lra).
  rewrite H1, H1'. cbn [Z.eqb Z.of_nat Z.add Pos.add Pos.of_succ_nat Pos.succ Pos.eqb].
  change (Py.get [a; b] 1) with (Ok b). change (Py.get [a; b] (1 - 1)) with (Ok a).
  cbn [bind].
  assert (H2 : Qltb (Qabs (b - e)) (Qabs (e - a)) = true).
  { apply Qltb_lt. abs_cases (b - e); abs_cases (e - a); lra. }
  rewrite H2. cbn [negb Z.mul Z.add Z.sub Z.opp Pos.mul].
  change (Py.get [a; b] 1) with (Ok b). cbn [bind].
  eexists. split; [reflexivity|]. abs_cases (b - e); lra.
Qed.

Lemma div_ltb_zero (d w : Q) : d == 0 -> ~ w == 0 -> Np.div_ltb d w (1 # 2) = true.
Proof.
  intros Hd Hw. unfold Np.div_ltb.
  destruct (Qeq_bool w 0) eqn:E; [apply Qeq_bool_iff in E; contradiction|].
  apply Qltb_lt. rewrite Hd. unfold Qdiv. lra.
Qed.

(** Two midpoints that are the two points of the pattern, with widths that
    are not zero, are both extracted. *)
Lemma extract_pattern_pair (e0 e1 w0 w1 : Q) (added_snr : list Q) (t_0 period : Q)
      (time_frame : Q * Q) (a b : Q) :
  fst (construct_range t_0 period time_frame) = [a; b] ->
  a < b -> (e0 == a /\ e1 == b) \/ (e0 == b /\ e1 == a) ->
  ~ w0 == 0 -> ~ w1 == 0 ->
  extract_pattern [e0; e1] [w0; w1] added_snr t_0 period time_frame = Ok [0; 1]%Z.
Proof.
  intros Hpat Hab Hpos Hw0 Hw1. unfold extract_pattern. cbv zeta. rewrite Hpat.
  cbn [map Np.sequence].
  destruct Hpos as [[H0 H1]|[H0 H1]].
  - destruct (nearest_neighbour_pair_left a b e0 Hab H0) as [d0 [-> Hd0]].
    destruct (nearest_neighbour_pair_right a b e1 Hab H1) as [d1 [-> Hd1]].
    cbn [bind map fst snd]. unfold Np.ew2. cbn [length Nat.eqb combine map fst snd].
    rewrite (div_ltb_zero d0 w0 Hd0 Hw0), (div_ltb_zero d1 w1 Hd1 Hw1).
    reflexivity.
  - destruct (nearest_neighbour_pair_right a b e0 Hab H0) as [d0 [-> Hd0]].
    destruct (nearest_neighbour_pair_left a b e1 Hab H1) as [d1 [-> Hd1]].
    cbn [bind map fst snd]. unfold Np.ew2. cbn [length Nat.eqb combine map fst snd].
    rewrite (div_ltb_zero d0 w0 Hd0 Hw0), (div_ltb_zero d1 w1 Hd1 Hw1).
    reflexivity.
Qed.

(** A group that already holds both of two eclipses gains nothing. *)
Lemma add_missing_ecl_pair (e0 e1 ph0 ph1 s0 s1 g_avg_phase g_avg_w period : Q) :
  add_missing_ecl std [0; 1]%Z [0; 1]%Z [e0; e1] [ph0; ph1] [s0; s1]
                  g_avg_phase g_avg_w period = Ok [0; 1]%Z.
Proof.
  unfold add_missing_ecl. cbv zeta.
  change (Np.take [s0; s1] [0; 1]%Z) with (Ok [s0; s1]). cbn [bind Np.mean].
  unfold Np.ew2. cbn [length Nat.eqb combine map fst snd].
  match goal with
  | |- context [Ok [?x && ?y; ?z && ?u]] =>
      generalize (x && y); generalize (z && u)
  end.
  intros [|] [|]; reflexivity.
Qed.

Lemma flag_and_epoch_pair (period e0 e1 s0 s1 : Q) (f0 f1 : Z) :
  flag_and_epoch [0; 1]%Z [] true period [e0; e1] [s0; s1] (Np.eq_int [f0; f1] 0)
  = Ok (if Qltb s0 (s1 / 2) || Qltb s1 (s0 / 2)
        then (-1, -1, [3; 3]%Z)
        else (if (f0 =? 0)%Z then e0 else if (f1 =? 0)%Z then e1 else e0,
              period, [1; 1]%Z)).
Proof.
  unfold flag_and_epoch. cbv zeta.
  change (Np.index_set (repeat 0%Z (length [e0; e1])) [0; 1]%Z 1%Z) with (Ok [1; 1]%Z).
  cbn [bind Np.index_set].
  change (Np.mask_set (Np.eq_int [1; 1]%Z 0) [1; 1]%Z 3%Z) with (Ok [1; 1]%Z).
  cbn [bind].
  change (Np.compress (Np.eq_int [1; 1]%Z 1) [s0; s1]) with (Ok [s0; s1]).
  cbn [bind length Nat.eqb rev app combine map fst snd Np.any existsb].
  rewrite orb_false_r.
  destruct (Qltb s0 (s1 / 2) || Qltb s1 (s0 / 2)).
  - change (Np.mask_set (Np.eq_int [1; 1]%Z 1) [1; 1]%Z 3%Z) with (Ok [3; 3]%Z).
    cbn [bind].
    change (Np.mask_set (Np.eq_int [3; 3]%Z 2) [3; 3]%Z 3%Z) with (Ok [3; 3]%Z).
    cbn [bind]. unfold Np.eq_int, Np.ew2. cbn [map length Nat.eqb combine fst snd Z.eqb].
    cbn [bind]. destruct (f0 =? 0)%Z, (f1 =? 0)%Z; reflexivity.
  - cbn [bind]. unfold Np.eq_int, Np.ew2. cbn [map length Nat.eqb combine fst snd Z.eqb].
    cbn [bind]. destruct (f0 =? 0)%Z, (f1 =? 0)%Z; reflexivity.
Qed.

Lemma classify_eclipses_pair (e0 e1 w0 w1 s0 s1 : Q) (depths : list Q) (f0 f1 : Z)
      (n_full_ecl : nat) (timestep : Q) :
  1 # 10 <= Qabs (e1 - e0) -> ~ w0 == 0 -> ~ w1 == 0 ->
  classify_eclipses std
    (mk_period_guess (Qabs (e1 - e0)) [0; 1]%Z [e0; e1] [w0; w1] depths [s0; s1]
                     (Np.eq_int [f0; f1] 0) [])
    n_full_ecl
    (Qmin e0 e1 - (5 # 100) * (Qmax e0 e1 - Qmin e0 e1) / 2,
     Qmax e0 e1 + (5 # 100) * (Qmax e0 e1 - Qmin e0 e1) / 2)
    timestep
  = Ok (if Qltb s0 (s1 / 2) || Qltb s1 (s0 / 2)
        then (-1, -1, [3; 3]%Z)
        else (if (f0 =? 0)%Z then e0 else if (f1 =? 0)%Z then e1 else e0,
              Qabs (e1 - e0), [1; 1]%Z)).
Proof.
  intros Hsep Hw0 Hw1.
  destruct (construct_range_pair e0 e1 Hsep) as [a [b [Hpat [Hab Hpos]]]].
  pose proof (extract_pattern_pair e0 e1 w0 w1 [s0; s1] e0 _ _ a b Hpat Hab Hpos Hw0 Hw1)
    as Hg1.
  unfold classify_eclipses. cbv zeta.
  cbn [pg_period pg_included pg_ecl_mid pg_widths pg_depths pg_added_snr pg_m_full].
  change (Np.take [e0; e1] [0; 1]%Z) with (Ok [e0; e1]). cbn [bind].
  change (Py.get [e0; e1] 0) with (Ok e0). cbn [bind length Nat.ltb Nat.leb negb].
  rewrite Hg1.
  assert (Hne : Qeq_bool (Qabs (e1 - e0)) 0 = false).
  { apply not_true_is_false. intro Heq. apply Qeq_bool_iff in Heq. lra. }
  unfold Np.div, fold_time_series. rewrite Hne. cbn [bind map length Nat.ltb Nat.leb].
  match goal with
  | |- context [Np.take [?x; ?y] [0; 1]%Z] =>
      change (Np.take [x; y] [0; 1]%Z) with (Ok [x; y])
  end.
  cbn [bind].
  change (Np.take [w0; w1] [0; 1]%Z) with (Ok [w0; w1]). cbn [bind].
  unfold find_second_group. cbv zeta.
  change (Np.index_set (repeat true (length (Py.range 0 (Z.of_nat 2)))) [0; 1]%Z false)
    with (Ok [false; false]).
  cbn [bind].
  change (Np.compress [false; false] (Py.range 0 (Z.of_nat 2))) with (@Ok (list Z) []).
  cbn [bind length Nat.ltb Nat.leb].
  change (Py.range 0 (Z.of_nat 2)) with [0; 1]%Z.
  rewrite add_missing_ecl_pair. cbn [bind length Nat.ltb Nat.leb].
  unfold prune_by_width. cbn [bind length Nat.ltb Nat.leb].
  change (Qltb (inject_Z (Z.of_nat 0)) (Qmax 2 ((5 # 100) * inject_Z (Z.of_nat 2))))
    with true.
  cbn [bind]. rewrite flag_and_epoch_pair. reflexivity.
Qed.

Lemma estimate_period_pair (e0 e1 w0 w1 s0 s1 : Q) (depths : list Q) (f0 f1 : Z)
      (timestep : Q) :
  1 # 10 <= Qabs (e1 - e0) -> ~ w0 == 0 -> ~ w1 == 0 ->
  estimate_period std [e0; e1] [w0; w1] depths [s0; s1] [f0; f1] timestep
  = Ok (if Qltb s0 (s1 / 2) || Qltb s1 (s0 / 2)
        then (-1, -1, [3; 3]%Z)
        else (if (f0 =? 0)%Z then e0 else if (f1 =? 0)%Z then e1 else e0,
              Qabs (e1 - e0), [1; 1]%Z)).
Proof.
  intros Hsep Hw0 Hw1.
  unfold estimate_period. cbv zeta. rewrite time_domain_pair. cbn [bind].
  rewrite first_period_estimate_pair.
  assert (Hp : Qltb (Qabs (e1 - e0)) (1 # 100) = false) by (apply Qltb_ge; lra).
  rewrite Hp. cbn [bind pg_period pg_sorter].
  assert (Hne : Qeq_bool (Qabs (e1 - e0)) (-1) = false).
  { apply not_true_is_false. intro Heq. apply Qeq_bool_iff in Heq. lra. }
  rewrite Hne. cbn [negb length Nat.ltb Nat.leb].
  rewrite (classify_eclipses_pair e0 e1 w0 w1 s0 s1 depths f0 f1 _ timestep Hsep Hw0 Hw1).
  cbn [bind]. now destruct (Qltb s0 (s1 / 2) || Qltb s1 (s0 / 2)).
Qed.

End EstimatePeriodEdgeCases.

(** With no midpoint at all the time domain cannot be taken: the minimum of
    an empty array raises before the number of eclipses is looked at. *)
Lemma estimate_period_no_eclipses_raises (std : list Q -> Q) (widths depths added_snr : list Q)
      (flags_lrf : list Z) (timestep : Q) :
  estimate_period std [] widths depths added_snr flags_lrf timestep = Raise ValueError.
Proof. reflexivity. Qed.

(** C2, as the code has it.  [estimate_period] returns the sentinels
    -1, -1 and the flag 3 for a single midpoint; the same, with both flags
    3, for two midpoints less than 0.01 apart; for two midpoints at least
    0.01 apart whatever it returns is either their separation as the period
    with one of the midpoints as the epoch and some eclipse flagged primary,
    or the sentinels -1, -1 with no eclipse flagged primary; for two
    midpoints at least 0.1 apart with widths that are not zero it returns
    the sentinels and both flags 3 when one added_snr is below half the
    other, and else the separation as the period, the first full eclipse
    (or the first eclipse) as the epoch and both flags 1; and whenever the
    first part leaves no period estimate (too few eclipses, an overlapping
    pair, a degenerate period grid) it returns the sentinels and the flag 3
    for every eclipse. *)
Theorem estimate_period_edge_cases (std : list Q -> Q) (widths depths added_snr : list Q)
        (flags_lrf : list Z) (timestep : Q) :
  (forall e : Q,
      estimate_period std [e] widths depths added_snr flags_lrf timestep
      = Ok (-1, -1, [3%Z]))
  /\ (forall e0 e1 : Q,
         Qabs (e1 - e0) < 1 # 100 ->
         estimate_period std [e0; e1] widths depths added_snr flags_lrf timestep
         = Ok (-1, -1, [3%Z; 3%Z]))
  /\ (forall (e0 e1 t p : Q) (flags : list Z),
         ~ Qabs (e1 - e0) < 1 # 100 ->
         estimate_period std [e0; e1] widths depths added_snr flags_lrf timestep
         = Ok (t, p, flags) ->
         (p = Qabs (e1 - e0) /\ In t [e0; e1] /\ In 1%Z flags)
         \/ (t = -1 /\ p = -1 /\ ~ In 1%Z flags))
  /\ (forall (e0 e1 w0 w1 s0 s1 : Q) (f0 f1 : Z),
         1 # 10 <= Qabs (e1 - e0) -> ~ w0 == 0 -> ~ w1 == 0 ->
         estimate_period std [e0; e1] [w0; w1] depths [s0; s1] [f0; f1] timestep
         = Ok (if Qltb s0 (s1 / 2) || Qltb s1 (s0 / 2)
               then (-1, -1, [3; 3]%Z)
               else (if (f0 =? 0)%Z then e0 else if (f1 =? 0)%Z then e1 else e0,
                     Qabs (e1 - e0), [1; 1]%Z)))
  /\ (forall (ecl_mid : list Q) (domain : Q * Q) (pg : period_guess),
         time_domain ecl_mid = Ok domain ->
         first_period_estimate ecl_mid widths depths added_snr (Np.eq_int flags_lrf 0)
                               domain timestep = Ok pg ->
         pg_period pg == -1 ->
         estimate_period std ecl_mid widths depths added_snr flags_lrf timestep
         = Ok (-1, -1, repeat 3%Z (length ecl_mid))).
Proof.
  split; [|split; [|split; [|split]]].
  - intro e. apply estimate_period_single.
  - intros e0 e1. apply estimate_period_overlap.
  - intros e0 e1 t p flags. apply estimate_period_pair_cases.
  - intros e0 e1 w0 w1 s0 s1 f0 f1. apply estimate_period_pair.
  - intros ecl_mid domain pg. apply estimate_period_no_estimate.
Qed.

Lemma estimate_period_edge_cases_witness :
  estimate_period std_rational [5] [1] [1 # 10] [20] [0%Z] (1 # 50) = Ok (-1, -1, [3%Z])
  /\ (Qabs (5 + (1 # 1000) - 5) < 1 # 100
      /\ estimate_period std_rational [5; 5 + (1 # 1000)] [1; 1] [1 # 10; 1 # 10] [20; 30]
                          [0; 0]%Z (1 # 50)
         = Ok (-1, -1, [3; 3]%Z))
  /\ ((1 # 10 <= Qabs (8 - 5) /\ ~ 1 == 0)
      /\ estimate_period std_rational [5; 8] [1; 1] [1 # 10; 1 # 10] [20; 30]
                          [0; 0]%Z (1 # 50)
         = Ok (5, Qabs (8 - 5), [1; 1]%Z))
  /\ (~ Qabs (8 - 5) < 1 # 100
      /\ ((Qabs (8 - 5) = Qabs (8 - 5) /\ In 5 [5; 8] /\ In 1%Z [1; 1]%Z)
          \/ (5 = -1 /\ Qabs (8 - 5) = -1 /\ ~ In 1%Z [1; 1]%Z)))
  /\ (pg_period (mk_period_guess (-1) [] [5; 5; 5] [1; 1; 1] [1 # 10; 1 # 10; 1 # 10]
                                 [20; 30; 10] [true; true; true] [0; 1; 2]%Z) == -1
      /\ estimate_period std_rational [5; 5; 5] [1; 1; 1] [1 # 10; 1 # 10; 1 # 10]
                          [20; 30; 10] [0; 0; 0]%Z (1 # 50)
         = Ok (-1, -1, [3; 3; 3]%Z)).
Proof.
  assert (Hsep : 1 # 10 <= Qabs (8 - 5)) by (vm_compute; discriminate).
  assert (Hw : ~ 1 == 0) by (intro H; discriminate H).
  assert (Hfar : ~ Qabs (8 - 5) < 1 # 100) by (intro H; vm_compute in H; discriminate H).
  pose proof (estimate_period_edge_cases std_rational [1; 1] [1 # 10; 1 # 10] [20; 30]
                [0; 0]%Z (1 # 50)) as (_ & H2 & H3 & H4 & _).
  split; [|split; [|split; [|split]]].
  - exact (proj1 (estimate_period_edge_cases std_rational [1] [1 # 10] [20] [0%Z] (1 # 50))
                 5).
  - assert (Hnear : Qabs (5 + (1 # 1000) - 5) < 1 # 100) by reflexivity.
    split; [exact Hnear|]. exact (H2 5 (5 + (1 # 1000)) Hnear).
  - split; [split; [exact Hsep|exact Hw]|].
    exact (H4 5 8 1 1 20 30 0%Z 0%Z Hsep Hw Hw).
  - split; [exact Hfar|].
    exact (H3 5 8 5 (Qabs (8 - 5)) [1; 1]%Z Hfar (H4 5 8 1 1 20 30 0%Z 0%Z Hsep Hw Hw)).
  - split; [reflexivity|].
    pose proof (estimate_period_edge_cases std_rational [1; 1; 1] [1 # 10; 1 # 10; 1 # 10]
                  [20; 30; 10] [0; 0; 0]%Z (1 # 50)) as (_ & _ & _ & _ & H5).
    apply (H5 [5; 5; 5] (1500 # 300, 1500 # 300)
              (mk_period_guess (-1) [] [5; 5; 5] [1; 1; 1] [1 # 10; 1 # 10; 1 # 10]
                               [20; 30; 10] [true; true; true] [0; 1; 2]%Z)).
    + vm_compute. reflexivity.
    + vm_compute. reflexivity.
    + reflexivity.
Defined.

(** Two midpoints three days apart, one with an added_snr of 20 and one of
    50: the separation is far above 0.01, and yet the period is revoked,
    since the two eclipses are too unlike to be two primaries. *)
Lemma estimate_period_unlike_pair_revoked :
  ~ Qabs (8 - 5) < 1 # 100
  /\ estimate_period std_rational [5; 8] [1; 1] [1 # 10; 1 # 10] [20; 50] [0; 0]%Z (1 # 50)
     = Ok (-1, -1, [3; 3]%Z)
  /\ ~ -1 == Qabs (8 - 5).
Proof.
  split; [intro H; vm_compute in H; discriminate H|].
  split; [vm_compute; reflexivity|].
  intro H. vm_compute in H. discriminate H.
Qed.

(** ** The round trip of the repetitions *)

Lemma select_app {A : Type} (m1 m2 : list bool) (l1 l2 : list A) :
  length m1 = length l1 ->
  Np.select (m1 ++ m2) (l1 ++ l2) = Np.select m1 l1 ++ Np.select m2 l2.
Proof.
  revert l1. induction m1 as [|b m1 IH]; intros [|x l1] H; simpl in H; try discriminate.
  - reflexivity.
  - simpl. rewrite IH by lia. now destruct b.
Qed.

Lemma select_all_false {A : Type} (m : list bool) (l : list A) :
  (forall j : nat, (j < length m)%nat -> nth j m false = false) -> Np.select m l = [].
Proof.
  revert l. induction m as [|b m IH]; intros l H; [reflexivity|].
  destruct l as [|x l]; [reflexivity|]. simpl.
  assert (Hb : b = false) by (apply (H 0%nat); simpl; lia). subst b.
  apply IH. intros j Hj. apply (H (S j)). simpl. lia.
Qed.

Lemma select_repeat_false {A : Type} (k : nat) (l : list A) :
  Np.select (repeat false k) l = [].
Proof.
  apply select_all_false. intros j _. revert j.
  induction k as [|k IH]; intros [|j]; simpl; auto.
Qed.

Lemma select_repeat_true {A : Type} (l : list A) :
  Np.select (repeat true (length l)) l = l.
Proof. induction l as [|x l IH]; simpl; [reflexivity|now rewrite IH]. Qed.

Lemma repeat_each_ones {A : Type} (l : list A) :
  Np.repeat_each l (repeat 1%Z (length l)) = l.
Proof. induction l as [|x l IH]; simpl; [reflexivity|now rewrite IH]. Qed.

Lemma select_single {A : Type} (x : A) (m : list bool) :
  forall (k i : nat), length m = k -> (i < k)%nat ->
  (forall j : nat, (j < k)%nat -> (nth j m false = true <-> j = i)) ->
  Np.select m (repeat x k) = [x].
Proof.
  induction m as [|b m IH]; intros k i Hl Hi H; simpl in Hl; subst k; [lia|].
  simpl. destruct i as [|i].
  - assert (Hb : b = true) by (apply (H 0%nat); [simpl; lia|reflexivity]). subst b.
    f_equal. apply select_all_false. intros j Hj.
    destruct (nth j m false) eqn:E; [|reflexivity].
    assert (S j = 0)%nat; [|discriminate].
    apply (H (S j)); [simpl; lia|exact E].
  - assert (Hb : b = false).
    { destruct b; [|reflexivity]. assert (0 = S i)%nat; [|discriminate].
      apply (H 0%nat); [simpl; lia|reflexivity]. }
    subst b. apply (IH (length m) i eq_refl); [simpl in Hi; lia|].
    intros j Hj. specialize (H (S j)). simpl in H. rewrite H by lia. lia.
Qed.

Lemma designated_lower (reps P : list Z) :
  forall acc : Z, designated acc reps P -> forall p : Z, In p P -> (acc <= p)%Z.
Proof.
  revert P. induction reps as [|r rs IH]; intros [|p0 ps] acc H p Hin; simpl in H;
    try contradiction.
  destruct H as [Hp H]. destruct Hin as [<-|Hin]; [lia|].
  specialize (IH ps (acc + r)%Z H p Hin). lia.
Qed.

Lemma designated_positive (reps P : list Z) :
  forall acc : Z, designated acc reps P -> Forall (fun r => (1 <= r)%Z) reps.
Proof.
  revert P. induction reps as [|r rs IH]; intros [|p0 ps] acc H; simpl in H;
    try contradiction; constructor.
  - lia.
  - destruct H as [_ H]. exact (IH ps _ H).
Qed.

Lemma total_nonneg (reps : list Z) :
  Forall (fun r => (0 <= r)%Z) reps -> (0 <= total reps)%Z.
Proof.
  induction 1 as [|r rs Hr _ IH]; unfold total; simpl; [lia|]. fold (total rs). lia.
Qed.

Lemma designated_upper (reps P : list Z) :
  forall acc : Z, designated acc reps P ->
  forall p : Z, In p P -> (p < acc + total reps)%Z.
Proof.
  revert P. induction reps as [|r rs IH]; intros [|p0 ps] acc H p Hin; simpl in H;
    try contradiction.
  destruct H as [Hp H]. unfold total. simpl. fold (total rs).
  destruct Hin as [<-|Hin].
  - pose proof (total_nonneg rs (Forall_impl _ (fun r Hr => Z.le_trans 0 1 r Z.le_0_1 Hr)
                                             (designated_positive rs ps _ H))). lia.
  - specialize (IH ps (acc + r)%Z H p Hin). lia.
Qed.

Lemma length_repeat_each {A : Type} (a : list A) :
  forall reps : list Z, length a = length reps -> Forall (fun r => (0 <= r)%Z) reps ->
  Z.of_nat (length (Np.repeat_each a reps)) = total reps.
Proof.
  induction a as [|x a IH]; intros [|r rs] Hl Hr; simpl in Hl; try discriminate;
    [reflexivity|].
  inversion Hr; subst. simpl. rewrite length_app, repeat_length, Nat2Z.inj_add.
  rewrite IH by (auto; lia). unfold total. simpl. lia.
Qed.

(** A mask that is true at the designated position of every block and
    nowhere else selects the original array from the repeated one. *)
Lemma select_designated {A : Type} (reps : list Z) :
  forall (P : list Z) (acc : Z) (a : list A) (mask : list bool),
  designated acc reps P -> length a = length reps ->
  length mask = length (Np.repeat_each a reps) ->
  (forall j : nat, (j < length mask)%nat ->
                   (nth j mask false = true <-> In (acc + Z.of_nat j)%Z P)) ->
  Np.select mask (Np.repeat_each a reps) = a.
Proof.
  induction reps as [|r rs IH]; intros [|p ps] acc [|x a] mask Hd Hl Hm H;
    simpl in Hd, Hl; try contradiction; try discriminate.
  - simpl. now destruct mask.
  - destruct Hd as [Hp Hd]. simpl in Hm |- *.
    rewrite length_app, repeat_length in Hm.
    set (k := Z.to_nat r) in *.
    rewrite <- (firstn_skipn k mask).
    assert (Hk : length (firstn k mask) = k) by (rewrite length_firstn; lia).
    rewrite select_app by (now rewrite repeat_length).
    rewrite (select_single x (firstn k mask) k (Z.to_nat (p - acc)) Hk); [|lia|].
    + simpl. f_equal. apply (IH ps (acc + r)%Z); [exact Hd|lia|rewrite length_skipn; lia|].
      intros j Hj. rewrite length_skipn in Hj. rewrite nth_skipn.
      rewrite (H (k + j)%nat) by lia. split.
      * intros [Hin|Hin]; [lia|]. replace (acc + r + Z.of_nat j)%Z
          with (acc + Z.of_nat (k + j))%Z by lia. exact Hin.
      * intro Hin. right. replace (acc + Z.of_nat (k + j))%Z
          with (acc + r + Z.of_nat j)%Z by lia. exact Hin.
    + intros j Hj. rewrite nth_firstn. apply Nat.ltb_lt in Hj as Hj'. rewrite Hj'.
      rewrite (H j) by lia. split.
      * intros [Hin|Hin]; [lia|].
        pose proof (designated_lower rs ps _ Hd _ Hin). lia.
      * intros ->. left. lia.
Qed.

Lemma update_app_last {A : Type} (l : list A) (x v : A) :
  Py.update (l ++ [x]) (length l) v = l ++ [v].
Proof. induction l as [|y l IH]; simpl; [reflexivity|now rewrite IH]. Qed.

Lemma get_last {A : Type} (l : list A) (x : A) : Py.get (l ++ [x]) (-1) = Ok x.
Proof.
  rewrite (get_neg _ x) by (rewrite length_app; simpl; lia).
  rewrite length_app. cbn [length].
  replace (Z.to_nat (-1 + Z.of_nat (length l + 1))) with (length l) by lia.
  now rewrite nth_middle.
Qed.

Lemma set_last {A : Type} (l : list A) (x v : A) :
  Py.set (l ++ [x]) (-1) v = Ok (l ++ [v]).
Proof.
  rewrite set_neg by (rewrite length_app; simpl; lia).
  rewrite length_app. cbn [length].
  replace (Z.to_nat (-1 + Z.of_nat (length l + 1))) with (length l) by lia.
  now rewrite update_app_last.
Qed.

Lemma repeat_each_app {A : Type} (a1 a2 : list A) (c1 c2 : list Z) :
  length a1 = length c1 ->
  Np.repeat_each (a1 ++ a2) (c1 ++ c2) = Np.repeat_each a1 c1 ++ Np.repeat_each a2 c2.
Proof.
  revert c1. induction a1 as [|x a1 IH]; intros [|c c1] H; simpl in H; try discriminate.
  - reflexivity.
  - simpl. rewrite IH by lia. now rewrite app_assoc.
Qed.

Lemma repeat_add {A : Type} (x : A) (r k : Z) :
  (0 <= r)%Z -> (0 <= k)%Z ->
  repeat x (Z.to_nat (r + k)) = repeat x (Z.to_nat r) ++ repeat x (Z.to_nat k).
Proof. intros Hr Hk. rewrite Z2Nat.inj_add by lia. apply repeat_app. Qed.

(** Raising the first and the last count by [k] puts [k] more copies before
    and behind the repeated array. *)
Lemma add_to_ends_repeat {A : Type} (reps0 : list Z) (k : Z) (sig : list A) :
  (0 <= k)%Z -> reps0 <> [] -> Forall (fun r => (0 <= r)%Z) reps0 ->
  length sig = length reps0 ->
  exists (reps : list Z) (pre post : list A),
    add_to_ends reps0 k = Ok reps
    /\ length reps = length reps0
    /\ Forall (fun r => (0 <= r)%Z) reps
    /\ length pre = Z.to_nat k /\ length post = Z.to_nat k
    /\ Np.repeat_each sig reps = pre ++ Np.repeat_each sig reps0 ++ post.
Proof.
  intros Hk Hne Hpos Hl. destruct reps0 as [|r0 rest]; [contradiction|]. clear Hne.
  destruct sig as [|s0 srest]; [discriminate|]. simpl in Hl.
  inversion Hpos as [|? ? Hr0 Hrest]; subst.
  unfold add_to_ends. change (Py.get (r0 :: rest) 0) with (Ok r0). cbn [bind].
  change (Py.set (r0 :: rest) 0 (r0 + k)%Z) with (Ok ((r0 + k)%Z :: rest)). cbn [bind].
  destruct rest as [|r1 rest'].
  - destruct srest; [|discriminate].
    change (Py.get [(r0 + k)%Z] (-1)) with (Ok (r0 + k)%Z). cbn [bind].
    change (Py.set [(r0 + k)%Z] (-1) (r0 + k + k)%Z) with (Ok [(r0 + k + k)%Z]).
    exists [(r0 + k + k)%Z], (repeat s0 (Z.to_nat k)), (repeat s0 (Z.to_nat k)).
    split; [reflexivity|]. split; [reflexivity|].
    split; [constructor; [lia|constructor]|].
    rewrite !repeat_length. split; [reflexivity|]. split; [reflexivity|].
    simpl. rewrite !app_nil_r. rewrite repeat_add by lia. rewrite repeat_add by lia.
    rewrite <- !repeat_app. f_equal. lia.
  - destruct (exists_last (l := r1 :: rest')) as [l' [x El]]; [discriminate|].
    rewrite El in *.
    assert (Hsl : srest <> []) by (destruct srest; [rewrite length_app in Hl; simpl in Hl; lia|discriminate]).
    destruct (exists_last Hsl) as [s' [sl Es]]. subst srest.
    change ((r0 + k)%Z :: l' ++ [x]) with (((r0 + k)%Z :: l') ++ [x]).
    rewrite get_last. cbn [bind]. rewrite set_last.
    apply Forall_app in Hrest. destruct Hrest as [Hl' Hx].
    inversion Hx; subst.
    exists (((r0 + k)%Z :: l') ++ [(x + k)%Z]), (repeat s0 (Z.to_nat k)),
      (repeat sl (Z.to_nat k)).
    split; [reflexivity|]. split; [simpl; rewrite !length_app; reflexivity|].
    split.
    { constructor; [lia|]. apply Forall_app. split; [exact Hl'|].
      constructor; [lia|constructor]. }
    rewrite !repeat_length. split; [reflexivity|]. split; [reflexivity|].
    rewrite !length_app in Hl. simpl in Hl.
    assert (Hls : length s' = length l') by lia.
    change ((s0 :: s' ++ [sl])) with ((s0 :: s') ++ [sl]).
    change (r0 :: l' ++ [x]) with ((r0 :: l') ++ [x]).
    rewrite !repeat_each_app by (simpl; lia).
    simpl. rewrite !app_nil_r.
    rewrite (Z.add_comm r0 k), repeat_add by lia. rewrite (repeat_add sl x k) by lia.
    rewrite <- !app_assoc. reflexivity.
Qed.

Lemma half_gap_start (w : Z) : (4 <= w)%Z -> (2 <= half_gap w)%Z.
Proof.
  intro H. unfold half_gap. destruct (w =? 1)%Z eqn:E; [lia|].
  pose proof (Qle_ceiling (inject_Z w / 2)) as Hc.
  assert (H2 : inject_Z 2 <= inject_Z w / 2).
  { apply Qle_shift_div_l; [reflexivity|]. change (inject_Z 2 * 2) with (inject_Z 4).
    rewrite <- Zle_Qle. lia. }
  assert (H3 : inject_Z 1 < inject_Z (Qceiling (inject_Z w / 2))).
  { eapply Qlt_le_trans; [|exact Hc]. eapply Qlt_le_trans; [|exact H2]. reflexivity. }
  rewrite <- Zlt_Qlt in H3. lia.
Qed.

Lemma half_gap_end : half_gap 1 = 0%Z.
Proof. reflexivity. Qed.

Lemma pairsum_slices (h0 : Z) (t : list Z) :
  map (fun xy : Z * Z => (fst xy + snd xy)%Z)
      (combine t (firstn (length t) (h0 :: t))) = pairsum h0 t.
Proof.
  revert h0. induction t as [|x r IH]; intro h0; [reflexivity|].
  cbn [length firstn combine map fst snd pairsum]. now rewrite IH.
Qed.

(** [max_repeats[1:] += max_repeats[:-1]]. *)
Lemma max_repeats_pairsum (hs : list Z) :
  Py.set_from hs 1
    (map (fun xy : Z * Z => (fst xy + snd xy)%Z) (combine (Py.from hs 1) (Py.upto hs (-1))))
  = Ok (match hs with [] => [] | h0 :: t => h0 :: pairsum h0 t end).
Proof.
  rewrite from_1, upto_m1. destruct hs as [|h0 t]; [reflexivity|].
  cbn [skipn length]. replace (S (length t) - 1)%nat with (length t) by lia.
  rewrite pairsum_slices.
  unfold Py.set_from.
  assert (Hs : Z.to_nat (Py.slice_bound (Z.of_nat (length (h0 :: t))) 1) = 1%nat).
  { unfold Py.slice_bound. cbn [length]. change (1 <? 0)%Z with false. cbv iota. lia. }
  rewrite Hs.
  assert (Hlen : length (pairsum h0 t) = length t).
  { clear. revert h0. induction t as [|x r IH]; intro h0; simpl; [reflexivity|].
    now rewrite IH. }
  cbn [length]. rewrite Hlen.
  replace (S (length t) - 1)%nat with (length t) by lia. rewrite Nat.eqb_refl.
  reflexivity.
Qed.

Section GapCopies.

Variable n : Z.
Hypothesis n_ge_2 : (2 <= n)%Z.

Lemma pairsum_enough (ws : list Z) :
  forall (prev : bool) (hp : Z),
  gap_widths_ok prev ws -> (0 <= hp)%Z -> (prev = true -> 2 <= hp)%Z ->
  Forall2 (enough_copies n) ws (cap n (pairsum hp (map half_gap ws))).
Proof.
  induction ws as [|w r IH]; intros prev hp Hok Hhp Hprev; [constructor|].
  cbn [map pairsum cap]. fold (cap n). destruct Hok as [[Hw Hok]|[Hw [Hp Hok]]].
  - pose proof (half_gap_start w Hw) as Hh. constructor.
    + unfold enough_copies. split.
      * destruct (half_gap w + hp <? n)%Z eqn:E; lia.
      * intros _. destruct (half_gap w <? n)%Z eqn:E1;
          destruct (half_gap w + hp <? n)%Z eqn:E2; lia.
    + apply (IH true); [exact Hok|lia|intros _; exact Hh].
  - subst w. specialize (Hprev Hp). constructor.
    + unfold enough_copies. split; [|intro Hne; contradiction].
      rewrite half_gap_end. destruct (0 + hp <? n)%Z eqn:E; lia.
    + apply (IH false); [exact Hok|rewrite half_gap_end; lia|discriminate].
Qed.

Lemma max_repeats_enough (ws : list Z) :
  gap_widths_ok false ws ->
  Forall2 (enough_copies n) ws
          (cap n (match map half_gap ws with [] => [] | h0 :: t => h0 :: pairsum h0 t end)).
Proof.
  destruct ws as [|w r]; [constructor|]. intros [[Hw Hok]|[_ [Hp _]]]; [|discriminate].
  pose proof (half_gap_start w Hw) as Hh.
  cbn [map cap]. fold (cap n). constructor.
  - unfold enough_copies. split; [destruct (half_gap w <? n)%Z eqn:E; lia|].
    intros _. destruct (half_gap w <? n)%Z eqn:E; lia.
  - apply (pairsum_enough r true); [exact Hok|lia|intros _; exact Hh].
Qed.

End GapCopies.

Lemma count_true_cons (b : bool) (g : list bool) :
  count_occ bool_dec (b :: g) true
  = ((if b then 1 else 0) + count_occ bool_dec g true)%nat.
Proof. destruct b; [now rewrite count_occ_cons_eq|now rewrite count_occ_cons_neq]. Qed.

Lemma scatter_length {A : Type} (mask : list bool) :
  forall a vals : list A, length (Np.scatter mask a vals) = length a.
Proof.
  induction mask as [|b m IH]; intros [|x r] vals; try reflexivity.
  simpl. destruct b; [destruct vals|]; simpl; now rewrite IH.
Qed.

Lemma cumsum_from_length (a : list Z) :
  forall acc : Z, length (Np.cumsum_from acc a) = length a.
Proof. induction a as [|x r IH]; intro acc; simpl; [reflexivity|now rewrite IH]. Qed.

Section GapPositions.

Variable n : Z.

(** The blocks of the repetitions returned for the gap points hold the
    positions. *)
Lemma scatter_designated (gaps : list bool) :
  forall (ws rs : list Z) (acc : Z),
  length ws = count_occ bool_dec gaps true -> Forall2 (enough_copies n) ws rs ->
  designated acc (Np.scatter gaps (repeat 1%Z (length gaps)) rs)
             (positions n acc gaps ws rs).
Proof.
  induction gaps as [|b g IH]; intros ws rs acc Hl Hok.
  - destruct ws; [|discriminate]. inversion Hok; subst. exact I.
  - rewrite count_true_cons in Hl. destruct b.
    + destruct Hok as [|w r ws' rs' [Hr Hw] Hok']; [discriminate|].
      cbn [length repeat Np.scatter positions designated]. split.
      * destruct (w =? 1)%Z eqn:E; [lia|].
        assert (w <> 1%Z) as Hne by lia. specialize (Hw Hne). lia.
      * apply IH; [simpl in Hl; lia|exact Hok'].
    + cbn [length repeat Np.scatter positions designated]. split; [lia|].
      apply IH; [simpl in Hl; lia|exact Hok].
Qed.

Lemma gap_mask_positions (gaps : list bool) :
  forall (ws rs : list Z) (acc : Z),
  length ws = count_occ bool_dec gaps true -> Forall2 (enough_copies n) ws rs ->
  let reps0 := Np.scatter gaps (repeat 1%Z (length gaps)) rs in
  let newpos := map (fun c => (c - 1)%Z) (Np.cumsum_from acc reps0) in
  let gap_start := map (fun w => negb (w =? 1)%Z) ws in
  let idx1 := Np.select (Np.scatter gaps gaps (map negb gap_start)) newpos in
  let np2 := Np.select (Np.scatter gaps gaps gap_start) newpos in
  let wsel := Np.select gap_start (cap n (map half_gap ws)) in
  length np2 = length wsel
  /\ forall x : Z,
       ((exists j : nat, x = (acc + Z.of_nat j)%Z
                         /\ nth j (Np.repeat_each (map negb gaps) reps0) false = true)
        \/ In x idx1
        \/ In x (map (fun pw : Z * Z => (fst pw - (snd pw - 1))%Z) (combine np2 wsel)))
       <-> In x (positions n acc gaps ws rs).
Proof.
  induction gaps as [|b g IH]; intros ws rs acc Hl Hok; cbv zeta.
  - destruct ws; [|discriminate]. inversion Hok; subst. split; [reflexivity|].
    intro x. simpl. split; [|contradiction].
    intros [[j [_ Hj]]|[H|H]]; try contradiction. destruct j; discriminate.
  - rewrite count_true_cons in Hl. destruct b.
    + destruct Hok as [|w r ws' rs' [Hr Hw] Hok']; [discriminate|].
      specialize (IH ws' rs' (acc + r)%Z ltac:(simpl in Hl; lia) Hok'). cbv zeta in IH.
      destruct IH as [IHl IH].
      cbn [length repeat Np.scatter positions map Np.cumsum_from negb Np.repeat_each cap].
      fold (cap n).
      assert (Hblock : forall x : Z,
                 (exists j : nat, x = (acc + Z.of_nat j)%Z
                    /\ nth j (repeat false (Z.to_nat r)
                              ++ Np.repeat_each (map negb g)
                                   (Np.scatter g (repeat 1%Z (length g)) rs')) false = true)
                 <-> (exists j : nat, x = (acc + r + Z.of_nat j)%Z
                        /\ nth j (Np.repeat_each (map negb g)
                                    (Np.scatter g (repeat 1%Z (length g)) rs')) false
                           = true)).
      { intro x. split.
        - intros [j [-> Hj]]. destruct (Nat.lt_ge_cases j (Z.to_nat r)) as [Hlt|Hge].
          + rewrite app_nth1 in Hj by (now rewrite repeat_length).
            rewrite nth_repeat_lt in Hj by exact Hlt. discriminate.
          + rewrite app_nth2 in Hj by (now rewrite repeat_length).
            rewrite repeat_length in Hj. exists (j - Z.to_nat r)%nat. split; [lia|exact Hj].
        - intros [j [-> Hj]]. exists (Z.to_nat r + j)%nat. split; [lia|].
          rewrite app_nth2 by (rewrite repeat_length; lia). rewrite repeat_length.
          now replace (Z.to_nat r + j - Z.to_nat r)%nat with j by lia. }
      destruct (w =? 1)%Z eqn:E; cbn [negb Np.select combine map fst snd length].
      * split; [exact IHl|]. intro x. rewrite Hblock. simpl In. rewrite <- IH. tauto.
      * split; [now rewrite IHl|]. intro x. rewrite Hblock. simpl In. rewrite <- IH. tauto.
    + specialize (IH ws rs (acc + 1)%Z ltac:(simpl in Hl; lia) Hok). cbv zeta in IH.
      destruct IH as [IHl IH].
      cbn [length repeat Np.scatter positions map Np.cumsum_from negb Np.repeat_each
           Np.select].
      change (Z.to_nat 1) with 1%nat. cbn [repeat app].
      split; [exact IHl|]. intro x. simpl In. rewrite <- IH.
      assert (Hblock : (exists j : nat, x = (acc + Z.of_nat j)%Z
                          /\ nth j (true :: Np.repeat_each (map negb g)
                                      (Np.scatter g (repeat 1%Z (length g)) rs)) false = true)
                       <-> (acc = x \/ exists j : nat, x = (acc + 1 + Z.of_nat j)%Z
                              /\ nth j (Np.repeat_each (map negb g)
                                          (Np.scatter g (repeat 1%Z (length g)) rs)) false
                                 = true)).
      { split.
        - intros [[|j] [-> Hj]]; [left; lia|]. right. exists j. split; [lia|exact Hj].
        - intros [<-|[j [-> Hj]]]; [exists 0%nat; split; [lia|reflexivity]|].
          exists (S j). split; [lia|exact Hj]. }
      rewrite Hblock. tauto.
Qed.

End GapPositions.

Lemma Qfloor_gap (w : Q) : Qgtb w 4 = true -> (4 <= Qfloor w)%Z.
Proof.
  intro H. apply Qgtb_gt in H. pose proof (Qlt_floor w) as Hf.
  assert (H4 : inject_Z 4 < inject_Z (Qfloor w + 1)).
  { eapply Qlt_trans; [|exact Hf]. exact H. }
  rewrite <- Zlt_Qlt in H4. lia.
Qed.

Lemma upto_app_last {A : Type} (l : list A) (x : A) : Py.upto (l ++ [x]) (-1) = l.
Proof.
  rewrite upto_m1, length_app. cbn [length].
  replace (length l + 1 - 1)%nat with (length l) by lia.
  rewrite firstn_app, Nat.sub_diag, firstn_all. cbn [firstn]. apply app_nil_r.
Qed.

(** The marks of the points next to a gap behind a first point, and the
    widths kept for them. *)
Lemma marks_widths (gw : list Q) :
  forall prev : bool,
  exists (init : list bool) (lastb : bool),
    map (fun xy : bool * bool => fst xy || snd xy)
        (combine (map (fun w => Qgtb w 4) gw ++ [false]) (prev :: map (fun w => Qgtb w 4) gw))
    = init ++ [lastb]
    /\ length init = length gw
    /\ forall ws : list Z,
         ws = map Qfloor (Np.select init
                            (map (fun w => if negb (Qgtb w 4) then 1 else w) gw)) ->
         gap_widths_ok prev (if lastb then ws ++ [1%Z] else ws)
         /\ length (if lastb then ws ++ [1%Z] else ws)
            = count_occ bool_dec (init ++ [lastb]) true.
Proof.
  induction gw as [|w r IH]; intro prev.
  - exists [], (false || prev). split; [reflexivity|]. split; [reflexivity|].
    intros ws ->. destruct prev; simpl; [|split; [exact I|reflexivity]].
    split; [right; auto|reflexivity].
  - destruct (IH (Qgtb w 4)) as [init [lastb [E [Hl H]]]].
    exists ((Qgtb w 4 || prev) :: init), lastb.
    cbn [map app combine fst snd]. rewrite E. split; [reflexivity|].
    split; [simpl; now rewrite Hl|].
    intros ws ->. cbn [Np.select map].
    specialize (H _ eq_refl). destruct H as [Hok Hlen].
    change (((Qgtb w 4 || prev) :: init) ++ [lastb])
      with ((Qgtb w 4 || prev) :: init ++ [lastb]).
    rewrite count_true_cons.
    destruct (Qgtb w 4) eqn:Ew; [|destruct prev]; cbn [orb negb map];
      set (rest := map Qfloor (Np.select init
                                 (map (fun w => if negb (Qgtb w 4) then 1 else w) r))) in *.
    +
      assert (Hc : (if lastb then (Qfloor w :: rest) ++ [1%Z] else Qfloor w :: rest)
                   = Qfloor w :: (if lastb then rest ++ [1%Z] else rest))
        by now destruct lastb.
      rewrite Hc. split.
      * left. split; [now apply Qfloor_gap|exact Hok].
      * simpl. now rewrite Hlen.
    + assert (Hc : (if lastb then (Qfloor 1 :: rest) ++ [1%Z] else Qfloor 1 :: rest)
                   = 1%Z :: (if lastb then rest ++ [1%Z] else rest))
        by now destruct lastb.
      rewrite Hc. split; [right; auto|]. simpl. now rewrite Hlen.
    + split; [exact Hok|]. simpl. exact Hlen.
Qed.

Lemma increasing_diff_pos (times : list Q) :
  increasing times -> Forall (fun d => 0 < d) (Np.diff times).
Proof.
  intro H. apply Forall_forall. intros d Hd.
  destruct (In_nth _ _ 0 Hd) as [i [Hi <-]]. rewrite diff_length in Hi.
  rewrite nth_diff by lia.
  specialize (H i (S i) ltac:(lia)). lra.
Qed.

Lemma mark_gaps_ok (times : list Q) :
  increasing times -> (2 <= length times)%nat ->
  exists (gaps : list bool) (widths : list Z),
    mark_gaps times = Ok (gaps, widths)
    /\ length gaps = length times
    /\ length widths = count_occ bool_dec gaps true
    /\ gap_widths_ok false widths.
Proof.
  intros Hinc Hlen. unfold mark_gaps. cbv zeta.
  pose proof (increasing_diff_pos times Hinc) as Hpos.
  pose proof (diff_length times) as Hdl.
  destruct (Np.diff times) as [|d0 dr] eqn:Ed; [simpl in Hdl; lia|].
  cbn [Np.min bind].
  assert (Hmin : 0 < fold_left Qmin dr d0).
  { destruct (fold_min_attained dr d0) as [y [Hy Heq]].
    rewrite Forall_forall in Hpos. specialize (Hpos y Hy). lra. }
  set (min_d := fold_left Qmin dr d0) in *.
  rewrite (sequence_map_ok _ (fun d => d / min_d)).
  2:{ intros x _. unfold Np.div. destruct (Qeq_bool min_d 0) eqn:E; [|reflexivity].
      apply Qeq_bool_iff in E. lra. }
  cbn [bind]. set (gw := map (fun d => d / min_d) (d0 :: dr)).
  assert (Hgw : length gw = (length times - 1)%nat).
  { unfold gw. rewrite length_map. exact Hdl. }
  unfold Np.mask_set. rewrite !length_map, Nat.eqb_refl. cbn [bind].
  assert (Hset : forall l : list Q,
             map (fun bx : bool * Q => if fst bx then 1 else snd bx)
                 (combine (map negb (map (fun w => Qgtb w 4) l)) l)
             = map (fun w => if negb (Qgtb w 4) then 1 else w) l).
  { induction l as [|x l IH]; simpl; [reflexivity|now rewrite IH]. }
  rewrite Hset. clear Hset.
  rewrite from_1, upto_app_last.
  unfold Py.set_from.
  assert (Hs : Z.to_nat (Py.slice_bound
                           (Z.of_nat (length (map (fun w => Qgtb w 4) gw ++ [false]))) 1)
               = 1%nat).
  { unfold Py.slice_bound. change (1 <? 0)%Z with false. cbv iota.
    rewrite length_app, length_map. cbn [length]. lia. }
  rewrite Hs.
  destruct gw as [|w0 r] eqn:Egw; [simpl in Hgw; lia|].
  cbn [map app skipn firstn].
  destruct (marks_widths r (Qgtb w0 4)) as [init [lastb [E [Hl H]]]].
  rewrite E. cbn [length]. rewrite !length_app, !length_map. cbn [length].
  replace (length init + 1 =? S (length r + 1) - 1)%nat with true
    by (symmetry; apply Nat.eqb_eq; lia).
  cbn [bind app].
  change (Qgtb w0 4 :: init ++ [lastb]) with ((Qgtb w0 4 :: init) ++ [lastb]).
  rewrite upto_app_last, get_last.
  rewrite compress_ok by (simpl; rewrite length_map; lia).
  cbn [bind].
  specialize (H _ eq_refl). destruct H as [Hok Hcount].
  eexists. eexists. split; [reflexivity|].
  split; [rewrite length_app; simpl in Hgw |- *; lia|].
  cbn [Np.select map].
  change ((Qgtb w0 4 :: init) ++ [lastb]) with (Qgtb w0 4 :: init ++ [lastb]).
  rewrite count_true_cons.
  destruct (Qgtb w0 4) eqn:Ew; cbn [negb map];
    set (rest := map Qfloor (Np.select init
                               (map (fun w => if negb (Qgtb w 4) then 1 else w) r))) in *.
  - assert (Hc : (if lastb then (Qfloor w0 :: rest) ++ [1%Z] else Qfloor w0 :: rest)
                 = Qfloor w0 :: (if lastb then rest ++ [1%Z] else rest))
      by now destruct lastb.
    rewrite Hc. split; [simpl; now rewrite Hcount|].
    left. split; [now apply Qfloor_gap|exact Hok].
  - split; [simpl; exact Hcount|exact Hok].
Qed.

Lemma index_set_true (idx : list Z) :
  forall l : list bool,
  (forall i : Z, In i idx -> (0 <= i < Z.of_nat (length l))%Z) ->
  exists l' : list bool,
    Np.index_set l idx true = Ok l'
    /\ length l' = length l
    /\ forall j : nat, nth j l' false = true
                       <-> (nth j l false = true \/ In (Z.of_nat j) idx).
Proof.
  induction idx as [|i r IH]; intros l H.
  - exists l. split; [reflexivity|]. split; [reflexivity|]. intro j. simpl. tauto.
  - cbn [Np.index_set]. rewrite set_nonneg by (apply H; now left). cbn [bind].
    pose proof (H i (or_introl eq_refl)) as Hi.
    destruct (IH (Py.update l (Z.to_nat i) true)) as [l' [E [Hl Hn]]].
    { intros i' Hi'. rewrite update_length. apply H. now right. }
    exists l'. split; [exact E|]. rewrite update_length in Hl. split; [exact Hl|].
    intro j. rewrite Hn, (nth_update l (Z.to_nat i) j true false) by lia.
    destruct (j =? Z.to_nat i)%nat eqn:Ej.
    + apply Nat.eqb_eq in Ej. split; [intros _|auto]. right. left. lia.
    + apply Nat.eqb_neq in Ej. simpl. split.
      * intros [Hj|Hj]; auto.
      * intros [Hj|[Hj|Hj]]; auto. lia.
Qed.

Lemma repeat_arr_ok {A : Type} (a : list A) (reps : list Z) :
  length a = length reps -> Forall (fun r => (0 <= r)%Z) reps ->
  Np.repeat_arr a reps = Ok (Np.repeat_each a reps).
Proof.
  intros Hl Hr. unfold Np.repeat_arr.
  assert (E : existsb (fun c => (c <? 0)%Z) reps = false).
  { apply not_true_is_false. intro H. apply existsb_exists in H.
    destruct H as [c [Hc Hlt]]. rewrite Forall_forall in Hr. specialize (Hr c Hc). lia. }
  now rewrite E, Hl, Nat.eqb_refl.
Qed.

(** Both ends: the copies put before and behind the array are masked out. *)
Lemma repeat_ends_round_trip (reps0 : list Z) (mask0 : list bool) (k : Z) :
  (0 <= k)%Z -> reps0 <> [] -> Forall (fun r => (0 <= r)%Z) reps0 ->
  (forall (A : Type) (signal : list A), length signal = length reps0 ->
     length mask0 = length (Np.repeat_each signal reps0)
     /\ Np.select mask0 (Np.repeat_each signal reps0) = signal) ->
  exists reps : list Z,
    add_to_ends reps0 k = Ok reps
    /\ forall (A : Type) (signal : list A), length signal = length reps0 ->
       exists repeated : list A,
         Np.repeat_arr signal reps = Ok repeated
         /\ length (repeat false (Z.to_nat k) ++ mask0 ++ repeat false (Z.to_nat k))
            = length repeated
         /\ Np.compress (repeat false (Z.to_nat k) ++ mask0 ++ repeat false (Z.to_nat k))
                        repeated = Ok signal.
Proof.
  intros Hk Hne Hpos H.
  destruct (add_to_ends_repeat reps0 k reps0 Hk Hne Hpos eq_refl)
    as [reps [_ [_ [E _]]]].
  exists reps. split; [exact E|]. intros A signal Hl.
  destruct (add_to_ends_repeat reps0 k signal Hk Hne Hpos Hl)
    as [reps' [pre [post [E' [Hlr [Hr [Hpre [Hpost Heq]]]]]]]].
  rewrite E in E'. injection E' as <-.
  destruct (H A signal Hl) as [Hm Hs].
  exists (Np.repeat_each signal reps).
  split; [apply repeat_arr_ok; [lia|exact Hr]|].
  assert (Hlen : length (repeat false (Z.to_nat k) ++ mask0 ++ repeat false (Z.to_nat k))
                 = length (Np.repeat_each signal reps)).
  { rewrite Heq, !length_app, !repeat_length. lia. }
  split; [exact Hlen|]. rewrite compress_ok by exact Hlen. f_equal.
  rewrite Heq, select_app by (now rewrite repeat_length).
  rewrite select_app by exact Hm.
  rewrite Hs. rewrite (select_all_false (repeat false (Z.to_nat k)) pre).
  2:{ intros j _. clear. revert j. induction (Z.to_nat k) as [|m IH]; intros [|j]; simpl; auto. }
  rewrite (select_all_false (repeat false (Z.to_nat k)) post).
  2:{ intros j _. clear. revert j. induction (Z.to_nat k) as [|m IH]; intros [|j]; simpl; auto. }
  now rewrite app_nil_r.
Qed.

(** C9. For strictly increasing times of length two or more and a kernel
    width of one or more, [repeat_points_internals] returns repetitions and a
    mask such that every signal of the length of [times], repeated point by
    point with [np.repeat] and then selected with the mask, is the signal
    again: the mask has the length of the repeated array and keeps one copy
    of every point, in order. *)
Theorem repeat_points_internals_round_trip (times : list Q) (n_kernel : Z) (no_gaps : bool) :
  increasing times -> (2 <= length times)%nat -> (1 <= n_kernel)%Z ->
  exists (repetitions : list Z) (repetition_mask : list bool),
    repeat_points_internals times n_kernel no_gaps = Ok (repetitions, repetition_mask)
    /\ forall (A : Type) (signal : list A), length signal = length times ->
       exists repeated : list A,
         Np.repeat_arr signal repetitions = Ok repeated
         /\ length repetition_mask = length repeated
         /\ Np.compress repetition_mask repeated = Ok signal.
Proof.
  intros Hinc Hlen Hn. unfold repeat_points_internals. cbv zeta.
  destruct (n_kernel <? 2)%Z eqn:En.
  { (* no repetitions made *)
    eexists. eexists. split; [reflexivity|]. intros A signal Hl.
    exists signal. rewrite <- Hl.
    assert (Hr : Np.repeat_each signal (repeat 1%Z (length signal)) = signal)
      by apply repeat_each_ones.
    split.
    - rewrite repeat_arr_ok; [now rewrite Hr|now rewrite repeat_length|].
      apply Forall_forall. intros r Hin. apply repeat_spec in Hin. lia.
    - split; [apply repeat_length|].
      rewrite compress_ok by apply repeat_length. now rewrite select_repeat_true. }
  assert (Hn2 : (2 <= n_kernel)%Z) by lia.
  assert (Hones : forall (A : Type) (signal : list A),
             length signal = length (repeat 1%Z (length times)) ->
             length (repeat true (length times))
             = length (Np.repeat_each signal (repeat 1%Z (length times)))
             /\ Np.select (repeat true (length times))
                          (Np.repeat_each signal (repeat 1%Z (length times))) = signal).
  { intros A signal Hl. rewrite repeat_length in Hl. rewrite <- Hl.
    rewrite repeat_each_ones, repeat_length. split; [reflexivity|].
    apply select_repeat_true. }
  destruct no_gaps.
  { (* only the start and the end are repeated *)
    destruct (repeat_ends_round_trip (repeat 1%Z (length times))
                (repeat true (length times)) (n_kernel - 1)) as [reps [E H]];
      [lia| |apply Forall_forall; intros r Hin; apply repeat_spec in Hin; lia| |].
    - destruct (length times); [lia|discriminate].
    - exact Hones.
    - rewrite E. cbn [bind]. eexists. eexists. split; [reflexivity|].
      intros A signal Hl. apply H. now rewrite repeat_length. }
  (* the gaps are repeated too *)
  destruct (mark_gaps_ok times Hinc Hlen) as [gaps [ws [Emg [Hgl [Hwl Hok]]]]].
  rewrite Emg. cbn [bind]. rewrite <- Hgl.
  unfold Np.mask_assign. rewrite Nat.eqb_refl. cbn [negb].
  rewrite !length_map, Hwl, Nat.eqb_refl. cbn [bind].
  unfold Np.mask_set. rewrite length_map, Nat.eqb_refl. cbn [bind].
  assert (Hhalf : map (fun w : Z => Qceiling (inject_Z w / 2))
                      (map (fun bx : bool * Z => if fst bx then 0%Z else snd bx)
                           (combine (map (fun w : Z => (w =? 1)%Z) ws) ws))
                  = map half_gap ws).
  { clear. induction ws as [|w r IH]; simpl; [reflexivity|]. now rewrite IH. }
  rewrite Hhalf, max_repeats_pairsum. cbn [bind].
  pose proof (max_repeats_enough n_kernel Hn2 ws Hok) as Hen.
  set (rs := cap n_kernel match map half_gap ws with
                          | [] => []
                          | h0 :: t => h0 :: pairsum h0 t
                          end) in *.
  assert (Hrl : length rs = count_occ bool_dec gaps true).
  { rewrite <- Hwl. symmetry. eapply Forall2_length. exact Hen. }
  rewrite repeat_length, Nat.eqb_refl, Hrl, Nat.eqb_refl. cbn [negb bind].
  pose proof (scatter_designated n_kernel gaps ws rs 0 Hwl Hen) as Hdes.
  destruct (gap_mask_positions n_kernel gaps ws rs 0 Hwl Hen) as [Hl2 Hpos].
  set (reps0 := Np.scatter gaps (repeat 1%Z (length gaps)) rs) in *.
  set (P := positions n_kernel 0 gaps ws rs) in *.
  assert (Hr1 : Forall (fun r => (1 <= r)%Z) reps0)
    by exact (designated_positive _ _ _ Hdes).
  assert (Hr0 : Forall (fun r => (0 <= r)%Z) reps0).
  { eapply Forall_impl; [|exact Hr1]. intros r Hr. simpl in Hr. lia. }
  assert (Hrepl : length reps0 = length gaps).
  { unfold reps0. now rewrite scatter_length, repeat_length. }
  rewrite repeat_arr_ok by (rewrite ?length_map; auto). cbn [bind].
  set (rm := Np.repeat_each (map negb gaps) reps0) in *.
  assert (Hrml : Z.of_nat (length rm) = total reps0).
  { unfold rm. apply length_repeat_each; [now rewrite length_map|exact Hr0]. }
  unfold Np.cumsum.
  rewrite !compress_ok
    by (rewrite ?scatter_length, ?length_map, ?cumsum_from_length; unfold cap;
        rewrite ?length_map; auto).
  cbn [bind].
  set (idx1 := Np.select (Np.scatter gaps gaps
                            (map negb (map (fun w : Z => negb (w =? 1)%Z) ws)))
                         (map (fun c : Z => (c - 1)%Z) (Np.cumsum_from 0 reps0))) in *.
  set (np2 := Np.select (Np.scatter gaps gaps (map (fun w : Z => negb (w =? 1)%Z) ws))
                        (map (fun c : Z => (c - 1)%Z) (Np.cumsum_from 0 reps0))) in *.
  set (wsel := Np.select (map (fun w : Z => negb (w =? 1)%Z) ws)
                         (cap n_kernel (map half_gap ws))) in *.
  rewrite (ew2_ok _ np2 wsel Hl2).
  set (idx2 := map (fun xy : Z * Z => (fst xy - (snd xy - 1))%Z) (combine np2 wsel)) in *.
  assert (Hin_range : forall x : Z, In x P -> (0 <= x < Z.of_nat (length rm))%Z).
  { intros x Hx. pose proof (designated_lower _ _ _ Hdes x Hx).
    pose proof (designated_upper _ _ _ Hdes x Hx). lia. }
  destruct (index_set_true idx1 (repeat false (length rm))) as [ge1 [E1 [Hl1 Hn1]]].
  { intros i Hi. rewrite repeat_length. apply Hin_range, Hpos. auto. }
  rewrite E1. cbn [bind].
  destruct (index_set_true idx2 ge1) as [ge2 [E2 [Hl2' Hn2']]].
  { intros i Hi. rewrite Hl1, repeat_length. apply Hin_range, Hpos. auto. }
  rewrite E2. cbn [bind]. rewrite repeat_length in Hl1.
  set (mask0 := map (fun xy : bool * bool => fst xy || snd xy) (combine rm ge2)).
  destruct (repeat_ends_round_trip reps0 mask0 (n_kernel - 1)) as [reps [E H]];
    [lia| |exact Hr0| |].
  - intro Hnil. rewrite Hnil in Hrepl. simpl in Hrepl. lia.
  - intros A signal Hl.
    assert (Hml : length mask0 = length (Np.repeat_each signal reps0)).
    { unfold mask0. rewrite length_map, length_combine, Hl2', Hl1, Nat.min_id.
      apply Nat2Z.inj. rewrite Hrml. symmetry. apply length_repeat_each; assumption. }
    split; [exact Hml|].
    apply (select_designated reps0 P 0%Z); [exact Hdes|exact Hl|exact Hml|].
    intros j Hj.
    assert (Hjr : (j < length rm)%nat).
    { unfold mask0 in Hj. rewrite length_map, length_combine, Hl2', Hl1, Nat.min_id in Hj.
      exact Hj. }
    unfold mask0.
    rewrite (nth_map2 (fun xy : bool * bool => fst xy || snd xy) rm ge2 false false false)
      by lia.
    cbn [fst snd]. rewrite orb_true_iff, Hn2', Hn1.
    rewrite <- Hpos. cbn [Z.add]. split.
    + intros [Hrm|[[Hf|Hi1]|Hi2]]; auto.
      * left. exists j. split; [reflexivity|exact Hrm].
      * rewrite nth_repeat_lt in Hf by exact Hjr. discriminate.
    + intros [[j' [Ej Hrm]]|[Hi1|Hi2]]; auto.
      apply Nat2Z.inj in Ej. subst j'. now left.
  - rewrite E. cbn [bind]. eexists. eexists. split; [reflexivity|].
    intros A signal Hl. apply H. lia.
Qed.

Lemma repeat_points_internals_round_trip_witness :
  increasing [0; 1; 2; 8; 9; 10]
  /\ exists (repetitions : list Z) (repetition_mask : list bool),
       repeat_points_internals [0; 1; 2; 8; 9; 10] 3 false
       = Ok (repetitions, repetition_mask)
       /\ forall (A : Type) (signal : list A), length signal = 6%nat ->
          exists repeated : list A,
            Np.repeat_arr signal repetitions = Ok repeated
            /\ length repetition_mask = length repeated
            /\ Np.compress repetition_mask repeated = Ok signal.
Proof.
  assert (Hinc : increasing [0; 1; 2; 8; 9; 10]) by (apply increasingb_sound; reflexivity).
  split; [exact Hinc|].
  apply (repeat_points_internals_round_trip [0; 1; 2; 8; 9; 10] 3 false Hinc).
  - simpl. lia.
  - lia.
Defined.

(** The same series with its one gap between 2 and 8, a kernel of 3: the
    point before the gap is the first of its three copies and the point
    behind the gap the last of its three. *)
Lemma repeat_points_internals_gap_example :
  repeat_points_internals [0; 1; 2; 8; 9; 10] 3 false
  = Ok ([3; 1; 3; 3; 1; 3]%Z,
        [false; false; true; true; true; false; false; false; false; true;
         true; true; false; false]).
Proof. vm_compute. reflexivity. Qed.

(** ** Gaps: which points are marked *)

Lemma orb_shift_head (x : bool) (r : list bool) :
  map (fun xy : bool * bool => fst xy || snd xy)
      (combine ((x :: r) ++ [false]) (false :: x :: r))
  = x :: map (fun xy : bool * bool => fst xy || snd xy) (combine (r ++ [false]) (x :: r)).
Proof. cbn [app combine map fst snd]. now rewrite orb_false_r. Qed.

(** The marks that [mark_gaps] returns, written with the smallest step. *)
Lemma mark_gaps_value (times : list Q) :
  increasing times -> (2 <= length times)%nat ->
  exists (min_d : Q) (widths : list Z),
    0 < min_d
    /\ (forall d : Q, In d (Np.diff times) -> min_d <= d)
    /\ (exists d : Q, In d (Np.diff times) /\ min_d == d)
    /\ mark_gaps times
       = Ok (map (fun xy : bool * bool => fst xy || snd xy)
                 (combine (map (fun d => Qgtb (d / min_d) 4) (Np.diff times) ++ [false])
                          (false :: map (fun d => Qgtb (d / min_d) 4) (Np.diff times))),
             widths).
Proof.
  intros Hinc Hlen. unfold mark_gaps. cbv zeta.
  pose proof (increasing_diff_pos times Hinc) as Hpos.
  pose proof (diff_length times) as Hdl.
  destruct (Np.diff times) as [|d0 dr] eqn:Ed; [simpl in Hdl; lia|].
  cbn [Np.min bind].
  assert (Hmin : 0 < fold_left Qmin dr d0).
  { destruct (fold_min_attained dr d0) as [y [Hy Heq]].
    rewrite Forall_forall in Hpos. specialize (Hpos y Hy). lra. }
  exists (fold_left Qmin dr d0).
  pose proof (fold_min_le dr d0) as Hle.
  pose proof (fold_min_attained dr d0) as Hatt.
  set (min_d := fold_left Qmin dr d0) in *.
  rewrite (sequence_map_ok _ (fun d => d / min_d)).
  2:{ intros x _. unfold Np.div. destruct (Qeq_bool min_d 0) eqn:E; [|reflexivity].
      apply Qeq_bool_iff in E. lra. }
  cbn [bind].
  set (b := map (fun d => Qgtb (d / min_d) 4) (d0 :: dr)).
  set (gw := map (fun d => d / min_d) (d0 :: dr)).
  assert (Hbg : map (fun w => Qgtb w 4) gw = b)
    by (unfold gw, b; now rewrite map_map).
  rewrite Hbg.
  assert (Hb : length b = S (length dr)) by (unfold b; now rewrite length_map).
  assert (Hgw : length gw = S (length dr)) by (unfold gw; now rewrite length_map).
  unfold Np.mask_set. rewrite length_map, Hb, Hgw, Nat.eqb_refl.
  cbn [bind].
  rewrite from_1, upto_app_last.
  unfold Py.set_from.
  assert (Hs : Z.to_nat (Py.slice_bound (Z.of_nat (length (b ++ [false]))) 1) = 1%nat).
  { unfold Py.slice_bound. change (1 <? 0)%Z with false. cbv iota.
    rewrite length_app, Hb. cbn [length]. lia. }
  rewrite Hs.
  assert (Hzl : length (map (fun xy : bool * bool => fst xy || snd xy)
                            (combine (skipn 1 (b ++ [false])) b))
                = (length (b ++ [false]) - 1)%nat).
  { rewrite length_map, length_combine, length_skipn, length_app, Hb. cbn [length]. lia. }
  rewrite Hzl, Nat.eqb_refl. cbn [bind].
  assert (Hg : firstn 1 (b ++ [false])
               ++ map (fun xy : bool * bool => fst xy || snd xy)
                      (combine (skipn 1 (b ++ [false])) b)
               = map (fun xy : bool * bool => fst xy || snd xy)
                     (combine (b ++ [false]) (false :: b))).
  { unfold b. cbn [map]. rewrite orb_shift_head. reflexivity. }
  rewrite Hg.
  set (gaps := map (fun xy : bool * bool => fst xy || snd xy)
                   (combine (b ++ [false]) (false :: b))).
  assert (Hgl : length gaps = S (S (length dr))).
  { unfold gaps. rewrite length_map, length_combine, length_app. cbn [length].
    rewrite Hb. lia. }
  rewrite upto_m1, compress_ok
    by (rewrite length_firstn, length_map, length_combine, length_map, Hb, Hgw, Hgl; lia).
  cbn [bind].
  destruct (exists_last (l := gaps)) as [g' [lastb Eg]];
    [intro E; rewrite E in Hgl; discriminate|].
  assert (Hget : Py.get gaps (-1) = Ok lastb) by (rewrite Eg; apply get_last).
  rewrite Hget. cbn [bind].
  eexists. split; [exact Hmin|]. split; [intros d Hd; apply Hle; exact Hd|].
  split; [destruct Hatt as [y [Hy Heq]]; exists y; split; [exact Hy|exact Heq]|].
  reflexivity.
Qed.

Lemma gap_after_iff (times : list Q) (min_d : Q) (i : nat) :
  0 < min_d ->
  (forall d : Q, In d (Np.diff times) -> min_d <= d) ->
  (exists d : Q, In d (Np.diff times) /\ min_d == d) ->
  nth i (map (fun d => Qgtb (d / min_d) 4) (Np.diff times)) false = true
  <-> gap_after times i.
Proof.
  intros Hpos Hle [dm [Hdm Hmin]]. unfold gap_after.
  destruct (Nat.lt_ge_cases (S i) (length times)) as [Hi|Hi].
  - rewrite (nth_indep _ false (Qgtb (0 / min_d) 4)) by (rewrite length_map, diff_length; lia).
    rewrite (map_nth (fun d => Qgtb (d / min_d) 4)), nth_diff by exact Hi.
    rewrite Qgtb_gt. split.
    + intro H. split; [exact Hi|].
      destruct (In_nth _ _ 0 Hdm) as [j [Hj Ej]]. rewrite diff_length in Hj.
      exists j. split; [lia|]. rewrite nth_diff in Ej by lia. rewrite Ej, <- Hmin.
      apply (Qmult_lt_compat_r _ _ min_d Hpos) in H.
      assert (E : (nth (S i) times 0 - nth i times 0) / min_d * min_d
                  == nth (S i) times 0 - nth i times 0) by (field; lra).
      rewrite E in H. exact H.
    + intros [_ [j [Hj H]]].
      assert (Hin : In (nth (S j) times 0 - nth j times 0) (Np.diff times)).
      { rewrite <- nth_diff by exact Hj. apply nth_In. rewrite diff_length. lia. }
      specialize (Hle _ Hin).
      apply Qlt_shift_div_l; [exact Hpos|]. lra.
  - split.
    + intro H. rewrite nth_overflow in H by (rewrite length_map, diff_length; lia).
      discriminate.
    + intros [Hlt _]. lia.
Qed.

(** X2. [mark_gaps] marks exactly the two points on either side of every
    step that is more than four times the smallest step; it returns one mark
    for every timestamp and one width for every marked point. *)
Theorem mark_gaps_both_sides (times : list Q) :
  increasing times -> (2 <= length times)%nat ->
  exists (gaps : list bool) (widths : list Z),
    mark_gaps times = Ok (gaps, widths)
    /\ length gaps = length times
    /\ length widths = count_occ bool_dec gaps true
    /\ forall i : nat, (i < length times)%nat ->
         (nth i gaps false = true
          <-> gap_after times i \/ exists i' : nat, i = S i' /\ gap_after times i').
Proof.
  intros Hinc Hlen.
  destruct (mark_gaps_ok times Hinc Hlen) as [gaps [widths [E [Hgl [Hwl _]]]]].
  destruct (mark_gaps_value times Hinc Hlen) as [min_d [widths' [Hpos [Hle [Hmin E']]]]].
  exists gaps, widths. split; [exact E|]. split; [exact Hgl|]. split; [exact Hwl|].
  rewrite E in E'. injection E' as Eg _.
  intros i Hi. rewrite Eg.
  set (b := map (fun d => Qgtb (d / min_d) 4) (Np.diff times)).
  assert (Hb : length b = (length times - 1)%nat)
    by (unfold b; now rewrite length_map, diff_length).
  rewrite (nth_map2 (fun xy : bool * bool => fst xy || snd xy) (b ++ [false]) (false :: b)
                    false false false)
    by (rewrite ?length_app; cbn [length]; lia).
  cbn [fst snd]. rewrite orb_true_iff.
  assert (H1 : nth i (b ++ [false]) false = true <-> gap_after times i).
  { rewrite <- (gap_after_iff times min_d i Hpos Hle Hmin). fold b.
    destruct (Nat.lt_ge_cases i (length b)) as [Hlt|Hge].
    - now rewrite app_nth1.
    - rewrite app_nth2 by exact Hge. rewrite (nth_overflow b) by exact Hge.
      destruct (i - length b)%nat as [|[|k]]; simpl; split; discriminate. }
  rewrite H1. destruct i as [|i'].
  - cbn [nth]. split; [intros [H|H]; [now left|discriminate]|].
    intros [H|[i' [Hc _]]]; [now left|discriminate].
  - cbn [nth]. unfold b. rewrite (gap_after_iff times min_d i' Hpos Hle Hmin). split.
    + intros [H|H]; [now left|right; now exists i'].
    + intros [H|[k [Ek H]]]; [now left|]. injection Ek as <-. now right.
Qed.

Lemma mark_gaps_both_sides_witness :
  increasing [0; 1; 2; 8; 9; 10]
  /\ exists (gaps : list bool) (widths : list Z),
       mark_gaps [0; 1; 2; 8; 9; 10] = Ok (gaps, widths)
       /\ length gaps = 6%nat
       /\ length widths = count_occ bool_dec gaps true
       /\ forall i : nat, (i < 6)%nat ->
            (nth i gaps false = true
             <-> gap_after [0; 1; 2; 8; 9; 10] i
                 \/ exists i' : nat, i = S i' /\ gap_after [0; 1; 2; 8; 9; 10] i').
Proof.
  assert (Hinc : increasing [0; 1; 2; 8; 9; 10]) by (apply increasingb_sound; reflexivity).
  split; [exact Hinc|].
  apply (mark_gaps_both_sides [0; 1; 2; 8; 9; 10] Hinc). simpl. lia.
Defined.

Lemma nth_all_false (l : list bool) :
  (forall i : nat, (i < length l)%nat -> nth i l false = false) ->
  l = repeat false (length l).
Proof.
  induction l as [|x r IH]; intro H; [reflexivity|].
  cbn [length repeat]. rewrite <- IH.
  - f_equal. apply (H 0%nat). simpl. lia.
  - intros i Hi. apply (H (S i)). simpl. lia.
Qed.

Lemma count_repeat_false (k : nat) : count_occ bool_dec (repeat false k) true = 0%nat.
Proof. induction k as [|k IH]; [reflexivity|]. cbn [repeat]. now rewrite count_true_cons. Qed.

(** X3. In a series whose steps are all within four times one another
    [mark_gaps] marks no point and returns no width. *)
Theorem mark_gaps_even_sampling (times : list Q) :
  increasing times -> (2 <= length times)%nat ->
  (forall i j : nat, (S i < length times)%nat -> (S j < length times)%nat ->
     nth (S i) times 0 - nth i times 0 <= 4 * (nth (S j) times 0 - nth j times 0)) ->
  mark_gaps times = Ok (repeat false (length times), []).
Proof.
  intros Hinc Hlen Heven.
  destruct (mark_gaps_ok times Hinc Hlen) as [gaps [widths [E [Hgl [Hwl _]]]]].
  destruct (mark_gaps_value times Hinc Hlen) as [min_d [widths' [Hpos [Hle [Hmin E']]]]].
  assert (Hno : forall i : nat, ~ gap_after times i).
  { intros i [Hi [j [Hj H]]]. specialize (Heven i j Hi Hj). lra. }
  assert (Hg : gaps = repeat false (length gaps)).
  { apply nth_all_false. intros i Hi.
    rewrite E in E'. injection E' as Eg _. rewrite Eg.
    set (b := map (fun d => Qgtb (d / min_d) 4) (Np.diff times)).
    assert (Hb : length b = (length times - 1)%nat)
      by (unfold b; now rewrite length_map, diff_length).
    rewrite (nth_map2 (fun xy : bool * bool => fst xy || snd xy) (b ++ [false]) (false :: b)
                      false false false)
      by (rewrite ?length_app; cbn [length]; lia).
    cbn [fst snd]. apply orb_false_iff.
    assert (Hbf : forall k : nat, nth k b false = false).
    { intro k. destruct (nth k b false) eqn:Ek; [|reflexivity].
      apply (gap_after_iff times min_d k Hpos Hle Hmin) in Ek. now apply Hno in Ek. }
    split.
    - destruct (Nat.lt_ge_cases i (length b)) as [Hlt|Hge].
      + rewrite app_nth1 by exact Hlt. apply Hbf.
      + rewrite app_nth2 by exact Hge.
        destruct (i - length b)%nat as [|[|k]]; reflexivity.
    - destruct i as [|i']; [reflexivity|]. cbn [nth]. apply Hbf. }
  rewrite Hg, count_repeat_false in Hwl. apply length_zero_iff_nil in Hwl.
  rewrite E, Hwl, Hg, Hgl. reflexivity.
Qed.

Lemma mark_gaps_even_sampling_witness :
  increasing [0; 1; 3; 4]
  /\ mark_gaps [0; 1; 3; 4] = Ok (repeat false 4, []).
Proof.
  assert (Hinc : increasing [0; 1; 3; 4]) by (apply increasingb_sound; reflexivity).
  split; [exact Hinc|].
  apply (mark_gaps_even_sampling [0; 1; 3; 4] Hinc); [simpl; lia|].
  intros i j Hi Hj. simpl in Hi, Hj.
  destruct i as [|[|[|i]]]; [| | |lia]; destruct j as [|[|[|j]]]; try lia;
    simpl; discriminate.
Defined.

(** ** The pattern of predicted times *)

Lemma In_range (a b n : Z) : In n (Py.range a b) <-> (a <= n < b)%Z.
Proof.
  unfold Py.range. rewrite in_map_iff. split.
  - intros [k [<- Hk]]. apply in_seq in Hk. lia.
  - intro H. exists (Z.to_nat (n - a)). split; [lia|]. apply in_seq. lia.
Qed.

Lemma Qceiling_le_Z (x : Q) (n : Z) : (Qceiling x <= n)%Z <-> x <= inject_Z n.
Proof.
  split; intro H.
  - eapply Qle_trans; [apply Qle_ceiling|]. now rewrite <- Zle_Qle.
  - pose proof (Qceiling_lt x) as Hc.
    assert (Hlt : inject_Z (Qceiling x - 1) < inject_Z n) by lra.
    rewrite <- Zlt_Qlt in Hlt. lia.
Qed.

Lemma Qfloor_ge_Z (x : Q) (n : Z) : (n <= Qfloor x)%Z <-> inject_Z n <= x.
Proof.
  split; intro H.
  - eapply Qle_trans; [|apply Qfloor_le]. now rewrite <- Zle_Qle.
  - pose proof (Qlt_floor x) as Hf.
    assert (Hlt : inject_Z n < inject_Z (Qfloor x + 1)) by lra.
    rewrite <- Zlt_Qlt in Hlt. lia.
Qed.

(** X4. For a period of 0.1 or more [construct_range] returns exactly the
    multiples of the period around [t_0] that lie inside the closed domain:
    an integer [n] is in [n_range] if and only if [t_0 + period * n] lies
    between the two borders, and the points are these times. *)
Theorem construct_range_points (t_0 period : Q) (domain : Q * Q) :
  1 # 10 <= period ->
  fst (construct_range t_0 period domain)
  = map (fun n => t_0 + period * inject_Z n) (snd (construct_range t_0 period domain))
  /\ forall n : Z,
       In n (snd (construct_range t_0 period domain))
       <-> fst domain <= t_0 + period * inject_Z n <= snd domain.
Proof.
  intro Hp. unfold construct_range. cbv zeta. cbn [fst snd].
  assert (E : Qltb period (1 # 10) = false) by now apply Qltb_ge.
  rewrite E. split; [reflexivity|]. intro n. rewrite In_range.
  assert (Hpos : 0 < period) by lra.
  assert (H1 : (Qceiling ((fst domain - t_0) / period) <= n)%Z
               <-> fst domain <= t_0 + period * inject_Z n).
  { rewrite Qceiling_le_Z. split; intro H.
    - apply (Qmult_le_compat_r _ _ period) in H; [|lra].
      assert (Ed : (fst domain - t_0) / period * period == fst domain - t_0)
        by (field; lra).
      rewrite Ed in H. lra.
    - apply Qle_shift_div_r; [exact Hpos|]. lra. }
  assert (H2 : (n <= Qfloor ((snd domain - t_0) / period))%Z
               <-> t_0 + period * inject_Z n <= snd domain).
  { rewrite Qfloor_ge_Z. split; intro H.
    - apply (Qmult_le_compat_r _ _ period) in H; [|lra].
      assert (Ed : (snd domain - t_0) / period * period == snd domain - t_0)
        by (field; lra).
      rewrite Ed in H. lra.
    - apply Qle_shift_div_l; [exact Hpos|]. lra. }
  rewrite <- H1, <- H2. lia.
Qed.

Lemma construct_range_points_witness :
  1 # 10 <= 3
  /\ fst (construct_range 5 3 (0, 12))
     = map (fun n => 5 + 3 * inject_Z n) (snd (construct_range 5 3 (0, 12)))
  /\ forall n : Z,
       In n (snd (construct_range 5 3 (0, 12)))
       <-> fst (0, 12) <= 5 + 3 * inject_Z n <= snd (0, 12).
Proof.
  assert (H : 1 # 10 <= 3) by discriminate.
  split; [exact H|]. exact (construct_range_points 5 3 (0, 12) H).
Defined.

(** ** Two groups of eclipses *)

Lemma take_outcome {A : Type} (a : list A) (idx : list Z) :
  (exists l : list A, Np.take a idx = Ok l /\ length l = length idx)
  \/ Np.take a idx = Raise IndexError.
Proof.
  unfold Np.take. induction idx as [|i r IH]; [left; exists []; auto|].
  cbn [map Np.sequence].
  assert (Hg : (exists x : A, Py.get a i = Ok x) \/ Py.get a i = Raise IndexError).
  { unfold Py.get. cbv zeta. destruct (_ <? 0)%Z; [now right|].
    destruct (nth_error a _); [left; eauto|now right]. }
  destruct Hg as [[x ->]| ->]; [|now right]. cbn [bind].
  destruct IH as [[l [-> Hl]]| ->]; [|now right].
  left. exists (x :: l). split; [reflexivity|simpl; now rewrite Hl].
Qed.

Section Separation.

Variable std : list Q -> Q.

Lemma test_separation_swap (variable : list Q) (group_1 group_2 : list Z) :
  test_separation std variable group_1 group_2
  = test_separation std variable group_2 group_1.
Proof.
  unfold test_separation.
  destruct (take_outcome variable group_1) as [[v1 [-> _]]| ->];
    destruct (take_outcome variable group_2) as [[v2 [-> _]]| ->];
    cbn [bind]; try reflexivity.
  cbv zeta. rewrite (orb_comm (length v2 <? 3)%nat), (Nat.add_comm (length v1)).
  destruct ((length v1 <? 3)%nat || (length v2 <? 3)%nat); [reflexivity|].
  destruct (length v2 + length v1 <? 8)%nat; f_equal; unfold Qgtb; apply Qltb_comp.
  - rewrite Q.min_comm. reflexivity.
  - apply Q.max_comm.
  - apply Q.max_comm.
  - rewrite <- (Qabs_opp (Np.avg v2 - Np.avg v1)). apply Qabs_wd. ring.
Qed.

(** X5. [test_separation] does not depend on the order of the two groups:
    the call with the groups exchanged has the same outcome, the same error
    included. *)
Theorem test_separation_symmetric (variable : list Q) (group_1 group_2 : list Z) :
  test_separation std variable group_1 group_2
  = test_separation std variable group_2 group_1.
Proof. apply test_separation_swap. Qed.

Lemma take_nil {A : Type} (a : list A) : Np.take a [] = Ok [].
Proof. reflexivity. Qed.

(** X6. [determine_primary] never makes both groups the primary one: when
    it designates group 1 out of two groups that are not both empty, the
    call with the groups exchanged does not designate group 2. *)
Theorem determine_primary_exclusive (group_1 group_2 : list Z)
        (depths widths added_snr : list Q) :
  group_1 <> [] \/ group_2 <> [] ->
  determine_primary std group_1 group_2 depths widths added_snr = Ok true ->
  determine_primary std group_2 group_1 depths widths added_snr = Ok false.
Proof.
  intros Hne H. unfold determine_primary in *.
  destruct (take_outcome added_snr group_1) as [[s1 [E1 Hl1]]|E1]; rewrite E1 in *;
    cbn [bind] in *; [|discriminate].
  destruct (take_outcome added_snr group_2) as [[s2 [E2 Hl2]]|E2]; rewrite E2 in *;
    cbn [bind] in *; [|discriminate].
  cbv zeta in *.
  assert (Hlt : forall a b : Q, Qgtb a b = true -> Qgtb b a = false).
  { intros a b Hab. apply Qgtb_gt in Hab. apply Qltb_ge. lra. }
  destruct (length s1 =? 0)%nat eqn:N1; destruct (length s2 =? 0)%nat eqn:N2;
    cbn [negb andb] in *.
  - apply Nat.eqb_eq in N1, N2. rewrite Hl1 in N1. rewrite Hl2 in N2.
    apply length_zero_iff_nil in N1, N2. destruct Hne; contradiction.
  - discriminate.
  - reflexivity.
  - rewrite (test_separation_swap depths group_2 group_1).
    destruct (test_separation std depths group_1 group_2) as [[|]| |]; cbn [bind] in *;
      try discriminate.
    + destruct (take_outcome depths group_1) as [[d1 [D1 _]]|D1]; rewrite D1 in *;
        cbn [bind] in *; [|discriminate].
      destruct (take_outcome depths group_2) as [[d2 [D2 _]]|D2]; rewrite D2 in *;
        cbn [bind] in *; [|discriminate].
      injection H as H. f_equal. now apply Hlt.
    + rewrite (test_separation_swap added_snr group_2 group_1).
      destruct (test_separation std added_snr group_1 group_2) as [[|]| |];
        cbn [bind] in *; try discriminate.
      * injection H as H. f_equal. now apply Hlt.
      * rewrite (test_separation_swap widths group_2 group_1).
        destruct (test_separation std widths group_1 group_2) as [[|]| |];
          cbn [bind] in *; try discriminate.
        -- destruct (take_outcome widths group_1) as [[w1 [W1 _]]|W1]; rewrite W1 in *;
             cbn [bind] in *; [|discriminate].
           destruct (take_outcome widths group_2) as [[w2 [W2 _]]|W2]; rewrite W2 in *;
             cbn [bind] in *; [|discriminate].
           injection H as H. f_equal. now apply Hlt.
        -- injection H as H. f_equal. now apply Hlt.
Qed.

End Separation.

Lemma determine_primary_exclusive_witness :
  ([0; 1]%Z <> [] \/ [2; 3]%Z <> [])
  /\ determine_primary std_rational [0; 1]%Z [2; 3]%Z [4; 4; 1; 1] [1; 1; 1; 1]
                       [30; 30; 10; 10] = Ok true
  /\ determine_primary std_rational [2; 3]%Z [0; 1]%Z [4; 4; 1; 1] [1; 1; 1; 1]
                       [30; 30; 10; 10] = Ok false.
Proof.
  assert (Hne : [0; 1]%Z <> [] \/ [2; 3]%Z <> []) by (left; discriminate).
  assert (H : determine_primary std_rational [0; 1]%Z [2; 3]%Z [4; 4; 1; 1] [1; 1; 1; 1]
                                [30; 30; 10; 10] = Ok true) by reflexivity.
  split; [exact Hne|]. split; [exact H|].
  exact (determine_primary_exclusive std_rational [0; 1]%Z [2; 3]%Z [4; 4; 1; 1]
           [1; 1; 1; 1] [30; 30; 10; 10] Hne H).
Defined.

(** ** Adding missing eclipses *)

Lemma select_In {A : Type} (mask : list bool) :
  forall (a : list A) (x : A), In x (Np.select mask a) -> In x a.
Proof.
  induction mask as [|b m IH]; intros [|y r] x H; simpl in H; try contradiction.
  destruct b; [destruct H as [->|H]; [now left|right; now apply IH]|right; now apply IH].
Qed.

Lemma compress_In {A : Type} (mask : list bool) (a l : list A) (x : A) :
  Np.compress mask a = Ok l -> In x l -> In x a.
Proof.
  unfold Np.compress. destruct (_ =? _)%nat; [|discriminate].
  intros E. injection E as <-. apply select_In.
Qed.

(** X7. [add_missing_ecl] never takes an eclipse out of the count: it
    returns the group it was given, or a longer group of indices out of
    [ecl_i]. *)
Theorem add_missing_ecl_grows (std : list Q -> Q) (group ecl_i : list Z)
        (ecl_mid phases added_snr : list Q) (g_avg_phase g_avg_w period : Q)
        (new_group : list Z) :
  add_missing_ecl std group ecl_i ecl_mid phases added_snr g_avg_phase g_avg_w period
  = Ok new_group ->
  new_group = group
  \/ ((length group < length new_group)%nat
      /\ forall i : Z, In i new_group -> In i ecl_i).
Proof.
  unfold add_missing_ecl. cbv zeta. intro H.
  destruct (Np.take added_snr group) as [snr_g| |]; cbn [bind] in H; try discriminate.
  destruct (Np.mean snr_g) as [avg| |]; cbn [bind] in H; try discriminate.
  destruct (Np.ew2 _ phases added_snr) as [in_phase| |]; cbn [bind] in H;
    try discriminate.
  destruct (Np.compress in_phase ecl_i) as [cands| |]; cbn [bind] in H; try discriminate.
  destruct (length group <? length cands)%nat.
  - destruct (Np.take ecl_mid cands) as [mid_c| |]; cbn [bind] in H; try discriminate.
    destruct (for_each cands _ in_phase) as [g_bool| |]; cbn [bind] in H;
      try discriminate.
    destruct (Np.compress g_bool ecl_i) as [ng| |] eqn:Eng; cbn [bind] in H;
      try discriminate.
    destruct (length group <? length ng)%nat eqn:El.
    + injection H as <-. right. apply Nat.ltb_lt in El. split; [exact El|].
      intros i Hi. exact (compress_In _ _ _ _ Eng Hi).
    + injection H as <-. now left.
  - injection H as <-. now left.
Qed.

Lemma add_missing_ecl_grows_witness :
  add_missing_ecl std_rational [0; 2]%Z [0; 1; 2]%Z [0; 10; 20] [0; 0; 0] [30; 30; 30]
                  0 (1 # 5) 10 = Ok [0; 1; 2]%Z
  /\ ([0; 1; 2]%Z = [0; 2]%Z
      \/ ((length [0; 2]%Z < length [0; 1; 2]%Z)%nat
          /\ forall i : Z, In i [0; 1; 2]%Z -> In i [0; 1; 2]%Z)).
Proof.
  assert (H : add_missing_ecl std_rational [0; 2]%Z [0; 1; 2]%Z [0; 10; 20] [0; 0; 0]
                              [30; 30; 30] 0 (1 # 5) 10 = Ok [0; 1; 2]%Z)
    by (vm_compute; reflexivity).
  split; [exact H|].
  exact (add_missing_ecl_grows std_rational [0; 2]%Z [0; 1; 2]%Z [0; 10; 20] [0; 0; 0]
           [30; 30; 30] 0 (1 # 5) 10 [0; 1; 2]%Z H).
Defined.

(** ** Extracting the eclipses on a pattern *)

Lemma for_each_keeps {St : Type} (I : St -> Prop) (body : Z -> St -> res St)
      (idx : list Z) :
  forall st st' : St,
  for_each idx body st = Ok st' -> I st ->
  (forall (i : Z) (s s1 : St), In i idx -> I s -> body i s = Ok s1 -> I s1) ->
  I st'.
Proof.
  induction idx as [|i r IH]; intros st st' H H0 Hstep; cbn [for_each] in H.
  - injection H as <-. exact H0.
  - destruct (body i st) as [s1| |] eqn:E; cbn [bind] in H; try discriminate.
    apply (IH s1 st' H).
    + apply (Hstep i st s1); [now left|exact H0|exact E].
    + intros j s s2 Hj. apply Hstep. now right.
Qed.

Lemma set_inv {A : Type} (l l' : list A) (i : Z) (v : A) :
  Py.set l i v = Ok l' ->
  exists k : nat, (k < length l)%nat /\ l' = Py.update l k v
                  /\ ((0 <= i)%Z -> k = Z.to_nat i).
Proof.
  unfold Py.set, Py.norm_index. cbv zeta. intro H.
  destruct (_ || _) eqn:E; [discriminate|]. injection H as <-.
  apply orb_false_iff in E. destruct E as [E1 E2].
  eexists. split; [|split; [reflexivity|]].
  - destruct (i <? 0)%Z; lia.
  - intro Hi. destruct (i <? 0)%Z eqn:E; [lia|reflexivity].
Qed.

Lemma index_set_off (idx : list Z) :
  forall l l' : list bool,
  Np.index_set l idx false = Ok l' ->
  length l' = length l
  /\ forall j : nat, nth j l' false = true -> nth j l false = true.
Proof.
  induction idx as [|i r IH]; intros l l' H; cbn [Np.index_set] in H.
  - injection H as <-. auto.
  - destruct (Py.set l i false) as [l1| |] eqn:E; cbn [bind] in H; try discriminate.
    destruct (set_inv _ _ _ _ E) as [k [Hk [-> _]]].
    destruct (IH _ _ H) as [Hl Hn]. rewrite update_length in Hl. split; [exact Hl|].
    intros j Hj. apply Hn in Hj. rewrite (nth_update l k j false false Hk) in Hj.
    destruct (j =? k)%nat; [discriminate|exact Hj].
Qed.

Lemma select_seq_In (m : list bool) :
  forall (s : nat) (j : Z),
  In j (Np.select m (map (fun k => (0 + Z.of_nat k)%Z) (seq s (length m)))) ->
  exists k : nat, (k < length m)%nat /\ j = Z.of_nat (s + k)
                  /\ nth k m false = true.
Proof.
  induction m as [|b m IH]; intros s j H; [destruct H|].
  cbn [length seq map Np.select] in H.
  assert (Hrest : In j (Np.select m (map (fun k => (0 + Z.of_nat k)%Z)
                                         (seq (S s) (length m)))) ->
                  exists k : nat, (k < length (b :: m))%nat /\ j = Z.of_nat (s + k)
                                  /\ nth k (b :: m) false = true).
  { intro Hin. destruct (IH _ _ Hin) as [k [Hk [Ej Hn]]].
    exists (S k). split; [simpl; lia|]. split; [lia|exact Hn]. }
  destruct b; [|now apply Hrest].
  destruct H as [<-|H]; [|now apply Hrest].
  exists 0%nat. split; [simpl; lia|]. split; [lia|reflexivity].
Qed.

Lemma select_range_In (m : list bool) (n : nat) (j : Z) :
  length m = n ->
  In j (Np.select m (Py.range 0 (Z.of_nat n))) ->
  (0 <= j < Z.of_nat n)%Z /\ nth (Z.to_nat j) m false = true.
Proof.
  intros Hl H. unfold Py.range in H.
  replace (Z.to_nat (Z.of_nat n - 0)) with (length m) in H by lia.
  destruct (select_seq_In m 0 j H) as [k [Hk [-> Hn]]].
  split; [lia|]. now replace (Z.to_nat (Z.of_nat (0 + k))) with k by lia.
Qed.

Lemma select_seq_sorted (m : list bool) :
  forall (k s : nat),
  StronglySorted Z.lt (Np.select m (map (fun j => (0 + Z.of_nat j)%Z) (seq s k))).
Proof.
  induction m as [|b m IH]; intros k s; [constructor|].
  destruct k as [|k]; [constructor|]. cbn [seq map Np.select].
  destruct b; [|apply IH]. constructor; [apply IH|].
  apply Forall_forall. intros x Hx. apply select_In in Hx.
  apply in_map_iff in Hx. destruct Hx as [j [<- Hj]]. apply in_seq in Hj. lia.
Qed.

(** The indices that [extract_pattern] returns are in ascending order and
    point into [ecl_mid], and each of these eclipses passed the test on the
    distance found by the neighbour search. *)
Lemma extract_pattern_selected (ecl_mid widths added_snr : list Q) (t_0 ecl_period : Q)
        (time_frame : Q * Q) (g : list Z) :
  length widths = length ecl_mid ->
  extract_pattern ecl_mid widths added_snr t_0 ecl_period time_frame = Ok g ->
  StronglySorted Z.lt g
  /\ forall i : Z, In i g ->
       (0 <= i < Z.of_nat (length ecl_mid))%Z
       /\ exists (i_nn : Z) (d_nn : Q),
            nearest_neighbour (fst (construct_range t_0 ecl_period time_frame))
                              (nth (Z.to_nat i) ecl_mid 0) = Ok (i_nn, d_nn)
            /\ Np.div_ltb d_nn (nth (Z.to_nat i) widths 0) (1 # 2) = true.
Proof.
  intros Hw H. unfold extract_pattern in H. cbv zeta in H.
  set (pattern := fst (construct_range t_0 ecl_period time_frame)) in *.
  set (indices := Py.range 0 (Z.of_nat (length ecl_mid))) in *.
  destruct (Np.sequence (map (nearest_neighbour pattern) ecl_mid)) as [nn| |] eqn:Enn;
    cbn [bind] in H; try discriminate.
  destruct (sequence_map_nth (nearest_neighbour pattern) 0 (0%Z, 0) ecl_mid nn Enn)
    as [Hnl Hnn].
  rewrite ew2_ok in H by (rewrite length_map; lia). cbn [bind] in H.
  set (cn_w0 := map (fun xy : Q * Q => Np.div_ltb (fst xy) (snd xy) (1 # 2))
                    (combine (map snd nn) widths)) in *.
  assert (Hc0 : length cn_w0 = length ecl_mid).
  { unfold cn_w0. rewrite length_map, length_combine, length_map. lia. }
  destruct (Np.compress cn_w0 (map fst nn)) as [i_cn| |]; cbn [bind] in H;
    try discriminate.
  (* the mask that is compressed in the end keeps only what [cn_w0] has *)
  assert (Hfin : exists cn_w : list bool,
             Np.compress cn_w indices = Ok g
             /\ forall j : nat, nth j cn_w false = true -> nth j cn_w0 false = true).
  { destruct (Np.any _).
    - destruct (Py.set_from _ 1 _) as [dup_mask| |]; cbn [bind] in H; try discriminate.
      destruct (Np.compress cn_w0 indices) as [idx_cn| |]; cbn [bind] in H;
        try discriminate.
      destruct (Np.compress (map negb dup_mask) idx_cn) as [i_nd| |]; cbn [bind] in H;
        try discriminate.
      assert (Href : exists ref_snr : Q,
                 (cn_w <- (pp_dup <- Np.compress dup_mask i_cn ;;
                           for_each (Np.unique pp_dup)
                            (fun (pp : Z) (cn_w : list bool) =>
                               idx_cn <- Np.compress cn_w indices ;;
                               inn_cn <- Np.compress cn_w (map fst nn) ;;
                               i_compare <- Np.compress (map (fun x => (x =? pp)%Z) inn_cn)
                                                        idx_cn ;;
                               vals <- Np.take added_snr i_compare ;;
                               closest <- Np.argmin (map (fun v => Qabs (v - ref_snr)) vals) ;;
                               cn_w <- Np.index_set cn_w i_compare false ;;
                               keep <- Py.get i_compare closest ;;
                               Py.set cn_w keep true)
                            cn_w0) ;;
                  Np.compress cn_w indices) = Ok g).
      { destruct (0 <? length i_nd)%nat.
        - destruct (Np.take added_snr i_nd) as [vals| |]; cbn [bind] in H;
            try discriminate.
          destruct (Np.mean vals) as [r| |]; cbn [bind] in H; try discriminate.
          exists r. exact H.
        - destruct (Np.compress cn_w0 added_snr) as [vals| |]; cbn [bind] in H;
            try discriminate.
          destruct (Np.max vals) as [r| |]; cbn [bind] in H; try discriminate.
          exists r. exact H. }
      clear H. destruct Href as [ref_snr H].
      destruct (Np.compress dup_mask i_cn) as [pp_dup| |]; cbn [bind] in H;
        try discriminate.
      match type of H with
      | bind (for_each ?idx ?body ?st) _ = _ =>
          destruct (for_each idx body st) as [cn_w| |] eqn:Eloop; cbn [bind] in H;
          try discriminate;
          pose proof (for_each_keeps
                        (fun c : list bool =>
                           length c = length ecl_mid
                           /\ forall j : nat, nth j c false = true
                                              -> nth j cn_w0 false = true)
                        body idx st cn_w Eloop) as Hinv
      end.
      exists cn_w. split; [exact H|]. apply Hinv; [split; [exact Hc0|auto]|].
      clear Hinv Eloop H. intros pp c c1 _ [Hcl Hc] Hbody.
      destruct (Np.compress c indices) as [idx_c| |] eqn:Eidx; cbn [bind] in Hbody;
        try discriminate.
      destruct (Np.compress c (map fst nn)) as [inn_c| |]; cbn [bind] in Hbody;
        try discriminate.
      destruct (Np.compress _ idx_c) as [i_compare| |] eqn:Ecmp; cbn [bind] in Hbody;
        try discriminate.
      destruct (Np.take added_snr i_compare) as [vals| |]; cbn [bind] in Hbody;
        try discriminate.
      destruct (Np.argmin _) as [closest| |]; cbn [bind] in Hbody; try discriminate.
      destruct (Np.index_set c i_compare false) as [c'| |] eqn:Eoff; cbn [bind] in Hbody;
        try discriminate.
      destruct (Py.get i_compare closest) as [keep| |] eqn:Ekeep; cbn [bind] in Hbody;
        try discriminate.
      destruct (index_set_off _ _ _ Eoff) as [Hl' Hoff].
      destruct (set_inv _ _ _ _ Hbody) as [k [Hk [-> Hkeep]]].
      split; [rewrite update_length; lia|].
      intros j Hj. rewrite (nth_update c' k j true false Hk) in Hj.
      destruct (j =? k)%nat eqn:Ejk.
      + apply Nat.eqb_eq in Ejk. subst j.
        apply get_In in Ekeep. apply (compress_In _ _ _ _ Ecmp) in Ekeep.
        unfold Np.compress in Eidx. destruct (_ =? _)%nat; [|discriminate].
        injection Eidx as <-.
        destruct (select_range_In c (length ecl_mid) keep Hcl Ekeep) as [Hrange Hon].
        rewrite (Hkeep (proj1 Hrange)). now apply Hc.
      + apply Hc, Hoff, Hj.
    - exists cn_w0. split; [exact H|auto]. }
  destruct Hfin as [cn_w [Eg Hsub]]. unfold Np.compress in Eg.
  destruct (length cn_w =? length indices)%nat eqn:El; [|discriminate].
  injection Eg as <-. apply Nat.eqb_eq in El.
  unfold indices in El. rewrite range_length in El.
  split; [unfold indices, Py.range; apply select_seq_sorted|].
  intros i Hi.
  destruct (select_range_In cn_w (length ecl_mid) i ltac:(lia) Hi) as [Hrange Hon].
  split; [exact Hrange|]. apply Hsub in Hon.
  specialize (Hnn (Z.to_nat i) ltac:(lia)).
  exists (fst (nth (Z.to_nat i) nn (0%Z, 0))), (snd (nth (Z.to_nat i) nn (0%Z, 0))).
  split; [rewrite Hnn; now destruct (nth (Z.to_nat i) nn (0%Z, 0))|].
  unfold cn_w0 in Hon.
  rewrite (nth_map2 (fun xy : Q * Q => Np.div_ltb (fst xy) (snd xy) (1 # 2))
                    (map snd nn) widths 0 0 false) in Hon
    by (rewrite length_map; lia).
  cbn [fst snd] in Hon.
  rewrite (nth_indep _ 0 (snd (0%Z, 0))) in Hon by (rewrite length_map; lia).
  rewrite (map_nth snd) in Hon. exact Hon.
Qed.

(** The neighbour search of [extract_pattern] is that of [pattern_test],
    with the index kept. *)
Lemma nearest_neighbour_distance (pattern : list Q) (e d : Q) (i : Z) :
  nearest_neighbour pattern e = Ok (i, d) ->
  nearest_distance pattern e = Ok d /\ 0 <= d /\ pattern <> [].
Proof.
  intro H.
  assert (Hne : pattern <> []) by (intros ->; simpl in H; discriminate).
  revert H. unfold nearest_neighbour, nearest_distance. cbv zeta.
  destruct (Py.get pattern _) as [right| |]; cbn [bind]; try discriminate.
  destruct (Py.get pattern _) as [left| |]; cbn [bind]; try discriminate.
  destruct (Py.get pattern _) as [nn| |]; cbn [bind]; try discriminate.
  intro H. assert (Hd : d = Qabs (nn - e)) by congruence.
  split; [now rewrite Hd|]. split; [rewrite Hd; apply Qabs_nonneg|exact Hne].
Qed.

(** X8. For a positive period and widths that are not negative, the indices
    that [extract_pattern] returns are in ascending order and point into
    [ecl_mid], and each of these eclipses lies less than half its width from
    the nearest point of the pattern. *)
Theorem extract_pattern_within_width (ecl_mid widths added_snr : list Q) (t_0 ecl_period : Q)
        (time_frame : Q * Q) (g : list Z) :
  length widths = length ecl_mid ->
  Forall (fun w => 0 <= w) widths ->
  0 < ecl_period ->
  extract_pattern ecl_mid widths added_snr t_0 ecl_period time_frame = Ok g ->
  StronglySorted Z.lt g
  /\ forall i : Z, In i g ->
       (0 <= i < Z.of_nat (length ecl_mid))%Z
       /\ distance_to_nearest (fst (construct_range t_0 ecl_period time_frame))
                              (nth (Z.to_nat i) ecl_mid 0)
          < (1 # 2) * nth (Z.to_nat i) widths 0.
Proof.
  intros Hlen Hw Hp H.
  destruct (extract_pattern_selected ecl_mid widths added_snr t_0 ecl_period time_frame g
              Hlen H) as [Hs Hall].
  split; [exact Hs|]. intros i Hi.
  destruct (Hall i Hi) as [Hr [i_nn [d_nn [Enn Hd]]]]. split; [exact Hr|].
  destruct (nearest_neighbour_distance _ _ _ _ Enn) as [Ed [Hd0 Hne]].
  destruct (nearest_distance_spec _ (nth (Z.to_nat i) ecl_mid 0)
              (construct_range_increasing t_0 ecl_period time_frame Hp) Hne)
    as [d [Ed' Hdd]].
  rewrite Ed in Ed'. injection Ed' as <-.
  assert (Hwi : 0 <= nth (Z.to_nat i) widths 0).
  { rewrite Forall_forall in Hw. apply Hw, nth_In. lia. }
  rewrite (div_ltb_half _ _ Hd0 Hwi) in Hd. apply Qltb_lt in Hd.
  now rewrite <- Hdd.
Qed.

Lemma extract_pattern_within_width_witness :
  Forall (fun w => 0 <= w) [1; 1; 1]
  /\ 0 < 3
  /\ extract_pattern [5; 8; 9] [1; 1; 1] [20; 20; 20] 5 3 (4, 12) = Ok [0; 1]%Z
  /\ StronglySorted Z.lt [0; 1]%Z
  /\ forall i : Z, In i [0; 1]%Z ->
       (0 <= i < Z.of_nat (length [5; 8; 9]))%Z
       /\ distance_to_nearest (fst (construct_range 5 3 (4, 12)))
                              (nth (Z.to_nat i) [5; 8; 9] 0)
          < (1 # 2) * nth (Z.to_nat i) [1; 1; 1] 0.
Proof.
  assert (Hw : Forall (fun w => 0 <= w) [1; 1; 1]) by (repeat constructor; discriminate).
  assert (Hp : 0 < 3) by reflexivity.
  assert (H : extract_pattern [5; 8; 9] [1; 1; 1] [20; 20; 20] 5 3 (4, 12) = Ok [0; 1]%Z)
    by (vm_compute; reflexivity).
  split; [exact Hw|]. split; [exact Hp|]. split; [exact H|].
  exact (extract_pattern_within_width [5; 8; 9] [1; 1; 1] [20; 20; 20] 5 3 (4, 12)
           [0; 1]%Z eq_refl Hw Hp H).
Defined.

(** ** What [estimate_period] returns in every case *)

Lemma take_In {A : Type} (a : list A) (idx : list Z) (l : list A) (x : A) :
  Np.take a idx = Ok l -> In x l -> In x a.
Proof.
  unfold Np.take. revert l. induction idx as [|i r IH]; intros l H Hin;
    cbn [map Np.sequence] in H.
  - injection H as <-. destruct Hin.
  - destruct (Py.get a i) as [y| |] eqn:Ey; cbn [bind] in H; try discriminate.
    destruct (Np.sequence (map (Py.get a) r)) as [ys| |]; cbn [bind] in H;
      try discriminate.
    injection H as <-. destruct Hin as [<-|Hin]; [exact (get_In _ _ _ Ey)|].
    now apply (IH ys).
Qed.

Lemma take_length {A : Type} (a : list A) (idx : list Z) (l : list A) :
  Np.take a idx = Ok l -> length l = length idx.
Proof.
  intro H. destruct (take_outcome a idx) as [[l' [E Hl]]|E]; rewrite E in H;
    [|discriminate].
  injection H as <-. exact Hl.
Qed.

Lemma insert_keyed_length (x : Q * Z) (l : list (Q * Z)) :
  length (Np.insert_keyed x l) = S (length l).
Proof.
  induction l as [|y r IH]; [reflexivity|]. simpl.
  destruct (Qle_bool (fst x) (fst y)); simpl; [reflexivity|now rewrite IH].
Qed.

Lemma argsort_length (a : list Q) : length (Np.argsort a) = length a.
Proof.
  unfold Np.argsort. rewrite length_map.
  assert (H : forall l : list (Q * Z),
             length (fold_right Np.insert_keyed [] l) = length l).
  { induction l as [|x r IH]; [reflexivity|]. simpl.
    now rewrite insert_keyed_length, IH. }
  rewrite H, length_combine, range_length. lia.
Qed.

Lemma index_set_in {A : Type} (idx : list Z) (v : A) :
  forall l l' : list A,
  Np.index_set l idx v = Ok l' ->
  length l' = length l /\ forall x : A, In x l' -> x = v \/ In x l.
Proof.
  induction idx as [|i r IH]; intros l l' H; cbn [Np.index_set] in H.
  - injection H as <-. auto.
  - destruct (Py.set l i v) as [l1| |] eqn:E; cbn [bind] in H; try discriminate.
    destruct (set_inv _ _ _ _ E) as [k [Hk [-> _]]].
    destruct (IH _ _ H) as [Hl Hin]. rewrite update_length in Hl. split; [exact Hl|].
    intros x Hx. destruct (Hin x Hx) as [->|Hx1]; [now left|].
    destruct (In_nth _ _ v Hx1) as [j [Hj <-]]. rewrite update_length in Hj.
    rewrite (nth_update l k j v v Hk).
    destruct (j =? k)%nat; [now left|right; now apply nth_In].
Qed.

Lemma mask_set_length {A : Type} (mask : list bool) (a a' : list A) (v : A) :
  Np.mask_set mask a v = Ok a' -> length a' = length a.
Proof.
  unfold Np.mask_set. destruct (length mask =? length a)%nat eqn:E; [|discriminate].
  intro H. injection H as <-. apply Nat.eqb_eq in E.
  rewrite length_map, length_combine. lia.
Qed.

(** The flags that the last part of [estimate_period] makes: one for every
    eclipse, each of them 1, 2 or 3. *)
Lemma flag_and_epoch_flags (g1 g2 : list Z) (primary_g1 : bool) (period : Q)
      (ecl_mid added_snr : list Q) (m_full : list bool) (t p : Q) (flags : list Z) :
  flag_and_epoch g1 g2 primary_g1 period ecl_mid added_snr m_full = Ok (t, p, flags) ->
  length flags = length ecl_mid
  /\ Forall (fun f => f = 1 \/ f = 2 \/ f = 3)%Z flags.
Proof.
  unfold flag_and_epoch. cbv zeta. intro H.
  destruct (Np.index_set _ g1 _) as [f1| |] eqn:E1; cbn [bind] in H; try discriminate.
  destruct (Np.index_set f1 g2 _) as [f2| |] eqn:E2; cbn [bind] in H; try discriminate.
  destruct (Np.mask_set (Np.eq_int f2 0) f2 3%Z) as [f3| |] eqn:E3; cbn [bind] in H;
    try discriminate.
  destruct (index_set_in _ _ _ _ E1) as [L1 I1].
  destruct (index_set_in _ _ _ _ E2) as [L2 I2].
  pose proof (mask_set_length _ _ _ _ E3) as L3.
  rewrite repeat_length in L1.
  assert (H3 : length f3 = length ecl_mid
               /\ Forall (fun f => f = 1 \/ f = 2 \/ f = 3)%Z f3).
  { split; [lia|]. apply Forall_forall. intros x Hx.
    pose proof (mask_set_eq_removes f2 f3 0 3 ltac:(lia) E3) as Hno0.
    destruct (mask_set_in _ _ _ _ _ E3 Hx) as [->|Hx2]; [auto|].
    assert (x <> 0%Z) by (intros ->; contradiction).
    destruct (I2 x Hx2) as [->|Hx1]; [destruct primary_g1; auto|].
    destruct (I1 x Hx1) as [->|Hx0]; [destruct primary_g1; auto|].
    apply repeat_spec in Hx0. contradiction. }
  destruct (Np.compress (Np.eq_int f3 1) added_snr) as [snr_p| |]; cbn [bind] in H;
    try discriminate.
  assert (Hf : exists (f4 : list Z) (period' : Q),
             (length f4 = length ecl_mid
              /\ Forall (fun f => f = 1 \/ f = 2 \/ f = 3)%Z f4)
             /\ (full_primaries <- Np.ew2 andb m_full (Np.eq_int f4 1) ;;
                 if Np.any full_primaries then
                   sel <- Np.compress full_primaries ecl_mid ;;
                   t_zero <- Py.get sel 0 ;;
                   Ok (t_zero, period', f4)
                 else if Np.any (Np.eq_int f4 1) then
                   sel <- Np.compress (Np.eq_int f4 1) ecl_mid ;;
                   t_zero <- Py.get sel 0 ;;
                   Ok (t_zero, period', f4)
                 else Ok (-1, -1, f4)) = Ok (t, p, flags)).
  { destruct (length snr_p =? 2)%nat.
    - destruct (Np.any _).
      + destruct (Np.mask_set (Np.eq_int f3 1) f3 3%Z) as [f4| |] eqn:E4;
          cbn [bind] in H; try discriminate.
        destruct (Np.mask_set (Np.eq_int f4 2) f4 3%Z) as [f5| |] eqn:E5;
          cbn [bind] in H; try discriminate.
        exists f5, (-1). split; [|exact H].
        pose proof (mask_set_length _ _ _ _ E4). pose proof (mask_set_length _ _ _ _ E5).
        split; [lia|]. apply Forall_forall. intros x Hx.
        destruct (mask_set_in _ _ _ _ _ E5 Hx) as [->|Hx4]; [auto|].
        destruct (mask_set_in _ _ _ _ _ E4 Hx4) as [->|Hx3]; [auto|].
        exact (proj1 (Forall_forall _ _) (proj2 H3) x Hx3).
      + cbn [bind] in H. exists f3, period. split; [exact H3|exact H].
    - cbn [bind] in H. exists f3, period. split; [exact H3|exact H]. }
  clear H. destruct Hf as [f4 [period' [Hf4 H]]].
  destruct (Np.ew2 andb m_full (Np.eq_int f4 1)) as [fp| |]; cbn [bind] in H;
    try discriminate.
  destruct (Np.any fp).
  - destruct (Np.compress fp ecl_mid) as [sel| |]; cbn [bind] in H; try discriminate.
    destruct (Py.get sel 0) as [t0| |]; cbn [bind] in H; try discriminate.
    injection H as <- <- <-. exact Hf4.
  - destruct (Np.any (Np.eq_int f4 1)).
    + destruct (Np.compress (Np.eq_int f4 1) ecl_mid) as [sel| |]; cbn [bind] in H;
        try discriminate.
      destruct (Py.get sel 0) as [t0| |]; cbn [bind] in H; try discriminate.
      injection H as <- <- <-. exact Hf4.
    + injection H as <- <- <-. exact Hf4.
Qed.

Section EstimatePeriodResult.

Variable std : list Q -> Q.

Lemma classify_eclipses_result (pg : period_guess) (n_full_ecl : nat) (domain : Q * Q)
      (timestep t p : Q) (flags : list Z) :
  classify_eclipses std pg n_full_ecl domain timestep = Ok (t, p, flags) ->
  length flags = length (pg_ecl_mid pg)
  /\ Forall (fun f => f = 1 \/ f = 2 \/ f = 3)%Z flags
  /\ (In t (pg_ecl_mid pg) \/ (t = -1 /\ p = -1 /\ ~ In 1%Z flags)).
Proof.
  unfold classify_eclipses. cbv zeta. intro H.
  invert_ok H;
    (destruct (flag_and_epoch_flags _ _ _ _ _ _ _ _ _ _ H) as [Hl Hf];
     split; [exact Hl|]; split; [exact Hf|];
     destruct (flag_and_epoch_cases _ _ _ _ _ _ _ _ _ _ H) as [[_ [Hin _]]|Hs];
     [now left|now right]).
Qed.

Lemma first_period_estimate_mid (ecl_mid widths depths added_snr : list Q)
      (m_full : list bool) (domain : Q * Q) (timestep : Q) (pg : period_guess) :
  first_period_estimate ecl_mid widths depths added_snr m_full domain timestep = Ok pg ->
  length (pg_ecl_mid pg) = length ecl_mid
  /\ (forall t : Q, In t (pg_ecl_mid pg) -> In t ecl_mid)
  /\ ((2 <? length ecl_mid)%nat = true -> length (pg_sorter pg) = length ecl_mid).
Proof.
  unfold first_period_estimate. cbv zeta. intro H.
  destruct (length ecl_mid <? 2)%nat eqn:E2.
  { injection H as <-. cbn [pg_ecl_mid pg_sorter]. split; [reflexivity|]. split; [auto|].
    intro Hc. apply Nat.ltb_lt in E2, Hc. lia. }
  destruct (length ecl_mid =? 2)%nat eqn:E3.
  { assert (Hc : (2 <? length ecl_mid)%nat = true -> False).
    { intro Hc. apply Nat.eqb_eq in E3. apply Nat.ltb_lt in Hc. lia. }
    invert_ok H; injection H as <-; cbn [pg_ecl_mid pg_sorter]; (split; [reflexivity|]);
      (split; [auto|]); intro Hx; destruct (Hc Hx). }
  destruct (Np.take ecl_mid (Np.argsort ecl_mid)) as [mid_s| |] eqn:Emid;
    cbn [bind] in H; try discriminate.
  pose proof (take_length _ _ _ Emid) as Hlen. rewrite argsort_length in Hlen.
  assert (Hsub : forall t : Q, In t mid_s -> In t ecl_mid)
    by (intros t Ht; exact (take_In _ _ _ _ Emid Ht)).
  invert_ok H; injection H as <-; cbn [pg_ecl_mid pg_sorter];
    (split; [exact Hlen|]); (split; [exact Hsub|]); intros _; apply argsort_length.
Qed.

(** X9. Whatever [estimate_period] returns, there is one flag for every
    eclipse, every flag is 1, 2 or 3, and the epoch is either one of the
    measured midpoints or the sentinel -1; with the sentinel the period is
    -1 too and no eclipse is flagged primary. *)
Theorem estimate_period_result (ecl_mid widths depths added_snr : list Q)
        (flags_lrf : list Z) (timestep t_zero period : Q) (flags_pst : list Z) :
  estimate_period std ecl_mid widths depths added_snr flags_lrf timestep
  = Ok (t_zero, period, flags_pst) ->
  length flags_pst = length ecl_mid
  /\ Forall (fun f => f = 1 \/ f = 2 \/ f = 3)%Z flags_pst
  /\ (In t_zero ecl_mid \/ (t_zero = -1 /\ period = -1 /\ ~ In 1%Z flags_pst)).
Proof.
  unfold estimate_period. cbv zeta. intro H.
  destruct (time_domain ecl_mid) as [domain| |]; cbn [bind] in H; try discriminate.
  destruct (first_period_estimate _ _ _ _ _ _ _) as [pg| |] eqn:Epg; cbn [bind] in H;
    try discriminate.
  destruct (first_period_estimate_mid _ _ _ _ _ _ _ _ Epg) as [Hml [Hsub Hsort]].
  destruct (negb (Qeq_bool (pg_period pg) (-1))).
  - destruct (classify_eclipses std pg _ domain timestep) as [[[t p] fl]| |] eqn:Ec;
      cbn [bind] in H; try discriminate.
    destruct (classify_eclipses_result _ _ _ _ _ _ _ Ec) as [Hl [Hf Ht]].
    assert (Hepoch : In t ecl_mid \/ (t = -1 /\ p = -1 /\ ~ In 1%Z fl)).
    { destruct Ht as [Ht|Ht]; [left; now apply Hsub|now right]. }
    destruct (2 <? length ecl_mid)%nat eqn:E2.
    + destruct (Np.take fl (Np.argsort_int (pg_sorter pg))) as [fl'| |] eqn:Et;
        cbn [bind] in H; try discriminate.
      injection H as <- <- <-.
      pose proof (take_length _ _ _ Et) as Hl'.
      unfold Np.argsort_int in Hl'. rewrite argsort_length, length_map in Hl'.
      split; [rewrite Hl'; now apply Hsort|]. split.
      * apply Forall_forall. intros x Hx.
        exact (proj1 (Forall_forall _ _) Hf x (take_In _ _ _ _ Et Hx)).
      * destruct Hepoch as [Hin|[-> [-> Hno]]]; [now left|right].
        split; [reflexivity|]. split; [reflexivity|].
        intro Hx. apply Hno. exact (take_In _ _ _ _ Et Hx).
    + cbn [bind] in H. injection H as <- <- <-.
      split; [lia|]. split; [exact Hf|exact Hepoch].
  - injection H as <- <- <-. split; [apply repeat_length|]. split.
    + apply Forall_forall. intros x Hx. apply repeat_spec in Hx. auto.
    + right. split; [reflexivity|]. split; [reflexivity|].
      intro Hx. apply repeat_spec in Hx. discriminate.
Qed.

End EstimatePeriodResult.

Lemma estimate_period_result_witness :
  estimate_period std_rational [5; 8] [1; 1] [1 # 10; 1 # 10] [20; 30] [0; 0]%Z (1 # 50)
  = Ok (5, 3, [1; 1]%Z)
  /\ length [1; 1]%Z = length [5; 8]
  /\ Forall (fun f => f = 1 \/ f = 2 \/ f = 3)%Z [1; 1]%Z
  /\ (In 5 [5; 8] \/ (5 = -1 /\ 3 = -1 /\ ~ In 1%Z [1; 1]%Z)).
Proof.
  assert (H : estimate_period std_rational [5; 8] [1; 1] [1 # 10; 1 # 10] [20; 30]
                              [0; 0]%Z (1 # 50) = Ok (5, 3, [1; 1]%Z))
    by (vm_compute; reflexivity).
  split; [exact H|].
  exact (estimate_period_result std_rational [5; 8] [1; 1] [1 # 10; 1 # 10] [20; 30]
           [0; 0]%Z (1 # 50) 5 3 [1; 1]%Z H).
Defined.

(** ** Smoothing and measuring: further properties *)

(** X10. For every kernel width from 2 up to the length of the array,
    [smooth] without a mask returns an array of the length of the input: no
    index of its three loops and no slice of the slide falls outside the
    array. *)
Theorem smooth_returns (a : list Q) (n_kernel : Z) :
  (2 <= n_kernel <= Z.of_nat (length a))%Z ->
  exists out : list Q, smooth a n_kernel None = Ok out /\ length out = length a.
Proof.
  intro kernel_range. set (L := Z.of_nat (length a)) in *.
  unfold smooth. cbv zeta.
  pose proof (Z.div_mod n_kernel 2 ltac:(lia)) as Hdm.
  pose proof (Z.mod_pos_bound n_kernel 2 ltac:(lia)) as Hmod.
  set (n_2 := (n_kernel / 2)%Z) in *.
  set (n_3 := (n_kernel mod 2)%Z) in *.
  (* the first n_kernel points *)
  destruct (for_each_range_inv
              (fun _ st => Z.of_nat (length (s_out st)) = L)
              (fun i st =>
                 ai <- Py.get a i ;;
                 let sum := s_sum st + ai in
                 out <- Py.set (s_out st) i (sum / inject_Z (i + 1)) ;;
                 Ok (mk_smooth_state sum out))
              0%Z n_kernel (mk_smooth_state 0 (repeat 0 (length a))))
    as [st1 [E1 L1]].
  { lia. }
  { simpl. now rewrite repeat_length. }
  { intros i st Hi Hl.
    rewrite (get_nonneg a 0 i) by (fold L; lia). cbn [bind].
    rewrite set_nonneg by lia. cbn [bind].
    eexists. split; [reflexivity|]. simpl. now rewrite update_length. }
  cbv zeta in E1. rewrite E1. cbn [bind].
  (* the sliding window *)
  destruct (for_each_range_inv
              (fun _ st => Z.of_nat (length (s_out st)) = L)
              (fun i st =>
                 aj <- Py.get a (i - n_kernel) ;;
                 ai <- Py.get a i ;;
                 let sum := s_sum st - aj + ai in
                 out <- Py.set (s_out st) i (sum / inject_Z n_kernel) ;;
                 Ok (mk_smooth_state sum out))
              n_kernel L st1)
    as [st2 [E2 L2]].
  { lia. }
  { exact L1. }
  { intros i st Hi Hl.
    rewrite (get_nonneg a 0 (i - n_kernel)) by (fold L; lia). cbn [bind].
    rewrite (get_nonneg a 0 i) by (fold L; lia). cbn [bind].
    rewrite set_nonneg by lia. cbn [bind].
    eexists. split; [reflexivity|]. simpl. now rewrite update_length. }
  fold L. cbv zeta in E2. rewrite E2. cbn [bind].
  (* the slide backward, by [n_2 + n_3 - 1] points *)
  pose (k_s := (n_2 + n_3 - 1)%Z).
  assert (Hks : (0 <= k_s < n_kernel)%Z) by (unfold k_s; lia).
  assert (E3 : exists out3 : list Q,
             (if ((n_2 >? 1) || (n_3 >? 0))%Z%bool
              then Py.set_upto (s_out st2) (- n_2 - n_3 + 1)
                               (Py.from (s_out st2) (n_2 + n_3 - 1))
              else Ok (s_out st2)) = Ok out3
             /\ Z.of_nat (length out3) = L).
  { destruct ((n_2 >? 1) || (n_3 >? 0))%Z%bool eqn:Ec.
    - assert (Hs : (1 <= k_s)%Z).
      { apply orb_true_iff in Ec. unfold k_s.
        destruct Ec as [Ec|Ec]; apply Z.gtb_lt in Ec; lia. }
      unfold Py.set_upto, Py.from, Py.slice_bound. rewrite L2.
      destruct (- n_2 - n_3 + 1 <? 0)%Z eqn:E5; [|apply Z.ltb_ge in E5; lia].
      destruct (n_2 + n_3 - 1 <? 0)%Z eqn:E6; [apply Z.ltb_lt in E6; lia|].
      rewrite length_skipn.
      replace (length (s_out st2) - Z.to_nat (Z.min (n_2 + n_3 - 1) L)
               =? Z.to_nat (Z.max 0 (- n_2 - n_3 + 1 + L)))%nat with true
        by (symmetry; apply Nat.eqb_eq; lia).
      eexists. split; [reflexivity|].
      rewrite length_app, !length_skipn. lia.
    - eexists. split; [reflexivity|exact L2]. }
  destruct E3 as [out3 [E3 L3]]. rewrite E3. cbn [bind].
  (* the last few points *)
  replace (- n_2 - n_3 + 1)%Z with (- k_s)%Z by (unfold k_s; lia).
  destruct (for_each_range_inv
              (fun _ st => Z.of_nat (length (s_out st)) = L)
              (fun i st =>
                 aj <- Py.get a (i - n_2 - 1) ;;
                 let sum := s_sum st - aj in
                 out <- Py.set (s_out st) i (sum / inject_Z (- i + n_2)) ;;
                 Ok (mk_smooth_state sum out))
              (- k_s)%Z 0%Z (mk_smooth_state (s_sum st2) out3))
    as [st4 [E4 L4]].
  { lia. }
  { exact L3. }
  { intros i st Hi Hl.
    rewrite (get_neg a 0 (i - n_2 - 1)) by (fold L; unfold k_s in Hi; lia). cbn [bind].
    rewrite set_neg by (unfold k_s in Hi; lia). cbn [bind].
    eexists. split; [reflexivity|]. simpl. now rewrite update_length. }
  cbv zeta in E4. rewrite E4. cbn [bind].
  exists (s_out st4). split; [reflexivity|]. unfold L in L4. lia.
Qed.

Lemma smooth_returns_witness :
  (2 <= 4 <= Z.of_nat (length [1; 2; 4; 8; 16; 32]))%Z
  /\ exists out : list Q,
       smooth [1; 2; 4; 8; 16; 32] 4 None = Ok out
       /\ length out = length [1; 2; 4; 8; 16; 32].
Proof.
  assert (H : (2 <= 4 <= Z.of_nat (length [1; 2; 4; 8; 16; 32]))%Z) by (simpl; lia).
  split; [exact H|]. exact (smooth_returns [1; 2; 4; 8; 16; 32] 4 H).
Defined.

(** X11. For strictly increasing times [measure_eclipses] gives every full
    eclipse whose four edges are in order, the outer two apart, a positive
    width, a midpoint strictly between its outer edges and a flat-bottom
    ratio between 0 and 1. *)
Theorem measure_eclipses_full_bounds (times signal : list Q) (ecl_indices : list ecl_row)
        (flags_lrf : list Z) :
  increasing times ->
  length signal = length times ->
  length ecl_indices = length flags_lrf ->
  Forall (fun f => f = 0 \/ f = 1 \/ f = 2)%Z flags_lrf ->
  Forall (row_in_bounds (length times)) ecl_indices ->
  Forall (fun ef => snd ef = 0%Z ->
                    (l_o (fst ef) <= l_i (fst ef) <= r_i (fst ef))%Z
                    /\ (r_i (fst ef) <= r_o (fst ef))%Z
                    /\ (l_o (fst ef) < r_o (fst ef))%Z)
         (combine ecl_indices flags_lrf) ->
  exists ecl_mid widths depths ratios : list Q,
    measure_eclipses times signal ecl_indices flags_lrf
    = Ok (ecl_mid, widths, depths, ratios)
    /\ forall i : nat, (i < length ecl_indices)%nat -> nth i flags_lrf 1%Z = 0%Z ->
         0 < nth i widths 0
         /\ at_index times (l_o (nth i ecl_indices (mk_ecl_row 0 0 0 0))) < nth i ecl_mid 0
         /\ nth i ecl_mid 0 < at_index times (r_o (nth i ecl_indices (mk_ecl_row 0 0 0 0)))
         /\ 0 <= nth i ratios 0 <= 1.
Proof.
  intros Hinc Hsl Hlen Hflags Hb Hfull.
  assert (Hlt : forall e : ecl_row, row_in_bounds (length times) e ->
                  (l_o e < r_o e)%Z -> at_index times (l_o e) < at_index times (r_o e)).
  { intros e [H1 [H2 [H3 H4]]] H. unfold at_index. apply Hinc. lia. }
  assert (Hle : forall a b : Z, (0 <= a <= b)%Z -> (b < Z.of_nat (length times))%Z ->
                  at_index times a <= at_index times b).
  { intros a b Hab Hbb. unfold at_index. apply increasing_le; [exact Hinc|lia]. }
  assert (Hcomb : Forall (fun ef => (snd ef = 0 \/ snd ef = 1 \/ snd ef = 2)%Z
                    /\ (snd ef = 0%Z ->
                        ~ at_index times (r_o (fst ef)) - at_index times (l_o (fst ef)) == 0))
                         (combine ecl_indices flags_lrf)).
  { apply Forall_forall. intros [e f] Hin. cbn [fst snd]. split.
    - apply in_combine_r in Hin. exact (proj1 (Forall_forall _ _) Hflags f Hin).
    - intro Hf. pose proof (proj1 (Forall_forall _ _) Hfull _ Hin Hf) as [_ [_ Ho]].
      cbn [fst] in Ho. apply in_combine_l in Hin.
      pose proof (Hlt e (proj1 (Forall_forall _ _) Hb e Hin) Ho). lra. }
  rewrite <- Hsl in Hb at 1.
  assert (Hbs : Forall (row_in_bounds (length signal)) ecl_indices) by exact Hb.
  rewrite Hsl in Hb.
  pose proof (measure_eclipses_by_flag times signal ecl_indices flags_lrf Hlen Hb Hbs Hcomb)
    as E. cbv zeta in E.
  do 4 eexists. split; [exact E|].
  intros i Hi Hf0.
  set (d := mk_ecl_row 0 0 0 0).
  set (dm := measure_by_flag times signal d 1).
  assert (Hnth : nth i (map (fun ef => measure_by_flag times signal (fst ef) (snd ef))
                            (combine ecl_indices flags_lrf)) dm
                 = measure_by_flag times signal (nth i ecl_indices d) 0).
  { change dm with ((fun ef : ecl_row * Z => measure_by_flag times signal (fst ef) (snd ef))
                      (d, 1%Z)).
    rewrite map_nth, combine_nth by exact Hlen. cbn [fst snd]. now rewrite Hf0. }
  assert (Hin : In (nth i ecl_indices d, 0%Z) (combine ecl_indices flags_lrf)).
  { rewrite <- Hf0, <- combine_nth by exact Hlen. apply nth_In.
    rewrite length_combine. lia. }
  pose proof (proj1 (Forall_forall _ _) Hfull _ Hin eq_refl) as [Ho1 [Ho2 Ho3]].
  cbn [fst] in Ho1, Ho2, Ho3.
  pose proof (proj1 (Forall_forall _ _) Hb _ (in_combine_l _ _ _ _ Hin)) as Hbe.
  set (e := nth i ecl_indices d) in *.
  destruct Hbe as [B1 [B2 [B3 B4]]].
  pose proof (Hlt e (conj B1 (conj B2 (conj B3 B4))) Ho3) as Hw.
  pose proof (Hle (l_o e) (l_i e) ltac:(lia) ltac:(lia)) as H1.
  pose proof (Hle (l_i e) (r_i e) ltac:(lia) ltac:(lia)) as H2.
  pose proof (Hle (r_i e) (r_o e) ltac:(lia) ltac:(lia)) as H3.
  rewrite (nth_indep _ 0 (m_width dm)), (map_nth m_width)
    by (rewrite !length_map, length_combine; lia).
  rewrite (nth_indep _ 0 (m_mid dm)), (map_nth m_mid)
    by (rewrite !length_map, length_combine; lia).
  rewrite (nth_indep _ 0 (m_ratio dm)), (map_nth m_ratio)
    by (rewrite !length_map, length_combine; lia).
  rewrite Hnth. unfold measure_by_flag. cbv zeta. cbn [Z.eqb m_width m_mid m_ratio].
  split; [lra|]. split.
  - apply Qlt_shift_div_l; [reflexivity|]. lra.
  - split; [apply Qlt_shift_div_r; [reflexivity|]; lra|].
    split.
    + apply Qle_shift_div_l; [lra|]. lra.
    + apply Qle_shift_div_r; [lra|]. lra.
Qed.

Lemma measure_eclipses_full_bounds_witness :
  increasing [0; 1; 2; 3; 4; 5]
  /\ exists ecl_mid widths depths ratios : list Q,
       measure_eclipses [0; 1; 2; 3; 4; 5] [1; 1; 0; 0; 1; 1] [mk_ecl_row 1 2 3 4] [0%Z]
       = Ok (ecl_mid, widths, depths, ratios)
       /\ forall i : nat, (i < 1)%nat -> nth i [0%Z] 1%Z = 0%Z ->
            0 < nth i widths 0
            /\ at_index [0; 1; 2; 3; 4; 5]
                        (l_o (nth i [mk_ecl_row 1 2 3 4] (mk_ecl_row 0 0 0 0)))
               < nth i ecl_mid 0
            /\ nth i ecl_mid 0
               < at_index [0; 1; 2; 3; 4; 5]
                          (r_o (nth i [mk_ecl_row 1 2 3 4] (mk_ecl_row 0 0 0 0)))
            /\ 0 <= nth i ratios 0 <= 1.
Proof.
  assert (Hinc : increasing [0; 1; 2; 3; 4; 5]) by (apply increasingb_sound; reflexivity).
  split; [exact Hinc|].
  apply (measure_eclipses_full_bounds [0; 1; 2; 3; 4; 5] [1; 1; 0; 0; 1; 1]
           [mk_ecl_row 1 2 3 4] [0%Z] Hinc eq_refl eq_refl).
  - repeat constructor.
  - repeat constructor; simpl; lia.
  - constructor; [|constructor]. intros _. simpl. lia.
Defined.

(** ** Walking to a local extremum *)

Lemma extremum_condition_refl (maximum : bool) (x : Q) :
  extremum_condition maximum x x = true.
Proof.
  unfold extremum_condition, Qleb, Qgeb. destruct maximum; apply Qle_bool_iff, Qle_refl.
Qed.

Lemma get_at_index (a : list Q) (i : Z) :
  (0 <= i < Z.of_nat (length a))%Z -> Py.get a i = Ok (at_index a i).
Proof. intro H. unfold at_index. now apply get_nonneg. Qed.

Section Walk.

Variable a : list Q.
Variable maximum : bool.
Variable step : Z.
Hypothesis unit_step : (step = 1 \/ step = -1)%Z.

Let len := Z.of_nat (length a).

(** The walk from a point [i] that is not the first: it ends [m] points
    beyond the previous point [i - step]. *)
Lemma local_extremum_walk_spec (fuel : nat) :
  forall i : Z,
  (0 <= i < len)%Z -> (0 <= i - step < len)%Z ->
  (Z.of_nat fuel > (if (step =? 1)%Z then len - i else i + 1))%Z ->
  exists m : nat,
    local_extremum_walk fuel a step maximum i (at_index a (i - step)) (at_index a i)
    = Some (Ok (i - step + Z.of_nat m * step)%Z)
    /\ (0 <= i - step + Z.of_nat m * step < len)%Z
    /\ (forall j : nat, (j < m)%nat ->
          extremum_condition maximum
            (at_index a (i - step + Z.of_nat j * step))
            (at_index a (i - step + Z.of_nat (S j) * step)) = true)
    /\ (~ (0 <= i - step + Z.of_nat (S m) * step < len)%Z
        \/ extremum_condition maximum
             (at_index a (i - step + Z.of_nat m * step))
             (at_index a (i - step + Z.of_nat (S m) * step)) = false).
Proof.
  induction fuel as [|fuel IH]; intros i Hi Hp Hfuel.
  - destruct (step =? 1)%Z; lia.
  - cbn [local_extremum_walk].
    destruct (extremum_condition maximum (at_index a (i - step)) (at_index a i)) eqn:Ec.
    + rewrite (get_at_index a i Hi). cbv zeta.
      destruct ((i + step <? 0) || (i + step >? Z.of_nat (length a) - 1))%Z eqn:Eb.
      * exists 1%nat. fold len in Eb.
        replace (i - step + Z.of_nat 1 * step)%Z with i by lia.
        split; [f_equal; f_equal; lia|]. split; [exact Hi|]. split.
        -- intros j Hj. assert (j = 0)%nat by lia. subst j.
           replace (i - step + Z.of_nat 0 * step)%Z with (i - step)%Z by lia.
           replace (i - step + Z.of_nat 1 * step)%Z with i by lia. exact Ec.
        -- left. apply orb_true_iff in Eb. lia.
      * fold len in Eb. apply orb_false_iff in Eb.
        assert (Hi' : (0 <= i + step < len)%Z) by lia.
        rewrite (get_at_index a (i + step) Hi').
        destruct (IH (i + step)%Z Hi') as [m [E [Hr [Hc Hs]]]].
        { replace (i + step - step)%Z with i by lia. exact Hi. }
        { destruct unit_step as [-> | ->]; simpl in *; lia. }
        replace (i + step - step)%Z with i in * by lia.
        exists (S m). rewrite E.
        replace (i - step + Z.of_nat (S m) * step)%Z with (i + Z.of_nat m * step)%Z by lia.
        split; [reflexivity|]. split; [exact Hr|]. split.
        -- intros [|j] Hj.
           ++ replace (i - step + Z.of_nat 0 * step)%Z with (i - step)%Z by lia.
              replace (i - step + Z.of_nat 1 * step)%Z with i by lia. exact Ec.
           ++ replace (i - step + Z.of_nat (S j) * step)%Z
                with (i + Z.of_nat j * step)%Z by lia.
              replace (i - step + Z.of_nat (S (S j)) * step)%Z
                with (i + Z.of_nat (S j) * step)%Z by lia.
              apply Hc. lia.
        -- replace (i - step + Z.of_nat (S (S m)) * step)%Z
             with (i + Z.of_nat (S m) * step)%Z by lia.
           exact Hs.
    + exists 0%nat.
      replace (i - step + Z.of_nat 0 * step)%Z with (i - step)%Z by lia.
      replace (i - step + Z.of_nat 1 * step)%Z with i by lia.
      split; [reflexivity|]. split; [exact Hp|]. split; [intros j Hj; lia|].
      right. exact Ec.
Qed.

End Walk.

(** X12. From a starting point inside the array [local_extremum] returns a
    point of the array [m] steps away in the walking direction such that
    every step of the way went up (for a maximum: the next value is not
    below the one before; for a minimum, not above), and the walk stopped at
    the end of the array or because the next step would go down (up). *)
Theorem local_extremum_spec (fuel : nat) (a : list Q) (start : Z) (right maximum : bool) :
  (0 <= start < Z.of_nat (length a))%Z ->
  (length a < fuel)%nat ->
  exists m : nat,
    local_extremum fuel a start right maximum
    = Some (Ok (start + Z.of_nat m * walk_step right)%Z)
    /\ (0 <= start + Z.of_nat m * walk_step right < Z.of_nat (length a))%Z
    /\ (forall j : nat, (j < m)%nat ->
          extremum_condition maximum
            (at_index a (start + Z.of_nat j * walk_step right))
            (at_index a (start + Z.of_nat (S j) * walk_step right)) = true)
    /\ (~ (0 <= start + Z.of_nat (S m) * walk_step right < Z.of_nat (length a))%Z
        \/ extremum_condition maximum
             (at_index a (start + Z.of_nat m * walk_step right))
             (at_index a (start + Z.of_nat (S m) * walk_step right)) = false).
Proof.
  intros Hs Hfuel. unfold local_extremum. rewrite (get_at_index a start Hs).
  set (step := walk_step right).
  assert (Hstep : (step = 1 \/ step = -1)%Z) by (unfold step, walk_step; destruct right; auto).
  destruct fuel as [|fuel]; [lia|]. cbn [local_extremum_walk].
  rewrite extremum_condition_refl, (get_at_index a start Hs). cbv zeta.
  destruct ((start + step <? 0) || (start + step >? Z.of_nat (length a) - 1))%Z eqn:Eb.
  - exists 0%nat. replace (start + Z.of_nat 0 * step)%Z with start by lia.
    split; [f_equal; f_equal; lia|]. split; [exact Hs|]. split; [intros j Hj; lia|].
    left. apply orb_true_iff in Eb. lia.
  - apply orb_false_iff in Eb.
    assert (Hi : (0 <= start + step < Z.of_nat (length a))%Z) by lia.
    rewrite (get_at_index a (start + step) Hi).
    destruct (local_extremum_walk_spec a maximum step Hstep fuel (start + step)%Z Hi)
      as [m [E [Hr [Hc Hstop]]]].
    { replace (start + step - step)%Z with start by lia. exact Hs. }
    { destruct Hstep as [E | E]; rewrite E; simpl; lia. }
    replace (start + step - step)%Z with start in * by lia.
    exists m. split; [exact E|]. split; [exact Hr|]. split; [exact Hc|exact Hstop].
Qed.

Lemma local_extremum_spec_witness :
  exists m : nat,
    local_extremum 7 [3; 1; 2; 5; 5; 4] 1 true true
    = Some (Ok (1 + Z.of_nat m * walk_step true)%Z)
    /\ (0 <= 1 + Z.of_nat m * walk_step true < Z.of_nat (length [3; 1; 2; 5; 5; 4]))%Z
    /\ (forall j : nat, (j < m)%nat ->
          extremum_condition true
            (at_index [3; 1; 2; 5; 5; 4] (1 + Z.of_nat j * walk_step true))
            (at_index [3; 1; 2; 5; 5; 4] (1 + Z.of_nat (S j) * walk_step true)) = true)
    /\ (~ (0 <= 1 + Z.of_nat (S m) * walk_step true
           < Z.of_nat (length [3; 1; 2; 5; 5; 4]))%Z
        \/ extremum_condition true
             (at_index [3; 1; 2; 5; 5; 4] (1 + Z.of_nat m * walk_step true))
             (at_index [3; 1; 2; 5; 5; 4] (1 + Z.of_nat (S m) * walk_step true)) = false).
Proof.
  apply (local_extremum_spec 7 [3; 1; 2; 5; 5; 4] 1 true true); simpl; lia.
Defined.

(** The walk of the example: from index 1 up to the second 5 at index 4. *)
Lemma local_extremum_example :
  local_extremum 7 [3; 1; 2; 5; 5; 4] 1 true true = Some (Ok 4%Z)
  /\ local_extremum 7 [3; 1; 2; 5; 5; 4] 3 false false = Some (Ok 1%Z).
Proof. split; reflexivity. Qed.

(** ** The ratio of found to possible eclipses *)

Lemma n_possible_nonneg (times ecl_mid : list Q) (flags_pst : list Z) (period : Q) (n : Z) :
  n_possible_eclipses times ecl_mid flags_pst period = Ok n -> (0 <= n)%Z.
Proof.
  unfold n_possible_eclipses. cbv zeta. intro H.
  destruct (Qeq_bool period (-1)); [injection H as <-; lia|].
  destruct (Qgtb period 0); [|injection H as <-; lia].
  destruct (mark_gaps times) as [[gaps gw]| |]; cbn [bind] in H; try discriminate.
  destruct (Py.set gaps 0 true) as [g1| |]; cbn [bind] in H; try discriminate.
  destruct (Py.set g1 (-1) true) as [g2| |]; cbn [bind] in H; try discriminate.
  destruct (Np.compress g2 _) as [gaps_i| |]; cbn [bind] in H; try discriminate.
  match type of H with
  | bind ?m _ = _ => destruct m as [pp| |]; cbn [bind] in H; try discriminate
  end.
  match type of H with
  | bind ?m _ = _ => destruct m as [ps| |]; cbn [bind] in H; try discriminate
  end.
  injection H as <-. lia.
Qed.

(** X13. With a number of found eclipses that is not negative,
    [found_ratio] lies between 0.5 and 1 whenever it returns; and for a
    period that is not positive (the sentinel -1 among them) it returns, the
    one possible eclipse giving [0.5 * n_found + 0.5] for at most one found
    eclipse and [0.5 / n_found + 0.5] for more. *)
Theorem found_ratio_range (times ecl_mid : list Q) (flags_pst : list Z) (period : Q)
        (n_found : Z) :
  (0 <= n_found)%Z ->
  (forall r : Q, found_ratio times ecl_mid flags_pst period n_found = Ok r ->
                 1 # 2 <= r <= 1)
  /\ (~ 0 < period ->
      found_ratio times ecl_mid flags_pst period n_found
      = Ok ((1 # 2) * (if Qgtb (inject_Z n_found / inject_Z 1) 1
                       then 1 / (inject_Z n_found / inject_Z 1)
                       else inject_Z n_found / inject_Z 1) + (1 # 2))).
Proof.
  intro Hn. split.
  - intros r H. unfold found_ratio in H.
    destruct (n_possible_eclipses times ecl_mid flags_pst period) as [n| |] eqn:En;
      cbn [bind] in H; try discriminate.
    apply n_possible_nonneg in En. cbv zeta in H. injection H as <-.
    assert (Hf : 0 <= (if negb (n =? 0)%Z then inject_Z n_found / inject_Z n else 1)).
    { destruct (n =? 0)%Z eqn:E0; cbn [negb]; [lra|].
      apply Z.eqb_neq in E0. apply Qle_shift_div_l.
      - apply inject_Z_pos. lia.
      - rewrite Qmult_0_l. change 0 with (inject_Z 0). rewrite <- Zle_Qle. exact Hn. }
    set (f := if negb (n =? 0)%Z then inject_Z n_found / inject_Z n else 1) in *.
    destruct (Qgtb f 1) eqn:Eg.
    + apply Qgtb_gt in Eg.
      assert (H1 : 0 < 1 / f) by (apply Qlt_shift_div_l; lra).
      assert (H2 : 1 / f <= 1) by (apply Qle_shift_div_r; lra).
      lra.
    + apply Qltb_ge in Eg. lra.
  - intro Hp. unfold found_ratio, n_possible_eclipses. cbv zeta.
    destruct (Qeq_bool period (-1)); [reflexivity|].
    assert (E : Qgtb period 0 = false) by (apply Qltb_ge; lra).
    rewrite E. reflexivity.
Qed.

Lemma found_ratio_range_witness :
  (0 <= 3)%Z
  /\ found_ratio [0; 1; 2; 3; 4; 5; 6; 7; 8] [2; 5] [1; 1]%Z 3 3 = Ok (10 # 12)
  /\ (1 # 2 <= 10 # 12 <= 1)
  /\ ~ 0 < -1
  /\ found_ratio [0; 1; 2; 3; 4; 5; 6; 7; 8] [2; 5] [1; 1]%Z (-1) 3
     = Ok ((1 # 2) * (if Qgtb (inject_Z 3 / inject_Z 1) 1
                      then 1 / (inject_Z 3 / inject_Z 1)
                      else inject_Z 3 / inject_Z 1) + (1 # 2)).
Proof.
  assert (Hn : (0 <= 3)%Z) by lia.
  assert (Hp : ~ 0 < -1) by (intro H; discriminate H).
  assert (E : found_ratio [0; 1; 2; 3; 4; 5; 6; 7; 8] [2; 5] [1; 1]%Z 3 3 = Ok (10 # 12))
    by (vm_compute; reflexivity).
  destruct (found_ratio_range [0; 1; 2; 3; 4; 5; 6; 7; 8] [2; 5] [1; 1]%Z 3 3 Hn)
    as [Hr _].
  destruct (found_ratio_range [0; 1; 2; 3; 4; 5; 6; 7; 8] [2; 5] [1; 1]%Z (-1) 3 Hn)
    as [_ Hs].
  split; [exact Hn|]. split; [exact E|]. split; [exact (Hr _ E)|].
  split; [exact Hp|]. exact (Hs Hp).
Defined.

(** ** The equality of the eclipses *)

Lemma sum_from_nonneg (l : list Q) :
  forall acc : Q, 0 <= acc -> Forall (fun x => 0 <= x) l -> 0 <= fold_left Qplus l acc.
Proof.
  induction l as [|x r IH]; intros acc Ha Hl; [exact Ha|].
  inversion Hl; subst. simpl. apply IH; [lra|assumption].
Qed.




(** ** The runs test *)

(** X15. [runs_test] looks at the signs only: a signal multiplied by a
    positive factor has the same outcome. *)
Theorem runs_test_scale (signal : list Q) (c : Q) :
  0 < c -> runs_test (map (fun x => c * x) signal) = runs_test signal.
Proof.
  intro Hc. unfold runs_test.
  assert (E : map (fun x => if Qgtb x 0 then 1 else 0)%Z (map (fun x => c * x) signal)
              = map (fun x => if Qgtb x 0 then 1 else 0)%Z signal).
  { rewrite map_map. apply map_ext. intro x.
    assert (Hx : Qgtb (c * x) 0 = Qgtb x 0).
    { destruct (Qgtb x 0) eqn:Ex.
      - apply Qgtb_gt in Ex. apply Qgtb_gt. nra.
      - apply Qltb_ge in Ex. apply Qltb_ge. nra. }
    now rewrite Hx. }
  rewrite E, length_map. reflexivity.
Qed.

Lemma runs_test_scale_witness :
  0 < 3
  /\ runs_test (map (fun x => 3 * x) [1; -1; 2; 2; -3; 1]) = runs_test [1; -1; 2; 2; -3; 1].
Proof.
  assert (H : 0 < 3) by reflexivity.
  split; [exact H|]. exact (runs_test_scale [1; -1; 2; 2; -3; 1] 3 H).
Defined.

(** The example evaluated: five runs in six samples. *)
Lemma runs_test_example :
  exists z : Q, runs_test [1; -1; 2; 2; -3; 1] = Ok z /\ z == 3 # 2.
Proof. eexists. split; [vm_compute; reflexivity|reflexivity]. Qed.

(** ** Outliers *)

Lemma nth_app_default {A : Type} (l : list A) (d : A) (i : nat) :
  nth i (l ++ [d]) d = nth i l d.
Proof.
  revert i. induction l as [|x r IH]; intros [|i]; simpl; try reflexivity.
  - now destruct i.
  - apply IH.
Qed.

(** The mask of the points that are set while both neighbours are not. *)
Lemma lone_mask (b : list bool) :
  b <> [] ->
  exists m : list bool,
    (l <- Np.ew2 andb b (map negb (Py.from b 1 ++ [false])) ;;
     Np.ew2 andb l (map negb ([false] ++ Py.upto b (-1)))) = Ok m
    /\ length m = length b
    /\ forall i : nat, (i < length b)%nat ->
         nth i m false
         = nth i b false && negb (nth (S i) b false)
           && negb (match i with O => false | S j => nth j b false end).
Proof.
  intro Hb. destruct b as [|x r]; [congruence|]. clear Hb.
  set (b := x :: r).
  assert (Hfrom : Py.from b 1 = r).
  { unfold Py.from, Py.slice_bound, b. cbn [Z.ltb Z.compare].
    replace (Z.to_nat (Z.min 1 (Z.of_nat (length (x :: r))))) with 1%nat
      by (cbn [length]; lia).
    reflexivity. }
  assert (Hupto : Py.upto b (-1) = firstn (length r) b).
  { unfold Py.upto, Py.slice_bound, b. cbn [Z.ltb Z.compare].
    replace (Z.to_nat (Z.max 0 (-1 + Z.of_nat (length (x :: r))))) with (length r)
      by (cbn [length]; lia).
    reflexivity. }
  rewrite Hfrom, Hupto.
  assert (Hl1 : length b = length (map negb (r ++ [false])))
    by (rewrite length_map, length_app; unfold b; simpl; lia).
  rewrite (ew2_ok andb b _ Hl1). cbn [bind].
  set (l := map (fun xy : bool * bool => fst xy && snd xy)
                (combine b (map negb (r ++ [false])))).
  assert (Hll : length l = length b)
    by (unfold l; rewrite length_map, length_combine; lia).
  assert (Hl2 : length l = length (map negb ([false] ++ firstn (length r) b))).
  { rewrite Hll, length_map, length_app, length_firstn. unfold b. simpl. lia. }
  rewrite (ew2_ok andb l _ Hl2).
  eexists. split; [reflexivity|].
  split; [rewrite length_map, length_combine; lia|].
  intros i Hi.
  rewrite (nth_map2 (fun xy : bool * bool => fst xy && snd xy) l _ false true false)
    by lia.
  cbn [fst snd]. unfold l.
  rewrite (nth_map2 (fun xy : bool * bool => fst xy && snd xy) b _ false true false)
    by lia.
  cbn [fst snd].
  change true with (negb false).
  rewrite !(map_nth negb). rewrite nth_app_default.
  assert (H3 : nth i ([false] ++ firstn (length r) b) false
               = match i with O => false | S j => nth j b false end).
  { destruct i as [|j]; [reflexivity|]. cbn [app nth].
    rewrite nth_firstn.
    assert (Hj : (j <? length r)%nat = true)
      by (apply Nat.ltb_lt; unfold b in Hi; simpl in Hi; lia).
    now rewrite Hj. }
  rewrite H3. reflexivity.
Qed.

Lemma select_seq_In_iff (m : list bool) :
  forall (s k : nat), (k < length m)%nat -> nth k m false = true ->
  In (Z.of_nat (s + k))
     (Np.select m (map (fun j => (0 + Z.of_nat j)%Z) (seq s (length m)))).
Proof.
  induction m as [|b m IH]; intros s k Hk Hn; [simpl in Hk; lia|].
  cbn [length seq map Np.select]. destruct k as [|k].
  - simpl in Hn. subst b. left. f_equal. lia.
  - simpl in Hn. simpl in Hk.
    assert (H := IH (S s) k ltac:(lia) Hn).
    replace (S s + k)%nat with (s + S k)%nat in H by lia.
    destruct b; [right|]; exact H.
Qed.

Lemma select_range_on (m : list bool) (k : nat) :
  (k < length m)%nat -> nth k m false = true ->
  In (Z.of_nat k) (Np.select m (Py.range 0 (Z.of_nat (length m)))).
Proof.
  intros Hk Hn. unfold Py.range.
  replace (Z.to_nat (Z.of_nat (length m) - 0)) with (length m) by lia.
  exact (select_seq_In_iff m 0 k Hk Hn).
Qed.

Lemma index_set_false (idx : list Z) :
  forall l : list bool,
  (forall i : Z, In i idx -> (0 <= i < Z.of_nat (length l))%Z) ->
  exists l' : list bool,
    Np.index_set l idx false = Ok l'
    /\ length l' = length l
    /\ forall j : nat, nth j l' true = false
                       <-> (nth j l true = false \/ In (Z.of_nat j) idx).
Proof.
  induction idx as [|i r IH]; intros l H.
  - exists l. split; [reflexivity|]. split; [reflexivity|]. intro j. simpl. tauto.
  - cbn [Np.index_set]. rewrite set_nonneg by (apply H; now left). cbn [bind].
    pose proof (H i (or_introl eq_refl)) as Hi.
    destruct (IH (Py.update l (Z.to_nat i) false)) as [l' [E [Hl Hn]]].
    { intros i' Hi'. rewrite update_length. apply H. now right. }
    exists l'. split; [exact E|]. rewrite update_length in Hl. split; [exact Hl|].
    intro j. rewrite Hn, (nth_update l (Z.to_nat i) j false true) by lia.
    destruct (j =? Z.to_nat i)%nat eqn:Ej.
    + apply Nat.eqb_eq in Ej. split; [intros _|auto]. right. left. lia.
    + apply Nat.eqb_neq in Ej. simpl. split.
      * intros [Hj|Hj]; auto.
      * intros [Hj|[Hj|Hj]]; auto. lia.
Qed.

(** Clearing the lone points of [b] in a mask. *)
Lemma clear_lone (b mask : list bool) :
  b <> [] -> length mask = length b ->
  exists mask' : list bool,
    (l <- Np.ew2 andb b (map negb (Py.from b 1 ++ [false])) ;;
     lr <- Np.ew2 andb l (map negb ([false] ++ Py.upto b (-1))) ;;
     p <- Np.compress lr (Py.range 0 (Z.of_nat (length b))) ;;
     (if (0 <? length p)%nat then Np.index_set mask p false else Ok mask)) = Ok mask'
    /\ length mask' = length mask
    /\ forall i : nat, (i < length b)%nat ->
         (nth i mask' true = false
          <-> nth i mask true = false
              \/ lone (fun k => nth k b false = true) i).
Proof.
  intros Hb Hm. destruct (lone_mask b Hb) as [m [E [Hl Hv]]].
  destruct (Np.ew2 andb b (map negb (Py.from b 1 ++ [false]))) as [l| |];
    cbn [bind] in E |- *; try discriminate.
  rewrite E. cbn [bind].
  rewrite compress_ok by (rewrite range_length; lia). cbn [bind].
  set (p := Np.select m (Py.range 0 (Z.of_nat (length b)))).
  assert (Hguard : (if (0 <? length p)%nat then Np.index_set mask p false else Ok mask)
                   = Np.index_set mask p false).
  { destruct p; reflexivity. }
  rewrite Hguard.
  destruct (index_set_false p mask) as [mask' [E' [Hl' Hn]]].
  { intros i Hi. unfold p in Hi.
    destruct (select_range_In m (length b) i Hl Hi) as [Hr _]. lia. }
  exists mask'. split; [exact E'|]. split; [exact Hl'|].
  intros i Hi. rewrite Hn.
  assert (Hp : In (Z.of_nat i) p <-> lone (fun k => nth k b false = true) i).
  { assert (Hon : In (Z.of_nat i) p <-> nth i m false = true).
    { split.
      - intro H. unfold p in H.
        destruct (select_range_In m (length b) _ Hl H) as [_ H'].
        now rewrite Nat2Z.id in H'.
      - intro H. unfold p. rewrite <- Hl. apply select_range_on; [lia|exact H]. }
    rewrite Hon, (Hv i Hi). unfold lone.
    rewrite !andb_true_iff, !negb_true_iff.
    split.
    - intros [[H1 H2] H3]. split; [exact H1|]. split; [congruence|].
      intros j ->. congruence.
    - intros [H1 [H2 H3]]. split; [split; [exact H1|]|].
      + now destruct (nth (S i) b false).
      + destruct i as [|j]; [reflexivity|].
        specialize (H3 j eq_refl). now destruct (nth j b false). }
  now rewrite Hp.
Qed.

Lemma lone_iff (P Q : nat -> Prop) (i : nat) :
  (forall k : nat, P k <-> Q k) -> (lone P i <-> lone Q i).
Proof.
  intro H. unfold lone. rewrite (H i), (H (S i)).
  split; intros [H1 [H2 H3]]; (split; [exact H1|split; [exact H2|]]);
    intros j Hj; [rewrite <- H|rewrite H]; now apply H3.
Qed.

Lemma nth_test (f : Q -> bool) (signal : list Q) (k : nat) :
  nth k (map f signal) false = true
  <-> (k < length signal)%nat /\ f (nth k signal 0) = true.
Proof.
  destruct (Nat.lt_ge_cases k (length signal)) as [Hk|Hk].
  - rewrite (nth_indep _ false (f 0)) by now rewrite length_map.
    rewrite (map_nth f). tauto.
  - rewrite nth_overflow by (rewrite length_map; lia).
    split; [discriminate|lia].
Qed.

Section RemoveOutliersProps.

Variable std : list Q -> Q.

(** X17. [remove_outliers] returns a mask as long as the signal, and it
    marks a point as an outlier (False) exactly when the point lies more than
    four standard deviations above one while neither neighbour does, or more
    than four below one while neither neighbour does; a missing neighbour at
    either end counts as not anomalous. *)
Theorem remove_outliers_lone (signal : list Q) :
  exists mask : list bool,
    remove_outliers std signal = Ok mask
    /\ length mask = length signal
    /\ forall i : nat, (i < length signal)%nat ->
         (nth i mask true = false
          <-> lone (high_at std signal) i \/ lone (low_at std signal) i).
Proof.
  destruct signal as [|x0 rest] eqn:Es.
  { exists []. split; [reflexivity|]. split; [reflexivity|]. simpl. intros i Hi. lia. }
  rewrite <- Es. assert (Hne : signal <> []) by (rewrite Es; discriminate).
  clear Es x0 rest.
  unfold remove_outliers. cbv zeta.
  set (hb := map (fun x => Qgtb x (1 + 4 * std signal)) signal).
  set (lb := map (fun x => Qltb x (1 - 4 * std signal)) signal).
  assert (Hhb : length hb = length signal) by (unfold hb; now rewrite length_map).
  assert (Hlb : length lb = length signal) by (unfold lb; now rewrite length_map).
  assert (Hhne : hb <> []) by (intro H; rewrite H in Hhb; destruct signal; [congruence|discriminate]).
  assert (Hlne : lb <> []) by (intro H; rewrite H in Hlb; destruct signal; [congruence|discriminate]).
  destruct (clear_lone hb (repeat true (length signal)) Hhne) as [m1 [E1 [L1 V1]]];
    [now rewrite repeat_length|].
  rewrite Hhb in E1, V1. rewrite repeat_length in L1.
  destruct (clear_lone lb m1 Hlne) as [m2 [E2 [L2 V2]]]; [lia|].
  rewrite Hlb in E2, V2.
  assert (Hassoc : forall (A B C D E : Type) (m : res A) (f : A -> res B) (g : B -> res C)
                          (h : C -> res D) (k : D -> res E),
             (a <- m ;; b <- f a ;; c <- g b ;; d <- h c ;; k d)
             = (d <- (a <- m ;; b <- f a ;; c <- g b ;; h c) ;; k d)).
  { intros. destruct m as [a| |]; cbn [bind]; [|reflexivity|reflexivity].
    destruct (f a) as [b| |]; cbn [bind]; [|reflexivity|reflexivity].
    destruct (g b) as [c| |]; cbn [bind]; reflexivity. }
  rewrite Hassoc. rewrite E1. cbn [bind].
  rewrite Hassoc. rewrite E2. cbn [bind].
  exists m2. split; [reflexivity|]. split; [lia|].
  intros i Hi. rewrite (V2 i Hi), (V1 i Hi).
  assert (Hrep : nth i (repeat true (length signal)) true = false <-> False).
  { rewrite nth_repeat. split; [discriminate|tauto]. }
  rewrite Hrep.
  assert (Hh : lone (fun k => nth k hb false = true) i <-> lone (high_at std signal) i).
  { apply lone_iff. intro k. unfold hb, high_at. rewrite nth_test.
    unfold Qgtb. split; intros [H1 H2]; (split; [exact H1|]).
    - now apply Qgtb_gt in H2.
    - now apply Qgtb_gt. }
  assert (Hlo : lone (fun k => nth k lb false = true) i <-> lone (low_at std signal) i).
  { apply lone_iff. intro k. unfold lb, low_at. rewrite nth_test.
    split; intros [H1 H2]; (split; [exact H1|]).
    - now apply Qgtb_gt in H2.
    - now apply Qgtb_gt. }
  rewrite Hh, Hlo. tauto.
Qed.

End RemoveOutliersProps.

(** A spike and a dip among fifty points at one, where the standard
    deviation is one: both are marked, and nothing else is.  Two spikes side
    by side and two dips side by side are all kept. *)
Lemma remove_outliers_example :
  remove_outliers std_rational (repeat 1 24 ++ [6] ++ repeat 1 10 ++ [-4] ++ repeat 1 14)
  = Ok (repeat true 24 ++ [false] ++ repeat true 10 ++ [false] ++ repeat true 14)
  /\ remove_outliers std_rational
       (repeat 1 48 ++ [6; 6] ++ repeat 1 20 ++ [-4; -4] ++ repeat 1 28)
     = Ok (repeat true 100).
Proof. split; vm_compute; reflexivity. Qed.

(** ** Median normalisation *)

Lemma div_scalar_ok (a : list Q) (x : Q) :
  ~ x == 0 -> div_scalar a x = Ok (map (fun v => v / x) a).
Proof.
  intro Hx. unfold div_scalar. apply sequence_map_ok. intros v _.
  unfold Np.div. destruct (Qeq_bool x 0) eqn:E; [|reflexivity].
  apply Qeq_bool_iff in E. contradiction.
Qed.

Lemma insert_sorted_map (f : Q -> Q) (x : Q) (l : list Q) :
  (forall a b : Q, Qle_bool (f a) (f b) = Qle_bool a b) ->
  Np.insert_sorted (f x) (map f l) = map f (Np.insert_sorted x l).
Proof.
  intro Hf. induction l as [|y r IH]; [reflexivity|].
  cbn [map Np.insert_sorted]. rewrite Hf.
  destruct (Qle_bool x y); [reflexivity|]. cbn [map]. now rewrite IH.
Qed.

Lemma sort_map (f : Q -> Q) (l : list Q) :
  (forall a b : Q, Qle_bool (f a) (f b) = Qle_bool a b) ->
  Np.sort (map f l) = map f (Np.sort l).
Proof.
  intro Hf. unfold Np.sort. induction l as [|x r IH]; [reflexivity|].
  cbn [map fold_right]. rewrite IH. now apply insert_sorted_map.
Qed.

Lemma insert_sorted_length (x : Q) (l : list Q) :
  length (Np.insert_sorted x l) = S (length l).
Proof.
  induction l as [|y r IH]; [reflexivity|].
  cbn [Np.insert_sorted]. destruct (Qle_bool x y); cbn [length]; [reflexivity|].
  now rewrite IH.
Qed.

Lemma sort_length (l : list Q) : length (Np.sort l) = length l.
Proof.
  unfold Np.sort. induction l as [|x r IH]; [reflexivity|].
  cbn [fold_right length]. now rewrite insert_sorted_length, IH.
Qed.

Lemma Qle_bool_div (m a b : Q) : 0 < m -> Qle_bool (a / m) (b / m) = Qle_bool a b.
Proof.
  intro Hm. assert (Hi : 0 < / m) by now apply Qinv_lt_0_compat.
  destruct (Qle_bool a b) eqn:E.
  - apply Qle_bool_iff in E. apply Qle_bool_iff. unfold Qdiv. now apply Qmult_le_r.
  - apply not_true_is_false. intro H. apply Qle_bool_iff in H.
    unfold Qdiv in H. apply Qmult_le_r in H; [|exact Hi].
    apply Qle_bool_iff in H. congruence.
Qed.

(** The median of an array of odd length is one of its entries, and a
    division by a positive number takes it along. *)
Lemma median_div_odd (l : list Q) (m c : Q) :
  Nat.odd (length l) = true -> 0 < c -> Np.median l = Ok m ->
  Np.median (map (fun v => v / c) l) = Ok (m / c).
Proof.
  intros Hodd Hc H. unfold Np.median in *. cbv zeta in *. rewrite length_map.
  rewrite (sort_map (fun v => v / c)) by (intros a b; now apply Qle_bool_div).
  destruct (length l) as [|n] eqn:En; [discriminate|].
  assert (Hhalf : (S n / 2 < S n)%nat) by (apply Nat.div_lt; lia).
  rewrite <- Nat.negb_odd, Hodd in *. cbn [negb] in *.
  remember (S n / 2)%nat as h eqn:Eh. clear Eh.
  injection H as <-.
  rewrite (nth_indep _ 0 ((fun v => v / c) 0)) by (rewrite length_map, sort_length; lia).
  now rewrite (map_nth (fun v => v / c)).
Qed.

(** X18. Without sectors, for a flux of odd length with a positive median,
    [normalise_counts] divides the flux and the errors by the median of the
    flux; the median of the normalised flux is then the median divided by
    itself, which is one. *)
Theorem normalise_counts_median_one (flux_counts flux_counts_err : list Q) (m : Q) :
  Nat.odd (length flux_counts) = true ->
  Np.median flux_counts = Ok m -> 0 < m ->
  normalise_counts flux_counts flux_counts_err None
  = Ok (map (fun v => v / m) flux_counts, map (fun v => v / m) flux_counts_err)
  /\ Np.median (map (fun v => v / m) flux_counts) = Ok (m / m)
  /\ m / m == 1.
Proof.
  intros Hodd Hmed Hm.
  assert (Hz : ~ m == 0) by (intro Hz; rewrite Hz in Hm; discriminate).
  split; [|split].
  - unfold normalise_counts. rewrite Hmed. cbn [bind].
    rewrite !div_scalar_ok by exact Hz. reflexivity.
  - now apply median_div_odd.
  - now field.
Qed.

Lemma normalise_counts_median_one_witness :
  Nat.odd (length [30; 10; 20]) = true
  /\ Np.median [30; 10; 20] = Ok 20
  /\ 0 < 20
  /\ normalise_counts [30; 10; 20] [1; 2; 3] None
     = Ok (map (fun v => v / 20) [30; 10; 20], map (fun v => v / 20) [1; 2; 3])
  /\ Np.median (map (fun v => v / 20) [30; 10; 20]) = Ok (20 / 20)
  /\ 20 / 20 == 1.
Proof.
  assert (H0 : Nat.odd (length [30; 10; 20]) = true) by reflexivity.
  assert (H1 : Np.median [30; 10; 20] = Ok 20) by reflexivity.
  assert (H2 : 0 < 20) by reflexivity.
  split; [exact H0|]. split; [exact H1|]. split; [exact H2|].
  exact (normalise_counts_median_one [30; 10; 20] [1; 2; 3] 20 H0 H1 H2).
Defined.

Lemma set_range_whole {A : Type} (l vals : list A) :
  length vals = length l -> l <> [] ->
  set_range l 0 (Z.of_nat (length l)) vals = Ok vals.
Proof.
  intros Hl Hne. unfold set_range, Py.slice_bound. cbv zeta.
  assert (E0 : (0 <? 0)%Z = false) by reflexivity. rewrite E0.
  assert (E1 : (Z.of_nat (length l) <? 0)%Z = false) by (apply Z.ltb_ge; lia).
  rewrite E1.
  replace (Z.to_nat (Z.min 0 (Z.of_nat (length l)))) with 0%nat by lia.
  replace (Z.to_nat (Z.min (Z.of_nat (length l)) (Z.of_nat (length l))))
    with (length l) by lia.
  rewrite Nat.sub_0_r, Hl, Nat.eqb_refl. cbn [firstn app Nat.add].
  now rewrite skipn_all, app_nil_r.
Qed.

Lemma slice_whole {A : Type} (l : list A) :
  Py.slice l 0 (Z.of_nat (length l)) = l.
Proof.
  unfold Py.slice, Py.slice_bound. cbv zeta.
  assert (E0 : (0 <? 0)%Z = false) by reflexivity. rewrite E0.
  assert (E1 : (Z.of_nat (length l) <? 0)%Z = false) by (apply Z.ltb_ge; lia).
  rewrite E1.
  replace (Z.to_nat (Z.min 0 (Z.of_nat (length l)))) with 0%nat by lia.
  replace (Z.to_nat (Z.min (Z.of_nat (length l)) (Z.of_nat (length l))
                     - Z.min 0 (Z.of_nat (length l)))) with (length l) by lia.
  cbn [skipn]. apply firstn_all.
Qed.

(** X19. One sector that spans the whole series gives what no sectors give,
    when there is an error for every flux value. *)
Theorem normalise_counts_one_sector (flux_counts flux_counts_err : list Q) :
  length flux_counts_err = length flux_counts ->
  normalise_counts flux_counts flux_counts_err
    (Some [(0%Z, Z.of_nat (length flux_counts))])
  = normalise_counts flux_counts flux_counts_err None.
Proof.
  intro Hl. unfold normalise_counts. cbn [fold_left bind fst snd].
  assert (S1 : Py.slice flux_counts 0 (Z.of_nat (length flux_counts)) = flux_counts)
    by apply slice_whole.
  assert (S2 : Py.slice flux_counts_err 0 (Z.of_nat (length flux_counts))
               = flux_counts_err) by (rewrite <- Hl; apply slice_whole).
  rewrite S1, S2.
  destruct flux_counts as [|x r] eqn:Ef; [reflexivity|]. rewrite <- Ef in *.
  assert (SR : forall v : list Q, length v = length flux_counts ->
            set_range (repeat 0 (length flux_counts)) 0
                      (Z.of_nat (length flux_counts)) v = Ok v).
  { intros v Hv.
    assert (H := set_range_whole (repeat 0 (length flux_counts)) v).
    rewrite repeat_length in H. apply H; [exact Hv|].
    rewrite Ef. discriminate. }
  destruct (Np.median flux_counts) as [m| |]; cbn [bind]; try reflexivity.
  unfold div_scalar.
  destruct (Np.sequence (map (fun v => Np.div v m) flux_counts)) as [v| |] eqn:Ev;
    cbn [bind]; try reflexivity.
  destruct (sequence_map_nth (fun v => Np.div v m) 0 0 _ _ Ev) as [Hv _].
  rewrite (SR v Hv). cbn [bind].
  destruct (Np.sequence (map (fun v => Np.div v m) flux_counts_err)) as [ve| |] eqn:Eve;
    cbn [bind]; try reflexivity.
  destruct (sequence_map_nth (fun v => Np.div v m) 0 0 _ _ Eve) as [Hve _].
  rewrite (SR ve) by lia. reflexivity.
Qed.

Lemma normalise_counts_one_sector_witness :
  length [1; 2; 3; 4] = length [30; 10; 20; 40]
  /\ normalise_counts [30; 10; 20; 40] [1; 2; 3; 4]
       (Some [(0%Z, Z.of_nat (length [30; 10; 20; 40]))])
     = normalise_counts [30; 10; 20; 40] [1; 2; 3; 4] None.
Proof.
  split; [reflexivity|].
  exact (normalise_counts_one_sector [30; 10; 20; 40] [1; 2; 3; 4] eq_refl).
Defined.

(** ** Flags from a known period *)

Lemma bind_ok_inv {A B : Type} (m : res A) (k : A -> res B) (y : B) :
  bind m k = Ok y -> exists x : A, m = Ok x /\ k x = Ok y.
Proof.
  destruct m as [x| |]; cbn [bind]; try discriminate. intro H. now exists x.
Qed.

(** The three assignments that make the flags: one flag for every eclipse,
    each of them 1, 2 or 3. *)
Lemma make_flags (n : nat) (g1 g2 : list Z) (primary_g1 : bool) (f1 f2 f3 : list Z) :
  Np.index_set (repeat 0%Z n) g1 (if primary_g1 then 1 else 2)%Z = Ok f1 ->
  Np.index_set f1 g2 (if primary_g1 then 2 else 1)%Z = Ok f2 ->
  Np.mask_set (Np.eq_int f2 0) f2 3%Z = Ok f3 ->
  length f3 = n /\ Forall (fun f => f = 1 \/ f = 2 \/ f = 3)%Z f3.
Proof.
  intros E1 E2 E3.
  destruct (index_set_in _ _ _ _ E1) as [L1 I1].
  destruct (index_set_in _ _ _ _ E2) as [L2 I2].
  pose proof (mask_set_length _ _ _ _ E3) as L3.
  rewrite repeat_length in L1.
  split; [lia|]. apply Forall_forall. intros x Hx.
  pose proof (mask_set_eq_removes f2 f3 0 3 ltac:(lia) E3) as Hno0.
  destruct (mask_set_in _ _ _ _ _ E3 Hx) as [->|Hx2]; [auto|].
  assert (x <> 0%Z) by (intros ->; contradiction).
  destruct (I2 x Hx2) as [->|Hx1]; [destruct primary_g1; auto|].
  destruct (I1 x Hx1) as [->|Hx0]; [destruct primary_g1; auto|].
  apply repeat_spec in Hx0. contradiction.
Qed.

Section FlagsFromPeriodProps.

Variable std : list Q -> Q.

(** X20. Whenever [flags_pst_from_period] returns, it returns one flag for
    every eclipse, and each flag is 1 (primary), 2 (secondary) or 3 (other). *)
Theorem flags_pst_from_period_flags (t_0 period : Q)
        (ecl_mid depths widths added_snr : list Q) (flags_lrf : list Z) (timestep : Q)
        (prim_fixed : bool) (flags_pst : list Z) :
  flags_pst_from_period std t_0 period ecl_mid depths widths added_snr flags_lrf
                        timestep prim_fixed = Ok flags_pst ->
  length flags_pst = length ecl_mid
  /\ Forall (fun f => f = 1 \/ f = 2 \/ f = 3)%Z flags_pst.
Proof.
  unfold flags_pst_from_period. cbv zeta. intro H.
  do 5 (apply bind_ok_inv in H; destruct H as [? [_ H]]).
  apply bind_ok_inv in H. destruct H as [[g1_avg_phase g1_avg_w] [_ H]].
  do 5 (apply bind_ok_inv in H; destruct H as [? [_ H]]).
  apply bind_ok_inv in H. destruct H as [[[g1 g2] primary_g1] [_ H]].
  apply bind_ok_inv in H. destruct H as [f1 [E1 H]].
  apply bind_ok_inv in H. destruct H as [f2 [E2 E3]].
  exact (make_flags _ g1 g2 primary_g1 f1 f2 flags_pst E1 E2 E3).
Qed.

End FlagsFromPeriodProps.

Lemma flags_pst_from_period_flags_witness :
  flags_pst_from_period std_rational 5 3 [5; 8; 11] [1; 1; 1] [1; 1; 1] [20; 20; 20]
                        [0; 0; 0]%Z (1 # 10) true = Ok [1; 1; 1]%Z
  /\ length [1; 1; 1]%Z = length [5; 8; 11]
  /\ Forall (fun f => f = 1 \/ f = 2 \/ f = 3)%Z [1; 1; 1]%Z.
Proof.
  assert (H : flags_pst_from_period std_rational 5 3 [5; 8; 11] [1; 1; 1] [1; 1; 1]
                [20; 20; 20] [0; 0; 0]%Z (1 # 10) true = Ok [1; 1; 1]%Z)
    by (vm_compute; reflexivity).
  split; [exact H|].
  exact (flags_pst_from_period_flags std_rational _ _ _ _ _ _ _ _ _ _ H).
Defined.

(** ** Walking along a curve *)

Lemma ew2_nth {A B C : Type} (f : A -> B -> C) (a : list A) (b : list B)
      (da : A) (db : B) (dc : C) :
  length a = length b ->
  exists c : list C,
    Np.ew2 f a b = Ok c /\ length c = length a
    /\ forall k : nat, (k < length a)%nat -> nth k c dc = f (nth k a da) (nth k b db).
Proof.
  intro H. rewrite (ew2_ok f a b H). eexists. split; [reflexivity|].
  split; [rewrite length_map, length_combine; lia|].
  intros k Hk.
  now rewrite (nth_map2 (fun xy : A * B => f (fst xy) (snd xy)) a b da db dc k H Hk).
Qed.

Lemma take_nth {A : Type} (a : list A) (d : A) (idx : list Z) :
  (forall k : nat, (k < length idx)%nat -> (0 <= nth k idx 0 < Z.of_nat (length a))%Z) ->
  exists v : list A,
    Np.take a idx = Ok v /\ length v = length idx
    /\ forall k : nat, (k < length idx)%nat ->
         nth k v d = nth (Z.to_nat (nth k idx 0%Z)) a d.
Proof.
  unfold Np.take. induction idx as [|i r IH]; intro H.
  - exists []. split; [reflexivity|]. split; [reflexivity|]. simpl. intros k Hk. lia.
  - cbn [map Np.sequence].
    rewrite (get_nonneg a d i) by (apply (H 0%nat); simpl; lia). cbn [bind].
    destruct IH as [v [E [Hl Hn]]].
    { intros k Hk. apply (H (S k)). simpl. lia. }
    rewrite E. cbn [bind]. eexists. split; [reflexivity|].
    split; [simpl; now rewrite Hl|].
    intros [|k] Hk; [reflexivity|]. cbn [nth]. apply Hn. simpl in Hk. lia.
Qed.

Lemma for_each_total {St : Type} (I : St -> Prop) (body : Z -> St -> res St)
      (idx : list Z) :
  forall st : St,
  I st ->
  (forall (i : Z) (s : St), In i idx -> I s -> exists s' : St, body i s = Ok s' /\ I s') ->
  exists st' : St, for_each idx body st = Ok st' /\ I st'.
Proof.
  induction idx as [|i r IH]; intros st H0 Hstep.
  - exists st. split; [reflexivity|exact H0].
  - cbn [for_each]. destruct (Hstep i st (or_introl eq_refl) H0) as [s' [E Hs']].
    rewrite E. cbn [bind]. apply IH; [exact Hs'|].
    intros j s Hj. apply Hstep. now right.
Qed.

Lemma check_condition_length (mode : String.string) (prev_s cur_s : list Q) :
  length prev_s = length cur_s ->
  exists c : list bool, check_condition mode prev_s cur_s = Ok c /\ length c = length cur_s.
Proof.
  intro H. unfold check_condition.
  assert (Hc : exists c0 : list bool,
             (if contains "up"%string mode then Np.ew2 Qltb prev_s cur_s
              else if contains "down"%string mode then Np.ew2 Qgtb prev_s cur_s
              else Ok (repeat false (length cur_s))) = Ok c0
             /\ length c0 = length cur_s).
  { destruct (contains "up"%string mode).
    - destruct (ew2_nth Qltb prev_s cur_s 0 0 false H) as [c [E [L _]]].
      exists c. split; [exact E|lia].
    - destruct (contains "down"%string mode).
      + destruct (ew2_nth Qgtb prev_s cur_s 0 0 false H) as [c [E [L _]]].
        exists c. split; [exact E|lia].
      + eexists. split; [reflexivity|apply repeat_length]. }
  destruct Hc as [c0 [E0 L0]]. rewrite E0. cbn [bind].
  destruct (contains "zero"%string mode).
  - destruct (ew2_nth (fun p c => Qgtb (Qabs p) (Qabs c)) prev_s cur_s 0 0 false H)
      as [z [Ez [Lz _]]].
    rewrite Ez. cbn [bind].
    destruct (ew2_nth andb c0 z false false false ltac:(lia)) as [c [E [L _]]].
    exists c. split; [exact E|lia].
  - exists c0. split; [reflexivity|exact L0].
Qed.

Lemma nth_check_edges (max_i : Z) (indices : list Z) (k : nat) :
  nth k (check_edges max_i indices) false
  = ((nth k indices 0%Z >? 0)%Z && (nth k indices 0%Z <? max_i)%Z).
Proof.
  unfold check_edges.
  exact (map_nth (fun i => (i >? 0)%Z && (i <? max_i)%Z) indices 0%Z k).
Qed.

Lemma list_sum_pointwise (a : list nat) :
  forall b : list nat,
  length a = length b ->
  (forall k : nat, (k < length a)%nat -> (nth k a 0 <= nth k b 0)%nat) ->
  (list_sum a <= list_sum b)%nat
  /\ ((exists k : nat, (k < length a)%nat /\ (nth k a 0 < nth k b 0)%nat) ->
      (list_sum a < list_sum b)%nat).
Proof.
  induction a as [|x r IH]; intros [|y s] Hl H; simpl in Hl; try discriminate.
  - split; [simpl; lia|]. intros [k [Hk _]]. simpl in Hk. lia.
  - destruct (IH s ltac:(lia)) as [Hle Hlt].
    { intros k Hk. apply (H (S k)). simpl. lia. }
    pose proof (H 0%nat ltac:(simpl; lia)) as H0. simpl in H0.
    split; [simpl; lia|].
    intros [[|k] [Hk Hs]]; simpl in Hs |- *; [lia|].
    assert (list_sum r < list_sum s)%nat by (apply Hlt; exists k; split; [simpl in Hk; lia|exact Hs]).
    lia.
Qed.

Section CurveWalker.

Variable signal : list Q.
Variable slope_sign : list Z.
Variable no_gaps : list bool.
Variable mode : String.string.
Variable look_ahead : Z.
Variable m : nat.

Let n := Z.of_nat (length signal).

Hypothesis gaps_length : length no_gaps = length signal.
Hypothesis sign_length : length slope_sign = m.
Hypothesis sign_unit :
  forall k : nat, (k < m)%nat -> nth k slope_sign 0%Z = 1%Z \/ nth k slope_sign 0%Z = (-1)%Z.

(** One turn from indices inside the array: every index makes one step or
    none, and a step goes to a point strictly inside the array that is not
    in a gap. *)
Lemma walker_turn_spec (prev_i : list Z) :
  length prev_i = m ->
  (forall k : nat, (k < m)%nat -> (0 <= nth k prev_i 0 < n)%Z) ->
  exists (cur_i : list Z) (check : list bool),
    walker_turn signal slope_sign no_gaps mode look_ahead (n - 1) prev_i
    = Ok (cur_i, check)
    /\ length cur_i = m /\ length check = m
    /\ forall k : nat, (k < m)%nat ->
         nth k cur_i 0%Z
         = (nth k prev_i 0 + nth k slope_sign 0 * Z.b2z (nth k check false))%Z
         /\ (nth k check false = true ->
             (0 < nth k prev_i 0 + nth k slope_sign 0 < n - 1)%Z
             /\ nth (Z.to_nat (nth k prev_i 0 + nth k slope_sign 0)%Z) no_gaps false = true).
Proof.
  intros Hl Hr. unfold walker_turn.
  destruct (take_nth signal 0 prev_i) as [prev_s [E1 [L1 _]]].
  { intros k Hk. fold n. apply Hr. lia. }
  rewrite E1. cbn [bind].
  destruct (ew2_nth Z.add prev_i slope_sign 0%Z 0%Z 0%Z ltac:(lia)) as [ahead [E2 [L2 N2]]].
  rewrite E2. cbn [bind].
  set (edges := check_edges (n - 1) ahead).
  assert (Le : length edges = m) by (unfold edges, check_edges; rewrite length_map; lia).
  assert (Ne : forall k : nat, (k < m)%nat -> nth k edges false = true ->
               (0 < nth k prev_i 0 + nth k slope_sign 0 < n - 1)%Z).
  { intros k Hk H. unfold edges in H. rewrite nth_check_edges, N2 in H by lia.
    apply andb_true_iff in H. destruct H as [Ha Hb].
    apply Z.gtb_lt in Ha. apply Z.ltb_lt in Hb. lia. }
  destruct (ew2_nth (fun s b => (s * Z.b2z b)%Z) slope_sign edges 0%Z false 0%Z
                    ltac:(lia)) as [step [E3 [L3 N3]]].
  rewrite E3. cbn [bind].
  destruct (ew2_nth Z.add prev_i step 0%Z 0%Z 0%Z ltac:(lia)) as [cur1 [E4 [L4 N4]]].
  rewrite E4. cbn [bind].
  assert (Hc1 : forall k : nat, (k < m)%nat ->
               nth k cur1 0%Z
               = (nth k prev_i 0 + nth k slope_sign 0 * Z.b2z (nth k edges false))%Z).
  { intros k Hk. rewrite N4, N3 by lia. reflexivity. }
  assert (Rc1 : forall k : nat, (k < m)%nat -> (0 <= nth k cur1 0 < n)%Z).
  { intros k Hk. rewrite Hc1 by exact Hk. specialize (Hr k Hk).
    destruct (nth k edges false) eqn:Ee; simpl Z.b2z.
    - specialize (Ne k Hk Ee). lia.
    - lia. }
  destruct (take_nth signal 0 cur1) as [cur_s [E5 [L5 _]]].
  { intros k Hk. fold n. apply Rc1. lia. }
  rewrite E5. cbn [bind].
  (* the look-ahead *)
  destruct (for_each_total (fun np : list bool => length np = m)
              (fun i next_points =>
                 far <- Np.ew2 (fun c s => (c + i * s)%Z) cur1 slope_sign ;;
                 step_i <- Np.ew2 (fun s b => (i * s * Z.b2z b)%Z) slope_sign
                                  (check_edges (n - 1) far) ;;
                 idx <- Np.ew2 Z.add cur1 step_i ;;
                 s_i <- Np.take signal idx ;;
                 c <- check_condition mode prev_s s_i ;;
                 Np.ew2 orb next_points c)
              (Py.range 1 look_ahead) (repeat false (length cur1)))
    as [next_points [E6 L6]].
  { rewrite repeat_length. lia. }
  { intros i np _ Hnp.
    destruct (ew2_nth (fun c s => (c + i * s)%Z) cur1 slope_sign 0%Z 0%Z 0%Z ltac:(lia))
      as [far [Ef [Lf Nf]]].
    rewrite Ef. cbn [bind].
    assert (Lfe : length (check_edges (n - 1) far) = m)
      by (unfold check_edges; rewrite length_map; lia).
    destruct (ew2_nth (fun s b => (i * s * Z.b2z b)%Z) slope_sign
                      (check_edges (n - 1) far) 0%Z false 0%Z ltac:(lia))
      as [step_i [Es [Ls Ns]]].
    rewrite Es. cbn [bind].
    destruct (ew2_nth Z.add cur1 step_i 0%Z 0%Z 0%Z ltac:(lia)) as [idx [Ei [Li Ni]]].
    rewrite Ei. cbn [bind].
    destruct (take_nth signal 0 idx) as [s_i [Et [Lt _]]].
    { intros k Hk. fold n. rewrite Ni, Ns by lia.
      rewrite nth_check_edges, Nf by lia.
      specialize (Rc1 k ltac:(lia)).
      destruct ((nth k cur1 0 + i * nth k slope_sign 0 >? 0)%Z
                && (nth k cur1 0 + i * nth k slope_sign 0 <? n - 1)%Z) eqn:Ee;
        simpl Z.b2z.
      - apply andb_true_iff in Ee. destruct Ee as [Ha Hb].
        apply Z.gtb_lt in Ha. apply Z.ltb_lt in Hb. lia.
      - lia. }
    rewrite Et. cbn [bind].
    destruct (check_condition_length mode prev_s s_i ltac:(lia)) as [c [Ec Lc]].
    rewrite Ec. cbn [bind].
    destruct (ew2_nth orb np c false false false ltac:(lia)) as [np' [En [Ln _]]].
    exists np'. split; [exact En|lia]. }
  rewrite E6. cbn [bind].
  destruct (check_condition_length mode prev_s cur_s ltac:(lia)) as [c [E7 L7]].
  rewrite E7. cbn [bind].
  destruct (ew2_nth orb c next_points false false false ltac:(lia)) as [slope [E8 [L8 _]]].
  rewrite E8. cbn [bind].
  destruct (take_nth no_gaps false cur1) as [check_gaps [E9 [L9 N9]]].
  { intros k Hk. rewrite gaps_length. fold n. apply Rc1. lia. }
  rewrite E9. cbn [bind].
  destruct (ew2_nth andb slope check_gaps false false false ltac:(lia)) as [cg [E10 [L10 N10]]].
  rewrite E10. cbn [bind].
  destruct (ew2_nth andb cg edges false false false ltac:(lia)) as [check [E11 [L11 N11]]].
  rewrite E11. cbn [bind].
  destruct (ew2_nth (fun s b => (s * Z.b2z b)%Z) slope_sign check 0%Z false 0%Z
                    ltac:(lia)) as [step' [E12 [L12 N12]]].
  rewrite E12. cbn [bind].
  destruct (ew2_nth Z.add prev_i step' 0%Z 0%Z 0%Z ltac:(lia)) as [cur_i [E13 [L13 N13]]].
  rewrite E13. cbn [bind].
  exists cur_i, check. split; [reflexivity|]. split; [lia|]. split; [lia|].
  intros k Hk. split.
  - rewrite N13, N12 by lia. reflexivity.
  - intro Hc. rewrite N11, N10 in Hc by lia.
    apply andb_true_iff in Hc. destruct Hc as [Hc He].
    apply andb_true_iff in Hc. destruct Hc as [_ Hg].
    split; [now apply Ne|].
    rewrite N9 in Hg by lia. rewrite Hc1, He in Hg by exact Hk.
    simpl Z.b2z in Hg. now rewrite Z.mul_1_r in Hg.
Qed.

Variable peaks : list Z.
Hypothesis peaks_length : length peaks = m.

(** What the walk keeps: every index is a number of whole steps away from
    its peak, inside the array, and every point stepped onto lies strictly
    inside the array and outside the gaps. *)
Let walked (cur_i : list Z) : Prop :=
  length cur_i = m
  /\ forall k : nat, (k < m)%nat ->
       exists t : nat,
         nth k cur_i 0%Z = (nth k peaks 0 + Z.of_nat t * nth k slope_sign 0)%Z
         /\ (0 <= nth k cur_i 0 < n)%Z
         /\ forall j : nat, (1 <= j <= t)%nat ->
              (0 < nth k peaks 0 + Z.of_nat j * nth k slope_sign 0 < n - 1)%Z
              /\ nth (Z.to_nat (nth k peaks 0 + Z.of_nat j * nth k slope_sign 0)%Z)
                     no_gaps false = true.

(** The room that is left in the walking directions, all indices together. *)
Let total_room (cur_i : list Z) : nat :=
  list_sum (map (fun cs : Z * Z => room n (fst cs) (snd cs)) (combine cur_i slope_sign)).

Lemma walker_turn_walked (prev_i : list Z) :
  walked prev_i ->
  exists (cur_i : list Z) (check : list bool),
    walker_turn signal slope_sign no_gaps mode look_ahead (n - 1) prev_i
    = Ok (cur_i, check)
    /\ walked cur_i
    /\ (total_room cur_i + (if Np.any check then 1 else 0) <= total_room prev_i)%nat.
Proof.
  intros [Hl Hw].
  destruct (walker_turn_spec prev_i Hl) as [cur_i [check [E [Lc [Lk Hs]]]]].
  { intros k Hk. destruct (Hw k Hk) as [t [_ [Hr _]]]. exact Hr. }
  exists cur_i, check. split; [exact E|]. split.
  - split; [exact Lc|]. intros k Hk.
    destruct (Hw k Hk) as [t [Ht [Hr Hp]]]. destruct (Hs k Hk) as [Hc Hstep].
    destruct (nth k check false) eqn:Ec.
    + specialize (Hstep eq_refl). destruct Hstep as [Hin Hg].
      exists (S t). simpl Z.b2z in Hc. rewrite Ht in Hc, Hin, Hg.
      split; [rewrite Hc; lia|]. split; [rewrite Hc; rewrite Ht in Hr; lia|].
      intros j Hj. destruct (Nat.eq_dec j (S t)) as [->|Hne].
      * replace (nth k peaks 0 + Z.of_nat (S t) * nth k slope_sign 0)%Z
          with (nth k peaks 0 + Z.of_nat t * nth k slope_sign 0 + nth k slope_sign 0)%Z
          by lia.
        split; [exact Hin|exact Hg].
      * apply Hp. lia.
    + exists t. simpl Z.b2z in Hc. rewrite Z.mul_0_r, Z.add_0_r in Hc.
      rewrite Hc. split; [exact Ht|]. split; [exact Hr|exact Hp].
  - unfold total_room.
    set (f := fun cs : Z * Z => room n (fst cs) (snd cs)).
    assert (Hpw : forall k : nat, (k < m)%nat ->
              (nth k (map f (combine cur_i slope_sign)) 0
               + (if nth k check false then 1 else 0)
               <= nth k (map f (combine prev_i slope_sign)) 0)%nat).
    { intros k Hk.
      rewrite (nth_map2 f cur_i slope_sign 0%Z 0%Z 0%nat) by lia.
      rewrite (nth_map2 f prev_i slope_sign 0%Z 0%Z 0%nat) by lia.
      unfold f. cbn [fst snd].
      destruct (Hw k Hk) as [t [_ [Hr _]]]. destruct (Hs k Hk) as [Hc Hstep].
      rewrite Hc. destruct (nth k check false) eqn:Ec; simpl Z.b2z.
      - specialize (Hstep eq_refl). destruct Hstep as [Hin _].
        unfold room. unfold n in *.
        destruct (sign_unit k Hk) as [Hu|Hu]; rewrite Hu in *;
          [change (1 =? 1)%Z with true|change (-1 =? 1)%Z with false]; cbv iota; lia.
      - rewrite Z.mul_0_r, Z.add_0_r. lia. }
    assert (Hlen : length (map f (combine cur_i slope_sign))
                   = length (map f (combine prev_i slope_sign)))
      by (rewrite !length_map, !length_combine; lia).
    assert (Hlm : length (map f (combine cur_i slope_sign)) = m)
      by (rewrite length_map, length_combine; lia).
    destruct (list_sum_pointwise _ _ Hlen) as [Hle Hlt].
    { intros k Hk. specialize (Hpw k ltac:(lia)). lia. }
    destruct (Np.any check) eqn:Ea; [|lia].
    unfold Np.any in Ea. apply existsb_exists in Ea. destruct Ea as [b [Hb ->]].
    destruct (In_nth _ _ false Hb) as [k [Hk Hnk]].
    assert (list_sum (map f (combine cur_i slope_sign))
            < list_sum (map f (combine prev_i slope_sign)))%nat; [|lia].
    apply Hlt. exists k. split; [lia|].
    specialize (Hpw k ltac:(lia)). rewrite Hnk in Hpw. lia.
Qed.

Lemma curve_walk_walked (fuel : nat) :
  forall (cur_i : list Z) (check : list bool),
  walked cur_i ->
  (total_room cur_i + (if Np.any check then 1 else 0) < fuel)%nat ->
  exists r : list Z,
    curve_walk fuel signal slope_sign no_gaps mode look_ahead (n - 1) cur_i check
    = Some (Ok r)
    /\ walked r.
Proof.
  induction fuel as [|fuel IH]; intros cur_i check Hw Hf; [lia|].
  cbn [curve_walk]. destruct (Np.any check) eqn:Ea.
  - destruct (walker_turn_walked cur_i Hw) as [cur' [check' [E [Hw' Hr]]]].
    rewrite E. apply IH; [exact Hw'|]. lia.
  - exists cur_i. split; [reflexivity|exact Hw].
Qed.

Lemma total_room_bound (cur_i : list Z) :
  length cur_i = m ->
  (forall k : nat, (k < m)%nat -> (0 <= nth k cur_i 0 < n)%Z) ->
  (total_room cur_i <= m * length signal)%nat.
Proof.
  intros Hl Hr. unfold total_room.
  set (f := fun cs : Z * Z => room n (fst cs) (snd cs)).
  assert (Hlm : length (map f (combine cur_i slope_sign)) = m)
    by (rewrite length_map, length_combine; lia).
  destruct (list_sum_pointwise (map f (combine cur_i slope_sign))
                               (repeat (length signal) m)) as [Hle _].
  { rewrite repeat_length. exact Hlm. }
  { intros k Hk. rewrite nth_repeat_lt by lia.
    rewrite (nth_map2 f cur_i slope_sign 0%Z 0%Z 0%nat) by lia.
    unfold f, room. cbn [fst snd]. specialize (Hr k ltac:(lia)). unfold n in Hr.
    destruct (_ =? 1)%Z; lia. }
  assert (Hrep : list_sum (repeat (length signal) m) = (m * length signal)%nat).
  { clear. induction m as [|m' IHm]; simpl; [reflexivity|]. rewrite IHm. lia. }
  lia.
Qed.

Lemma walk_from_peaks (fuel : nat) :
  (forall k : nat, (k < m)%nat -> (0 <= nth k peaks 0 < n)%Z) ->
  (m * length signal < fuel)%nat ->
  exists r : list Z,
    match walker_turn signal slope_sign no_gaps mode look_ahead (n - 1) peaks with
    | Ok (cur_i, check) =>
        curve_walk fuel signal slope_sign no_gaps mode look_ahead (n - 1) cur_i check
    | Raise e => Some (Raise e)
    | NonFinite => Some NonFinite
    end = Some (Ok r)
    /\ walked r.
Proof.
  intros Hp Hf.
  assert (Hw0 : walked peaks).
  { split; [exact peaks_length|]. intros k Hk. exists 0%nat.
    split; [simpl; lia|]. split; [now apply Hp|]. intros j Hj. lia. }
  destruct (walker_turn_walked peaks Hw0) as [cur [check [E [Hw Hr]]]].
  rewrite E. apply curve_walk_walked; [exact Hw|].
  pose proof (total_room_bound peaks peaks_length Hp). lia.
Qed.

End CurveWalker.

(** X23. With one slope sign of 1 or -1 for every peak, the peaks inside
    the array and a gap mark for every point, [curve_walker] terminates (in
    at most as many turns of its loop as there are peaks times points) and
    returns one index for every peak.  Each index lies inside the array, a
    whole number of steps away from its peak in the direction of the slope
    sign (against it when the mode contains 'down'), and every point on the
    way, the last one included, lies strictly inside the array and outside
    the gaps.  This holds for every mode and every look-ahead. *)
Theorem curve_walker_stays_inside (fuel : nat) (signal : list Q) (peaks slope_sign : list Z)
        (no_gaps : list bool) (mode : String.string) (look_ahead : Z) :
  length no_gaps = length signal ->
  length slope_sign = length peaks ->
  Forall (fun s => s = 1%Z \/ s = (-1)%Z) slope_sign ->
  Forall (fun p => (0 <= p < Z.of_nat (length signal))%Z) peaks ->
  (length peaks * length signal < fuel)%nat ->
  exists r : list Z,
    curve_walker fuel signal peaks slope_sign no_gaps mode look_ahead = Some (Ok r)
    /\ length r = length peaks
    /\ forall k : nat, (k < length peaks)%nat ->
         let dir := ((if contains "down"%string mode then -1 else 1)
                     * nth k slope_sign 0)%Z in
         exists t : nat,
           nth k r 0%Z = (nth k peaks 0 + Z.of_nat t * dir)%Z
           /\ (0 <= nth k r 0 < Z.of_nat (length signal))%Z
           /\ forall j : nat, (1 <= j <= t)%nat ->
                (0 < nth k peaks 0 + Z.of_nat j * dir < Z.of_nat (length signal) - 1)%Z
                /\ nth (Z.to_nat (nth k peaks 0 + Z.of_nat j * dir)%Z) no_gaps false = true.
Proof.
  intros Hg Hs Hu Hp Hf. unfold curve_walker. cbv zeta.
  set (ss := if contains "down"%string mode then map Z.opp slope_sign else slope_sign).
  assert (Hss : forall k : nat, (k < length peaks)%nat ->
              nth k ss 0%Z
              = ((if contains "down"%string mode then -1 else 1) * nth k slope_sign 0)%Z).
  { intros k Hk. unfold ss. destruct (contains "down"%string mode).
    - change 0%Z with (Z.opp 0) at 1. rewrite (map_nth Z.opp). lia.
    - lia. }
  assert (Lss : length ss = length peaks)
    by (unfold ss; destruct (contains "down"%string mode); rewrite ?length_map; exact Hs).
  assert (Uss : forall k : nat, (k < length peaks)%nat ->
              nth k ss 0%Z = 1%Z \/ nth k ss 0%Z = (-1)%Z).
  { intros k Hk. rewrite (Hss k Hk).
    assert (Hin : In (nth k slope_sign 0%Z) slope_sign) by (apply nth_In; lia).
    rewrite Forall_forall in Hu. specialize (Hu _ Hin).
    destruct (contains "down"%string mode); lia. }
  assert (Hpk : forall k : nat, (k < length peaks)%nat ->
              (0 <= nth k peaks 0 < Z.of_nat (length signal))%Z).
  { intros k Hk. rewrite Forall_forall in Hp. apply Hp. now apply nth_In. }
  destruct (walk_from_peaks signal ss no_gaps mode look_ahead (length peaks)
              Hg Lss Uss peaks eq_refl fuel Hpk Hf) as [r [E [Lr Hr]]].
  exists r. split; [exact E|]. split; [exact Lr|].
  intros k Hk. cbv zeta. rewrite <- (Hss k Hk). exact (Hr k Hk).
Qed.

Lemma curve_walker_stays_inside_witness :
  length [true; true; true; true; true; false; true] = length [0; 1; 3; 5; 4; 2; 1]
  /\ length [1; -1]%Z = length [1; 3]%Z
  /\ Forall (fun s => s = 1%Z \/ s = (-1)%Z) [1; -1]%Z
  /\ Forall (fun p => (0 <= p < Z.of_nat (length [0; 1; 3; 5; 4; 2; 1]))%Z) [1; 3]%Z
  /\ (length [1; 3]%Z * length [0; 1; 3; 5; 4; 2; 1] < 15)%nat
  /\ exists r : list Z,
       curve_walker 15 [0; 1; 3; 5; 4; 2; 1] [1; 3]%Z [1; -1]%Z
                    [true; true; true; true; true; false; true] "down"%string 1
       = Some (Ok r)
       /\ length r = length [1; 3]%Z
       /\ forall k : nat, (k < length [1; 3]%Z)%nat ->
            let dir := ((if contains "down"%string "down"%string then -1 else 1)
                        * nth k [1; -1]%Z 0)%Z in
            exists t : nat,
              nth k r 0%Z = (nth k [1; 3]%Z 0 + Z.of_nat t * dir)%Z
              /\ (0 <= nth k r 0 < Z.of_nat (length [0; 1; 3; 5; 4; 2; 1]))%Z
              /\ forall j : nat, (1 <= j <= t)%nat ->
                   (0 < nth k [1; 3]%Z 0 + Z.of_nat j * dir
                    < Z.of_nat (length [0; 1; 3; 5; 4; 2; 1]) - 1)%Z
                   /\ nth (Z.to_nat (nth k [1; 3]%Z 0 + Z.of_nat j * dir)%Z)
                          [true; true; true; true; true; false; true] false = true.
Proof.
  assert (H1 : length [true; true; true; true; true; false; true]
               = length [0; 1; 3; 5; 4; 2; 1]) by reflexivity.
  assert (H2 : length [1; -1]%Z = length [1; 3]%Z) by reflexivity.
  assert (H3 : Forall (fun s => s = 1%Z \/ s = (-1)%Z) [1; -1]%Z)
    by (repeat constructor; auto).
  assert (H4 : Forall (fun p => (0 <= p < Z.of_nat (length [0; 1; 3; 5; 4; 2; 1]))%Z)
                      [1; 3]%Z) by (repeat constructor; simpl; lia).
  assert (H5 : (length [1; 3]%Z * length [0; 1; 3; 5; 4; 2; 1] < 15)%nat) by (simpl; lia).
  split; [exact H1|]. split; [exact H2|]. split; [exact H3|]. split; [exact H4|].
  split; [exact H5|].
  exact (curve_walker_stays_inside 15 [0; 1; 3; 5; 4; 2; 1] [1; 3]%Z [1; -1]%Z
           [true; true; true; true; true; false; true] "down"%string 1 H1 H2 H3 H4 H5).
Defined.

(** The example evaluated: in mode 'down' the first walker starts at index 1
    with slope sign 1, so it walks to the left and stops at once at the edge;
    the second starts on the maximum at index 3 with slope sign -1, walks to
    the right as long as the signal falls and stops before the gap. *)
Lemma curve_walker_example :
  curve_walker 15 [0; 1; 3; 5; 4; 2; 1] [1; 3]%Z [1; -1]%Z
               [true; true; true; true; true; false; true] "down"%string 1
  = Some (Ok [1; 4]%Z).
Proof. vm_compute. reflexivity. Qed.

(** ** The symmetry of the eclipses *)

Lemma take_map {A : Type} (a : list Q) (g : A -> Z) (rows : list A) :
  (forall e : A, In e rows -> (0 <= g e < Z.of_nat (length a))%Z) ->
  Np.take a (map g rows) = Ok (map (fun e => at_index a (g e)) rows).
Proof.
  intro H. unfold Np.take. rewrite map_map. apply sequence_map_ok.
  intros e He. apply get_at_index. now apply H.
Qed.

Lemma ew2_maps {A B C D : Type} (f : B -> C -> D) (g : A -> B) (h : A -> C)
      (rows : list A) :
  Np.ew2 f (map g rows) (map h rows) = Ok (map (fun e => f (g e) (h e)) rows).
Proof.
  rewrite ew2_ok by now rewrite !length_map.
  now rewrite (map_combine_maps (fun xy : B * C => f (fst xy) (snd xy)) g h rows).
Qed.

Lemma div_arr_maps {A : Type} (g h : A -> Q) (rows : list A) :
  (forall e : A, In e rows -> ~ h e == 0) ->
  Np.div_arr (map g rows) (map h rows) = Ok (map (fun e => g e / h e) rows).
Proof.
  intro H. rewrite div_arr_ok.
  - now rewrite (map_combine_maps (fun xy : Q * Q => fst xy / snd xy) g h rows).
  - now rewrite !length_map.
  - apply Forall_forall. intros y Hy. apply in_map_iff in Hy.
    destruct Hy as [e [<- He]]. now apply H.
Qed.

Lemma avg_nonneg (l : list Q) : Forall (fun x => 0 <= x) l -> 0 <= Np.avg l.
Proof.
  intro H. unfold Np.avg, Qdiv. apply Qmult_le_0_compat.
  - apply sum_from_nonneg; [lra|exact H].
  - apply Qinv_le_0_compat. change 0 with (inject_Z 0). rewrite <- Zle_Qle. lia.
Qed.

Lemma sum_from_zero (l : list Q) :
  forall acc : Q, Forall (fun x => x == 0) l -> fold_left Qplus l acc == acc.
Proof.
  induction l as [|x r IH]; intros acc H; [reflexivity|].
  inversion H as [|? ? Hx Hr]; subst. simpl. rewrite IH by exact Hr. rewrite Hx. ring.
Qed.

Lemma avg_zero (l : list Q) : Forall (fun x => x == 0) l -> Np.avg l == 0.
Proof.
  intro H. unfold Np.avg, Np.sum. rewrite (sum_from_zero l 0 H). unfold Qdiv. ring.
Qed.

(** X24. For eclipses whose four edges lie in the series and whose signal
    drops by a positive amount over a positive time on both sides,
    [normalised_symmetry] returns a value above 0 and at most at 1.  It
    returns 1 as soon as every eclipse has the same drop on its two sides,
    and also as soon as every eclipse has the same slope on its two sides:
    the two deviations are multiplied. *)
Theorem normalised_symmetry_range (times signal : list Q) (ecl_indices : list ecl_row) :
  ecl_indices <> [] ->
  length signal = length times ->
  Forall (row_in_bounds (length times)) ecl_indices ->
  Forall (fun e => 0 < ingress_drop signal e /\ 0 < egress_drop signal e
                   /\ 0 < ingress_time times e /\ 0 < egress_time times e)
         ecl_indices ->
  exists r : Q,
    normalised_symmetry times signal ecl_indices = Ok r
    /\ 0 < r <= 1
    /\ (Forall (fun e => ingress_drop signal e == egress_drop signal e) ecl_indices
        \/ Forall (fun e => ingress_drop signal e / ingress_time times e
                            == egress_drop signal e / egress_time times e) ecl_indices ->
        r == 1).
Proof.
  intros Hne Hl Hb Hp. unfold normalised_symmetry.
  rewrite Forall_forall in Hb, Hp.
  assert (E0 : (length ecl_indices =? 0)%nat = false)
    by (destruct ecl_indices; [congruence|reflexivity]).
  rewrite E0.
  rewrite !take_map by (intros e He; destruct (Hb e He) as [? [? [? ?]]]; lia).
  cbn [bind].
  rewrite (ew2_maps Qminus (fun e => at_index signal (l_o e))
                    (fun e => at_index signal (l_i e))). cbn [bind].
  rewrite (ew2_maps Qminus (fun e => at_index signal (r_o e))
                    (fun e => at_index signal (r_i e))). cbn [bind].
  rewrite (ew2_maps Qminus (fun e => at_index times (l_i e))
                    (fun e => at_index times (l_o e))). cbn [bind].
  rewrite (ew2_maps Qminus (fun e => at_index times (r_o e))
                    (fun e => at_index times (r_i e))). cbn [bind].
  fold (ingress_drop signal) (egress_drop signal) (ingress_time times) (egress_time times).
  change (fun e : ecl_row => at_index signal (l_o e) - at_index signal (l_i e))
    with (ingress_drop signal).
  change (fun e : ecl_row => at_index signal (r_o e) - at_index signal (r_i e))
    with (egress_drop signal).
  change (fun e : ecl_row => at_index times (l_i e) - at_index times (l_o e))
    with (ingress_time times).
  change (fun e : ecl_row => at_index times (r_o e) - at_index times (r_i e))
    with (egress_time times).
  set (hr := ingress_drop signal) in *. set (hl := egress_drop signal) in *.
  set (wr := ingress_time times) in *. set (wl := egress_time times) in *.
  rewrite (ew2_maps (fun r l => Qabs (r - l)) hr hl). cbn [bind].
  rewrite (ew2_maps (fun r l => (r + l) / 2) hr hl). cbn [bind].
  rewrite (div_arr_maps (fun e => Qabs (hr e - hl e)) (fun e => (hr e + hl e) / 2)).
  2:{ intros e He. destruct (Hp e He) as [H1 [H2 _]].
      intro Hz. assert (hr e + hl e == 0) by (revert Hz; unfold Qdiv; change (/ 2) with (1 # 2); lra).
      lra. }
  cbn [bind].
  rewrite (div_arr_maps hr wr) by (intros e He; destruct (Hp e He) as [_ [_ [H3 _]]]; lra).
  cbn [bind].
  rewrite (div_arr_maps hl wl) by (intros e He; destruct (Hp e He) as [_ [_ [_ H4]]]; lra).
  cbn [bind].
  rewrite (ew2_maps (fun r l => Qabs (r - l)) (fun e => hr e / wr e) (fun e => hl e / wl e)).
  cbn [bind].
  rewrite (ew2_maps (fun r l => (r + l) / 2) (fun e => hr e / wr e) (fun e => hl e / wl e)).
  cbn [bind].
  assert (Hsl : forall e : ecl_row, In e ecl_indices ->
              0 < hr e / wr e /\ 0 < hl e / wl e).
  { intros e He. destruct (Hp e He) as [H1 [H2 [H3 H4]]].
    split; apply Qlt_shift_div_l; lra. }
  rewrite (div_arr_maps (fun e => Qabs (hr e / wr e - hl e / wl e))
                        (fun e => (hr e / wr e + hl e / wl e) / 2)).
  2:{ intros e He. destruct (Hsl e He) as [H1 H2].
      intro Hz.
      set (u := hr e / wr e) in *. set (v := hl e / wl e) in *. clearbody u v.
      unfold Qdiv in Hz. change (/ 2) with (1 # 2) in Hz. lra. }
  cbn [bind].
  set (slope := map (fun e => Qabs (hr e / wr e - hl e / wl e)
                              / ((hr e / wr e + hl e / wl e) / 2)) ecl_indices).
  set (height := map (fun e => Qabs (hr e - hl e) / ((hr e + hl e) / 2)) ecl_indices).
  rewrite (mean_ok slope)
    by (unfold slope; destruct ecl_indices; [congruence|discriminate]).
  cbn [bind].
  rewrite (mean_ok height)
    by (unfold height; destruct ecl_indices; [congruence|discriminate]).
  cbn [bind].
  (* both means are not negative, and zero for symmetric eclipses *)
  assert (Hs0 : 0 <= Np.avg slope).
  { apply avg_nonneg. apply Forall_forall. intros x Hx. unfold slope in Hx.
    apply in_map_iff in Hx. destruct Hx as [e [<- He]]. destruct (Hsl e He) as [H1 H2].
    apply Qle_shift_div_l.
    - set (u := hr e / wr e) in *. set (v := hl e / wl e) in *. clearbody u v.
      unfold Qdiv. change (/ 2) with (1 # 2). lra.
    - rewrite Qmult_0_l. apply Qabs_nonneg. }
  assert (Hh0 : 0 <= Np.avg height).
  { apply avg_nonneg. apply Forall_forall. intros x Hx. unfold height in Hx.
    apply in_map_iff in Hx. destruct Hx as [e [<- He]].
    destruct (Hp e He) as [H1 [H2 _]].
    apply Qle_shift_div_l.
    - unfold Qdiv. change (/ 2) with (1 # 2). lra.
    - rewrite Qmult_0_l. apply Qabs_nonneg. }
  set (ms := Np.avg slope) in *. set (mh := Np.avg height) in *.
  set (symmetry := ms * mh / (7 # 10)).
  assert (Hsym : 0 <= symmetry).
  { unfold symmetry, Qdiv. apply Qmult_le_0_compat; [|discriminate].
    now apply Qmult_le_0_compat. }
  assert (Hfin : exists s' : Q,
             (if Qltb symmetry (1 # 2) then Ok (symmetry * (2 * (1 - symmetry)))
              else Ok symmetry) = Ok s'
             /\ 0 <= s' /\ (symmetry == 0 -> s' == 0)).
  { destruct (Qltb symmetry (1 # 2)) eqn:E.
    - apply Qltb_lt in E. eexists. split; [reflexivity|]. split.
      + apply Qmult_le_0_compat; [exact Hsym|lra].
      + intro Hz. rewrite Hz. ring.
    - eexists. split; [reflexivity|]. split; [exact Hsym|auto]. }
  destruct Hfin as [s' [Es [Hs' Hz]]]. rewrite Es. cbn [bind].
  unfold py_div.
  destruct (Qeq_bool ((1 # 2) + s') 0) eqn:Eq;
    [apply Qeq_bool_iff in Eq; lra|].
  eexists. split; [reflexivity|]. split; [split|].
  - apply Qlt_shift_div_l; lra.
  - apply Qle_shift_div_r; lra.
  - intro Hsymm.
    assert (Hs0' : s' == 0).
    { apply Hz. unfold symmetry. destruct Hsymm as [Hsymm|Hsymm];
        rewrite Forall_forall in Hsymm.
      - assert (Hmh : mh == 0).
        { unfold mh. apply avg_zero. apply Forall_forall. intros x Hx.
          unfold height in Hx. apply in_map_iff in Hx. destruct Hx as [e [<- He]].
          assert (Hz0 : hr e - hl e == 0) by (rewrite (Hsymm e He); ring).
          rewrite Hz0. change (Qabs 0) with 0. unfold Qdiv. ring. }
        rewrite Hmh. unfold Qdiv. ring.
      - assert (Hms : ms == 0).
        { unfold ms. apply avg_zero. apply Forall_forall. intros x Hx.
          unfold slope in Hx. apply in_map_iff in Hx. destruct Hx as [e [<- He]].
          assert (Hz0 : hr e / wr e - hl e / wl e == 0) by (rewrite (Hsymm e He); ring).
          rewrite Hz0. change (Qabs 0) with 0. unfold Qdiv. ring. }
        rewrite Hms. unfold Qdiv. ring. }
    rewrite Hs0'. reflexivity.
Qed.

Lemma normalised_symmetry_range_witness :
  [mk_ecl_row 1 2 3 4] <> []
  /\ length [1; 1; 0; 0; 1; 1] = length [0; 1; 2; 3; 4; 5]
  /\ Forall (row_in_bounds (length [0; 1; 2; 3; 4; 5])) [mk_ecl_row 1 2 3 4]
  /\ Forall (fun e => 0 < ingress_drop [1; 1; 0; 0; 1; 1] e
                      /\ 0 < egress_drop [1; 1; 0; 0; 1; 1] e
                      /\ 0 < ingress_time [0; 1; 2; 3; 4; 5] e
                      /\ 0 < egress_time [0; 1; 2; 3; 4; 5] e)
            [mk_ecl_row 1 2 3 4]
  /\ exists r : Q,
       normalised_symmetry [0; 1; 2; 3; 4; 5] [1; 1; 0; 0; 1; 1] [mk_ecl_row 1 2 3 4] = Ok r
       /\ 0 < r <= 1
       /\ (Forall (fun e => ingress_drop [1; 1; 0; 0; 1; 1] e
                            == egress_drop [1; 1; 0; 0; 1; 1] e) [mk_ecl_row 1 2 3 4]
           \/ Forall (fun e => ingress_drop [1; 1; 0; 0; 1; 1] e
                               / ingress_time [0; 1; 2; 3; 4; 5] e
                               == egress_drop [1; 1; 0; 0; 1; 1] e
                                  / egress_time [0; 1; 2; 3; 4; 5] e) [mk_ecl_row 1 2 3 4] ->
           r == 1).
Proof.
  assert (H1 : [mk_ecl_row 1 2 3 4] <> []) by discriminate.
  assert (H2 : length [1; 1; 0; 0; 1; 1] = length [0; 1; 2; 3; 4; 5]) by reflexivity.
  assert (H3 : Forall (row_in_bounds (length [0; 1; 2; 3; 4; 5])) [mk_ecl_row 1 2 3 4])
    by (repeat constructor; simpl; lia).
  assert (H4 : Forall (fun e => 0 < ingress_drop [1; 1; 0; 0; 1; 1] e
                                /\ 0 < egress_drop [1; 1; 0; 0; 1; 1] e
                                /\ 0 < ingress_time [0; 1; 2; 3; 4; 5] e
                                /\ 0 < egress_time [0; 1; 2; 3; 4; 5] e)
                      [mk_ecl_row 1 2 3 4])
    by (repeat constructor).
  split; [exact H1|]. split; [exact H2|]. split; [exact H3|]. split; [exact H4|].
  exact (normalised_symmetry_range [0; 1; 2; 3; 4; 5] [1; 1; 0; 0; 1; 1]
           [mk_ecl_row 1 2 3 4] H1 H2 H3 H4).
Defined.

(** Without eclipses the symmetry is [0.5 / (0.5 + 1)]; an eclipse that is
    twice as deep on the egress side in the same time scores below 1. *)
Lemma normalised_symmetry_example :
  normalised_symmetry [0; 1; 2; 3; 4; 5] [1; 1; 0; 0; 1; 1] [] = Ok ((1 # 2) / ((1 # 2) + 1))
  /\ exists r : Q,
       normalised_symmetry [0; 1; 2; 3; 4; 5] [1; 1; 0; 0; 2; 2] [mk_ecl_row 1 2 3 4] = Ok r
       /\ r < 1.
Proof.
  split; [reflexivity|]. eexists. split; [vm_compute; reflexivity|reflexivity].
Qed.

(** ** The slope of the eclipses *)

Lemma select_any_false {A : Type} (mask : list bool) :
  forall a : list A, Np.any mask = false -> Np.select mask a = [].
Proof.
  induction mask as [|b m IH]; intros [|x r] H; try reflexivity.
  simpl in H. destruct b; [discriminate|]. simpl. now apply IH.
Qed.

Lemma sum_from_pos (l : list Q) :
  forall acc : Q, 0 < acc -> Forall (fun x => 0 < x) l -> 0 < fold_left Qplus l acc.
Proof.
  induction l as [|x r IH]; intros acc Ha Hl; [exact Ha|].
  inversion Hl; subst. simpl. apply IH; [lra|assumption].
Qed.

Lemma avg_pos (l : list Q) : l <> [] -> Forall (fun x => 0 < x) l -> 0 < Np.avg l.
Proof.
  intros Hne H. destruct l as [|x r]; [congruence|].
  unfold Np.avg, Np.sum. apply Qlt_shift_div_l.
  - change 0 with (inject_Z 0). rewrite <- Zlt_Qlt. simpl length. lia.
  - rewrite Qmult_0_l. inversion H; subst. simpl. apply sum_from_pos; [lra|assumption].
Qed.

Lemma select_nth {A : Type} (d : A) (mask : list bool) :
  forall (a : list A) (x : A),
  In x (Np.select mask a) ->
  exists k : nat, (k < length a)%nat /\ nth k a d = x /\ nth k mask false = true.
Proof.
  induction mask as [|b m IH]; intros [|y r] x H; simpl in H; try contradiction.
  assert (Hrest : In x (Np.select m r) ->
            exists k : nat, (k < length (y :: r))%nat /\ nth k (y :: r) d = x
                            /\ nth k (b :: m) false = true).
  { intro Hin. destruct (IH r x Hin) as [k [Hk [Hx Hm]]].
    exists (S k). simpl. split; [lia|auto]. }
  destruct b; [|exact (Hrest H)].
  destruct H as [->|H]; [|exact (Hrest H)].
  exists 0%nat. simpl. split; [lia|auto].
Qed.

(** X25. Take eclipses whose edges lie in the series, for each of which the
    two drops of the signal (outer minus inner edge, ingress and egress) add
    up to a positive amount and the two durations to a positive time, as for
    a half eclipse measured on one side, and for which all four are positive
    where the eclipse is marked full; and a positive median of the absolute
    derivative under the mask.  Then [normalised_slope] returns: zero when
    [prim_sec] selects no eclipse, and a positive value otherwise. *)
Theorem normalised_slope_sign (times signal_s deriv_1r : list Q) (ecl_indices : list ecl_row)
        (ecl_mask prim_sec m_full : list bool) (norm_factor : Q) :
  length signal_s = length times ->
  length prim_sec = length ecl_indices ->
  length m_full = length ecl_indices ->
  length ecl_mask = length deriv_1r ->
  Forall (row_in_bounds (length times)) ecl_indices ->
  Forall (fun ef : ecl_row * bool =>
            0 < ingress_drop signal_s (fst ef) + egress_drop signal_s (fst ef)
            /\ 0 < ingress_time times (fst ef) + egress_time times (fst ef)
            /\ (snd ef = true ->
                0 < ingress_drop signal_s (fst ef) /\ 0 < egress_drop signal_s (fst ef)
                /\ 0 < ingress_time times (fst ef) /\ 0 < egress_time times (fst ef)))
         (combine ecl_indices m_full) ->
  Np.median (map Qabs (Np.select ecl_mask deriv_1r)) = Ok norm_factor ->
  0 < norm_factor ->
  exists r : Q,
    normalised_slope times signal_s deriv_1r ecl_indices ecl_mask prim_sec m_full = Ok r
    /\ (Np.any prim_sec = false -> r == 0)
    /\ (Np.any prim_sec = true -> 0 < r).
Proof.
  intros Hl Hps Hmf Hem Hb Hp Hmed Hnf. unfold normalised_slope.
  rewrite Forall_forall in Hb, Hp.
  rewrite ew2_ok by lia. cbn [bind].
  set (mask := map (fun xy : bool * bool => fst xy && snd xy) (combine prim_sec m_full)).
  assert (Lm : length mask = length ecl_indices)
    by (unfold mask; rewrite length_map, length_combine; lia).
  (* the assumptions on the rows, for any selection and for the full ones *)
  assert (Hrow : forall (k : nat), (k < length ecl_indices)%nat ->
             In (nth k ecl_indices (mk_ecl_row 0 0 0 0), nth k m_full false)
                (combine ecl_indices m_full)).
  { intros k Hk. rewrite <- combine_nth by lia. apply nth_In.
    rewrite length_combine. lia. }
  assert (Hhalf : forall (sel : list bool) (e : ecl_row),
             In e (Np.select sel ecl_indices) ->
             0 < ingress_drop signal_s e + egress_drop signal_s e
             /\ 0 < ingress_time times e + egress_time times e).
  { intros sel e He. apply select_In in He.
    destruct (In_nth _ _ (mk_ecl_row 0 0 0 0) He) as [k [Hk <-]].
    destruct (Hp _ (Hrow k Hk)) as [H5 [H6 _]]. cbn [fst] in *. auto. }
  assert (Hfull : forall e : ecl_row,
             In e (Np.select mask ecl_indices) ->
             0 < ingress_drop signal_s e /\ 0 < egress_drop signal_s e
             /\ 0 < ingress_time times e /\ 0 < egress_time times e).
  { intros e He.
    destruct (select_nth (mk_ecl_row 0 0 0 0) mask ecl_indices e He) as [k [Hk [<- Hm]]].
    unfold mask in Hm.
    rewrite (nth_map2 (fun xy : bool * bool => fst xy && snd xy) prim_sec m_full
                      false false false) in Hm by lia.
    cbn [fst snd] in Hm. apply andb_true_iff in Hm. destruct Hm as [_ Hm].
    destruct (Hp _ (Hrow k Hk)) as [_ [_ H7]]. cbn [fst snd] in H7.
    exact (H7 Hm). }
  assert (Hin : forall (sel : list bool) (e : ecl_row),
             In e (Np.select sel ecl_indices) -> row_in_bounds (length times) e).
  { intros sel e He. apply select_In in He. now apply Hb. }
  rewrite (compress_ok prim_sec) by exact Hps. cbn [bind].
  (* the slopes: one zero, or positive slopes of the selected eclipses *)
  assert (Hslope : exists slope : list Q,
             (if (length (Np.select prim_sec ecl_indices) =? 0)%nat then Ok [0]
              else
                rows <- Np.compress mask ecl_indices ;;
                if (length rows =? 0)%nat then
                  s_0 <- Np.take signal_s (map l_o (Np.select prim_sec ecl_indices)) ;;
                  s_1 <- Np.take signal_s (map l_i (Np.select prim_sec ecl_indices)) ;;
                  height_right <- Np.ew2 Qminus s_0 s_1 ;;
                  s_m1 <- Np.take signal_s (map r_o (Np.select prim_sec ecl_indices)) ;;
                  s_m2 <- Np.take signal_s (map r_i (Np.select prim_sec ecl_indices)) ;;
                  height_left <- Np.ew2 Qminus s_m1 s_m2 ;;
                  t_1 <- Np.take times (map l_i (Np.select prim_sec ecl_indices)) ;;
                  t_0 <- Np.take times (map l_o (Np.select prim_sec ecl_indices)) ;;
                  width_right <- Np.ew2 Qminus t_1 t_0 ;;
                  t_m1 <- Np.take times (map r_o (Np.select prim_sec ecl_indices)) ;;
                  t_m2 <- Np.take times (map r_i (Np.select prim_sec ecl_indices)) ;;
                  width_left <- Np.ew2 Qminus t_m1 t_m2 ;;
                  height <- Np.ew2 Qplus height_right height_left ;;
                  width <- Np.ew2 Qplus width_right width_left ;;
                  Np.div_arr height width
                else
                  s_0 <- Np.take signal_s (map l_o rows) ;;
                  s_1 <- Np.take signal_s (map l_i rows) ;;
                  height_right <- Np.ew2 Qminus s_0 s_1 ;;
                  s_m1 <- Np.take signal_s (map r_o rows) ;;
                  s_m2 <- Np.take signal_s (map r_i rows) ;;
                  height_left <- Np.ew2 Qminus s_m1 s_m2 ;;
                  t_1 <- Np.take times (map l_i rows) ;;
                  t_0 <- Np.take times (map l_o rows) ;;
                  width_right <- Np.ew2 Qminus t_1 t_0 ;;
                  t_m1 <- Np.take times (map r_o rows) ;;
                  t_m2 <- Np.take times (map r_i rows) ;;
                  width_left <- Np.ew2 Qminus t_m1 t_m2 ;;
                  slope_right <- Np.div_arr height_right width_right ;;
                  slope_left <- Np.div_arr height_left width_left ;;
                  Np.ew2 (fun r l => r * b2q (Qltb r l) + l * b2q (negb (Qltb r l)))
                         slope_right slope_left) = Ok slope
             /\ slope <> []
             /\ (Np.any prim_sec = false -> slope = [0])
             /\ (Np.any prim_sec = true -> Forall (fun x => 0 < x) slope)).
  { destruct (Np.any prim_sec) eqn:Ea.
    - pose proof (select_nonempty prim_sec ecl_indices Hps Ea) as Hne.
      assert (E0 : (length (Np.select prim_sec ecl_indices) =? 0)%nat = false)
        by (destruct (Np.select prim_sec ecl_indices); [congruence|reflexivity]).
      rewrite E0. rewrite compress_ok by exact Lm. cbn [bind].
      destruct (length (Np.select mask ecl_indices) =? 0)%nat eqn:E1.
      + set (rows := Np.select prim_sec ecl_indices) in *.
        rewrite !take_map
          by (intros e He; destruct (Hin prim_sec e He) as [? [? [? ?]]]; lia).
        cbn [bind].
        rewrite (ew2_maps Qminus (fun e => at_index signal_s (l_o e))
                          (fun e => at_index signal_s (l_i e))). cbn [bind].
        rewrite (ew2_maps Qminus (fun e => at_index signal_s (r_o e))
                          (fun e => at_index signal_s (r_i e))). cbn [bind].
        rewrite (ew2_maps Qminus (fun e => at_index times (l_i e))
                          (fun e => at_index times (l_o e))). cbn [bind].
        rewrite (ew2_maps Qminus (fun e => at_index times (r_o e))
                          (fun e => at_index times (r_i e))). cbn [bind].
        change (fun e : ecl_row => at_index signal_s (l_o e) - at_index signal_s (l_i e))
          with (ingress_drop signal_s).
        change (fun e : ecl_row => at_index signal_s (r_o e) - at_index signal_s (r_i e))
          with (egress_drop signal_s).
        change (fun e : ecl_row => at_index times (l_i e) - at_index times (l_o e))
          with (ingress_time times).
        change (fun e : ecl_row => at_index times (r_o e) - at_index times (r_i e))
          with (egress_time times).
        rewrite (ew2_maps Qplus (ingress_drop signal_s) (egress_drop signal_s)). cbn [bind].
        rewrite (ew2_maps Qplus (ingress_time times) (egress_time times)). cbn [bind].
        rewrite (div_arr_maps (fun e => ingress_drop signal_s e + egress_drop signal_s e)
                              (fun e => ingress_time times e + egress_time times e))
          by (intros e He; destruct (Hhalf prim_sec e He) as [? ?]; lra).
        eexists. split; [reflexivity|]. split.
        * destruct rows; [congruence|discriminate].
        * split; [discriminate|]. intros _. apply Forall_forall. intros x Hx.
          apply in_map_iff in Hx. destruct Hx as [e [<- He]].
          destruct (Hhalf prim_sec e He) as [H1 H2].
          apply Qlt_shift_div_l; lra.
      + set (rows := Np.select mask ecl_indices) in *.
        rewrite !take_map
          by (intros e He; destruct (Hin mask e He) as [? [? [? ?]]]; lia).
        cbn [bind].
        rewrite (ew2_maps Qminus (fun e => at_index signal_s (l_o e))
                          (fun e => at_index signal_s (l_i e))). cbn [bind].
        rewrite (ew2_maps Qminus (fun e => at_index signal_s (r_o e))
                          (fun e => at_index signal_s (r_i e))). cbn [bind].
        rewrite (ew2_maps Qminus (fun e => at_index times (l_i e))
                          (fun e => at_index times (l_o e))). cbn [bind].
        rewrite (ew2_maps Qminus (fun e => at_index times (r_o e))
                          (fun e => at_index times (r_i e))). cbn [bind].
        change (fun e : ecl_row => at_index signal_s (l_o e) - at_index signal_s (l_i e))
          with (ingress_drop signal_s).
        change (fun e : ecl_row => at_index signal_s (r_o e) - at_index signal_s (r_i e))
          with (egress_drop signal_s).
        change (fun e : ecl_row => at_index times (l_i e) - at_index times (l_o e))
          with (ingress_time times).
        change (fun e : ecl_row => at_index times (r_o e) - at_index times (r_i e))
          with (egress_time times).
        rewrite (div_arr_maps (ingress_drop signal_s) (ingress_time times))
          by (intros e He; destruct (Hfull e He) as [_ [_ [? ?]]]; lra).
        cbn [bind].
        rewrite (div_arr_maps (egress_drop signal_s) (egress_time times))
          by (intros e He; destruct (Hfull e He) as [_ [_ [? ?]]]; lra).
        cbn [bind].
        rewrite (ew2_maps (fun r l => r * b2q (Qltb r l) + l * b2q (negb (Qltb r l)))
                          (fun e => ingress_drop signal_s e / ingress_time times e)
                          (fun e => egress_drop signal_s e / egress_time times e)).
        eexists. split; [reflexivity|]. split.
        * destruct rows; [discriminate|discriminate].
        * split; [discriminate|]. intros _. apply Forall_forall. intros x Hx.
          apply in_map_iff in Hx. destruct Hx as [e [<- He]].
          destruct (Hfull e He) as [H1 [H2 [H3 H4]]].
          cbv beta.
          assert (Hr : 0 < ingress_drop signal_s e / ingress_time times e)
            by (apply Qlt_shift_div_l; lra).
          assert (Hle : 0 < egress_drop signal_s e / egress_time times e)
            by (apply Qlt_shift_div_l; lra).
          set (u := ingress_drop signal_s e / ingress_time times e) in *.
          set (v := egress_drop signal_s e / egress_time times e) in *.
          clearbody u v. destruct (Qltb u v); cbn [b2q negb]; lra.
    - rewrite (select_any_false prim_sec ecl_indices Ea). cbn [length Nat.eqb].
      eexists. split; [reflexivity|]. split; [discriminate|].
      split; [reflexivity|discriminate]. }
  destruct Hslope as [slope [Es [Hne [H0 Hpos]]]]. rewrite Es. cbn [bind].
  rewrite compress_ok by exact Hem. cbn [bind]. rewrite Hmed. cbn [bind].
  rewrite (mean_ok slope Hne). cbn [bind].
  unfold py_div. destruct (Qeq_bool norm_factor 0) eqn:Eq;
    [apply Qeq_bool_iff in Eq; lra|].
  eexists. split; [reflexivity|]. split.
  - intro Ha. rewrite (H0 Ha). reflexivity.
  - intro Ha. apply Qlt_shift_div_l; [exact Hnf|]. rewrite Qmult_0_l.
    apply avg_pos; [exact Hne|exact (Hpos Ha)].
Qed.

Lemma normalised_slope_sign_witness :
  length [1; 1; 0; 0; 1; 1] = length [0; 1; 2; 3; 4; 5]
  /\ length [true] = length [mk_ecl_row 1 2 3 4]
  /\ length [true] = length [mk_ecl_row 1 2 3 4]
  /\ length [true; false; false; false; true] = length [0; -1; 0; 1; 2]
  /\ Forall (row_in_bounds (length [0; 1; 2; 3; 4; 5])) [mk_ecl_row 1 2 3 4]
  /\ Forall (fun ef : ecl_row * bool =>
               0 < ingress_drop [1; 1; 0; 0; 1; 1] (fst ef)
                      + egress_drop [1; 1; 0; 0; 1; 1] (fst ef)
               /\ 0 < ingress_time [0; 1; 2; 3; 4; 5] (fst ef)
                      + egress_time [0; 1; 2; 3; 4; 5] (fst ef)
               /\ (snd ef = true ->
                   0 < ingress_drop [1; 1; 0; 0; 1; 1] (fst ef)
                   /\ 0 < egress_drop [1; 1; 0; 0; 1; 1] (fst ef)
                   /\ 0 < ingress_time [0; 1; 2; 3; 4; 5] (fst ef)
                   /\ 0 < egress_time [0; 1; 2; 3; 4; 5] (fst ef)))
            (combine [mk_ecl_row 1 2 3 4] [true])
  /\ Np.median (map Qabs (Np.select [true; false; false; false; true] [0; -1; 0; 1; 2]))
     = Ok ((0 + 2) / 2)
  /\ 0 < (0 + 2) / 2
  /\ exists r : Q,
       normalised_slope [0; 1; 2; 3; 4; 5] [1; 1; 0; 0; 1; 1] [0; -1; 0; 1; 2]
                        [mk_ecl_row 1 2 3 4] [true; false; false; false; true]
                        [true] [true] = Ok r
       /\ (Np.any [true] = false -> r == 0)
       /\ (Np.any [true] = true -> 0 < r).
Proof.
  assert (H1 : length [1; 1; 0; 0; 1; 1] = length [0; 1; 2; 3; 4; 5]) by reflexivity.
  assert (H2 : length [true] = length [mk_ecl_row 1 2 3 4]) by reflexivity.
  assert (H4 : length [true; false; false; false; true] = length [0; -1; 0; 1; 2])
    by reflexivity.
  assert (H5 : Forall (row_in_bounds (length [0; 1; 2; 3; 4; 5])) [mk_ecl_row 1 2 3 4])
    by (repeat constructor; simpl; lia).
  assert (H6 : Forall (fun ef : ecl_row * bool =>
               0 < ingress_drop [1; 1; 0; 0; 1; 1] (fst ef)
                      + egress_drop [1; 1; 0; 0; 1; 1] (fst ef)
               /\ 0 < ingress_time [0; 1; 2; 3; 4; 5] (fst ef)
                      + egress_time [0; 1; 2; 3; 4; 5] (fst ef)
               /\ (snd ef = true ->
                   0 < ingress_drop [1; 1; 0; 0; 1; 1] (fst ef)
                   /\ 0 < egress_drop [1; 1; 0; 0; 1; 1] (fst ef)
                   /\ 0 < ingress_time [0; 1; 2; 3; 4; 5] (fst ef)
                   /\ 0 < egress_time [0; 1; 2; 3; 4; 5] (fst ef)))
            (combine [mk_ecl_row 1 2 3 4] [true])).
  { repeat constructor; try discriminate. }
  assert (H7 : Np.median (map Qabs (Np.select [true; false; false; false; true]
                                              [0; -1; 0; 1; 2]))
               = Ok ((0 + 2) / 2)) by reflexivity.
  assert (H8 : 0 < (0 + 2) / 2) by reflexivity.
  split; [exact H1|]. split; [exact H2|]. split; [exact H2|]. split; [exact H4|].
  split; [exact H5|]. split; [exact H6|]. split; [exact H7|]. split; [exact H8|].
  exact (normalised_slope_sign [0; 1; 2; 3; 4; 5] [1; 1; 0; 0; 1; 1] [0; -1; 0; 1; 2]
           [mk_ecl_row 1 2 3 4] [true; false; false; false; true] [true] [true] _
           H1 H2 H2 H4 H5 H6 H7 H8).
Defined.

(** ** Peaks on the same slope *)

Lemma argmax_from_range (a : list Q) :
  forall (best : Z) (bv : Q) (i : Z),
  (0 <= best < i)%Z ->
  (0 <= Np.argmax_from a best bv i < i + Z.of_nat (length a))%Z.
Proof.
  induction a as [|x r IH]; intros best bv i H; cbn [Np.argmax_from length].
  - lia.
  - destruct (Qltb bv x).
    + specialize (IH i x (i + 1)%Z ltac:(lia)). lia.
    + specialize (IH best bv (i + 1)%Z ltac:(lia)). lia.
Qed.

Lemma argmax_range (a : list Q) :
  a <> [] -> exists am : Z, Np.argmax a = Ok am /\ (0 <= am < Z.of_nat (length a))%Z.
Proof.
  destruct a as [|x r]; [congruence|]. intros _. eexists. split; [reflexivity|].
  pose proof (argmax_from_range r 0 x 1 ltac:(lia)). cbn [length]. lia.
Qed.

Lemma same_peak_total (deriv_1s : list Q) (pk pk_next : Z) :
  (0 <= pk < Z.of_nat (length deriv_1s))%Z ->
  (0 <= pk_next < Z.of_nat (length deriv_1s))%Z ->
  exists b : bool, same_peak deriv_1s pk pk_next = Ok b.
Proof.
  intros H1 H2. unfold same_peak.
  rewrite (get_nonneg deriv_1s 0 pk H1), (get_nonneg deriv_1s 0 pk_next H2). cbn [bind].
  destruct (_ && _); [eexists; reflexivity|].
  destruct (_ && _); eexists; reflexivity.
Qed.

Lemma forallb_slice_last (l : list bool) (i j : Z) :
  (0 <= i < j)%Z -> (j <= Z.of_nat (length l))%Z ->
  forallb (fun b => b) (Py.slice l i j) = true ->
  nth (Z.to_nat (j - 1)) l false = true.
Proof.
  intros Hi Hj H. unfold Py.slice, Py.slice_bound in H. cbv zeta in H.
  destruct (i <? 0)%Z eqn:E1; [apply Z.ltb_lt in E1; lia|].
  destruct (j <? 0)%Z eqn:E2; [apply Z.ltb_lt in E2; lia|].
  replace (Z.min i (Z.of_nat (length l))) with i in H by lia.
  replace (Z.min j (Z.of_nat (length l))) with j in H by lia.
  rewrite forallb_forall in H.
  set (w := firstn (Z.to_nat (j - i)) (skipn (Z.to_nat i) l)) in *.
  assert (Hw : length w = Z.to_nat (j - i))
    by (unfold w; rewrite length_firstn, length_skipn; lia).
  assert (Hin : In (nth (Z.to_nat (j - i) - 1) w false) w) by (apply nth_In; lia).
  apply H in Hin. unfold w in Hin. rewrite nth_firstn in Hin.
  assert (Hlt : (Z.to_nat (j - i) - 1 <? Z.to_nat (j - i))%nat = true)
    by (apply Nat.ltb_lt; lia).
  rewrite Hlt, nth_skipn in Hin.
  now replace (Z.to_nat i + (Z.to_nat (j - i) - 1))%nat with (Z.to_nat (j - 1)) in Hin by lia.
Qed.

Section EliminateSamePeak.

Variable deriv_1s deriv_13s : list Q.
Variable peaks_13 : list Z.

Let n := length peaks_13.

Hypothesis peaks_in_1 :
  forall p : Z, In p peaks_13 -> (0 <= p < Z.of_nat (length deriv_1s))%Z.
Hypothesis peaks_in_13 :
  forall p : Z, In p peaks_13 -> (0 <= p < Z.of_nat (length deriv_13s))%Z.

(** The first loop: one entry for every pair of neighbours. *)
Lemma same_pks_spec :
  (1 <= n)%nat ->
  exists same_pks : list bool,
    for_each (Py.range 0 (Z.of_nat n - 1))
      (fun i same_pks =>
         pk <- Py.get peaks_13 i ;;
         pk_next <- Py.get peaks_13 (i + 1) ;;
         same <- same_peak deriv_1s pk pk_next ;;
         Py.set same_pks i same)
      (repeat false (Z.to_nat (Z.of_nat n - 1))) = Ok same_pks
    /\ length same_pks = (n - 1)%nat
    /\ forall k : nat, (S k < n)%nat ->
         same_peak deriv_1s (nth k peaks_13 0%Z) (nth (S k) peaks_13 0%Z)
         = Ok (nth k same_pks false).
Proof.
  intro Hn.
  destruct (for_each_range_inv
              (fun i (st : list bool) =>
                 length st = (n - 1)%nat
                 /\ forall k : nat, (Z.of_nat k < i)%Z ->
                      same_peak deriv_1s (nth k peaks_13 0%Z) (nth (S k) peaks_13 0%Z)
                      = Ok (nth k st false))
              (fun i same_pks =>
                 pk <- Py.get peaks_13 i ;;
                 pk_next <- Py.get peaks_13 (i + 1) ;;
                 same <- same_peak deriv_1s pk pk_next ;;
                 Py.set same_pks i same)
              0%Z (Z.of_nat n - 1)%Z (repeat false (Z.to_nat (Z.of_nat n - 1))))
    as [st [E [L P]]].
  - lia.
  - split; [rewrite repeat_length; lia|]. intros k Hk. lia.
  - intros i st Hi [Hl Hp].
    rewrite (get_nonneg peaks_13 0%Z i) by (fold n; lia). cbn [bind].
    rewrite (get_nonneg peaks_13 0%Z (i + 1)) by (fold n; lia). cbn [bind].
    destruct (same_peak_total deriv_1s (nth (Z.to_nat i) peaks_13 0%Z)
                (nth (Z.to_nat (i + 1)) peaks_13 0%Z)) as [b Eb].
    { apply peaks_in_1, nth_In. fold n. lia. }
    { apply peaks_in_1, nth_In. fold n. lia. }
    rewrite Eb. cbn [bind]. rewrite set_nonneg by lia.
    eexists. split; [reflexivity|]. split; [now rewrite update_length|].
    intros k Hk. rewrite nth_update by lia.
    destruct (Nat.eqb_spec k (Z.to_nat i)) as [->|Hne].
    + replace (S (Z.to_nat i)) with (Z.to_nat (i + 1)) by lia. exact Eb.
    + apply Hp. lia.
  - exists st. split; [exact E|]. split; [exact L|]. intros k Hk. apply P. lia.
Qed.

(** A peak that is not on the same actual peak as either neighbour. *)
Let apart (same_pks : list bool) (k : nat) : Prop :=
  nth k same_pks false = false
  /\ forall j : nat, k = S j -> nth j same_pks false = false.

(** The second loop keeps the length, keeps a passing peak, and never
    touches a peak that stands apart. *)
Lemma passed_spec (same_pks : list bool) :
  (1 <= n)%nat -> length same_pks = (n - 1)%nat ->
  exists st : list bool * Z,
    for_each (Py.range 0 (Z.of_nat (length same_pks)))
      (fun i (st : list bool * Z) =>
         let passed := fst st in
         let last_i := snd st in
         same <- Py.get same_pks i ;;
         if (i >=? last_i)%Z && same then
           let group :=
             i :: filter (fun j => (j >? i)%Z
                                   && forallb (fun b => b) (Py.slice same_pks i j))
                         (Py.range 0 (Z.of_nat n)) in
           last_i <- (if (0 <? length group)%nat then Py.get group (-1) else Ok i) ;;
           passed <- Np.index_set passed group false ;;
           pk_g <- Np.take peaks_13 group ;;
           d <- Np.take deriv_13s pk_g ;;
           am <- Np.argmax d ;;
           g <- Py.get group am ;;
           passed <- Py.set passed g true ;;
           Ok (passed, last_i)
         else Ok (passed, last_i))
      (repeat true n, (-1)%Z) = Ok st
    /\ length (fst st) = n
    /\ (exists k : nat, (k < n)%nat /\ nth k (fst st) true = true)
    /\ forall k : nat, (k < n)%nat -> apart same_pks k -> nth k (fst st) true = true.
Proof.
  intros Hn Hl.
  apply (for_each_total
           (fun st : list bool * Z =>
              length (fst st) = n
              /\ (exists k : nat, (k < n)%nat /\ nth k (fst st) true = true)
              /\ forall k : nat, (k < n)%nat -> apart same_pks k ->
                   nth k (fst st) true = true)).
  { cbn [fst]. split; [apply repeat_length|]. split.
    - exists 0%nat. split; [lia|]. apply nth_repeat.
    - intros k _ _. apply nth_repeat. }
  intros i [passed last_i] Hi [Lp [Hex Hap]]. cbn [fst snd] in *.
  apply In_range in Hi.
  rewrite (get_nonneg same_pks false i) by lia. cbn [bind].
  destruct ((i >=? last_i)%Z && nth (Z.to_nat i) same_pks false) eqn:Ec.
  2:{ eexists. split; [reflexivity|]. cbn [fst]. auto. }
  apply andb_true_iff in Ec. destruct Ec as [_ Hsame].
  set (rest := filter (fun j => (j >? i)%Z
                                && forallb (fun b => b) (Py.slice same_pks i j))
                      (Py.range 0 (Z.of_nat n))).
  set (group := i :: rest).
  (* every peak of the group is in range and does not stand apart *)
  assert (Hg : forall g : Z, In g group ->
             (0 <= g < Z.of_nat n)%Z /\ ~ apart same_pks (Z.to_nat g)).
  { intros g [<-|Hin].
    - split; [lia|]. intros [H _]. congruence.
    - unfold rest in Hin. apply filter_In in Hin. destruct Hin as [Hr Hf].
      apply In_range in Hr. apply andb_true_iff in Hf. destruct Hf as [Hgt Hall].
      apply Z.gtb_lt in Hgt. split; [lia|].
      intros [_ H]. specialize (H (Z.to_nat (g - 1)) ltac:(lia)).
      rewrite (forallb_slice_last same_pks i g) in H by (try exact Hall; lia).
      discriminate. }
  assert (Elast : exists last_i' : Z,
             (if (0 <? length group)%nat then Py.get group (-1) else Ok i) = Ok last_i').
  { assert (Hlen : length group = S (length rest)) by reflexivity.
    rewrite Hlen. change (0 <? S (length rest))%nat with true. cbv iota.
    rewrite (get_neg group 0%Z (-1)) by (rewrite Hlen; lia).
    eexists. reflexivity. }
  destruct Elast as [last_i' El]. rewrite El. cbn [bind].
  destruct (index_set_false group passed) as [p1 [E1 [L1 N1]]].
  { intros g Hin. destruct (Hg g Hin). lia. }
  rewrite E1. cbn [bind].
  destruct (take_nth peaks_13 0%Z group) as [pk_g [E2 [L2 N2]]].
  { intros k Hk. fold n. apply Hg. now apply nth_In. }
  rewrite E2. cbn [bind].
  destruct (take_nth deriv_13s 0 pk_g) as [d [E3 [L3 _]]].
  { intros k Hk. rewrite N2 by lia. apply peaks_in_13, nth_In.
    destruct (Hg (nth k group 0%Z)) as [Hr _]; [apply nth_In; lia|]. fold n. lia. }
  rewrite E3. cbn [bind].
  destruct (argmax_range d) as [am [E4 Ham]].
  { intro Hd. rewrite Hd in L3. rewrite L2 in L3. discriminate. }
  rewrite E4. cbn [bind].
  rewrite (get_nonneg group 0%Z am) by lia. cbn [bind].
  set (g := nth (Z.to_nat am) group 0%Z).
  assert (Hgin : In g group) by (apply nth_In; lia).
  destruct (Hg g Hgin) as [Hgr _].
  rewrite set_nonneg by lia.
  eexists. split; [reflexivity|]. cbn [fst].
  split; [rewrite update_length; lia|]. split.
  - exists (Z.to_nat g). split; [lia|]. rewrite nth_update by lia.
    now rewrite Nat.eqb_refl.
  - intros k Hk Hk'. rewrite nth_update by lia.
    destruct (k =? Z.to_nat g)%nat; [reflexivity|].
    destruct (nth k p1 true) eqn:Ep; [reflexivity|].
    apply N1 in Ep. destruct Ep as [Ep|Ep].
    + rewrite (Hap k Hk Hk') in Ep. discriminate.
    + destruct (Hg _ Ep) as [_ Hna]. rewrite Nat2Z.id in Hna. contradiction.
Qed.

End EliminateSamePeak.

(** X26. For one or more peaks that point into both derivatives,
    [eliminate_same_peak] returns one mark for every peak, lets at least one
    peak pass, and lets every peak pass that is on the same actual peak of
    [deriv_1s] as neither of its neighbours. *)
Theorem eliminate_same_peak_keeps (deriv_1s deriv_13s : list Q) (peaks_13 : list Z) :
  peaks_13 <> [] ->
  Forall (fun p => (0 <= p < Z.of_nat (length deriv_1s))%Z
                   /\ (p < Z.of_nat (length deriv_13s))%Z) peaks_13 ->
  exists passed : list bool,
    eliminate_same_peak deriv_1s deriv_13s peaks_13 = Ok passed
    /\ length passed = length peaks_13
    /\ Np.any passed = true
    /\ forall k : nat, (k < length peaks_13)%nat ->
         (forall j : nat, k = S j ->
            same_peak deriv_1s (nth j peaks_13 0%Z) (nth k peaks_13 0%Z) = Ok false) ->
         ((S k < length peaks_13)%nat ->
            same_peak deriv_1s (nth k peaks_13 0%Z) (nth (S k) peaks_13 0%Z) = Ok false) ->
         nth k passed false = true.
Proof.
  intros Hne Hin. rewrite Forall_forall in Hin.
  assert (Hn : (1 <= length peaks_13)%nat) by (destruct peaks_13; [congruence|simpl; lia]).
  assert (H1 : forall p : Z, In p peaks_13 -> (0 <= p < Z.of_nat (length deriv_1s))%Z)
    by (intros p Hp; apply (Hin p Hp)).
  assert (H13 : forall p : Z, In p peaks_13 -> (0 <= p < Z.of_nat (length deriv_13s))%Z)
    by (intros p Hp; destruct (Hin p Hp); lia).
  unfold eliminate_same_peak. cbv zeta.
  destruct (Z.of_nat (length peaks_13) - 1 <? 0)%Z eqn:E0; [apply Z.ltb_lt in E0; lia|].
  destruct (same_pks_spec deriv_1s peaks_13 H1 Hn) as [same_pks [E1 [L1 S1]]].
  rewrite E1. cbn [bind].
  destruct (passed_spec deriv_13s peaks_13 H13 same_pks Hn L1)
    as [[passed last_i] [E2 [L2 [[k0 [Hk0 Hex]] Hap]]]].
  cbv zeta in E2. rewrite E2. cbn [bind fst] in *.
  exists passed. split; [reflexivity|]. split; [exact L2|]. split.
  - unfold Np.any. apply existsb_exists. exists true. split; [|reflexivity].
    rewrite <- Hex. apply nth_In. lia.
  - intros k Hk Hprev Hnext.
    rewrite (nth_indep passed false true) by lia. apply Hap; [exact Hk|]. split.
    + destruct (Nat.lt_ge_cases (S k) (length peaks_13)) as [Hlt|Hge].
      * specialize (Hnext Hlt). rewrite (S1 k Hlt) in Hnext. now injection Hnext.
      * apply nth_overflow. lia.
    + intros j ->. specialize (Hprev j eq_refl).
      rewrite (S1 j ltac:(lia)) in Hprev. now injection Hprev.
Qed.

Lemma eliminate_same_peak_keeps_witness :
  [1; 2; 5]%Z <> []
  /\ Forall (fun p => (0 <= p < Z.of_nat (length [0; 3; 4; 0; 0; 2; 0]))%Z
                      /\ (p < Z.of_nat (length [0; 1; 5; 0; 0; 1; 0]))%Z) [1; 2; 5]%Z
  /\ exists passed : list bool,
       eliminate_same_peak [0; 3; 4; 0; 0; 2; 0] [0; 1; 5; 0; 0; 1; 0] [1; 2; 5]%Z = Ok passed
       /\ length passed = length [1; 2; 5]%Z
       /\ Np.any passed = true
       /\ forall k : nat, (k < length [1; 2; 5]%Z)%nat ->
            (forall j : nat, k = S j ->
               same_peak [0; 3; 4; 0; 0; 2; 0] (nth j [1; 2; 5]%Z 0%Z) (nth k [1; 2; 5]%Z 0%Z)
               = Ok false) ->
            ((S k < length [1; 2; 5]%Z)%nat ->
               same_peak [0; 3; 4; 0; 0; 2; 0] (nth k [1; 2; 5]%Z 0%Z)
                         (nth (S k) [1; 2; 5]%Z 0%Z) = Ok false) ->
            nth k passed false = true.
Proof.
  assert (H1 : [1; 2; 5]%Z <> []) by discriminate.
  assert (H2 : Forall (fun p => (0 <= p < Z.of_nat (length [0; 3; 4; 0; 0; 2; 0]))%Z
                                /\ (p < Z.of_nat (length [0; 1; 5; 0; 0; 1; 0]))%Z)
                      [1; 2; 5]%Z) by (repeat constructor; simpl; lia).
  split; [exact H1|]. split; [exact H2|].
  exact (eliminate_same_peak_keeps [0; 3; 4; 0; 0; 2; 0] [0; 1; 5; 0; 0; 1; 0]
           [1; 2; 5]%Z H1 H2).
Defined.

(** The example evaluated: the first two peaks sit on one rise of
    [deriv_1s], and only the higher one in [deriv_13s] passes; the third
    stands apart and passes. *)
Lemma eliminate_same_peak_example :
  eliminate_same_peak [0; 3; 4; 0; 0; 2; 0] [0; 1; 5; 0; 0; 1; 0] [1; 2; 5]%Z
  = Ok [false; true; true].
Proof. vm_compute. reflexivity. Qed.

(** ** The range of the phase deviation *)

Lemma sum_from_le (l : list Q) (hi : Q) :
  Forall (fun x => x <= hi) l ->
  forall acc : Q, fold_left Qplus l acc <= acc + inject_Z (Z.of_nat (length l)) * hi.
Proof.
  induction 1 as [|x r Hx _ IH]; intro acc.
  - cbn [fold_left length Z.of_nat]. change (inject_Z 0) with 0. lra.
  - cbn [fold_left length]. rewrite Nat2Z.inj_succ, <- Z.add_1_r, inject_Z_plus.
    specialize (IH (acc + x)). change (inject_Z 1) with 1. lra.
Qed.

Lemma sum_from_ge (l : list Q) (lo : Q) :
  Forall (fun x => lo <= x) l ->
  forall acc : Q, acc + inject_Z (Z.of_nat (length l)) * lo <= fold_left Qplus l acc.
Proof.
  induction 1 as [|x r Hx _ IH]; intro acc.
  - cbn [fold_left length Z.of_nat]. change (inject_Z 0) with 0. lra.
  - cbn [fold_left length]. rewrite Nat2Z.inj_succ, <- Z.add_1_r, inject_Z_plus.
    specialize (IH (acc + x)). change (inject_Z 1) with 1. lra.
Qed.

(** The mean of a non-empty array lies between every lower and every upper
    bound of its entries. *)
Lemma avg_between (l : list Q) (lo hi : Q) :
  l <> [] -> Forall (fun x => lo <= x /\ x <= hi) l -> lo <= Np.avg l /\ Np.avg l <= hi.
Proof.
  intros Hne H.
  assert (Hn : 0 < inject_Z (Z.of_nat (length l))).
  { apply inject_Z_pos. destruct l; [congruence|simpl; lia]. }
  assert (Hlo : Forall (fun x => lo <= x) l).
  { apply Forall_forall. intros x Hx. rewrite Forall_forall in H. now apply H. }
  assert (Hhi : Forall (fun x => x <= hi) l).
  { apply Forall_forall. intros x Hx. rewrite Forall_forall in H. now apply H. }
  pose proof (sum_from_ge l lo Hlo 0) as H1. pose proof (sum_from_le l hi Hhi 0) as H2.
  unfold Np.avg, Np.sum. split.
  - apply Qle_shift_div_l; [exact Hn|]. lra.
  - apply Qle_shift_div_r; [exact Hn|]. lra.
Qed.

Lemma fold_phase_range (t period zero : Q) :
  - (1 # 2) <= fold_phase t period zero /\ fold_phase t period zero <= 1 # 2.
Proof.
  unfold fold_phase. pose proof (mod1_range ((t - zero) / period + (1 # 2))). lra.
Qed.

(** X27. For eclipse midpoints that are not empty, [measure_phase_dev] gives
    one phase deviation for every period tried, and at a period that is not
    zero the deviation is a number from 0 up to 1: the phases lie within half
    a period of zero, and so does their mean. *)
Theorem measure_phase_dev_range (periods ecl_mid : list Q) :
  ecl_mid <> [] ->
  exists phase_dev : list X.t,
    measure_phase_dev periods ecl_mid = Ok phase_dev
    /\ length phase_dev = length periods
    /\ forall i : nat, (i < length periods)%nat -> ~ nth i periods 0 == 0 ->
       exists d : Q, nth i phase_dev X.NaN = X.Fin d /\ 0 <= d /\ d <= 1.
Proof.
  intro Hne. unfold measure_phase_dev.
  destruct ecl_mid as [|t_first rest] eqn:Em; [congruence|]. rewrite <- Em in *.
  assert (Hget : Py.get ecl_mid 0 = Ok t_first) by (rewrite Em; reflexivity).
  rewrite Hget. cbn [bind].
  set (f := fun p : Q =>
              match fold_time_series ecl_mid p t_first with
              | Ok phases =>
                  X.Fin (Np.sum (map (fun ph => Qabs (ph - Np.avg phases)) phases)
                         / inject_Z (Z.of_nat (length ecl_mid)))
              | _ => X.NaN
              end).
  exists (map f periods). split; [reflexivity|]. split; [apply length_map|].
  intros i Hi Hp.
  rewrite (nth_indep _ X.NaN (f 0)) by (rewrite length_map; exact Hi).
  rewrite (map_nth f). set (p := nth i periods 0) in *.
  unfold f, fold_time_series.
  destruct (Qeq_bool p 0) eqn:E; [apply Qeq_bool_iff in E; contradiction|].
  set (phases := map (fun t => fold_phase t p t_first) ecl_mid).
  eexists. split; [reflexivity|].
  assert (Hph : Forall (fun x => - (1 # 2) <= x /\ x <= 1 # 2) phases).
  { apply Forall_forall. intros x Hx. unfold phases in Hx. apply in_map_iff in Hx.
    destruct Hx as [t [<- _]]. apply fold_phase_range. }
  assert (Hpne : phases <> []).
  { unfold phases. rewrite Em. discriminate. }
  destruct (avg_between phases _ _ Hpne Hph) as [Hm1 Hm2].
  set (devs := map (fun ph => Qabs (ph - Np.avg phases)) phases).
  assert (Hdev : Forall (fun x => 0 <= x /\ x <= 1) devs).
  { apply Forall_forall. intros x Hx. unfold devs in Hx. apply in_map_iff in Hx.
    destruct Hx as [ph [<- Hin]]. rewrite Forall_forall in Hph.
    destruct (Hph ph Hin) as [Hp1 Hp2]. split; [apply Qabs_nonneg|].
    apply Qabs_Qle_condition. split; lra. }
  assert (Hdne : devs <> []).
  { unfold devs, phases. rewrite Em. discriminate. }
  assert (Hl : length ecl_mid = length devs).
  { unfold devs, phases. now rewrite !length_map. }
  rewrite Hl. exact (avg_between devs 0 1 Hdne Hdev).
Qed.

Lemma measure_phase_dev_range_witness :
  [2; 5; 11; 14] <> []
  /\ exists phase_dev : list X.t,
       measure_phase_dev [2; 3; 4] [2; 5; 11; 14] = Ok phase_dev
       /\ length phase_dev = length [2; 3; 4]
       /\ forall i : nat, (i < length [2; 3; 4])%nat -> ~ nth i [2; 3; 4] 0 == 0 ->
          exists d : Q, nth i phase_dev X.NaN = X.Fin d /\ 0 <= d /\ d <= 1.
Proof.
  assert (H : [2; 5; 11; 14] <> []) by discriminate.
  split; [exact H|]. exact (measure_phase_dev_range [2; 3; 4] [2; 5; 11; 14] H).
Defined.

(** ** Matching ingress and egress: the checks on the input *)

Lemma get_nonneg_inv {A : Type} (l : list A) (d : A) (i : Z) (x : A) :
  (0 <= i)%Z -> Py.get l i = Ok x ->
  (i < Z.of_nat (length l))%Z /\ x = nth (Z.to_nat i) l d.
Proof.
  intros Hi H. unfold Py.get, Py.norm_index in H.
  destruct (i <? 0)%Z eqn:E; [apply Z.ltb_lt in E; lia|]. rewrite E in H.
  destruct (nth_error l (Z.to_nat i)) eqn:En; [|discriminate].
  injection H as <-. split.
  - assert (Hn : nth_error l (Z.to_nat i) <> None) by congruence.
    apply nth_error_Some in Hn. lia.
  - symmetry. now apply nth_error_nth.
Qed.

Lemma sequence_each {A B : Type} (f : A -> res B) (l : list A) :
  forall ys : list B,
  Np.sequence (map f l) = Ok ys ->
  forall p : A, In p l -> exists y : B, f p = Ok y.
Proof.
  induction l as [|x r IH]; intros ys H p Hin; [destruct Hin|].
  simpl in H.
  destruct (f x) as [y| |] eqn:Ey; cbn [bind] in H; try discriminate.
  destruct (Np.sequence (map f r)) as [ys'| |] eqn:Er; cbn [bind] in H; try discriminate.
  destruct Hin as [<-|Hin]; [now exists y|]. exact (IH ys' eq_refl p Hin).
Qed.

Lemma slice_nonempty {A : Type} (l : list A) (s e : Z) :
  (0 <= s)%Z -> (s < e)%Z -> (s < Z.of_nat (length l))%Z -> Py.slice l s e <> [].
Proof.
  intros Hs He Hl E. apply (f_equal (@length A)) in E.
  unfold Py.slice, Py.slice_bound in E. cbv zeta in E.
  rewrite length_firstn, length_skipn in E. simpl in E.
  destruct (s <? 0)%Z eqn:E1; [apply Z.ltb_lt in E1; lia|].
  destruct (e <? 0)%Z eqn:E2; [apply Z.ltb_lt in E2; lia|].
  lia.
Qed.

Lemma x_mean_fin (l : list Q) : l <> [] -> X.mean l = X.Fin (Np.avg l).
Proof. destruct l; [congruence|reflexivity]. Qed.

Lemma x_stat_fin (g : list Q -> Q) (l : list Q) : l <> [] -> X.stat g l = X.Fin (g l).
Proof. destruct l; [congruence|reflexivity]. Qed.

Lemma x_half (x : Q) : X.div (X.Fin x) (X.Fin 2) = X.Fin (x / 2).
Proof. reflexivity. Qed.

Lemma scalar_div_fin_inv (x y : Q) (r : X.t) :
  scalar_div (X.Fin x) (X.Fin y) = Ok r -> ~ y == 0 /\ r = X.Fin (x / y).
Proof.
  unfold scalar_div, X.div. destruct (Qeq_bool y 0) eqn:E; [discriminate|].
  intro H. injection H as <-. split; [|reflexivity].
  intro Hy. apply Qeq_bool_iff in Hy. congruence.
Qed.

Lemma x_min_lt (x y z : Q) :
  X.gtb (X.Fin z) (X.min (X.Fin x) (X.Fin y)) = true <-> Qmin x y < z.
Proof.
  unfold X.gtb, X.min. cbn [X.ltb].
  destruct (Qltb y x) eqn:E; cbn [X.ltb]; rewrite Qltb_lt.
  - apply Qltb_lt in E. rewrite (Q.min_r x y) by lra. reflexivity.
  - apply Qltb_ge in E. rewrite (Q.min_l x y) by lra. reflexivity.
Qed.

Section MatchStatistics.

Variable std : list Q -> Q.
Variables times signal_s added_snr : list Q.
Variables peaks_edge peaks_bot : list Z.

Hypothesis same_length : length signal_s = length times.
Hypothesis edges_inside :
  Forall (fun k => (0 <= k < Z.of_nat (length times))%Z) peaks_edge.
Hypothesis bottoms_inside :
  Forall (fun k => (0 <= k < Z.of_nat (length times))%Z) peaks_bot.

Lemma edge_at_inside (k : Z) :
  (0 <= k < Z.of_nat (length peaks_edge))%Z ->
  (0 <= edge_at peaks_edge k < Z.of_nat (length times))%Z.
Proof.
  intro Hk. unfold edge_at. rewrite Forall_forall in edges_inside.
  apply edges_inside, nth_In. lia.
Qed.

Lemma bottom_at_inside (k : Z) :
  (0 <= k < Z.of_nat (length peaks_bot))%Z ->
  (0 <= bottom_at peaks_bot k < Z.of_nat (length times))%Z.
Proof.
  intro Hk. unfold bottom_at. rewrite Forall_forall in bottoms_inside.
  apply bottoms_inside, nth_In. lia.
Qed.

(** The statistics of a pair are those of the description, and the pair
    passes exactly when the three inequalities hold. *)
Lemma pair_statistics_passed (step : Q) (a b : Z) (st : pair_stats) :
  (0 <= a)%Z -> (0 <= b)%Z ->
  (edge_at peaks_edge a <= edge_at peaks_edge b)%Z ->
  pair_statistics std times signal_s added_snr peaks_edge peaks_bot (X.Fin step) (a, b)
  = Ok st ->
  (passed st = true
   <-> local_scatter std times signal_s peaks_edge peaks_bot a b
       < level_drop times signal_s peaks_edge peaks_bot a b
       /\ 1 # 2 < samples_per_step times peaks_edge step a b
       /\ snr_ratio added_snr a b < 18 # 10).
Proof.
  intros Ha Hb Hord H. unfold pair_statistics in H. cbn [fst snd] in H.
  destruct (Py.get peaks_edge a) as [pk1| |] eqn:E1; cbn [bind] in H; try discriminate.
  destruct (Py.get peaks_edge b) as [pk2| |] eqn:E2; cbn [bind] in H; try discriminate.
  destruct (Py.get peaks_bot a) as [b1| |] eqn:E3; cbn [bind] in H; try discriminate.
  destruct (Py.get peaks_bot b) as [b2| |] eqn:E4; cbn [bind] in H; try discriminate.
  destruct (get_nonneg_inv _ 0%Z _ _ Ha E1) as [La P1].
  destruct (get_nonneg_inv _ 0%Z _ _ Hb E2) as [Lb P2].
  destruct (get_nonneg_inv _ 0%Z _ _ Ha E3) as [La' P3].
  destruct (get_nonneg_inv _ 0%Z _ _ Hb E4) as [Lb' P4].
  pose proof (edge_at_inside a (conj Ha La)) as R1.
  pose proof (edge_at_inside b (conj Hb Lb)) as R2.
  pose proof (bottom_at_inside a (conj Ha La')) as R3.
  pose proof (bottom_at_inside b (conj Hb Lb')) as R4.
  unfold local_scatter, level_drop, samples_per_step, snr_ratio, flank_stat,
    inside_samples, inside_span, left_flank, right_flank.
  fold (edge_at peaks_edge a) in P1. fold (edge_at peaks_edge b) in P2.
  fold (bottom_at peaks_bot a) in P3. fold (bottom_at peaks_bot b) in P4.
  rewrite <- P1, <- P2, <- P3, <- P4 in *. clear P1 P2 P3 P4 E1 E2 E3 E4.
  cbv zeta in H.
  set (max_i := (Z.of_nat (length times) - 1)%Z) in *.
  set (left := Py.slice signal_s (Z.max 0 (Z.min (pk1 - (pk2 - pk1) / 2) max_i)) (pk1 + 1))
    in *.
  set (right := Py.slice signal_s pk2
                         (Z.max 0 (Z.min (pk2 + (pk2 - pk1) / 2) (max_i - 1)) + 1)) in *.
  assert (Hleft : left <> []).
  { apply slice_nonempty; rewrite ?same_length; subst max_i;
      Z.div_mod_to_equations; lia. }
  assert (Hright : (pk2 <? max_i)%Z = true -> right <> []).
  { intro Hlt. apply Z.ltb_lt in Hlt.
    apply slice_nonempty; rewrite ?same_length; subst max_i;
      Z.div_mod_to_equations; lia. }
  (* the samples inside *)
  assert (Hin : exists i1 i2 : Z,
             (if (b1 <=? b2)%Z then (b1, b2)
              else if (Z.quot (pk1 + b1) 2 <=? Z.quot (pk2 + b2) 2)%Z
                   then (Z.quot (pk1 + b1) 2, Z.quot (pk2 + b2) 2)
                   else (pk1, pk2)) = (i1, i2)
             /\ (let '(p, q) := if (b1 >? b2)%Z
                                then (Z.quot (pk1 + b1) 2, Z.quot (pk2 + b2) 2)
                                else (b1, b2) in
                 if (p >? q)%Z then (pk1, pk2) else (p, q)) = (i1, i2)
             /\ (0 <= i1 <= i2)%Z /\ (i2 < Z.of_nat (length times))%Z).
  { rewrite (Z.gtb_ltb b1 b2), (Z.ltb_antisym b1 b2).
    destruct (b1 <=? b2)%Z eqn:C1; cbn [negb].
    - apply Z.leb_le in C1. exists b1, b2. split; [reflexivity|].
      rewrite (Z.gtb_ltb b1 b2), (Z.ltb_antisym b1 b2).
      replace (b1 <=? b2)%Z with true by (symmetry; now apply Z.leb_le).
      split; [reflexivity|lia].
    - rewrite (Z.gtb_ltb (Z.quot (pk1 + b1) 2)), (Z.ltb_antisym (Z.quot (pk1 + b1) 2)).
      assert (Q1 : (0 <= Z.quot (pk1 + b1) 2 < Z.of_nat (length times))%Z).
      { rewrite Z.quot_div_nonneg by lia. split.
        - apply Z.div_pos; lia.
        - apply Z.div_lt_upper_bound; lia. }
      assert (Q2 : (0 <= Z.quot (pk2 + b2) 2 < Z.of_nat (length times))%Z).
      { rewrite Z.quot_div_nonneg by lia. split.
        - apply Z.div_pos; lia.
        - apply Z.div_lt_upper_bound; lia. }
      destruct (Z.quot (pk1 + b1) 2 <=? Z.quot (pk2 + b2) 2)%Z eqn:C2; cbn [negb].
      + apply Z.leb_le in C2. eexists _, _. split; [reflexivity|].
        split; [reflexivity|lia].
      + exists pk1, pk2. split; [reflexivity|]. split; [reflexivity|lia]. }
  destruct Hin as [i1 [i2 [Hspec [Hcode [Hi1 Hi2]]]]].
  rewrite Hspec. cbn [fst snd].
  assert (Hcode' : forall (T : Type) (F : Z -> Z -> T),
             (let '(p, q) := if (b1 >? b2)%Z
                             then (Z.quot (pk1 + b1) 2, Z.quot (pk2 + b2) 2)
                             else (b1, b2) in
              let '(p', q') := if (p >? q)%Z then (pk1, pk2) else (p, q) in F p' q')
             = F i1 i2).
  { intros T F. destruct (if (b1 >? b2)%Z then _ else _) as [p q].
    rewrite Hcode. reflexivity. }
  rewrite Hcode' in H. clear Hcode' Hcode Hspec.
  set (inside := Py.slice signal_s i1 (i2 + 1)) in *.
  assert (Hinside : inside <> []).
  { apply slice_nonempty; rewrite ?same_length; lia. }
  (* the flanks *)
  assert (Hout : exists o s : Q,
             (if ((pk1 >? 0) && (pk2 <? max_i))%Z%bool
              then (X.add (X.div (X.mean left) (X.Fin 2)) (X.div (X.mean right) (X.Fin 2)),
                    X.add (X.div (X.stat std left) (X.Fin 2))
                          (X.div (X.stat std right) (X.Fin 2)))
              else if (pk1 >? 0)%Z then (X.mean left, X.stat std left)
              else if (pk2 <? max_i)%Z then (X.mean right, X.stat std right)
              else (X.Fin 0, X.Fin 0)) = (X.Fin o, X.Fin s)
             /\ (if ((pk1 >? 0) && (pk2 <? max_i))%Z%bool
                 then Np.avg left / 2 + Np.avg right / 2
                 else if (pk1 >? 0)%Z then Np.avg left
                 else if (pk2 <? max_i)%Z then Np.avg right else 0) = o
             /\ (if ((pk1 >? 0) && (pk2 <? max_i))%Z%bool
                 then std left / 2 + std right / 2
                 else if (pk1 >? 0)%Z then std left
                 else if (pk2 <? max_i)%Z then std right else 0) = s).
  { destruct (pk1 >? 0)%Z; destruct (pk2 <? max_i)%Z eqn:C; cbn [andb].
    - specialize (Hright eq_refl).
      rewrite !x_mean_fin, !x_stat_fin, !x_half by assumption.
      eexists _, _. split; [reflexivity|]. split; reflexivity.
    - rewrite x_mean_fin, x_stat_fin by assumption.
      eexists _, _. split; [reflexivity|]. split; reflexivity.
    - specialize (Hright eq_refl).
      rewrite x_mean_fin, x_stat_fin by assumption.
      eexists _, _. split; [reflexivity|]. split; reflexivity.
    - eexists _, _. split; [reflexivity|]. split; reflexivity. }
  destruct Hout as [o [s [Hc [Ho Hs]]]].
  rewrite Hc in H. rewrite Ho, Hs. clear Hc Ho Hs.
  rewrite (get_at_index times pk1) in H by lia.
  rewrite (get_at_index times pk2) in H by lia. cbn [bind] in H.
  destruct (scalar_div (X.Fin (at_index times pk2 - at_index times pk1)) (X.Fin step))
    as [ws| |] eqn:D1; cbn [bind] in H; try discriminate.
  apply scalar_div_fin_inv in D1. destruct D1 as [_ ->].
  destruct (scalar_div (X.Fin (inject_Z (pk2 - pk1))) _)
    as [gap| |] eqn:D2; cbn [bind] in H; try discriminate.
  apply scalar_div_fin_inv in D2. destruct D2 as [_ ->].
  destruct (Py.get added_snr a) as [s0| |] eqn:E5; cbn [bind] in H; try discriminate.
  destruct (Py.get added_snr b) as [s1| |] eqn:E6; cbn [bind] in H; try discriminate.
  destruct (get_nonneg_inv _ 0 _ _ Ha E5) as [_ P5].
  destruct (get_nonneg_inv _ 0 _ _ Hb E6) as [_ P6].
  fold (at_index added_snr a) in P5. fold (at_index added_snr b) in P6.
  rewrite <- P5, <- P6. clear P5 P6 E5 E6.
  destruct (scalar_div (X.Fin (Qmax s0 s1)) _)
    as [snr| |] eqn:D3; cbn [bind] in H; try discriminate.
  apply scalar_div_fin_inv in D3. destruct D3 as [_ ->].
  injection H as <-. unfold passed.
  cbn [avg_inside avg_outside std_min gap_ratio snr_diff].
  rewrite (x_mean_fin inside Hinside), (x_stat_fin std inside Hinside).
  rewrite !andb_true_iff.
  change (X.sub (X.Fin o) (X.Fin (Np.avg inside))) with (X.Fin (o + - Np.avg inside)).
  rewrite x_min_lt. unfold X.gtb. cbn [X.ltb]. rewrite !Qltb_lt.
  unfold Qminus. tauto.
Qed.

End MatchStatistics.

Section MatchCandidates.

Variables times signal_s added_snr : list Q.
Variables peaks_edge peaks_bot : list Z.
Variables neg_slope pos_slope : list bool.

Lemma In_slice_range (n s e x : Z) :
  (0 <= s)%Z -> (0 <= e)%Z -> In x (Py.slice (Py.range 0 n) s e) -> (s <= x < e)%Z /\ (x < n)%Z.
Proof.
  intros Hs He Hin. unfold Py.slice in Hin. cbv zeta in Hin.
  unfold Py.slice_bound in Hin. rewrite range_length, Z.sub_0_r in Hin.
  destruct (s <? 0)%Z eqn:E1; [apply Z.ltb_lt in E1; lia|].
  destruct (e <? 0)%Z eqn:E2; [apply Z.ltb_lt in E2; lia|].
  apply In_nth with (d := 0%Z) in Hin. destruct Hin as [k [Hk <-]].
  rewrite length_firstn, length_skipn, range_length, Z.sub_0_r in Hk.
  rewrite nth_firstn.
  match goal with
  | |- context [(k <? ?m)%nat] =>
      destruct (k <? m)%nat eqn:E3; [|apply Nat.ltb_ge in E3; lia]
  end.
  rewrite nth_skipn, nth_range by lia. lia.
Qed.

Lemma In_repeat_each {A : Type} (a : list A) :
  forall (counts : list Z) (x : A), In x (Np.repeat_each a counts) -> In x a.
Proof.
  induction a as [|y r IH]; intros counts x Hin; [destruct counts; destruct Hin|].
  destruct counts as [|c cs]; [destruct Hin|]. cbn [Np.repeat_each] in Hin.
  apply in_app_or in Hin. destruct Hin as [Hin|Hin].
  - left. symmetry. exact (repeat_spec _ _ _ Hin).
  - right. exact (IH cs x Hin).
Qed.

Lemma In_tile {A : Type} (a : list A) (n : nat) (x : A) : In x (Np.tile a n) -> In x a.
Proof.
  unfold Np.tile. induction n as [|n IH]; simpl; [intros []|].
  intro Hin. apply in_app_or in Hin. destruct Hin; auto.
Qed.

Lemma add_best_match_ordered (n : Z) (t_peaks depths_single widths_single : list Q)
      (full_ecl full_ecl' : list (Z * Z)) (i until_1 until_2 : Z) :
  (0 <= i)%Z -> (0 <= until_1)%Z -> (0 <= until_2)%Z ->
  add_best_match added_snr (Py.range 0 n) t_peaks depths_single widths_single
                 full_ecl i until_1 until_2 = Ok full_ecl' ->
  Forall (ordered_pair n) full_ecl -> Forall (ordered_pair n) full_ecl'.
Proof.
  intros Hi H1 H2 H Hall. unfold add_best_match in H. cbv zeta in H.
  destruct (until_2 - i >? 1)%Z; [|now injection H as <-].
  destruct (length (Py.slice (Py.range 0 n) i until_1) =? 0)%nat; [discriminate|].
  match type of H with
  | (if ?c then _ else _) = _ => destruct c; [|now injection H as <-]
  end.
  repeat match type of H with
         | bind ?m _ = Ok _ =>
             let E := fresh "E" in destruct m eqn:E; cbn [bind] in H; try discriminate H
         end.
  injection H as <-. apply Forall_app. split; [exact Hall|].
  constructor; [|constructor].
  match goal with
  | Hg : Py.get (combine _ _) _ = Ok ?p |- _ =>
      apply get_In in Hg; rename Hg into Hin; destruct p as [x y]
  end.
  pose proof (in_combine_l _ _ _ _ Hin) as Hx.
  pose proof (in_combine_r _ _ _ _ Hin) as Hy.
  apply In_repeat_each in Hx. apply In_tile in Hy.
  apply In_slice_range in Hx; [|lia|lia].
  apply In_slice_range in Hy; [|lia|lia].
  unfold ordered_pair. cbn [fst snd]. lia.
Qed.

(** The candidates pair a position with a later one. *)
Lemma match_candidates_ordered (cands : list (Z * Z)) :
  match_candidates times signal_s added_snr peaks_edge peaks_bot neg_slope pos_slope
  = Ok cands ->
  Forall (ordered_pair (Z.of_nat (length added_snr))) cands.
Proof.
  unfold match_candidates. cbv zeta. intro H.
  repeat match type of H with
         | bind (for_each _ _ _) _ = Ok _ => fail 1
         | bind ?m _ = Ok _ =>
             let E := fresh "E" in destruct m eqn:E; cbn [bind] in H; try discriminate H
         end.
  apply bind_ok_inv in H. destruct H as [st [Hloop H]]. injection H as <-.
  set (n := Z.of_nat (length added_snr)) in *.
  apply (for_each_keeps (fun st => Forall (ordered_pair n) (snd st)) _ _ _ _ Hloop);
    [constructor|].
  clear Hloop st. intros i [used full_ecl] s1 Hi Hinv Hbody. cbn [snd] in Hinv.
  apply In_range in Hi.
  apply bind_ok_inv in Hbody. destruct Hbody as [last [_ Hbody]].
  destruct ((i =? last)%Z || negb (Np.any (Py.from neg_slope i)))%bool.
  - apply bind_ok_inv in Hbody. destruct Hbody as [u [_ Hbody]].
    apply bind_ok_inv in Hbody. destruct Hbody as [p [_ Hbody]].
    injection Hbody as <-. exact Hinv.
  - apply bind_ok_inv in Hbody. destruct Hbody as [sel [Hsel Hbody]].
    apply bind_ok_inv in Hbody. destruct Hbody as [until_1 [Hu1 Hbody]].
    apply bind_ok_inv in Hbody. destruct Hbody as [until_2 [Hu2 Hbody]].
    apply bind_ok_inv in Hbody. destruct Hbody as [used_i [_ Hbody]].
    apply bind_ok_inv in Hbody. destruct Hbody as [pos_i [_ Hbody]].
    assert (Hfrom : forall (k x : Z), In x (Py.from (Py.range 0 n) k) -> (0 <= x)%Z).
    { intros k x Hx. unfold Py.from in Hx.
      assert (Hx' : In x (Py.range 0 n)).
      { rewrite <- (firstn_skipn (Z.to_nat (Py.slice_bound (Z.of_nat (length (Py.range 0 n))) k))
                                 (Py.range 0 n)).
        apply in_or_app. now right. }
      apply In_range in Hx'. lia. }
    assert (P1 : (0 <= until_1)%Z).
    { apply get_In in Hu1. apply (compress_In _ _ _ _ Hsel) in Hu1.
      exact (Hfrom _ _ Hu1). }
    assert (P2 : (0 <= until_2)%Z).
    { destruct ((until_1 =? last)%Z || negb (Np.any (Py.from pos_slope until_1)))%bool.
      - injection Hu2 as <-. lia.
      - apply bind_ok_inv in Hu2. destruct Hu2 as [sel2 [Hsel2 Hu2]].
        apply get_In in Hu2. apply (compress_In _ _ _ _ Hsel2) in Hu2.
        exact (Hfrom _ _ Hu2). }
    destruct (negb used_i && pos_i)%bool.
    + apply bind_ok_inv in Hbody. destruct Hbody as [fe [Hadd Hbody]].
      injection Hbody as <-. cbn [snd].
      apply (add_best_match_ordered n _ _ _ _ _ _ _ _ (proj1 Hi) P1 P2 Hadd Hinv).
    + injection Hbody as <-. exact Hinv.
Qed.

End MatchCandidates.

Section MatchSanity.

Variable std : list Q -> Q.
Variables times signal_s added_snr : list Q.
Variables peaks_edge peaks_bot : list Z.
Variables neg_slope pos_slope : list bool.

(** C5. For a smoothed signal of the length of the times, peak samples
    inside the time series and edges in increasing order of sample, and a
    time series with a median time step [step]: a pair is in the [full_ecl]
    that [match_in_egress] returns exactly when it is one of the candidate
    pairs of the matching loop and passes the three checks.  The average of
    the smoothed signal over the samples inside lies below the average over
    the flanks by more than the local scatter, the smaller of the standard
    deviations inside and on the flanks; the number of samples between the
    two edges over the time between them in units of [step] exceeds 0.5; and
    the larger over the smaller [added_snr] of the two sides is below 1.8.  So
    every returned pair satisfies the three checks and a candidate that fails
    one of them is not returned. *)
Theorem match_in_egress_checks (full_ecl : list (Z * Z)) (not_used : list bool) (step : Q) :
  length signal_s = length times ->
  Forall (fun k => (0 <= k < Z.of_nat (length times))%Z) peaks_edge ->
  Forall (fun k => (0 <= k < Z.of_nat (length times))%Z) peaks_bot ->
  (forall i j : nat, (i < j < length peaks_edge)%nat ->
                     (nth i peaks_edge 0 <= nth j peaks_edge 0)%Z) ->
  Np.median (Np.diff times) = Ok step ->
  match_in_egress std times signal_s added_snr peaks_edge peaks_bot neg_slope pos_slope
  = Ok (full_ecl, not_used) ->
  exists cands : list (Z * Z),
    match_candidates times signal_s added_snr peaks_edge peaks_bot neg_slope pos_slope
    = Ok cands
    /\ forall a b : Z,
       In (a, b) full_ecl
       <-> In (a, b) cands
           /\ local_scatter std times signal_s peaks_edge peaks_bot a b
              < level_drop times signal_s peaks_edge peaks_bot a b
           /\ 1 # 2 < samples_per_step times peaks_edge step a b
           /\ snr_ratio added_snr a b < 18 # 10.
Proof.
  intros Hlen Hedge Hbot Hsorted Hstep H. unfold match_in_egress in H.
  destruct (match_candidates _ _ _ _ _ _ _) as [cands| |] eqn:Ec; cbn [bind] in H;
    try discriminate.
  exists cands. split; [reflexivity|].
  pose proof (match_candidates_ordered _ _ _ _ _ _ _ _ Ec) as Hord.
  destruct (length cands =? 0)%nat eqn:El.
  - injection H as <- <-. apply Nat.eqb_eq in El. apply length_zero_iff_nil in El.
    subst cands. intros a b. split; [intros []|intros [[] _]].
  - destruct (Np.sequence _) as [stats| |] eqn:Es; cbn [bind] in H; try discriminate.
    pose proof (select_passed_iff _ passed _ _ Es) as Hsel.
    pose proof (sequence_each _ _ _ Es) as Heach.
    destruct (Np.index_set _ _ _) as [nu1| |]; cbn [bind] in H; try discriminate.
    destruct (Np.index_set _ _ _) as [nu2| |]; cbn [bind] in H; try discriminate.
    injection H as <- <-. intros a b. rewrite Hsel.
    assert (Hkey : In (a, b) cands ->
                   forall st : pair_stats,
                   pair_statistics std times signal_s added_snr peaks_edge peaks_bot
                                   (t_step times) (a, b) = Ok st ->
                   (passed st = true
                    <-> local_scatter std times signal_s peaks_edge peaks_bot a b
                        < level_drop times signal_s peaks_edge peaks_bot a b
                        /\ 1 # 2 < samples_per_step times peaks_edge step a b
                        /\ snr_ratio added_snr a b < 18 # 10)).
    { intros Hin st Est. rewrite Forall_forall in Hord.
      destruct (Hord _ Hin) as [Hab Hb]. cbn [fst snd] in Hab, Hb.
      unfold t_step in Est. rewrite Hstep in Est.
      apply (pair_statistics_passed std times signal_s added_snr peaks_edge peaks_bot
               Hlen Hedge Hbot step a b st); try lia; [|exact Est].
      unfold pair_statistics in Est. cbn [fst snd] in Est.
      destruct (Py.get peaks_edge a) as [pk1| |] eqn:E1; cbn [bind] in Est;
        try discriminate.
      destruct (Py.get peaks_edge b) as [pk2| |] eqn:E2; cbn [bind] in Est;
        try discriminate.
      assert (Hb0 : (0 <= b)%Z) by lia.
      destruct (get_nonneg_inv _ 0%Z _ _ Hb0 E2) as [Lb _].
      unfold edge_at. apply Hsorted. lia. }
    split.
    + intros [Hin [st [Est Hp]]]. split; [exact Hin|].
      now apply (Hkey Hin st Est).
    + intros [Hin Hchecks]. split; [exact Hin|].
      destruct (Heach _ Hin) as [st Est]. exists st. split; [exact Est|].
      now apply (Hkey Hin st Est).
Qed.

End MatchSanity.

Lemma match_in_egress_checks_witness :
  match_in_egress std_rational dip_times dip_signal [20; 30] [3; 11]%Z [5; 9]%Z
                  [false; true] [true; false]
  = Ok ([(0, 1)%Z], [false; false])
  /\ Np.median (Np.diff dip_times) = Ok (2 # 2)
  /\ local_scatter std_rational dip_times dip_signal [3; 11]%Z [5; 9]%Z 0 1 == 0
  /\ level_drop dip_times dip_signal [3; 11]%Z [5; 9]%Z 0 1 == 4 # 10
  /\ samples_per_step dip_times [3; 11]%Z (2 # 2) 0 1 == 1
  /\ snr_ratio [20; 30] 0 1 == 15 # 10
  /\ (local_scatter std_rational dip_times dip_signal [3; 11]%Z [5; 9]%Z 0 1
      < level_drop dip_times dip_signal [3; 11]%Z [5; 9]%Z 0 1
      /\ 1 # 2 < samples_per_step dip_times [3; 11]%Z (2 # 2) 0 1
      /\ snr_ratio [20; 30] 0 1 < 18 # 10).
Proof.
  assert (E : match_in_egress std_rational dip_times dip_signal [20; 30] [3; 11]%Z [5; 9]%Z
                              [false; true] [true; false]
              = Ok ([(0, 1)%Z], [false; false])) by reflexivity.
  split; [exact E|]. split; [reflexivity|].
  split; [reflexivity|]. split; [reflexivity|]. split; [reflexivity|].
  split; [reflexivity|].
  assert (Hedge : Forall (fun k => (0 <= k < Z.of_nat (length dip_times))%Z) [3; 11]%Z).
  { repeat constructor; simpl; lia. }
  assert (Hbot : Forall (fun k => (0 <= k < Z.of_nat (length dip_times))%Z) [5; 9]%Z).
  { repeat constructor; simpl; lia. }
  assert (Hsorted : forall i j : nat, (i < j < length [3; 11]%Z)%nat ->
                                      (nth i [3; 11] 0 <= nth j [3; 11] 0)%Z).
  { intros i j Hij. simpl in Hij.
    destruct i as [|[|i]]; destruct j as [|[|j]]; simpl; lia. }
  destruct (match_in_egress_checks std_rational dip_times dip_signal [20; 30] [3; 11]%Z
              [5; 9]%Z [false; true] [true; false] [(0, 1)%Z] [false; false] (2 # 2)
              eq_refl Hedge Hbot Hsorted eq_refl E) as [cands [_ Hiff]].
  exact (proj2 (proj1 (Hiff 0%Z 1%Z) (or_introl eq_refl))).
Defined.

(** Each of the three checks decides: the same pair is rejected on a flat
    signal, on times with a gap inside the eclipse, and for sides whose
    [added_snr] differ by a factor two. *)
Example match_in_egress_rejects :
  match_in_egress std_rational dip_times (repeat 1 15) [20; 30] [3; 11]%Z [5; 9]%Z
                  [false; true] [true; false]
  = Ok ([], [true; true])
  /\ match_in_egress std_rational [0; 1; 2; 3; 4; 5; 6; 7; 8; 9; 10; 111; 112; 113; 114]
                     dip_signal [20; 30] [3; 11]%Z [5; 9]%Z [false; true] [true; false]
     = Ok ([], [true; true])
  /\ match_in_egress std_rational dip_times dip_signal [20; 40] [3; 11]%Z [5; 9]%Z
                     [false; true] [true; false]
     = Ok ([], [true; true]).
Proof. repeat split; reflexivity. Qed.
